(** * Deferred reclamation engine of liburcu (call_rcu worker threads)

    A shallow embedding of [urcu-call-rcu-impl.h] and of the older
    [urcu-call-rcu.c] that the repository also carries
    (src/unnamed/part_000), followed by the vocabulary of the properties
    (trace automata, predicates on stores, sample hosts and stores) and
    by the properties of the engine with their proofs.

    The embedding takes the point of view of ONE thread running one
    function of the file against the shared memory of the process:

    - the shared memory is a typed store ([State]): the worker structures
      [struct call_rcu_data] by address, the callback records
      [struct rcu_head] by address, and the globals of the file;
    - every access to a worker structure, to a queue or to the per-CPU
      array that the source marks as shared ([uatomic_*],
      [_CMM_LOAD_SHARED], [_CMM_STORE_SHARED], [rcu_dereference],
      [rcu_set_pointer]) and every call that leaves the file
      ([synchronize_rcu], [poll], the pthread and futex calls, the user
      callback) is recorded, in program order, in the trace of the run;
      reads of the pointer [default_call_rcu_data] are not recorded;
    - the other threads act on the store where the running thread blocks
      ([poll], [futex] wait, [pthread_mutex_lock], [synchronize_rcu]):
      there the store is handed to [interfere], about which nothing is
      assumed unless a theorem says so;
    - loops that wait for another thread take fuel; a run that exhausts it
      halts with [OutOfFuel], a run that aborts the process ([urcu_die],
      [exit]) halts with [Died], and a run that dereferences an address
      holding no object of the expected type halts with [Fault].

    [unsigned long] is 64 bits wide (LP64), [int32_t] wraps at 32 bits.

    One function leaves the types of the store: [call_rcu_data_free] of
    the older variant exchanges the pointer to the default worker for
    the address of a queue link and then uses each of the two addresses
    at the type of the other. Its accesses are embedded by address: the
    head word of a worker structure is at the address of the structure,
    the address of a node is given by the host, and an access that
    lands outside the structures and records of the store is recorded
    in the trace and leaves the store as it is.

    The reader primitives of [urcu/static/urcu-qsbr.h] that the engine
    calls have a small embedding of their own ([Qsbr]), over the words
    of the QSBR flavour. *)

From stdpp Require Import gmap list.

Local Open Scope Z_scope.

(** ** Addresses *)

(** Address of a [struct call_rcu_data]. *)
Definition wid := nat.

(** Function pointer [void ( *func)(struct rcu_head * )]. *)
Definition fn := nat.

Bind Scope nat_scope with wid fn.

(** A [struct cds_wfq_node *]: the dummy node embedded in the queue of a
    worker ([&w->cbs.dummy]) or the node at the start of a user's
    [struct rcu_head]. *)
Inductive node :=
| dummy_of (w : wid)
| rcu_head_at (a : nat).

(** A [struct cds_wfq_node **]: the head word of a queue ([&w->cbs.head])
    or the [next] word of a node ([&n->next]). *)
Inductive link :=
| HeadOf (w : wid)
| NextOf (n : node).

#[global] Instance node_eq_dec : EqDecision node.
Proof. solve_decision. Defined.

#[global] Instance link_eq_dec : EqDecision link.
Proof. solve_decision. Defined.

(** ** Structures *)

(** [struct cds_wfq_queue]: [head], [tail] and the embedded [dummy] node,
    of which only the [next] word exists. *)
Record cds_wfq_queue := {
  wfq_head : option node;
  wfq_tail : link;
  wfq_dummy_next : option node
}.

(** [struct call_rcu_data] (urcu-call-rcu-impl.h:48-56). The [list] member
    is the position of the structure in [call_rcu_data_list]. *)
Record call_rcu_data := {
  cbs : cds_wfq_queue;
  flags : Z;
  futex : Z;
  qlen : Z;
  tid : Z;
  cpu_affinity : Z
}.

(** [struct rcu_head]: the queue node and the callback. *)
Record rcu_head := {
  rh_next : option node;
  rh_func : fn
}.

(** The messages the file prints once. *)
Inductive warning :=
| warn_alloc_array
| warn_get_out_of_range
| warn_set_out_of_range.

#[global] Instance warning_eq_dec : EqDecision warning.
Proof. solve_decision. Defined.

(** The store: heap objects and the file's globals. [warned_*] are the
    [static int warned] of the functions that have one. *)
Record State := {
  crds : gmap wid call_rcu_data;
  heads : gmap nat rcu_head;
  call_rcu_data_list : list wid;
  thread_call_rcu_data : option wid;
  default_call_rcu_data : option wid;
  per_cpu_call_rcu_data : option (list (option wid));
  maxcpus : Z;
  errno : Z;
  warned_alloc : bool;
  warned_get : bool;
  warned_set : bool;
  warned_free : bool
}.

(** ** Traces *)

Inductive event :=
| EvLock | EvUnlock
| EvSynchronizeRcu
| EvPoll (ms : Z)
| EvRegisterThread | EvUnregisterThread
| EvThreadOffline | EvThreadOnline
| EvMb
| EvFutexWait (w : wid) | EvFutexWake (w : wid)
| EvReadFlags (w : wid) (v : Z)
| EvOrFlags (w : wid) (m : Z)
| EvAndFlags (w : wid) (m : Z)
| EvSetFlags (w : wid) (v : Z)
| EvReadFutex (w : wid) (v : Z)
| EvDecFutex (w : wid)
| EvSetFutex (w : wid) (v : Z)
| EvLoadTail (w : wid) (p : link)
| EvLoadHead (w : wid) (v : option node)
| EvStoreHead (w : wid) (v : option node)
| EvXchgTail (w : wid) (new old : link)
| EvStoreLink (p : link) (v : option node)
| EvReadQlen (w : wid) (v : Z)
| EvAddQlen (w : wid) (v : Z)
| EvSubQlen (w : wid) (v : Z)
| EvInvoke (f : fn) (n : node)
| EvCreateThread (w : wid)
| EvSetAffinity (cpu : Z)
| EvFree (w : wid)
| EvListAdd (w : wid)
| EvListDel (w : wid)
| EvDerefArray (p : bool)
| EvDerefSlot (cpu : Z) (v : option wid)
| EvSetSlot (cpu : Z) (v : option wid)
| EvSetArray (p : bool)
| EvXchgDefault (new : link) (old : option wid)
| EvWarn (m : warning).

#[global] Instance event_eq_dec : EqDecision event.
Proof. solve_decision. Defined.

(** ** Outcomes and the monad of the embedding *)

Inductive halt := Died | OutOfFuel | Fault.

Inductive outcome (A : Type) :=
| Ret (a : A) (s : State) (t : list event)
| Halt (h : halt) (s : State) (t : list event).
Arguments Ret {A} a s t.
Arguments Halt {A} h s t.

Definition M (A : Type) : Type := State → outcome A.

Definition trace_of {A} (o : outcome A) : list event :=
  match o with Ret _ _ t => t | Halt _ _ t => t end.

Definition state_of {A} (o : outcome A) : State :=
  match o with Ret _ s _ => s | Halt _ s _ => s end.

#[global] Instance M_ret : MRet M := λ A a s, Ret a s [].

#[global] Instance M_bind : MBind M := λ A B k m s,
  match m s with
  | Ret a s1 t1 =>
      match k a s1 with
      | Ret b s2 t2 => Ret b s2 (t1 ++ t2)
      | Halt h s2 t2 => Halt h s2 (t1 ++ t2)
      end
  | Halt h s1 t1 => Halt h s1 t1
  end.

Definition emit (e : event) : M unit := λ s, Ret () s [e].
Definition gets {A} (f : State → A) : M A := λ s, Ret (f s) s [].
Definition modify (f : State → State) : M unit := λ s, Ret () (f s) [].
Definition stop {A} (h : halt) : M A := λ s, Halt h s [].

(** ** What the file takes from its headers and from the host *)

(** The flag bits of [urcu-call-rcu.h], which is not among the sources:
    the worker code only tests, sets and clears them. *)
Class CallRcuFlags := {
  URCU_CALL_RCU_RT : Z;
  URCU_CALL_RCU_STOP : Z;
  URCU_CALL_RCU_STOPPED : Z;
  URCU_CALL_RCU_PAUSE : Z;
  URCU_CALL_RCU_PAUSED : Z
}.

(** The host: the libc and kernel calls whose result the file branches
    on, the other threads, and the user callbacks. [have_percpu] is
    [defined(HAVE_SCHED_GETCPU) && defined(HAVE_SYSCONF)].
    [node_address n] is the address of the node [n], which is that of
    its [next] word, as a number among the addresses of the worker
    structures: the store keeps the records in a map of their own, and
    the older variant of [call_rcu_data_free] takes such an address for
    a [struct call_rcu_data *]. *)
Class Host := {
  have_percpu : bool;
  sysconf_nprocessors_conf : State → Z;
  malloc_crd : State → option wid;
  malloc_array : State → bool;
  pthread_mutex_lock_ret : State → Z;
  pthread_mutex_unlock_ret : State → Z;
  pthread_create_ret : State → Z * Z;
  sched_setaffinity_ret : State → Z;
  interfere : State → State;
  run_callback : fn → node → State → State;
  node_address : node → wid
}.

(** [errno.h]. *)
Definition EINVAL : Z := 22.
Definition ENOMEM : Z := 12.
Definition EEXIST : Z := 17.

Definition wrap_ulong (z : Z) : Z := z mod 2 ^ 64.
Definition wrap_int32 (z : Z) : Z := (z + 2 ^ 31) mod 2 ^ 32 - 2 ^ 31.

(** ** Field updates *)

Definition set_crds (f : gmap wid call_rcu_data → gmap wid call_rcu_data)
    (s : State) : State :=
  {| crds := f (crds s); heads := heads s;
     call_rcu_data_list := call_rcu_data_list s;
     thread_call_rcu_data := thread_call_rcu_data s;
     default_call_rcu_data := default_call_rcu_data s;
     per_cpu_call_rcu_data := per_cpu_call_rcu_data s;
     maxcpus := maxcpus s; errno := errno s;
     warned_alloc := warned_alloc s; warned_get := warned_get s;
     warned_set := warned_set s; warned_free := warned_free s |}.

Definition set_heads (f : gmap nat rcu_head → gmap nat rcu_head)
    (s : State) : State :=
  {| crds := crds s; heads := f (heads s);
     call_rcu_data_list := call_rcu_data_list s;
     thread_call_rcu_data := thread_call_rcu_data s;
     default_call_rcu_data := default_call_rcu_data s;
     per_cpu_call_rcu_data := per_cpu_call_rcu_data s;
     maxcpus := maxcpus s; errno := errno s;
     warned_alloc := warned_alloc s; warned_get := warned_get s;
     warned_set := warned_set s; warned_free := warned_free s |}.

Definition set_list (f : list wid → list wid) (s : State) : State :=
  {| crds := crds s; heads := heads s;
     call_rcu_data_list := f (call_rcu_data_list s);
     thread_call_rcu_data := thread_call_rcu_data s;
     default_call_rcu_data := default_call_rcu_data s;
     per_cpu_call_rcu_data := per_cpu_call_rcu_data s;
     maxcpus := maxcpus s; errno := errno s;
     warned_alloc := warned_alloc s; warned_get := warned_get s;
     warned_set := warned_set s; warned_free := warned_free s |}.

Definition set_thread (v : option wid) (s : State) : State :=
  {| crds := crds s; heads := heads s;
     call_rcu_data_list := call_rcu_data_list s;
     thread_call_rcu_data := v;
     default_call_rcu_data := default_call_rcu_data s;
     per_cpu_call_rcu_data := per_cpu_call_rcu_data s;
     maxcpus := maxcpus s; errno := errno s;
     warned_alloc := warned_alloc s; warned_get := warned_get s;
     warned_set := warned_set s; warned_free := warned_free s |}.

Definition set_default (v : option wid) (s : State) : State :=
  {| crds := crds s; heads := heads s;
     call_rcu_data_list := call_rcu_data_list s;
     thread_call_rcu_data := thread_call_rcu_data s;
     default_call_rcu_data := v;
     per_cpu_call_rcu_data := per_cpu_call_rcu_data s;
     maxcpus := maxcpus s; errno := errno s;
     warned_alloc := warned_alloc s; warned_get := warned_get s;
     warned_set := warned_set s; warned_free := warned_free s |}.

Definition set_per_cpu (v : option (list (option wid))) (s : State) : State :=
  {| crds := crds s; heads := heads s;
     call_rcu_data_list := call_rcu_data_list s;
     thread_call_rcu_data := thread_call_rcu_data s;
     default_call_rcu_data := default_call_rcu_data s;
     per_cpu_call_rcu_data := v;
     maxcpus := maxcpus s; errno := errno s;
     warned_alloc := warned_alloc s; warned_get := warned_get s;
     warned_set := warned_set s; warned_free := warned_free s |}.

Definition set_maxcpus (v : Z) (s : State) : State :=
  {| crds := crds s; heads := heads s;
     call_rcu_data_list := call_rcu_data_list s;
     thread_call_rcu_data := thread_call_rcu_data s;
     default_call_rcu_data := default_call_rcu_data s;
     per_cpu_call_rcu_data := per_cpu_call_rcu_data s;
     maxcpus := v; errno := errno s;
     warned_alloc := warned_alloc s; warned_get := warned_get s;
     warned_set := warned_set s; warned_free := warned_free s |}.

Definition set_errno (v : Z) (s : State) : State :=
  {| crds := crds s; heads := heads s;
     call_rcu_data_list := call_rcu_data_list s;
     thread_call_rcu_data := thread_call_rcu_data s;
     default_call_rcu_data := default_call_rcu_data s;
     per_cpu_call_rcu_data := per_cpu_call_rcu_data s;
     maxcpus := maxcpus s; errno := v;
     warned_alloc := warned_alloc s; warned_get := warned_get s;
     warned_set := warned_set s; warned_free := warned_free s |}.

Definition set_warned (m : warning) (s : State) : State :=
  {| crds := crds s; heads := heads s;
     call_rcu_data_list := call_rcu_data_list s;
     thread_call_rcu_data := thread_call_rcu_data s;
     default_call_rcu_data := default_call_rcu_data s;
     per_cpu_call_rcu_data := per_cpu_call_rcu_data s;
     maxcpus := maxcpus s; errno := errno s;
     warned_alloc := match m with warn_alloc_array => true | _ => warned_alloc s end;
     warned_get := match m with warn_get_out_of_range => true | _ => warned_get s end;
     warned_set := match m with warn_set_out_of_range => true | _ => warned_set s end;
     warned_free := warned_free s |}.

Definition set_warned_free (s : State) : State :=
  {| crds := crds s; heads := heads s;
     call_rcu_data_list := call_rcu_data_list s;
     thread_call_rcu_data := thread_call_rcu_data s;
     default_call_rcu_data := default_call_rcu_data s;
     per_cpu_call_rcu_data := per_cpu_call_rcu_data s;
     maxcpus := maxcpus s; errno := errno s;
     warned_alloc := warned_alloc s; warned_get := warned_get s;
     warned_set := warned_set s; warned_free := true |}.

Definition with_cbs (q : cds_wfq_queue) (c : call_rcu_data) : call_rcu_data :=
  {| cbs := q; flags := flags c; futex := futex c; qlen := qlen c;
     tid := tid c; cpu_affinity := cpu_affinity c |}.
Definition with_flags (v : Z) (c : call_rcu_data) : call_rcu_data :=
  {| cbs := cbs c; flags := v; futex := futex c; qlen := qlen c;
     tid := tid c; cpu_affinity := cpu_affinity c |}.
Definition with_futex (v : Z) (c : call_rcu_data) : call_rcu_data :=
  {| cbs := cbs c; flags := flags c; futex := v; qlen := qlen c;
     tid := tid c; cpu_affinity := cpu_affinity c |}.
Definition with_qlen (v : Z) (c : call_rcu_data) : call_rcu_data :=
  {| cbs := cbs c; flags := flags c; futex := futex c; qlen := v;
     tid := tid c; cpu_affinity := cpu_affinity c |}.
Definition with_tid (v : Z) (c : call_rcu_data) : call_rcu_data :=
  {| cbs := cbs c; flags := flags c; futex := futex c; qlen := qlen c;
     tid := v; cpu_affinity := cpu_affinity c |}.
Definition with_cpu_affinity (v : Z) (c : call_rcu_data) : call_rcu_data :=
  {| cbs := cbs c; flags := flags c; futex := futex c; qlen := qlen c;
     tid := tid c; cpu_affinity := v |}.

Definition with_head (v : option node) (q : cds_wfq_queue) : cds_wfq_queue :=
  {| wfq_head := v; wfq_tail := wfq_tail q; wfq_dummy_next := wfq_dummy_next q |}.
Definition with_tail (v : link) (q : cds_wfq_queue) : cds_wfq_queue :=
  {| wfq_head := wfq_head q; wfq_tail := v; wfq_dummy_next := wfq_dummy_next q |}.
Definition with_dummy_next (v : option node) (q : cds_wfq_queue) : cds_wfq_queue :=
  {| wfq_head := wfq_head q; wfq_tail := wfq_tail q; wfq_dummy_next := v |}.

(** ** Accesses to the store *)

(** [*w] for a worker address; a dangling address faults. *)
Definition crd (w : wid) : M call_rcu_data := λ s,
  match crds s !! w with
  | Some c => Ret c s []
  | None => Halt Fault s []
  end.

Definition upd_crd (w : wid) (f : call_rcu_data → call_rcu_data) : M unit :=
  c ← crd w; modify (set_crds <[w := f c]>).

(** [n->next], a plain read. *)
Definition node_next (s : State) (n : node) : option (option node) :=
  match n with
  | dummy_of w => (λ c, wfq_dummy_next (cbs c)) <$> crds s !! w
  | rcu_head_at a => rh_next <$> heads s !! a
  end.

Definition load_next (n : node) : M (option node) := λ s,
  match node_next s n with
  | Some v => Ret v s []
  | None => Halt Fault s []
  end.

(** [((struct rcu_head * )n)->func]: the dummy node of a queue is a bare
    [struct cds_wfq_node] and has no such member. *)
Definition node_func (s : State) (n : node) : option fn :=
  match n with
  | dummy_of _ => None
  | rcu_head_at a => rh_func <$> heads s !! a
  end.

Definition load_func (n : node) : M fn := λ s,
  match node_func s n with
  | Some f => Ret f s []
  | None => Halt Fault s []
  end.

(** [*p = v] for a link [p]. *)
Definition write_link (p : link) (v : option node) : M unit :=
  match p with
  | HeadOf w => upd_crd w (λ c, with_cbs (with_head v (cbs c)) c)
  | NextOf (dummy_of w) => upd_crd w (λ c, with_cbs (with_dummy_next v (cbs c)) c)
  | NextOf (rcu_head_at a) => λ s,
      match heads s !! a with
      | Some h =>
          Ret () (set_heads <[a := {| rh_next := v; rh_func := rh_func h |}]> s) []
      | None => Halt Fault s []
      end
  end.

(** [_CMM_STORE_SHARED( *p, v)]. *)
Definition store_link (p : link) (v : option node) : M unit :=
  write_link p v;; emit (EvStoreLink p v).

(** [uatomic_read(&w->flags)], [_CMM_LOAD_SHARED(w->flags)]. *)
Definition read_flags (w : wid) : M Z :=
  c ← crd w; emit (EvReadFlags w (flags c));; mret (flags c).

(** [uatomic_or(&w->flags, m)]. *)
Definition or_flags (w : wid) (m : Z) : M unit :=
  upd_crd w (λ c, with_flags (Z.lor (flags c) m) c);; emit (EvOrFlags w m).

(** [uatomic_and(&w->flags, m)]. *)
Definition and_flags (w : wid) (m : Z) : M unit :=
  upd_crd w (λ c, with_flags (wrap_ulong (Z.land (flags c) m)) c);;
  emit (EvAndFlags w m).

(** [uatomic_set(&w->flags, v)]. *)
Definition set_flags (w : wid) (v : Z) : M unit :=
  upd_crd w (with_flags v);; emit (EvSetFlags w v).

(** [uatomic_read(&w->futex)]. *)
Definition read_futex (w : wid) : M Z :=
  c ← crd w; emit (EvReadFutex w (futex c));; mret (futex c).

(** [uatomic_dec(&w->futex)]. *)
Definition dec_futex (w : wid) : M unit :=
  upd_crd w (λ c, with_futex (wrap_int32 (futex c - 1)) c);; emit (EvDecFutex w).

(** [uatomic_set(&w->futex, v)]. *)
Definition set_futex (w : wid) (v : Z) : M unit :=
  upd_crd w (with_futex v);; emit (EvSetFutex w v).

(** [uatomic_read(&w->qlen)]. *)
Definition read_qlen (w : wid) : M Z :=
  c ← crd w; emit (EvReadQlen w (qlen c));; mret (qlen c).

(** [uatomic_add(&w->qlen, v)]. *)
Definition add_qlen (w : wid) (v : Z) : M unit :=
  upd_crd w (λ c, with_qlen (wrap_ulong (qlen c + v)) c);; emit (EvAddQlen w v).

(** [uatomic_sub(&w->qlen, v)]. *)
Definition sub_qlen (w : wid) (v : Z) : M unit :=
  upd_crd w (λ c, with_qlen (wrap_ulong (qlen c - v)) c);; emit (EvSubQlen w v).

(** [_CMM_LOAD_SHARED(w->cbs.tail)]. *)
Definition load_tail (w : wid) : M link :=
  c ← crd w; emit (EvLoadTail w (wfq_tail (cbs c)));; mret (wfq_tail (cbs c)).

(** [_CMM_LOAD_SHARED(w->cbs.head)]. *)
Definition load_head (w : wid) : M (option node) :=
  c ← crd w; emit (EvLoadHead w (wfq_head (cbs c)));; mret (wfq_head (cbs c)).

(** [_CMM_STORE_SHARED(w->cbs.head, v)]. *)
Definition store_head (w : wid) (v : option node) : M unit :=
  upd_crd w (λ c, with_cbs (with_head v (cbs c)) c);; emit (EvStoreHead w v).

(** [uatomic_xchg(&w->cbs.tail, new)]. *)
Definition xchg_tail (w : wid) (new : link) : M link :=
  c ← crd w;
  upd_crd w (λ c, with_cbs (with_tail new (cbs c)) c);;
  emit (EvXchgTail w new (wfq_tail (cbs c)));;
  mret (wfq_tail (cbs c)).

(** ** Code shared by the two variants of the file

    The functions of this section read the same in urcu-call-rcu-impl.h
    and in the older urcu-call-rcu.c (part_000), up to the way a fatal
    error is reported ([urcu_die] against [perror] and [exit]). *)

Section Shared.
Context {host : Host} {bits : CallRcuFlags}.

(** Calls that let the other threads run. *)
Definition poll (ms : Z) : M unit := emit (EvPoll ms);; modify interfere.
Definition synchronize_rcu : M unit := emit EvSynchronizeRcu;; modify interfere.
Definition futex_wait (w : wid) : M unit := emit (EvFutexWait w);; modify interfere.
Definition futex_wake (w : wid) : M unit := emit (EvFutexWake w).
Definition cmm_smp_mb : M unit := emit EvMb.

(** [call_rcu_lock(&call_rcu_mutex)] (impl.h:154-161, part_000:139-145). *)
Definition call_rcu_lock : M unit :=
  emit EvLock;; modify interfere;;
  ret ← gets pthread_mutex_lock_ret;
  if decide (ret = 0) then mret () else stop Died.

(** [call_rcu_unlock(&call_rcu_mutex)] (impl.h:165-172, part_000:149-155). *)
Definition call_rcu_unlock : M unit :=
  emit EvUnlock;;
  ret ← gets pthread_mutex_unlock_ret;
  if decide (ret = 0) then mret () else stop Died.

(** [set_thread_cpu_affinity] (impl.h:174-197, part_000:157-180). *)
Definition set_thread_cpu_affinity (crdp : wid) : M Z :=
  c ← crd crdp;
  if decide (cpu_affinity c < 0) then mret 0
  else emit (EvSetAffinity (cpu_affinity c));; gets sched_setaffinity_ret.

(** [call_rcu_wait] (impl.h:199-206, part_000:182-189). *)
Definition call_rcu_wait (crdp : wid) : M unit :=
  cmm_smp_mb;;
  v ← read_futex crdp;
  if decide (v = -1) then futex_wait crdp else mret ().

(** [call_rcu_wake_up] (impl.h:208-217, part_000:191-200). *)
Definition call_rcu_wake_up (crdp : wid) : M unit :=
  cmm_smp_mb;;
  v ← read_futex crdp;
  if decide (v = -1) then set_futex crdp 0;; futex_wake crdp else mret ().

(** [wake_call_rcu_thread] (impl.h:583-587, part_000:522-526). *)
Definition wake_call_rcu_thread (crdp : wid) : M unit :=
  f ← read_flags crdp;
  if decide (Z.land f URCU_CALL_RCU_RT = 0) then call_rcu_wake_up crdp
  else mret ().

(** [while ((cbs = _CMM_LOAD_SHARED(crdp->cbs.head)) == NULL) poll(NULL, 0, 1);] *)
Fixpoint wait_head (fuel : nat) (crdp : wid) : M node :=
  h ← load_head crdp;
  match h with
  | Some cbs => mret cbs
  | None =>
      match fuel with
      | O => stop OutOfFuel
      | S fuel' => poll 1;; wait_head fuel' crdp
      end
  end.

(** [while (cbs->next == NULL && &cbs->next != cbs_tail) poll(NULL, 0, 1);] *)
Fixpoint wait_next (fuel : nat) (cbs : node) (cbs_tail : link) : M unit :=
  nx ← load_next cbs;
  if bool_decide (nx = None) && bool_decide (NextOf cbs ≠ cbs_tail) then
    match fuel with
    | O => stop OutOfFuel
    | S fuel' => poll 1;; wait_next fuel' cbs cbs_tail
    end
  else mret ().

(** The [do ... while (cbs != NULL)] of the worker (impl.h:270-282,
    part_000:233-245); the result is [cbcount]. *)
Fixpoint invoke_batch (fuel : nat) (crdp : wid) (cbs_tail : link)
    (cbs : node) (cbcount : Z) : M Z :=
  match fuel with
  | O => stop OutOfFuel
  | S fuel' =>
      wait_next fuel cbs cbs_tail;;
      if decide (cbs = dummy_of crdp) then
        nx ← load_next cbs;
        match nx with
        | Some cbs' => invoke_batch fuel' crdp cbs_tail cbs' cbcount
        | None => mret cbcount
        end
      else
        nx ← load_next cbs;
        f ← load_func cbs;
        emit (EvInvoke f cbs);;
        modify (run_callback f cbs);;
        match nx with
        | Some cbs' =>
            invoke_batch fuel' crdp cbs_tail cbs' (wrap_ulong (cbcount + 1))
        | None => mret (wrap_ulong (cbcount + 1))
        end
  end.

(** The drain block of the worker (impl.h:262-284, part_000:225-247). *)
Definition drain (fuel : nat) (crdp : wid) : M unit :=
  tl ← load_tail crdp;
  if decide (HeadOf crdp ≠ tl) then
    cbs ← wait_head fuel crdp;
    store_head crdp None;;
    cbs_tail ← xchg_tail crdp (HeadOf crdp);
    synchronize_rcu;;
    cbcount ← invoke_batch fuel crdp cbs_tail cbs 0;
    sub_qlen crdp cbcount
  else mret ().

(** The sleep of the worker between two drains (impl.h:288-304,
    part_000:250-266). *)
Definition sleep (rt : bool) (crdp : wid) : M unit :=
  if rt then poll 10
  else
    tl ← load_tail crdp;
    if decide (HeadOf crdp = tl) then
      call_rcu_wait crdp;;
      poll 10;;
      dec_futex crdp;;
      cmm_smp_mb
    else poll 10.

(** Modelled from the spec: [cds_wfq_init] of urcu/wfqueue.h, which is not
    among the sources. The queue starts with its permanent dummy node:
    [head] points to it and [tail] to its [next] word (spec 4.1). *)
Definition cds_wfq_init (w : wid) : cds_wfq_queue :=
  {| wfq_head := Some (dummy_of w);
     wfq_tail := NextOf (dummy_of w);
     wfq_dummy_next := None |}.

(** Modelled from the spec: [cds_list_add] of urcu/list.h, which is not
    among the sources: the worker is linked into the registry list. *)
Definition cds_list_add (w : wid) : M unit :=
  modify (set_list (cons w));; emit (EvListAdd w).

(** Modelled from the spec: [cds_list_del] of urcu/list.h, which is not
    among the sources: the worker is unlinked from the registry list. *)
Definition cds_list_del (w : wid) : M unit :=
  modify (set_list (filter (λ x, x ≠ w)));; emit (EvListDel w).

(** [call_rcu_data_init] (impl.h:325-347, part_000:285-309). [plant] is
    the assignment [*crdpp = crdp]. *)
Definition call_rcu_data_init (plant : wid → State → State)
    (fl : Z) (affinity : Z) : M wid :=
  p ← gets malloc_crd;
  match p with
  | None => stop Died
  | Some crdp =>
      modify (set_crds <[crdp :=
        {| cbs := cds_wfq_init crdp; flags := fl; futex := 0; qlen := 0;
           tid := 0; cpu_affinity := 0 |}]>);;
      cds_list_add crdp;;
      upd_crd crdp (with_cpu_affinity affinity);;
      cmm_smp_mb;;
      modify (plant crdp);;
      r ← gets pthread_create_ret;
      if decide (r.1 = 0) then
        upd_crd crdp (with_tid r.2);;
        emit (EvCreateThread crdp);;
        mret crdp
      else stop Died
  end.

(** [get_default_call_rcu_data] (impl.h:462-474, part_000:406-418). *)
Definition get_default_call_rcu_data : M (option wid) :=
  d ← gets default_call_rcu_data;
  if decide (d ≠ None) then mret d
  else
    call_rcu_lock;;
    d ← gets default_call_rcu_data;
    if decide (d ≠ None) then call_rcu_unlock;; mret d
    else
      call_rcu_data_init (λ w, set_default (Some w)) 0 (-1);;
      call_rcu_unlock;;
      gets default_call_rcu_data.

(** [free(crdp)]. *)
Definition free_crd (w : wid) : M unit :=
  modify (set_crds (delete w));; emit (EvFree w).

(** [while ((uatomic_read(&crdp->flags) & mask) == 0) poll(NULL, 0, 1);] *)
Fixpoint wait_flag (fuel : nat) (crdp : wid) (mask : Z) : M unit :=
  f ← read_flags crdp;
  if decide (Z.land f mask = 0) then
    match fuel with
    | O => stop OutOfFuel
    | S fuel' => poll 1;; wait_flag fuel' crdp mask
    end
  else mret ().

(** [cds_list_for_each_entry(crdp, &call_rcu_data_list, list) body]. *)
Fixpoint for_each (l : list wid) (body : wid → M unit) : M unit :=
  match l with
  | [] => mret ()
  | crdp :: l' => body crdp;; for_each l' body
  end.

(** [fprintf(stderr, ...)] guarded by a [warned] flag that is set
    afterwards. *)
Definition warn_once (already : bool) (m : warning) : M unit :=
  if already then mret () else emit (EvWarn m).

End Shared.

(** ** The producer side

    [sched_getcpu()] of the host, which [get_call_rcu_data] asks for the
    processor the caller runs on. The call is not recorded in the trace. *)
Class Sched := {
  sched_getcpu : State → Z
}.

Section Producer.
Context {host : Host} {bits : CallRcuFlags}.

(** Modelled from the spec: [cds_wfq_node_init] of urcu/wfqueue.h, which
    is not among the sources: the [next] word of the node is set to NULL.
    The node is the one at the start of the caller's record at [a], which
    needs no prior content. *)
Definition cds_wfq_node_init (a : nat) : M unit :=
  modify (set_heads (λ h,
    <[a := {| rh_next := None;
              rh_func := from_option rh_func 0%nat (h !! a) |}]> h)).

(** [head->func = func], a plain store. *)
Definition store_func (a : nat) (f : fn) : M unit := λ s,
  match heads s !! a with
  | Some h =>
      Ret () (set_heads <[a := {| rh_next := rh_next h; rh_func := f |}]> s) []
  | None => Halt Fault s []
  end.

(** Modelled from the spec: [cds_wfq_enqueue] of urcu/wfqueue.h, which is
    not among the sources. The producer installs the node by exchanging
    the tail of the queue for the address of the [next] word of the node,
    and then links the predecessor by a store through the previous tail
    (spec 4.1; the splice of [call_rcu_data_free] does the same two steps
    for a whole batch). *)
Definition cds_wfq_enqueue (w : wid) (n : node) : M unit :=
  old_tail ← xchg_tail w (NextOf n);
  store_link old_tail (Some n).

End Producer.

(** ** The current variant: urcu-call-rcu-impl.h *)

Module Impl.
Section Impl.
Context {host : Host} {bits : CallRcuFlags}.

(** [alloc_cpu_call_rcu_data] (impl.h:104-125; the empty body of
    impl.h:141-143 without the per-CPU configuration). *)
Definition alloc_cpu_call_rcu_data : M unit :=
  if have_percpu then
    m ← gets maxcpus;
    if decide (m ≠ 0) then mret ()
    else
      n ← gets sysconf_nprocessors_conf;
      modify (set_maxcpus n);;
      if decide (n <= 0) then mret ()
      else
        p ← gets malloc_array;
        if (p : bool) then
          modify (set_per_cpu (Some (replicate (Z.to_nat n) None)));;
          emit (EvSetArray true)
        else
          w ← gets warned_alloc;
          warn_once w warn_alloc_array;;
          modify (set_warned warn_alloc_array)
  else mret ().

(** [get_cpu_call_rcu_data] (impl.h:359-374). *)
Definition get_cpu_call_rcu_data (cpu : Z) : M (option wid) :=
  pcpu_crdp ← gets per_cpu_call_rcu_data;
  emit (EvDerefArray (bool_decide (pcpu_crdp ≠ None)));;
  match pcpu_crdp with
  | None => mret None
  | Some arr =>
      w ← gets warned_get;
      m ← gets maxcpus;
      (if negb w && bool_decide (m > 0) && bool_decide (cpu < 0 ∨ m <= cpu)
       then emit (EvWarn warn_get_out_of_range);;
            modify (set_warned warn_get_out_of_range)
       else mret ());;
      if decide (cpu < 0 ∨ m <= cpu) then mret None
      else
        match arr !! Z.to_nat cpu with
        | Some v => emit (EvDerefSlot cpu v);; mret v
        | None => stop Fault
        end
  end.

(** [set_cpu_call_rcu_data] (impl.h:423-454). *)
Definition set_cpu_call_rcu_data (cpu : Z) (crdp : option wid) : M Z :=
  call_rcu_lock;;
  alloc_cpu_call_rcu_data;;
  m ← gets maxcpus;
  if decide (cpu < 0 ∨ m <= cpu) then
    w ← gets warned_set;
    warn_once w warn_set_out_of_range;;
    modify (set_warned warn_set_out_of_range);;
    call_rcu_unlock;;
    modify (set_errno EINVAL);;
    mret (- EINVAL)
  else
    pc ← gets per_cpu_call_rcu_data;
    match pc with
    | None =>
        call_rcu_unlock;;
        modify (set_errno ENOMEM);;
        mret (- ENOMEM)
    | Some arr =>
        match arr !! Z.to_nat cpu with
        | None => stop Fault
        | Some slot =>
            if bool_decide (slot ≠ None) && bool_decide (crdp ≠ None) then
              call_rcu_unlock;;
              modify (set_errno EEXIST);;
              mret (- EEXIST)
            else
              modify (set_per_cpu (Some (<[Z.to_nat cpu := crdp]> arr)));;
              emit (EvSetSlot cpu crdp);;
              call_rcu_unlock;;
              mret 0
        end
    end.

(** The pause handshake at the top of the worker loop (impl.h:247-260). *)
Fixpoint wait_unpause (fuel : nat) (crdp : wid) : M unit :=
  f ← read_flags crdp;
  if decide (Z.land f URCU_CALL_RCU_PAUSE ≠ 0) then
    match fuel with
    | O => stop OutOfFuel
    | S fuel' => poll 1;; wait_unpause fuel' crdp
    end
  else mret ().

Definition pause (fuel : nat) (crdp : wid) : M unit :=
  f ← read_flags crdp;
  if decide (Z.land f URCU_CALL_RCU_PAUSE ≠ 0) then
    emit EvUnregisterThread;;
    cmm_smp_mb;;
    or_flags crdp URCU_CALL_RCU_PAUSED;;
    wait_unpause fuel crdp;;
    emit EvRegisterThread
  else mret ().

(** The [for (;;)] of [call_rcu_thread] (impl.h:246-306): [n] bounds the
    number of iterations, [fuel] each wait inside one. *)
Fixpoint call_rcu_thread_loop (n fuel : nat) (rt : bool) (crdp : wid) : M unit :=
  match n with
  | O => stop OutOfFuel
  | S n' =>
      pause fuel crdp;;
      drain fuel crdp;;
      f ← read_flags crdp;
      if decide (Z.land f URCU_CALL_RCU_STOP ≠ 0) then mret ()
      else
        emit EvThreadOffline;;
        sleep rt crdp;;
        emit EvThreadOnline;;
        call_rcu_thread_loop n' fuel rt crdp
  end.

(** [call_rcu_thread] (impl.h:221-317). *)
Definition call_rcu_thread (n fuel : nat) (crdp : wid) : M unit :=
  f ← read_flags crdp;
  let rt := bool_decide (Z.land f URCU_CALL_RCU_RT ≠ 0) in
  ret ← set_thread_cpu_affinity crdp;
  if decide (ret ≠ 0) then stop Died
  else
    emit EvRegisterThread;;
    modify (set_thread (Some crdp));;
    (if rt then mret () else dec_futex crdp;; cmm_smp_mb);;
    call_rcu_thread_loop n fuel rt crdp;;
    (if rt then mret () else cmm_smp_mb;; set_futex crdp 0);;
    or_flags crdp URCU_CALL_RCU_STOPPED;;
    emit EvUnregisterThread.

(** The three blocks of [call_rcu_data_free] after its guard:
    the stop handshake (impl.h:651-656), *)
Definition stop_worker (fuel : nat) (crdp : wid) : M unit :=
  f ← read_flags crdp;
  if decide (Z.land f URCU_CALL_RCU_STOPPED = 0) then
    or_flags crdp URCU_CALL_RCU_STOP;;
    wake_call_rcu_thread crdp;;
    wait_flag fuel crdp URCU_CALL_RCU_STOPPED
  else mret ().

(** the splice of the leftover callbacks onto the default worker
    (impl.h:657-672), *)
Definition splice_leftover (fuel : nat) (crdp : wid) : M unit :=
  tl ← load_tail crdp;
  if decide (HeadOf crdp ≠ tl) then
    cbs ← wait_head fuel crdp;
    store_head crdp None;;
    cbs_tail ← xchg_tail crdp (HeadOf crdp);
    get_default_call_rcu_data;;
    d ← gets default_call_rcu_data;
    match d with
    | None => stop Fault
    | Some dflt =>
        cbs_endprev ← xchg_tail dflt cbs_tail;
        store_link cbs_endprev (Some cbs);;
        q ← read_qlen crdp;
        add_qlen dflt q;;
        wake_call_rcu_thread dflt
    end
  else mret ().

(** and the unlinking and release of the structure (impl.h:674-678). *)
Definition unlink_and_free (crdp : wid) : M unit :=
  call_rcu_lock;;
  cds_list_del crdp;;
  call_rcu_unlock;;
  free_crd crdp.

(** [call_rcu_data_free] (impl.h:642-679). *)
Definition call_rcu_data_free (fuel : nat) (crdp : option wid) : M unit :=
  d ← gets default_call_rcu_data;
  match crdp with
  | None => mret ()
  | Some r =>
      if decide (crdp = d) then mret ()
      else
        stop_worker fuel r;;
        splice_leftover fuel r;;
        unlink_and_free r
  end.

(** First loop of [free_all_cpu_call_rcu_data] (impl.h:702-707); the
    result is the local array [crdp], filled up to [cpu]. *)
Fixpoint null_slots (fuel : nat) (cpu : Z) (crdp : list (option wid))
    : M (list (option wid)) :=
  m ← gets maxcpus;
  if decide (cpu < m) then
    match fuel with
    | O => stop OutOfFuel
    | S fuel' =>
        c ← get_cpu_call_rcu_data cpu;
        (match c with
         | None => mret ()
         | Some _ => set_cpu_call_rcu_data cpu None;; mret ()
         end);;
        null_slots fuel' (cpu + 1) (crdp ++ [c])
    end
  else mret crdp.

(** Second loop of [free_all_cpu_call_rcu_data] (impl.h:713-717). *)
Fixpoint free_slots (n fuel : nat) (cpu : Z) (crdp : list (option wid))
    : M unit :=
  m ← gets maxcpus;
  if decide (cpu < m) then
    match n with
    | O => stop OutOfFuel
    | S n' =>
        match crdp !! Z.to_nat cpu with
        | None => stop Fault
        | Some None => free_slots n' fuel (cpu + 1) crdp
        | Some (Some w) =>
            call_rcu_data_free fuel (Some w);;
            free_slots n' fuel (cpu + 1) crdp
        end
    end
  else mret ().

(** [free_all_cpu_call_rcu_data] (impl.h:684-719). *)
Definition free_all_cpu_call_rcu_data (n fuel : nat) : M unit :=
  m ← gets maxcpus;
  if decide (m <= 0) then mret ()
  else
    p ← gets malloc_array;
    if (p : bool) then
      crdp ← null_slots n 0 [];
      synchronize_rcu;;
      free_slots n fuel 0 crdp
    else
      w ← gets warned_free;
      warn_once w warn_alloc_array;;
      modify set_warned_free
  .

(** [call_rcu_before_fork] (impl.h:727-742). *)
Definition call_rcu_before_fork (fuel : nat) : M unit :=
  call_rcu_lock;;
  l ← gets call_rcu_data_list;
  for_each l (λ crdp,
    or_flags crdp URCU_CALL_RCU_PAUSE;;
    cmm_smp_mb;;
    wake_call_rcu_thread crdp);;
  l ← gets call_rcu_data_list;
  for_each l (λ crdp, wait_flag fuel crdp URCU_CALL_RCU_PAUSED).

(** [call_rcu_after_fork_parent] (impl.h:749-756). *)
Definition call_rcu_after_fork_parent : M unit :=
  l ← gets call_rcu_data_list;
  for_each l (λ crdp, and_flags crdp (Z.lnot URCU_CALL_RCU_PAUSE));;
  call_rcu_unlock.

(** [get_call_rcu_thread] (impl.h:381-384). *)
Definition get_call_rcu_thread (crdp : wid) : M Z :=
  c ← crd crdp; mret (tid c).

(** [__create_call_rcu_data] (impl.h:390-397): [call_rcu_data_init] plants
    the pointer in a local variable, which is returned. *)
Definition __create_call_rcu_data (fl : Z) (affinity : Z) : M (option wid) :=
  crdp ← call_rcu_data_init (λ _ s, s) fl affinity;
  mret (Some crdp).

(** [create_call_rcu_data] (impl.h:399-408). *)
Definition create_call_rcu_data (fl : Z) (affinity : Z) : M (option wid) :=
  call_rcu_lock;;
  crdp ← __create_call_rcu_data fl affinity;
  call_rcu_unlock;;
  mret crdp.

(** [get_thread_call_rcu_data] (impl.h:507-510). *)
Definition get_thread_call_rcu_data : M (option wid) :=
  gets thread_call_rcu_data.


(** [get_call_rcu_data] (impl.h:487-501). Without [HAVE_SCHED_GETCPU]
    the file's own [sched_getcpu] returns -1 (impl.h:145-148). *)
Definition get_call_rcu_data {sched : Sched} : M (option wid) :=
  t ← gets thread_call_rcu_data;
  if decide (t ≠ None) then mret t
  else
    m ← gets maxcpus;
    if decide (m > 0) then
      cpu ← gets (λ s, if have_percpu then sched_getcpu s else -1);
      crd ← get_cpu_call_rcu_data cpu;
      if decide (crd ≠ None) then mret crd
      else get_default_call_rcu_data
    else get_default_call_rcu_data.

(** [call_rcu] (impl.h:604-618). [uatomic_inc] is [uatomic_add] of 1.
    [rcu_read_lock] and [rcu_read_unlock] are not recorded: they are
    those of the flavour the file is compiled for, and have an empty body
    in the one among the sources (urcu/static/urcu-qsbr.h:167-181). *)
Definition call_rcu {sched : Sched} (head : nat) (func : fn) : M unit :=
  cds_wfq_node_init head;;
  store_func head func;;
  crdp ← get_call_rcu_data;
  match crdp with
  | None => stop Fault
  | Some w =>
      cds_wfq_enqueue w (rcu_head_at head);;
      add_qlen w 1;;
      wake_call_rcu_thread w
  end.

(** The [for] loop of [create_all_cpu_call_rcu_data] (impl.h:553-576),
    from processor [i] on; [n] bounds the number of iterations. *)
Fixpoint create_cpus (n fuel : nat) (fl : Z) (i : Z) : M Z :=
  m ← gets maxcpus;
  if decide (i < m) then
    match n with
    | O => stop OutOfFuel
    | S n' =>
        call_rcu_lock;;
        c ← get_cpu_call_rcu_data i;
        if decide (c ≠ None) then
          call_rcu_unlock;;
          create_cpus n' fuel fl (i + 1)
        else
          crdp ← __create_call_rcu_data fl i;
          match crdp with
          | None =>
              call_rcu_unlock;;
              modify (set_errno ENOMEM);;
              mret (- ENOMEM)
          | Some _ =>
              call_rcu_unlock;;
              ret ← set_cpu_call_rcu_data i crdp;
              if decide (ret ≠ 0) then
                call_rcu_data_free fuel crdp;;
                if decide (ret = - EEXIST) then create_cpus n' fuel fl (i + 1)
                else mret ret
              else create_cpus n' fuel fl (i + 1)
          end
    end
  else mret 0.

(** [create_all_cpu_call_rcu_data] (impl.h:536-577). *)
Definition create_all_cpu_call_rcu_data (n fuel : nat) (fl : Z) : M Z :=
  call_rcu_lock;;
  alloc_cpu_call_rcu_data;;
  call_rcu_unlock;;
  m ← gets maxcpus;
  if decide (m <= 0) then
    modify (set_errno EINVAL);;
    mret (- EINVAL)
  else
    p ← gets per_cpu_call_rcu_data;
    if decide (p = None) then
      modify (set_errno ENOMEM);;
      mret (- ENOMEM)
    else create_cpus n fuel fl 0.

(** [maxcpus_reset] (impl.h:97-100, and the empty body of impl.h:137-139). *)
Definition maxcpus_reset : M unit :=
  if have_percpu then modify (set_maxcpus 0) else mret ().

(** [call_rcu_after_fork_child] (impl.h:763-798). The array is freed and
    its pointer set to NULL; the loop is
    [cds_list_for_each_entry_safe], over the entries the list has when
    the loop starts. *)
Definition call_rcu_after_fork_child (fuel : nat) : M unit :=
  call_rcu_unlock;;
  l ← gets call_rcu_data_list;
  if decide (l = []) then mret ()
  else
    modify (set_default None);;
    get_default_call_rcu_data;;
    maxcpus_reset;;
    modify (set_per_cpu None);;
    emit (EvSetArray false);;
    modify (set_thread None);;
    l ← gets call_rcu_data_list;
    for_each l (λ crdp,
      d ← gets default_call_rcu_data;
      if decide (Some crdp = d) then mret ()
      else
        set_flags crdp URCU_CALL_RCU_STOPPED;;
        call_rcu_data_free fuel (Some crdp)).

End Impl.
End Impl.

(** ** The older variant: urcu-call-rcu.c (src/unnamed/part_000) *)

Module Legacy.
Section Legacy.
Context {host : Host} {bits : CallRcuFlags}.

(** [alloc_cpu_call_rcu_data] (part_000:93-114, and the empty body of
    part_000:126-128): the array pointer is a plain store. *)
Definition alloc_cpu_call_rcu_data : M unit :=
  if have_percpu then
    m ← gets maxcpus;
    if decide (m ≠ 0) then mret ()
    else
      n ← gets sysconf_nprocessors_conf;
      modify (set_maxcpus n);;
      if decide (n <= 0) then mret ()
      else
        p ← gets malloc_array;
        if (p : bool) then
          modify (set_per_cpu (Some (replicate (Z.to_nat n) None)))
        else
          w ← gets warned_alloc;
          warn_once w warn_alloc_array;;
          modify (set_warned warn_alloc_array)
  else mret ().

(** [get_cpu_call_rcu_data] (part_000:318-331): plain reads. *)
Definition get_cpu_call_rcu_data (cpu : Z) : M (option wid) :=
  pc ← gets per_cpu_call_rcu_data;
  match pc with
  | None => mret None
  | Some arr =>
      w ← gets warned_get;
      m ← gets maxcpus;
      (if negb w && bool_decide (m > 0) && bool_decide (cpu < 0 ∨ m <= cpu)
       then emit (EvWarn warn_get_out_of_range);;
            modify (set_warned warn_get_out_of_range)
       else mret ());;
      if decide (cpu < 0 ∨ m <= cpu) then mret None
      else
        match arr !! Z.to_nat cpu with
        | Some v => mret v
        | None => stop Fault
        end
  end.

(** [set_cpu_call_rcu_data] (part_000:376-398): the range check comes
    first, [warned] is an automatic variable, and the slot is stored
    after the mutex is released. *)
Definition set_cpu_call_rcu_data (cpu : Z) (crdp : option wid) : M Z :=
  call_rcu_lock;;
  m ← gets maxcpus;
  if decide (cpu < 0 ∨ m <= cpu) then
    emit (EvWarn warn_set_out_of_range);;
    call_rcu_unlock;;
    modify (set_errno EINVAL);;
    mret (- EINVAL)
  else
    alloc_cpu_call_rcu_data;;
    call_rcu_unlock;;
    pc ← gets per_cpu_call_rcu_data;
    match pc with
    | None =>
        modify (set_errno ENOMEM);;
        mret (- ENOMEM)
    | Some arr =>
        match arr !! Z.to_nat cpu with
        | None => stop Fault
        | Some _ =>
            modify (set_per_cpu (Some (<[Z.to_nat cpu := crdp]> arr)));;
            mret 0
        end
    end.

(** The [for (;;)] of [call_rcu_thread] (part_000:224-267). *)
Fixpoint call_rcu_thread_loop (n fuel : nat) (rt : bool) (crdp : wid) : M unit :=
  match n with
  | O => stop OutOfFuel
  | S n' =>
      drain fuel crdp;;
      f ← read_flags crdp;
      if decide (Z.land f URCU_CALL_RCU_STOP ≠ 0) then mret ()
      else
        sleep rt crdp;;
        call_rcu_thread_loop n' fuel rt crdp
  end.

(** [call_rcu_thread] (part_000:204-277). *)
Definition call_rcu_thread (n fuel : nat) (crdp : wid) : M unit :=
  f ← read_flags crdp;
  let rt := bool_decide (Z.land f URCU_CALL_RCU_RT ≠ 0) in
  ret ← set_thread_cpu_affinity crdp;
  if decide (ret ≠ 0) then stop Died
  else
    modify (set_thread (Some crdp));;
    (if rt then mret () else dec_futex crdp;; cmm_smp_mb);;
    call_rcu_thread_loop n fuel rt crdp;;
    (if rt then mret () else cmm_smp_mb;; set_futex crdp 0);;
    or_flags crdp URCU_CALL_RCU_STOPPED.

(** The older [call_rcu_data_free] exchanges [default_call_rcu_data], a
    [struct call_rcu_data *], for the tail of a queue, a
    [struct cds_wfq_node **], and then uses each of the two addresses at
    the type of the other (part_000:593-597). The three definitions
    that follow say which word of the store such an address designates.

    [(struct call_rcu_data * ) p] for a link [p]: [cbs] is the first
    member of a worker structure (part_000:46-54) and [head] the first
    member of [struct cds_wfq_queue] (urcu/wfqueue.h, which is not
    among the sources), so the head word of [w] is at the address of
    [w]; the [next] word of a node is at the address of the node. *)
Definition crd_at_link (p : link) : wid :=
  match p with
  | HeadOf w => w
  | NextOf n => node_address n
  end.

(** The nodes of the store: the dummy node of every worker structure
    and the node of every record. *)
Definition nodes_of (s : State) : list node :=
  (dummy_of <$> elements (dom (crds s)))
  ++ (rcu_head_at <$> elements (dom (heads s))).

(** [(struct cds_wfq_node ** ) a] for an address [a]: the head word of
    the worker structure at [a], or else the [next] word of a node of
    the store that is at [a]. *)
Definition link_at (s : State) (a : wid) : option link :=
  match crds s !! a with
  | Some _ => Some (HeadOf a)
  | None =>
      NextOf <$> head (filter (λ n, node_address n = a) (nodes_of s))
  end.

(** [uatomic_xchg(&default_call_rcu_data, cbs_tail)] (part_000:593-594):
    the exchange is applied to the pointer to the default worker itself,
    not to the tail of its queue. It leaves in [default_call_rcu_data]
    the address of the link [cbs_tail] and returns the address that the
    pointer held. *)
Definition xchg_default (cbs_tail : link) : M (option wid) :=
  d ← gets default_call_rcu_data;
  modify (set_default (Some (crd_at_link cbs_tail)));;
  emit (EvXchgDefault cbs_tail d);;
  mret d.

(** [*cbs_endprev = cbs] (part_000:595), a plain store through the
    address that [default_call_rcu_data] held: into the head word of
    the default worker when the pointer designated one. A NULL address,
    or one at which the store has no word, faults. *)
Definition store_through (cbs_endprev : option wid) (v : option node)
    : M unit :=
  match cbs_endprev with
  | None => stop Fault
  | Some a =>
      p ← gets (λ s, link_at s a);
      match p with
      | Some l => write_link l v
      | None => stop Fault
      end
  end.

(** [uatomic_add(&p->qlen, v)] (part_000:596-597) for the address [p]
    that the exchange has left in [default_call_rcu_data]. Where [p] is
    the address of a worker structure the addition is made to its
    [qlen]. Where it is the address of a node, the word at the offset
    of [qlen] from it lies outside the node and is no word of the store:
    the access is recorded, the store keeps no trace of it, and the run
    goes on. *)
Definition add_qlen_through (p : wid) (v : Z) : M unit := λ s,
  match crds s !! p with
  | Some _ => add_qlen p v s
  | None => Ret () s [EvAddQlen p v]
  end.

(** [call_rcu_data_free] (part_000:572-601). *)
Definition call_rcu_data_free (fuel : nat) (crdp : option wid) : M unit :=
  d ← gets default_call_rcu_data;
  match crdp with
  | None => mret ()
  | Some r =>
      if decide (crdp = d) then mret ()
      else
        f ← read_flags r;
        (if decide (Z.land f URCU_CALL_RCU_STOPPED = 0) then
           or_flags r URCU_CALL_RCU_STOP;;
           wake_call_rcu_thread r;;
           wait_flag fuel r URCU_CALL_RCU_STOPPED
         else mret ());;
        tl ← load_tail r;
        if decide (HeadOf r ≠ tl) then
          cbs ← wait_head fuel r;
          store_head r None;;
          cbs_tail ← xchg_tail r (HeadOf r);
          cbs_endprev ← xchg_default cbs_tail;
          store_through cbs_endprev (Some cbs);;
          q ← read_qlen r;
          d' ← gets default_call_rcu_data;
          match d' with
          | None => stop Fault
          | Some p =>
              add_qlen_through p q;;
              cds_list_del r;;
              free_crd r
          end
        else mret ()
  end.

(** The loop of [free_all_cpu_call_rcu_data] (part_000:613-619). *)
Fixpoint free_slots (n fuel : nat) (cpu : Z) : M unit :=
  m ← gets maxcpus;
  if decide (cpu < m) then
    match n with
    | O => stop OutOfFuel
    | S n' =>
        crdp ← get_cpu_call_rcu_data cpu;
        match crdp with
        | None => free_slots n' fuel (cpu + 1)
        | Some _ =>
            set_cpu_call_rcu_data cpu None;;
            call_rcu_data_free fuel crdp;;
            free_slots n' fuel (cpu + 1)
        end
    end
  else mret ().

(** [free_all_cpu_call_rcu_data] (part_000:606-620). *)
Definition free_all_cpu_call_rcu_data (n fuel : nat) : M unit :=
  m ← gets maxcpus;
  if decide (m <= 0) then mret ()
  else free_slots n fuel 0.

(** [call_rcu_before_fork] (part_000:627-630). *)
Definition call_rcu_before_fork : M unit := call_rcu_lock.

(** [call_rcu_after_fork_parent] (part_000:637-640). *)
Definition call_rcu_after_fork_parent : M unit := call_rcu_unlock.

(** [__create_call_rcu_data] (part_000:347-354). *)
Definition __create_call_rcu_data (fl : Z) (affinity : Z) : M (option wid) :=
  crdp ← call_rcu_data_init (λ _ s, s) fl affinity;
  mret (Some crdp).

(** The [for] loop of [create_all_cpu_call_rcu_data] (part_000:497-515):
    a worker that could not be put in its slot is left as it is. *)
Fixpoint create_cpus (n : nat) (fl : Z) (i : Z) : M Z :=
  m ← gets maxcpus;
  if decide (i < m) then
    match n with
    | O => stop OutOfFuel
    | S n' =>
        call_rcu_lock;;
        c ← get_cpu_call_rcu_data i;
        if decide (c ≠ None) then
          call_rcu_unlock;;
          create_cpus n' fl (i + 1)
        else
          crdp ← __create_call_rcu_data fl i;
          match crdp with
          | None =>
              call_rcu_unlock;;
              modify (set_errno ENOMEM);;
              mret (- ENOMEM)
          | Some _ =>
              call_rcu_unlock;;
              ret ← set_cpu_call_rcu_data i crdp;
              if decide (ret ≠ 0) then mret ret
              else create_cpus n' fl (i + 1)
          end
    end
  else mret 0.

(** [create_all_cpu_call_rcu_data] (part_000:480-516). *)
Definition create_all_cpu_call_rcu_data (n : nat) (fl : Z) : M Z :=
  call_rcu_lock;;
  alloc_cpu_call_rcu_data;;
  call_rcu_unlock;;
  m ← gets maxcpus;
  if decide (m <= 0) then
    modify (set_errno EINVAL);;
    mret (- EINVAL)
  else
    p ← gets per_cpu_call_rcu_data;
    if decide (p = None) then
      modify (set_errno ENOMEM);;
      mret (- ENOMEM)
    else create_cpus n fl 0.

(** The [while] loop of [call_rcu_after_fork_child] (part_000:662-670).
    [call_rcu_data_list.next] is the first entry of the list and
    [call_rcu_data_list.prev] the last one; the loop goes on while they
    differ, and takes the last entry, or the one before it when the last
    one is the default worker. *)
Fixpoint dispose_rest (n fuel : nat) : M unit :=
  l ← gets call_rcu_data_list;
  if decide (head l = last l) then mret ()
  else
    match n with
    | O => stop OutOfFuel
    | S n' =>
        d ← gets default_call_rcu_data;
        let crdp :=
          if decide (last l = d) then last (removelast l) else last l in
        match crdp with
        | None => stop Fault
        | Some w =>
            set_flags w URCU_CALL_RCU_STOPPED;;
            call_rcu_data_free fuel crdp;;
            dispose_rest n' fuel
        end
    end.

(** [call_rcu_after_fork_child] (part_000:647-671). *)
Definition call_rcu_after_fork_child (n fuel : nat) : M unit :=
  call_rcu_unlock;;
  modify (set_default None);;
  get_default_call_rcu_data;;
  dispose_rest n fuel.

(** [get_call_rcu_data] (part_000:428-447). The function has a [static
    int warned] of its own, which is no global of the file: the call
    takes its value and returns the new one beside the result. The
    message it prints when it sets [warned] is not recorded in the
    trace. The slot is read from the array as the source does, without
    going through [get_cpu_call_rcu_data]. *)
Definition get_call_rcu_data {sched : Sched} (warned : bool)
    : M (option wid * bool) :=
  t ← gets thread_call_rcu_data;
  if decide (t ≠ None) then mret (t, warned)
  else
    m ← gets maxcpus;
    if decide (m <= 0) then
      d ← get_default_call_rcu_data; mret (d, warned)
    else
      curcpu ← gets (λ s, if have_percpu then sched_getcpu s else -1);
      let warned' := warned || bool_decide (curcpu < 0 ∨ m <= curcpu) in
      pc ← gets per_cpu_call_rcu_data;
      if decide (curcpu >= 0 ∧ m > curcpu) then
        match pc with
        | None => d ← get_default_call_rcu_data; mret (d, warned')
        | Some arr =>
            match arr !! Z.to_nat curcpu with
            | None => stop Fault
            | Some (Some w) => mret (Some w, warned')
            | Some None => d ← get_default_call_rcu_data; mret (d, warned')
            end
        end
      else d ← get_default_call_rcu_data; mret (d, warned').

(** [call_rcu] (part_000:541-552), with the [warned] of
    [get_call_rcu_data] passed through. [uatomic_inc] is [uatomic_add]
    of 1. *)
Definition call_rcu {sched : Sched} (warned : bool) (head : nat) (func : fn)
    : M bool :=
  cds_wfq_node_init head;;
  store_func head func;;
  r ← get_call_rcu_data warned;
  match r.1 with
  | None => stop Fault
  | Some w =>
      cds_wfq_enqueue w (rcu_head_at head);;
      add_qlen w 1;;
      wake_call_rcu_thread w;;
      mret r.2
  end.

End Legacy.
End Legacy.

(** * The reader side of QSBR (urcu/static/urcu-qsbr.h)

    The primitives that the worker thread and [call_rcu] call as
    [rcu_read_lock], [rcu_read_unlock], [rcu_thread_offline] and
    [rcu_thread_online] in the QSBR flavour, with the words they read and
    write: the global counter [rcu_gp_ctr], the [ctr] and [waiting]
    members of the calling thread's [rcu_reader], and [gp_futex]. A call
    returns the store it leaves and the accesses it made, in program
    order. *)

Module Qsbr.

Record state := {
  rcu_gp_ctr : Z;
  ctr : Z;
  waiting : Z;
  gp_futex : Z
}.

Inductive access :=
| Mb | Barrier
| LoadWaiting (v : Z) | StoreWaiting (v : Z)
| LoadGpCtr (v : Z) | StoreCtr (v : Z)
| ReadFutex (v : Z) | SetFutex (v : Z) | FutexWake.

Definition with_ctr (v : Z) (q : state) : state :=
  {| rcu_gp_ctr := rcu_gp_ctr q; ctr := v; waiting := waiting q;
     gp_futex := gp_futex q |}.

Definition with_waiting (v : Z) (q : state) : state :=
  {| rcu_gp_ctr := rcu_gp_ctr q; ctr := ctr q; waiting := v;
     gp_futex := gp_futex q |}.

Definition with_gp_futex (v : Z) (q : state) : state :=
  {| rcu_gp_ctr := rcu_gp_ctr q; ctr := ctr q; waiting := waiting q;
     gp_futex := v |}.

Definition with_gp_ctr (v : Z) (q : state) : state :=
  {| rcu_gp_ctr := v; ctr := ctr q; waiting := waiting q;
     gp_futex := gp_futex q |}.

(** [wake_up_gp] (urcu-qsbr.h:139-150). *)
Definition wake_up_gp (q : state) : state * list access :=
  if decide (waiting q ≠ 0) then
    let q1 := with_waiting 0 q in
    if decide (gp_futex q1 ≠ -1) then
      (q1, [LoadWaiting (waiting q); StoreWaiting 0; Mb;
            ReadFutex (gp_futex q1)])
    else
      (with_gp_futex 0 q1,
       [LoadWaiting (waiting q); StoreWaiting 0; Mb; ReadFutex (gp_futex q1);
        SetFutex 0; FutexWake])
  else (q, [LoadWaiting (waiting q)]).

(** [rcu_gp_ongoing] (urcu-qsbr.h:152-158), applied to the [ctr] of the
    calling thread's [rcu_reader]. *)
Definition rcu_gp_ongoing (q : state) : bool :=
  let v := ctr q in
  bool_decide (v ≠ 0) && bool_decide (v ≠ rcu_gp_ctr q).

(** [_rcu_read_lock] (urcu-qsbr.h:167-170): [rcu_assert] expands to
    nothing unless [DEBUG_RCU] is defined. *)
Definition _rcu_read_lock (q : state) : state * list access := (q, []).

(** [_rcu_read_unlock] (urcu-qsbr.h:179-181). *)
Definition _rcu_read_unlock (q : state) : state * list access := (q, []).

(** [_rcu_quiescent_state] (urcu-qsbr.h:190-197). *)
Definition _rcu_quiescent_state (q : state) : state * list access :=
  let q1 := with_ctr (rcu_gp_ctr q) q in
  let '(q2, t) := wake_up_gp q1 in
  (q2, [Mb; LoadGpCtr (rcu_gp_ctr q); StoreCtr (rcu_gp_ctr q); Mb] ++ t ++ [Mb]).

(** [_rcu_thread_offline] (urcu-qsbr.h:207-214). *)
Definition _rcu_thread_offline (q : state) : state * list access :=
  let q1 := with_ctr 0 q in
  let '(q2, t) := wake_up_gp q1 in
  (q2, [Mb; StoreCtr 0; Mb] ++ t ++ [Barrier]).

(** [_rcu_thread_online] (urcu-qsbr.h:224-229). *)
Definition _rcu_thread_online (q : state) : state * list access :=
  (with_ctr (rcu_gp_ctr q) q,
   [Barrier; LoadGpCtr (rcu_gp_ctr q); StoreCtr (rcu_gp_ctr q); Mb]).

End Qsbr.

(** * Vocabulary of the properties *)

(** ** Trace automata

    An order of events is stated as an automaton that reads the trace of
    a run: [step q e] is the state after event [e] in state [q], or [None]
    when [e] is refused there. *)

Fixpoint run {Q : Type} (step : Q → event → option Q) (q : Q)
    (t : list event) : option Q :=
  match t with
  | [] => Some q
  | e :: t' => match step q e with Some q' => run step q' t' | None => None end
  end.

(** Every run of [m] started in automaton state [q] is accepted as far as
    it goes, and a run that returns [a] leaves the automaton in a state
    that satisfies [post a]. *)
Definition accepts {Q A : Type} (step : Q → event → option Q)
    (m : M A) (q : Q) (post : A → Q → Prop) : Prop :=
  ∀ s, match m s with
       | Ret a _ t => ∃ q', run step q t = Some q' ∧ post a q'
       | Halt _ _ t => is_Some (run step q t)
       end.

(** [m] only emits events that leave the automaton where it is. *)
Definition silent {Q A : Type} (step : Q → event → option Q) (m : M A) : Prop :=
  ∀ q, accepts step m q (λ _ q', q' = q).

(** [m] keeps the automaton in state [q0]. *)
Definition stays {Q A : Type} (step : Q → event → option Q) (q0 : Q)
    (m : M A) : Prop :=
  accepts step m q0 (λ _ q, q = q0).

(** ** The life of a batch *)

(** The events of the life of a batch. *)
Definition batch_event (e : event) : bool :=
  match e with
  | EvStoreHead _ _ | EvXchgTail _ _ _ | EvSynchronizeRcu
  | EvInvoke _ _ | EvSubQlen _ _ => true
  | _ => false
  end.

(** The cycle of one batch of the worker [me], as an automaton over the
    trace of its thread: NULL is stored to the head word of its queue and
    the tail is exchanged for the address of the head word (the two steps
    of the snapshot), [synchronize_rcu] is called, callbacks are invoked,
    and the subtraction from [qlen] closes the batch. Any of these events
    out of turn, or on another queue, is refused; every other event is
    allowed anywhere. *)
Inductive gp_state := Idle | HeadCleared | Snapshot | Grace.

Definition gp_step (me : wid) (q : gp_state) (e : event) : option gp_state :=
  match e with
  | EvStoreHead w v =>
      match q with
      | Idle => if decide (w = me ∧ v = None) then Some HeadCleared else None
      | _ => None
      end
  | EvXchgTail w new _ =>
      match q with
      | HeadCleared =>
          if decide (w = me ∧ new = HeadOf me) then Some Snapshot else None
      | _ => None
      end
  | EvSynchronizeRcu => match q with Snapshot => Some Grace | _ => None end
  | EvInvoke _ _ => match q with Grace => Some Grace | _ => None end
  | EvSubQlen w _ =>
      match q with
      | Grace => if decide (w = me) then Some Idle else None
      | _ => None
      end
  | _ => Some q
  end.

(** The count of a batch of the worker [me]: [Some k] once the grace
    period has been waited for and [k] callbacks have been invoked since,
    [None] outside a batch. A callback on the dummy node of the queue of
    [me] is refused, and so is a subtraction from [qlen] of anything but
    the count. *)
Definition count_step (me : wid) (q : option Z) (e : event)
    : option (option Z) :=
  match e with
  | EvSynchronizeRcu => Some (Some 0)
  | EvInvoke _ n =>
      match q with
      | Some k =>
          if decide (n = dummy_of me) then None
          else Some (Some (wrap_ulong (k + 1)))
      | None => None
      end
  | EvSubQlen w v =>
      match q with
      | Some k => if decide (w = me ∧ v = k) then Some None else None
      | None => None
      end
  | _ => Some q
  end.

(** ** The futex gate of a worker *)

(** The steps of the worker [me] towards its sleep, as an automaton over
    the trace of its thread: [futex] is decremented, a fence follows, the
    tail of the queue is read and shows an empty queue, a fence follows,
    [futex] is read and shows -1. The wait on [futex] is accepted at that
    point only; it is refused anywhere else, and so is a wait on the
    [futex] of another worker. Reading a tail that shows a callback, or a
    [futex] other than -1, takes the automaton back. *)
Inductive gate_state :=
  Unarmed | Decremented | Armed | SawEmpty | Fenced | MayWait.

Definition gate_step (me : wid) (q : gate_state) (e : event)
    : option gate_state :=
  match e with
  | EvDecFutex w => Some (if decide (w = me) then Decremented else q)
  | EvSetFutex w _ => Some (if decide (w = me) then Unarmed else q)
  | EvMb =>
      Some match q with
           | Decremented => Armed
           | SawEmpty => Fenced
           | _ => q
           end
  | EvLoadTail w tl =>
      Some match q with
           | Unarmed | Decremented => q
           | _ =>
               if decide (w = me ∧ tl = HeadOf me) then SawEmpty
               else if decide (w = me) then Armed else q
           end
  | EvReadFutex w v =>
      Some match q with
           | Fenced | MayWait =>
               if decide (w = me ∧ v = -1) then MayWait else Unarmed
           | _ => q
           end
  | EvFutexWait w =>
      match q with
      | MayWait => if decide (w = me) then Some Unarmed else None
      | _ => None
      end
  | _ => Some q
  end.

(** ** The two phases of the teardown of the per-CPU workers *)

(** The two phases of [free_all_cpu_call_rcu_data]: slots are written
    only before the grace period, and only with NULL; a worker is
    touched (flags, queue, registry list, release) only after it, and
    there is one grace period. *)
Inductive fa_state := Nulling | Destroying.

Definition fa_step (q : fa_state) (e : event) : option fa_state :=
  match e with
  | EvSetSlot _ None => match q with Nulling => Some Nulling | _ => None end
  | EvSetSlot _ (Some _) => None
  | EvSynchronizeRcu => match q with Nulling => Some Destroying | _ => None end
  | EvReadFlags _ _ | EvOrFlags _ _ | EvLoadTail _ _ | EvLoadHead _ _
  | EvStoreHead _ _ | EvXchgTail _ _ _ | EvStoreLink _ _
  | EvReadQlen _ _ | EvAddQlen _ _ | EvListDel _ | EvFree _ =>
      match q with Destroying => Some Destroying | _ => None end
  | _ => Some q
  end.

(** No grace period is waited for. *)
Definition no_sync_step (q : unit) (e : event) : option unit :=
  match e with
  | EvSynchronizeRcu => None
  | _ => Some q
  end.

(** ** Queues and batches *)

(** [linked s n l tl]: in the store [s] the nodes [n :: l] are chained
    through their [next] words, the chain ends at the last of them, and
    [tl] is the address of the [next] word of that last node. *)
Fixpoint linked (s : State) (n : node) (l : list node) (tl : link) : Prop :=
  match l with
  | [] => node_next s n = Some None ∧ tl = NextOf n
  | n' :: l' => node_next s n = Some (Some n') ∧ linked s n' l' tl
  end.

(** The queue of worker [w] holds the nodes [b], first to last. *)
Definition queue_holds (s : State) (w : wid) (b : list node) : Prop :=
  match b with
  | [] =>
      ∃ c, crds s !! w = Some c ∧
           wfq_head (cbs c) = None ∧ wfq_tail (cbs c) = HeadOf w
  | n :: l =>
      ∃ c, crds s !! w = Some c ∧
           wfq_head (cbs c) = Some n ∧ linked s n l (wfq_tail (cbs c))
  end.

(** The nodes of a batch that carry a callback: all but the dummy node of
    the queue being drained. *)
Definition real_callbacks (w : wid) (b : list node) : list node :=
  filter (λ m, m ≠ dummy_of w) b.

(** Ownership of a batch by the worker that took it: neither the other
    threads nor a callback (except on the record it is called for) touch
    the nodes of the batch, and the worker structure stays allocated. *)
Definition batch_owned {host : Host} (w : wid) (b : list node) : Prop :=
  (∀ s m, m ∈ b →
     node_next (interfere s) m = node_next s m ∧
     node_func (interfere s) m = node_func s m) ∧
  (∀ s, is_Some (crds s !! w) → is_Some (crds (interfere s) !! w)) ∧
  (∀ f n s m, m ∈ b → m ≠ n →
     node_next (run_callback f n s) m = node_next s m ∧
     node_func (run_callback f n s) m = node_func s m) ∧
  (∀ f n s, is_Some (crds s !! w) → is_Some (crds (run_callback f n s) !! w)).

(** The words of a worker structure that the queue protocol reads. *)
Definition q_head (s : State) (w : wid) : option (option node) :=
  (λ c, wfq_head (cbs c)) <$> crds s !! w.
Definition q_tail (s : State) (w : wid) : option link :=
  (λ c, wfq_tail (cbs c)) <$> crds s !! w.
Definition q_len (s : State) (w : wid) : option Z :=
  qlen <$> crds s !! w.
Definition q_flags (s : State) (w : wid) : option Z :=
  flags <$> crds s !! w.
Definition q_futex (s : State) (w : wid) : option Z :=
  futex <$> crds s !! w.

(** The worker structure [c] of the worker [w] once the worker has taken
    the snapshot of its queue: [head] is NULL and [tail] designates the
    head word again. *)
Definition snapshot_taken (w : wid) (c : call_rcu_data) : call_rcu_data :=
  with_cbs (with_tail (HeadOf w) (with_head None (cbs c))) c.

(** The store in which the callbacks of the nodes [l] have returned, one
    after the other. *)
Definition callbacks_run {host : Host} (fn_of : node → fn) (l : list node)
    (s : State) : State :=
  foldl (λ s m, run_callback (fn_of m) m s) s l.

(** Neither the other threads nor the callbacks write the [qlen] of the
    worker [w]. *)
Definition qlen_undisturbed {host : Host} (w : wid) : Prop :=
  (∀ s, q_len (interfere s) w = q_len s w) ∧
  (∀ f m s, q_len (run_callback f m s) w = q_len s w).

(** [s'] has the same workers as [s], with the same queue words and
    length; the [next] words of the dummy nodes may differ. *)
Definition same_queue_words (s s' : State) : Prop :=
  ∀ w, q_head s' w = q_head s w ∧ q_tail s' w = q_tail s w ∧
       q_len s' w = q_len s w.

(** What [wake_call_rcu_thread] does for a worker whose structure is [c]. *)
Definition wake_trace {bits : CallRcuFlags} (w : wid) (c : call_rcu_data)
    : list event :=
  EvReadFlags w (flags c) ::
  (if decide (Z.land (flags c) URCU_CALL_RCU_RT = 0) then
     EvMb :: EvReadFutex w (futex c) ::
     (if decide (futex c = -1) then [EvSetFutex w 0; EvFutexWake w] else [])
   else []).

(** ** Hosts and per-CPU slots *)

(** A host on which no mutex, allocation or thread creation call fails. *)
Definition reliable (host : Host) : Prop :=
  ∀ s, pthread_mutex_lock_ret s = 0 ∧ pthread_mutex_unlock_ret s = 0 ∧
       (pthread_create_ret s).1 = 0 ∧ is_Some (malloc_crd s).

(** The store in which [set_cpu_call_rcu_data] of the current variant
    runs its checks: the mutex is held and the array has been allocated
    if it could be. *)
Definition when_checked {host : Host} (s : State) : State :=
  state_of ((call_rcu_lock;; Impl.alloc_cpu_call_rcu_data) s).

(** The slot of [cpu] in store [s]; [None] when there is no array or no
    such slot. *)
Definition slot (s : State) (cpu : Z) : option (option wid) :=
  match per_cpu_call_rcu_data s with
  | Some arr => arr !! Z.to_nat cpu
  | None => None
  end.

(** A host on which the mutex calls succeed and the other threads leave
    the per-CPU array as it is. *)
Definition calm (host : Host) : Prop :=
  ∀ s, per_cpu_call_rcu_data (interfere s) = per_cpu_call_rcu_data s ∧
       maxcpus (interfere s) = maxcpus s ∧
       pthread_mutex_lock_ret s = 0 ∧ pthread_mutex_unlock_ret s = 0.

(** What the first loop of [free_all_cpu_call_rcu_data] does for the
    slots [i], [i + 1], ... that hold [rest]: each slot is read, and
    cleared under the mutex when it holds a worker. *)
Fixpoint nulling_trace (i : nat) (rest : list (option wid)) : list event :=
  match rest with
  | [] => []
  | v :: rest' =>
      [EvDerefArray true; EvDerefSlot (Z.of_nat i) v] ++
      (match v with
       | Some _ => [EvLock; EvSetSlot (Z.of_nat i) None; EvUnlock]
       | None => []
       end) ++
      nulling_trace (S i) rest'
  end.

(** ** Picking a worker and enqueueing a callback *)

(** The worker [get_call_rcu_data] picks on a store that has one to
    pick, and the accesses it records on the way. *)
Inductive selects {host : Host} {sched : Sched} (s : State)
    : wid → list event → Prop :=
| selects_thread w :
    thread_call_rcu_data s = Some w →
    selects s w []
| selects_cpu w arr :
    thread_call_rcu_data s = None →
    have_percpu = true →
    0 <= sched_getcpu s < maxcpus s →
    per_cpu_call_rcu_data s = Some arr →
    arr !! Z.to_nat (sched_getcpu s) = Some (Some w) →
    selects s w [EvDerefArray true; EvDerefSlot (sched_getcpu s) (Some w)]
| selects_default_no_cpus w :
    thread_call_rcu_data s = None →
    maxcpus s <= 0 →
    default_call_rcu_data s = Some w →
    selects s w []
| selects_default_empty_slot w arr :
    thread_call_rcu_data s = None →
    have_percpu = true →
    0 <= sched_getcpu s < maxcpus s →
    per_cpu_call_rcu_data s = Some arr →
    arr !! Z.to_nat (sched_getcpu s) = Some None →
    default_call_rcu_data s = Some w →
    selects s w [EvDerefArray true; EvDerefSlot (sched_getcpu s) None].

(** [s'] has the registry list and the pointers of [s]. *)
Definition same_registry (s s' : State) : Prop :=
  call_rcu_data_list s' = call_rcu_data_list s ∧
  thread_call_rcu_data s' = thread_call_rcu_data s ∧
  default_call_rcu_data s' = default_call_rcu_data s ∧
  per_cpu_call_rcu_data s' = per_cpu_call_rcu_data s ∧
  maxcpus s' = maxcpus s.

(** ** The worker as an RCU reader *)

(** The worker [me] as a reader, as an automaton over the trace of its
    thread. [Out]: not registered, free to register. [Online]: registered
    and online. [Offline]: registered, offline. [Leaving]: it has
    unregistered. [Paused]: it has unregistered and announced [PAUSED].
    A grace period is waited for and a callback invoked only [Online]; a
    wait on a [futex] and the 10 ms sleep happen only [Offline]. After
    unregistering the thread may only issue a fence and announce
    [PAUSED]; having announced it, it may only read flags and poll, and
    it is free to register again once it has read its flags with [PAUSE]
    clear. *)
Inductive reader_state := Out | Online | Offline | Leaving | Paused.

Definition reader_step {bits : CallRcuFlags} (me : wid) (q : reader_state)
    (e : event) : option reader_state :=
  match q with
  | Out =>
      match e with
      | EvRegisterThread => Some Online
      | EvUnregisterThread | EvThreadOffline | EvThreadOnline
      | EvSynchronizeRcu | EvInvoke _ _ | EvFutexWait _ => None
      | EvPoll ms => if decide (ms = 10) then None else Some Out
      | EvOrFlags w m =>
          if decide (w = me ∧ m = URCU_CALL_RCU_PAUSED) then None else Some Out
      | _ => Some Out
      end
  | Online =>
      match e with
      | EvUnregisterThread => Some Leaving
      | EvThreadOffline => Some Offline
      | EvRegisterThread | EvThreadOnline | EvFutexWait _ => None
      | EvPoll ms => if decide (ms = 10) then None else Some Online
      | EvOrFlags w m =>
          if decide (w = me ∧ m = URCU_CALL_RCU_PAUSED) then None
          else Some Online
      | _ => Some Online
      end
  | Offline =>
      match e with
      | EvThreadOnline => Some Online
      | EvRegisterThread | EvUnregisterThread | EvThreadOffline
      | EvSynchronizeRcu | EvInvoke _ _ => None
      | EvOrFlags w m =>
          if decide (w = me ∧ m = URCU_CALL_RCU_PAUSED) then None
          else Some Offline
      | _ => Some Offline
      end
  | Leaving =>
      match e with
      | EvMb => Some Leaving
      | EvOrFlags w m =>
          if decide (w = me ∧ m = URCU_CALL_RCU_PAUSED) then Some Paused
          else None
      | _ => None
      end
  | Paused =>
      match e with
      | EvReadFlags w f =>
          Some (if decide (w = me ∧ Z.land f URCU_CALL_RCU_PAUSE = 0)
                then Out else Paused)
      | EvPoll ms => if decide (ms = 10) then None else Some Paused
      | _ => None
      end
  end.

(** ** The stop handshake of [call_rcu_data_free] *)

(** Events that read or write the queue of the worker [r], unlink it from
    the registry list or release its structure. *)
Definition touches_worker (r : wid) (e : event) : bool :=
  match e with
  | EvLoadTail w _ | EvLoadHead w _ | EvStoreHead w _ | EvXchgTail w _ _
  | EvReadQlen w _ | EvListDel w | EvFree w => bool_decide (w = r)
  | _ => false
  end.

(** The caller of [call_rcu_data_free] for the worker [r], as an automaton
    over its trace. [ReadClear]: the flags of [r] have been read, without
    [STOPPED]. [Asked]: [STOP] has been set. [SeenStopped]: a value of
    the flags of [r] with [STOPPED] set has been read. [STOP] is set at
    most once, only once the flags have been read without [STOPPED],
    and not after [STOPPED] has been seen; the caller polls only once
    it has asked or seen; an event that touches [r] is accepted only in
    [SeenStopped]. *)
Inductive stop_state := NotRead | ReadClear | Asked | SeenStopped.

(** Where a read of the flags of [r] with the value [f] takes the
    automaton. *)
Definition after_read {bits : CallRcuFlags} (f : Z) (q : stop_state)
    : stop_state :=
  if decide (Z.land f URCU_CALL_RCU_STOPPED ≠ 0) then SeenStopped
  else match q with NotRead => ReadClear | _ => q end.

Definition stop_step {bits : CallRcuFlags} (r : wid) (q : stop_state)
    (e : event) : option stop_state :=
  match e with
  | EvReadFlags w f => Some (if decide (w = r) then after_read f q else q)
  | EvOrFlags w m =>
      if decide (w = r ∧ m = URCU_CALL_RCU_STOP) then
        match q with ReadClear => Some Asked | _ => None end
      else Some q
  | EvPoll _ =>
      match q with Asked | SeenStopped => Some q | _ => None end
  | _ =>
      if touches_worker r e then
        match q with SeenStopped => Some q | _ => None end
      else Some q
  end.

(** ** The flags across a fork *)

(** Worker [w] is allocated and its flags have a bit of [mask] set. *)
Definition shows (s : State) (w : wid) (mask : Z) : Prop :=
  ∃ c, crds s !! w = Some c ∧ Z.land (flags c) mask ≠ 0.

(** A host on which taking the mutex succeeds and the other threads
    neither change the registry list nor take [PAUSED] back or release a
    worker that shows it. *)
Definition keeps_paused {bits : CallRcuFlags} (host : Host) : Prop :=
  ∀ s, pthread_mutex_lock_ret s = 0 ∧
       call_rcu_data_list (interfere s) = call_rcu_data_list s ∧
       ∀ w, shows s w URCU_CALL_RCU_PAUSED →
            shows (interfere s) w URCU_CALL_RCU_PAUSED.

(** [s'] has the registry list of [s], and the workers that show
    [PAUSED] in [s] show it in [s']. *)
Definition paused_carried {bits : CallRcuFlags} (s s' : State) : Prop :=
  call_rcu_data_list s' = call_rcu_data_list s ∧
  ∀ w, shows s w URCU_CALL_RCU_PAUSED → shows s' w URCU_CALL_RCU_PAUSED.

(** ** The child of a fork *)

(** [m] relates the store it starts in to the store it returns in by
    [P]. *)
Definition keeps {A} (P : State → State → Prop) (m : M A) : Prop :=
  ∀ s a s' t, m s = Ret a s' t → P s s'.

(** What the disposal of a worker leaves alone when [d] is the default
    worker: the pointers of the file, [maxcpus], the registry list, and
    which addresses hold a worker. *)
Definition left_alone (d : wid) (s s' : State) : Prop :=
  default_call_rcu_data s = Some d →
  default_call_rcu_data s' = Some d ∧
  thread_call_rcu_data s' = thread_call_rcu_data s ∧
  per_cpu_call_rcu_data s' = per_cpu_call_rcu_data s ∧
  maxcpus s' = maxcpus s ∧
  call_rcu_data_list s' = call_rcu_data_list s ∧
  ∀ w, crds s' !! w = None ↔ crds s !! w = None.

(** No flag is set with [uatomic_or]. *)
Definition no_or_step (q : unit) (e : event) : option unit :=
  match e with
  | EvOrFlags _ _ => None
  | _ => Some q
  end.

(** ** A worker that is asked to stop *)

(** [s'] has the flags of worker [w] as [s] has them. *)
Definition flags_kept (w : wid) (s s' : State) : Prop :=
  q_flags s' w = q_flags s w.

(** ** Sample hosts and stores

    The flag bits as urcu-call-rcu.h numbers them, a host whose calls all
    succeed on a two-processor machine, with no other thread running
    ([quiet]) or with worker threads that acknowledge a stop or pause
    request while the caller polls ([polite]). *)

Module Sample.

Definition flag_bits : CallRcuFlags :=
  {| URCU_CALL_RCU_RT := 1;
     URCU_CALL_RCU_STOP := 4;
     URCU_CALL_RCU_STOPPED := 8;
     URCU_CALL_RCU_PAUSE := 16;
     URCU_CALL_RCU_PAUSED := 32 |}.

(** A layout that keeps the nodes away from the worker structures of
    the sample stores, from address 1000 on. *)
Definition away (n : node) : wid :=
  match n with
  | rcu_head_at a => (1000 + 2 * a)%nat
  | dummy_of w => (1001 + 2 * w)%nat
  end.

Definition quiet : Host :=
  {| have_percpu := true;
     sysconf_nprocessors_conf := λ _, 2;
     malloc_crd := λ s, Some (fresh (dom (crds s)));
     malloc_array := λ _, true;
     pthread_mutex_lock_ret := λ _, 0;
     pthread_mutex_unlock_ret := λ _, 0;
     pthread_create_ret := λ _, (0, 1000);
     sched_setaffinity_ret := λ _, 0;
     interfere := λ s, s;
     run_callback := λ _ _ s, s;
     node_address := away |}.

(** What a worker thread does to its flags when it sees a request. *)
Definition acknowledge (c : call_rcu_data) : call_rcu_data :=
  let f1 := if decide (Z.land (flags c) 4 ≠ 0) then Z.lor (flags c) 8 else flags c in
  let f2 := if decide (Z.land f1 16 ≠ 0) then Z.lor f1 32 else f1 in
  with_flags f2 c.

Definition polite : Host :=
  {| have_percpu := true;
     sysconf_nprocessors_conf := λ _, 2;
     malloc_crd := λ s, Some (fresh (dom (crds s)));
     malloc_array := λ _, true;
     pthread_mutex_lock_ret := λ _, 0;
     pthread_mutex_unlock_ret := λ _, 0;
     pthread_create_ret := λ _, (0, 1000);
     sched_setaffinity_ret := λ _, 0;
     interfere := set_crds (fmap acknowledge);
     run_callback := λ _ _ s, s;
     node_address := away |}.

(** Another thread asks every worker to stop and wakes it up, as
    [call_rcu_data_free] does, while the caller is blocked. *)
Definition stopper : Host :=
  {| have_percpu := true;
     sysconf_nprocessors_conf := λ _, 2;
     malloc_crd := λ s, Some (fresh (dom (crds s)));
     malloc_array := λ _, true;
     pthread_mutex_lock_ret := λ _, 0;
     pthread_mutex_unlock_ret := λ _, 0;
     pthread_create_ret := λ _, (0, 1000);
     sched_setaffinity_ret := λ _, 0;
     interfere :=
       set_crds (fmap (λ c, with_futex 0 (with_flags (Z.lor (flags c) 4) c)));
     run_callback := λ _ _ s, s;
     node_address := away |}.

(** The store of a process that has not used the file yet. *)
Definition fresh_process : State :=
  {| crds := ∅; heads := ∅; call_rcu_data_list := [];
     thread_call_rcu_data := None; default_call_rcu_data := None;
     per_cpu_call_rcu_data := None; maxcpus := 0; errno := 0;
     warned_alloc := false; warned_get := false;
     warned_set := false; warned_free := false |}.

(** A worker whose thread has drained its queue: the queue is empty. *)
Definition idle_worker (fl : Z) (w : wid) (aff : Z) : call_rcu_data :=
  {| cbs := {| wfq_head := None; wfq_tail := HeadOf w; wfq_dummy_next := None |};
     flags := fl; futex := -1; qlen := 0; tid := 1000; cpu_affinity := aff |}.

(** A build without [sched_getcpu]: no per-CPU workers. *)
Definition no_percpu : Host :=
  {| have_percpu := false;
     sysconf_nprocessors_conf := λ _, 2;
     malloc_crd := λ s, Some (fresh (dom (crds s)));
     malloc_array := λ _, true;
     pthread_mutex_lock_ret := λ _, 0;
     pthread_mutex_unlock_ret := λ _, 0;
     pthread_create_ret := λ _, (0, 1000);
     sched_setaffinity_ret := λ _, 0;
     interfere := λ s, s;
     run_callback := λ _ _ s, s;
     node_address := away |}.

(** A thread that [sched_getcpu] places on a processor the machine does
    not have. *)
Definition far_cpu : Sched := {| sched_getcpu := λ _, 5 |}.

(** A thread that runs on the first processor. *)
Definition first_cpu : Sched := {| sched_getcpu := λ _, 0 |}.

End Sample.

(** ** Concrete stores *)

Module Scenario.
Import Sample.

(** A host like [quiet] whose callbacks free the record they are called
    for. *)
Definition freeing : Host :=
  {| have_percpu := true;
     sysconf_nprocessors_conf := λ _, 2;
     malloc_crd := λ s, Some (fresh (dom (crds s)));
     malloc_array := λ _, true;
     pthread_mutex_lock_ret := λ _, 0;
     pthread_mutex_unlock_ret := λ _, 0;
     pthread_create_ret := λ _, (0, 1000);
     sched_setaffinity_ret := λ _, 0;
     interfere := λ s, s;
     run_callback := λ _ n s,
       match n with
       | rcu_head_at a => set_heads (delete a) s
       | dummy_of _ => s
       end;
     node_address := away |}.

Definition store (c : gmap wid call_rcu_data) (h : gmap nat rcu_head)
    (l : list wid) (d : option wid) (pc : option (list (option wid)))
    (m : Z) : State :=
  {| crds := c; heads := h; call_rcu_data_list := l;
     thread_call_rcu_data := None; default_call_rcu_data := d;
     per_cpu_call_rcu_data := pc; maxcpus := m; errno := 0;
     warned_alloc := false; warned_get := false;
     warned_set := false; warned_free := false |}.

(** Two processors, a worker in the slot of the first, a second worker
    in no slot. *)
Definition one_slot_taken : State :=
  store {[ 1%nat := idle_worker 0 1%nat 0; 2%nat := idle_worker 0 2%nat 1 ]} ∅
    [2%nat; 1%nat] None (Some [Some 1%nat; None]) 2.

(** Two processors, a running worker in each slot. *)
Definition both_slots_taken : State :=
  store {[ 1%nat := idle_worker 0 1%nat 0; 2%nat := idle_worker 0 2%nat 1 ]} ∅
    [2%nat; 1%nat] None (Some [Some 1%nat; Some 2%nat]) 2.

(** A worker exists, the per-CPU array has never been allocated. *)
Definition no_array_yet : State :=
  store {[ 1%nat := idle_worker 0 1%nat 0 ]} ∅ [1%nat] None None 0.

(** The default worker 0 and a worker 1 that has stopped ([STOPPED] is
    8) with an empty queue. *)
Definition stopped_idle : State :=
  store {[ 0%nat := idle_worker 0 0%nat (-1); 1%nat := idle_worker 8 1%nat (-1) ]} ∅
    [1%nat; 0%nat] (Some 0%nat) None 0.

(** The default worker 0 and a worker 1 that has stopped with one
    callback, the record at 7, left in its queue. *)
Definition stopped_pending : State :=
  store
    {[ 0%nat := idle_worker 0 0%nat (-1);
       1%nat := {| cbs := {| wfq_head := Some (rcu_head_at 7);
                             wfq_tail := NextOf (rcu_head_at 7);
                             wfq_dummy_next := None |};
                   flags := 8; futex := 0; qlen := 1; tid := 1000;
                   cpu_affinity := -1 |} ]}
    {[ 7%nat := {| rh_next := None; rh_func := 3%nat |} ]}
    [1%nat; 0%nat] (Some 0%nat) None 0.

(** A worker whose queue still starts with its dummy node, followed by
    the records at 1 and 2. *)
Definition two_callbacks : State :=
  store
    {[ 0%nat := {| cbs := {| wfq_head := Some (dummy_of 0);
                             wfq_tail := NextOf (rcu_head_at 2);
                             wfq_dummy_next := Some (rcu_head_at 1) |};
                   flags := 0; futex := -1; qlen := 2; tid := 1000;
                   cpu_affinity := -1 |} ]}
    {[ 1%nat := {| rh_next := Some (rcu_head_at 2); rh_func := 11%nat |};
       2%nat := {| rh_next := None; rh_func := 12%nat |} ]}
    [0%nat] (Some 0%nat) None 0.

Definition callback_of (m : node) : fn :=
  match m with
  | rcu_head_at 1 => 11%nat
  | rcu_head_at 2 => 12%nat
  | _ => 0%nat
  end.

(** The default worker 0, asleep with the record at 5 in its queue, and
    a worker 1 that has stopped with the records at 7 and 8 left in its
    queue. *)
Definition stopped_behind_busy_default : State :=
  store
    {[ 0%nat := {| cbs := {| wfq_head := Some (rcu_head_at 5);
                             wfq_tail := NextOf (rcu_head_at 5);
                             wfq_dummy_next := None |};
                   flags := 0; futex := -1; qlen := 1; tid := 1000;
                   cpu_affinity := -1 |};
       1%nat := {| cbs := {| wfq_head := Some (rcu_head_at 7);
                             wfq_tail := NextOf (rcu_head_at 8);
                             wfq_dummy_next := None |};
                   flags := 8; futex := 0; qlen := 2; tid := 1001;
                   cpu_affinity := -1 |} ]}
    {[ 5%nat := {| rh_next := None; rh_func := 3%nat |};
       7%nat := {| rh_next := Some (rcu_head_at 8); rh_func := 3%nat |};
       8%nat := {| rh_next := None; rh_func := 3%nat |} ]}
    [1%nat; 0%nat] (Some 0%nat) None 0.

(** A running worker 0 with an empty queue, about to arm its gate. *)
Definition idle_awake : State :=
  store {[ 0%nat := with_futex 0 (idle_worker 0 0%nat (-1)) ]} ∅
    [0%nat] (Some 0%nat) None 0.

(** The default worker 0 and a worker 1 that has stopped before its
    thread has drained its queue once: the queue still starts with the
    dummy node of worker 1, followed by the record at 7. *)
Definition never_drained : State :=
  store
    {[ 0%nat := idle_worker 0 0%nat (-1);
       1%nat := {| cbs := {| wfq_head := Some (dummy_of 1);
                             wfq_tail := NextOf (rcu_head_at 7);
                             wfq_dummy_next := Some (rcu_head_at 7) |};
                   flags := 8; futex := 0; qlen := 1; tid := 1000;
                   cpu_affinity := -1 |} ]}
    {[ 7%nat := {| rh_next := None; rh_func := 3%nat |} ]}
    [1%nat; 0%nat] (Some 0%nat) None 0.

(** One processor, whose slot holds the worker 1 of [stopped_pending]. *)
Definition slot_with_pending : State :=
  store (crds stopped_pending) (heads stopped_pending)
    [1%nat; 0%nat] (Some 0%nat) (Some [Some 1%nat]) 1.

(** The worker of [two_callbacks]. *)
Definition two_callbacks_worker : call_rcu_data :=
  {| cbs := {| wfq_head := Some (dummy_of 0);
               wfq_tail := NextOf (rcu_head_at 2);
               wfq_dummy_next := Some (rcu_head_at 1) |};
     flags := 0; futex := -1; qlen := 2; tid := 1000;
     cpu_affinity := -1 |}.

End Scenario.

(** * Reasoning about runs *)

Lemma bind_run {A B} (m : M A) (k : A → M B) (s : State) :
  (m ≫= k) s =
  match m s with
  | Ret a s1 t1 =>
      match k a s1 with
      | Ret b s2 t2 => Ret b s2 (t1 ++ t2)
      | Halt h s2 t2 => Halt h s2 (t1 ++ t2)
      end
  | Halt h s1 t1 => Halt h s1 t1
  end.
Proof. reflexivity. Qed.

Lemma bind_Ret {A B} (m : M A) (k : A → M B) s b s2 t :
  (m ≫= k) s = Ret b s2 t ↔
  ∃ a s1 t1 t2, m s = Ret a s1 t1 ∧ k a s1 = Ret b s2 t2 ∧ t = t1 ++ t2.
Proof.
  rewrite bind_run. split.
  - destruct (m s) as [a s1 t1|]; [|discriminate].
    destruct (k a s1) as [b' s2' t2|] eqn:Hk; [|discriminate].
    intros [= -> -> <-]. eauto 10.
  - intros (a & s1 & t1 & t2 & -> & -> & ->). reflexivity.
Qed.

Lemma bind_trace {A B} (m : M A) (k : A → M B) (s : State) :
  trace_of ((m ≫= k) s) =
  trace_of (m s) ++
  match m s with Ret a s1 _ => trace_of (k a s1) | Halt _ _ _ => [] end.
Proof.
  rewrite bind_run. destruct (m s) as [a s1 t1|]; simpl.
  - destruct (k a s1); reflexivity.
  - by rewrite app_nil_r.
Qed.

(** ** Runs against a trace automaton *)

Section Automaton.
Context {Q : Type} (step : Q → event → option Q).

Lemma run_app q t1 t2 :
  run step q (t1 ++ t2) =
  match run step q t1 with Some q' => run step q' t2 | None => None end.
Proof.
  revert q. induction t1 as [|e t1 IH]; intros q; simpl; [done|].
  destruct (step q e); [apply IH | done].
Qed.

Lemma accepts_trace {A} (m : M A) q post s :
  accepts step m q post → is_Some (run step q (trace_of (m s))).
Proof.
  intros Hm. specialize (Hm s). destruct (m s); simpl; [|done].
  destruct Hm as (q' & -> & _). eauto.
Qed.

Lemma accepts_bind {A B} (m : M A) (k : A → M B) q mid post :
  accepts step m q mid →
  (∀ a q', mid a q' → accepts step (k a) q' post) →
  accepts step (m ≫= k) q post.
Proof.
  intros Hm Hk s. rewrite bind_run. specialize (Hm s).
  destruct (m s) as [a s1 t1|h s1 t1]; [|done].
  destruct Hm as (q1 & Hq1 & Hmid).
  specialize (Hk a q1 Hmid s1).
  destruct (k a s1) as [b s2 t2|h s2 t2]; rewrite run_app, Hq1; done.
Qed.

Lemma accepts_weaken {A} (m : M A) q (post post' : A → Q → Prop) :
  accepts step m q post → (∀ a q', post a q' → post' a q') →
  accepts step m q post'.
Proof.
  intros Hm Hw s. specialize (Hm s). destruct (m s); [|done].
  destruct Hm as (q' & ? & ?). eauto.
Qed.

Lemma accepts_ret {A} (a : A) q (post : A → Q → Prop) :
  post a q → accepts step (mret a) q post.
Proof. intros Hp s. simpl. eauto. Qed.

Lemma accepts_gets {A} (f : State → A) q (post : A → Q → Prop) :
  (∀ a, post a q) → accepts step (gets f) q post.
Proof. intros Hp s. simpl. eauto. Qed.

Lemma accepts_modify (f : State → State) q (post : unit → Q → Prop) :
  post () q → accepts step (modify f) q post.
Proof. intros Hp s. simpl. eauto. Qed.

Lemma accepts_stop {A} h q (post : A → Q → Prop) : accepts step (stop h) q post.
Proof. intros s. simpl. eauto. Qed.

Lemma accepts_emit e q q' (post : unit → Q → Prop) :
  step q e = Some q' → post () q' → accepts step (emit e) q post.
Proof. intros He Hp s. simpl. rewrite He. eauto. Qed.

Lemma accepts_emit_to e q q' :
  step q e = Some q' → accepts step (emit e) q (λ _ x, x = q').
Proof. intros He. by eapply accepts_emit. Qed.

Lemma silent_accepts {A} (m : M A) q (post : A → Q → Prop) :
  silent step m → (∀ a, post a q) → accepts step m q post.
Proof.
  intros Hm Hp. eapply accepts_weaken; [apply Hm|].
  intros a q' ->. apply Hp.
Qed.

Lemma silent_bind {A B} (m : M A) (k : A → M B) :
  silent step m → (∀ a, silent step (k a)) → silent step (m ≫= k).
Proof.
  intros Hm Hk q. eapply accepts_bind; [apply Hm|].
  intros a q' ->. apply Hk.
Qed.

Lemma silent_ret {A} (a : A) : silent step (mret a).
Proof. intros q. by apply accepts_ret. Qed.

Lemma silent_gets {A} (f : State → A) : silent step (gets f).
Proof. intros q. by apply accepts_gets. Qed.

Lemma silent_modify f : silent step (modify f).
Proof. intros q. by apply accepts_modify. Qed.

Lemma silent_stop {A} h : silent step (stop (A:=A) h).
Proof. intros q. apply accepts_stop. Qed.

Lemma silent_emit e : (∀ q, step q e = Some q) → silent step (emit e).
Proof. intros He q. eapply accepts_emit; [apply He | done]. Qed.

Lemma silent_crd w : silent step (crd w).
Proof.
  intros q s. unfold crd. destruct (crds s !! w); simpl; eauto.
Qed.

Lemma silent_load_next n : silent step (load_next n).
Proof.
  intros q s. unfold load_next. destruct (node_next s n); simpl; eauto.
Qed.

Lemma silent_load_func n : silent step (load_func n).
Proof.
  intros q s. unfold load_func. destruct (node_func s n); simpl; eauto.
Qed.

Lemma silent_upd_crd w f : silent step (upd_crd w f).
Proof.
  apply silent_bind; [apply silent_crd | intros; apply silent_modify].
Qed.

Lemma silent_write_link p v : silent step (write_link p v).
Proof.
  destruct p as [w|[w|a]]; simpl; try apply silent_upd_crd.
  intros q s. destruct (heads s !! a); simpl; eauto.
Qed.

End Automaton.

Create HintDb silent.

#[global] Hint Resolve silent_ret silent_gets silent_modify silent_stop
  silent_crd silent_load_next silent_load_func silent_upd_crd
  silent_write_link : silent.

(** * The drain cycle of the worker: snapshot, grace period, callbacks *)

(** ** Automata that watch the events of a batch only *)

Section BatchEvents.
Context {host : Host} {bits : CallRcuFlags}.
Context {Q : Type} (step : Q → event → option Q).
Hypothesis step_quiet : ∀ q e, batch_event e = false → step q e = Some q.

Lemma quiet_emit e : batch_event e = false → silent step (emit e).
Proof. intros He. apply silent_emit. intros q. by apply step_quiet. Qed.

(** Decompose a computation into its primitive steps. *)
Ltac quiet_step :=
  lazymatch goal with
  | |- silent _ (_ ≫= _) => apply silent_bind; [|intros]
  | |- silent _ (emit _) => apply quiet_emit; reflexivity
  | |- silent _ (if ?b then _ else _) => destruct b
  | |- silent _ (match ?x with _ => _ end) => destruct x
  | |- silent _ _ => solve [eauto with silent]
  end.

Ltac quiet_auto := repeat quiet_step.

Lemma quiet_read_flags w : silent step (read_flags w).
Proof. unfold read_flags. quiet_auto. Qed.

Lemma quiet_or_flags w m : silent step (or_flags w m).
Proof. unfold or_flags. quiet_auto. Qed.

Lemma quiet_read_futex w : silent step (read_futex w).
Proof. unfold read_futex. quiet_auto. Qed.

Lemma quiet_dec_futex w : silent step (dec_futex w).
Proof. unfold dec_futex. quiet_auto. Qed.

Lemma quiet_set_futex w v : silent step (set_futex w v).
Proof. unfold set_futex. quiet_auto. Qed.

Lemma quiet_load_tail w : silent step (load_tail w).
Proof. unfold load_tail. quiet_auto. Qed.

Lemma quiet_load_head w : silent step (load_head w).
Proof. unfold load_head. quiet_auto. Qed.

Lemma quiet_poll ms : silent step (poll ms).
Proof. unfold poll. quiet_auto. Qed.

Lemma quiet_cmm_smp_mb : silent step cmm_smp_mb.
Proof. unfold cmm_smp_mb. quiet_auto. Qed.

Hint Resolve quiet_read_flags quiet_or_flags quiet_read_futex quiet_dec_futex
  quiet_set_futex quiet_load_tail quiet_load_head quiet_poll
  quiet_cmm_smp_mb : silent.

Lemma quiet_call_rcu_wait w : silent step (call_rcu_wait w).
Proof. unfold call_rcu_wait, futex_wait. quiet_auto. Qed.

Lemma quiet_set_thread_cpu_affinity w : silent step (set_thread_cpu_affinity w).
Proof. unfold set_thread_cpu_affinity. quiet_auto. Qed.

Hint Resolve quiet_call_rcu_wait quiet_set_thread_cpu_affinity : silent.

Lemma quiet_sleep rt w : silent step (sleep rt w).
Proof. unfold sleep. quiet_auto. Qed.

Lemma quiet_wait_head fuel w : silent step (wait_head fuel w).
Proof. induction fuel; simpl; quiet_auto. Qed.

Lemma quiet_wait_next fuel n tl : silent step (wait_next fuel n tl).
Proof. induction fuel; simpl; quiet_auto. Qed.

Lemma quiet_wait_unpause fuel w : silent step (Impl.wait_unpause fuel w).
Proof. induction fuel; simpl; quiet_auto. Qed.

Hint Resolve quiet_sleep quiet_wait_head quiet_wait_next
  quiet_wait_unpause : silent.

Lemma quiet_pause fuel w : silent step (Impl.pause fuel w).
Proof. unfold Impl.pause. quiet_auto. Qed.

(** The worker thread around its drain block: when every drain takes the
    automaton from [q0] back to [q0], so does the thread. *)
Context (q0 : Q) (w : wid).
Hypothesis drain_cycle :
  ∀ fuel, accepts step (drain fuel w) q0 (λ _ q, q = q0).

Lemma cycle_impl_loop n fuel rt :
  accepts step (Impl.call_rcu_thread_loop n fuel rt w) q0 (λ _ q, q = q0).
Proof.
  induction n as [|n IH]; [apply accepts_stop|]. cbn [Impl.call_rcu_thread_loop].
  eapply accepts_bind; [apply quiet_pause|]. intros _ q ->.
  eapply accepts_bind; [apply drain_cycle|]. intros _ q ->.
  eapply accepts_bind; [apply quiet_read_flags|]. intros f q ->.
  destruct (decide _); [by apply accepts_ret|].
  eapply accepts_bind; [by apply quiet_emit|]. intros _ q ->.
  eapply accepts_bind; [apply quiet_sleep|]. intros _ q ->.
  eapply accepts_bind; [by apply quiet_emit|]. intros _ q ->.
  apply IH.
Qed.

Lemma cycle_legacy_loop n fuel rt :
  accepts step (Legacy.call_rcu_thread_loop n fuel rt w) q0 (λ _ q, q = q0).
Proof.
  induction n as [|n IH]; [apply accepts_stop|]. cbn [Legacy.call_rcu_thread_loop].
  eapply accepts_bind; [apply drain_cycle|]. intros _ q ->.
  eapply accepts_bind; [apply quiet_read_flags|]. intros f q ->.
  destruct (decide _); [by apply accepts_ret|].
  eapply accepts_bind; [apply quiet_sleep|]. intros _ q ->.
  apply IH.
Qed.

Lemma cycle_impl_thread n fuel :
  accepts step (Impl.call_rcu_thread n fuel w) q0 (λ _ q, q = q0).
Proof.
  unfold Impl.call_rcu_thread.
  eapply accepts_bind; [apply quiet_read_flags|]. intros f q ->.
  eapply accepts_bind; [apply quiet_set_thread_cpu_affinity|]. intros r q ->.
  destruct (decide _); [apply accepts_stop|].
  eapply accepts_bind; [by apply quiet_emit|]. intros _ q ->.
  eapply accepts_bind; [apply silent_modify|]. intros _ q ->.
  eapply accepts_bind with (mid := λ _ q, q = q0).
  { apply silent_accepts; [|done]. destruct (bool_decide _); quiet_auto. }
  intros _ q ->.
  eapply accepts_bind; [apply cycle_impl_loop|]. intros _ q ->.
  apply silent_accepts; [|done]. quiet_auto.
Qed.

Lemma cycle_legacy_thread n fuel :
  accepts step (Legacy.call_rcu_thread n fuel w) q0 (λ _ q, q = q0).
Proof.
  unfold Legacy.call_rcu_thread.
  eapply accepts_bind; [apply quiet_read_flags|]. intros f q ->.
  eapply accepts_bind; [apply quiet_set_thread_cpu_affinity|]. intros r q ->.
  destruct (decide _); [apply accepts_stop|].
  eapply accepts_bind; [apply silent_modify|]. intros _ q ->.
  eapply accepts_bind with (mid := λ _ q, q = q0).
  { apply silent_accepts; [|done]. destruct (bool_decide _); quiet_auto. }
  intros _ q ->.
  eapply accepts_bind; [apply cycle_legacy_loop|]. intros _ q ->.
  apply silent_accepts; [|done]. quiet_auto.
Qed.

End BatchEvents.

Section GracePeriodOrder.
Context {host : Host} {bits : CallRcuFlags}.

Lemma gp_quiet me q e : batch_event e = false → gp_step me q e = Some q.
Proof. by destruct e. Qed.

Lemma count_quiet me q e : batch_event e = false → count_step me q e = Some q.
Proof. by destruct e. Qed.

(** Once the grace period has elapsed, the walk over the batch only
    invokes callbacks. *)
Lemma gp_invoke_batch fuel w tl n c :
  accepts (gp_step w) (invoke_batch fuel w tl n c) Grace (λ _ q, q = Grace).
Proof.
  revert n c. induction fuel as [|fuel IH]; intros n c.
  - apply accepts_stop.
  - cbn [invoke_batch].
    eapply accepts_bind; [apply (quiet_wait_next _ (gp_quiet w))|]. intros _ q ->.
    destruct (decide _).
    + eapply accepts_bind; [apply silent_load_next|]. intros [n'|] q ->.
      * apply IH.
      * by apply accepts_ret.
    + eapply accepts_bind; [apply silent_load_next|]. intros nx q ->.
      eapply accepts_bind; [apply silent_load_func|]. intros f q ->.
      eapply accepts_bind; [by apply accepts_emit_to|]. intros _ q ->.
      eapply accepts_bind; [apply silent_modify|]. intros _ q ->.
      destruct nx; [apply IH | by apply accepts_ret].
Qed.

(** A drain starts and ends between two batches. *)
Lemma gp_drain w fuel :
  accepts (gp_step w) (drain fuel w) Idle (λ _ q, q = Idle).
Proof.
  unfold drain.
  eapply accepts_bind; [apply (quiet_load_tail _ (gp_quiet w))|]. intros tl q ->.
  destruct (decide _); [|by apply accepts_ret].
  eapply accepts_bind; [apply (quiet_wait_head _ (gp_quiet w))|]. intros cbs q ->.
  eapply accepts_bind with (mid := λ _ q, q = HeadCleared).
  { unfold store_head. eapply accepts_bind; [apply silent_upd_crd|].
    intros _ q ->. apply accepts_emit_to. cbn. by rewrite decide_True. }
  intros _ q ->.
  eapply accepts_bind with (mid := λ _ q, q = Snapshot).
  { unfold xchg_tail. eapply accepts_bind; [apply silent_crd|].
    intros c q ->. eapply accepts_bind; [apply silent_upd_crd|].
    intros _ q ->. eapply accepts_bind with (mid := λ _ q, q = Snapshot).
    { apply accepts_emit_to. cbn. by rewrite decide_True. }
    intros _ q ->. by apply accepts_ret. }
  intros tl' q ->.
  eapply accepts_bind with (mid := λ _ q, q = Grace).
  { unfold synchronize_rcu. eapply accepts_bind; [by apply accepts_emit_to|].
    intros _ q ->. by apply accepts_modify. }
  intros _ q ->.
  eapply accepts_bind; [apply gp_invoke_batch|]. intros c q ->.
  unfold sub_qlen. eapply accepts_bind; [apply silent_upd_crd|].
  intros _ q ->. apply accepts_emit_to. cbn. by rewrite decide_True.
Qed.

(** The walk over the batch counts the callbacks it invokes and skips
    the dummy node of its own queue. *)
Lemma count_invoke_batch fuel w tl n c :
  accepts (count_step w) (invoke_batch fuel w tl n c) (Some c)
    (λ c' q, q = Some c').
Proof.
  revert n c. induction fuel as [|fuel IH]; intros n c.
  - apply accepts_stop.
  - cbn [invoke_batch].
    eapply accepts_bind; [apply (quiet_wait_next _ (count_quiet w))|].
    intros _ q ->.
    destruct (decide _) as [Hd|Hd].
    + eapply accepts_bind; [apply silent_load_next|]. intros [n'|] q ->.
      * apply IH.
      * by apply accepts_ret.
    + eapply accepts_bind; [apply silent_load_next|]. intros nx q ->.
      eapply accepts_bind; [apply silent_load_func|]. intros f q ->.
      eapply accepts_bind with (mid := λ _ q, q = Some (wrap_ulong (c + 1))).
      { apply accepts_emit_to. cbn. by rewrite decide_False. }
      intros _ q ->.
      eapply accepts_bind; [apply silent_modify|]. intros _ q ->.
      destruct nx; [apply IH | by apply accepts_ret].
Qed.

Lemma count_drain w fuel :
  accepts (count_step w) (drain fuel w) None (λ _ q, q = None).
Proof.
  unfold drain.
  eapply accepts_bind; [apply (quiet_load_tail _ (count_quiet w))|]. intros tl q ->.
  destruct (decide _); [|by apply accepts_ret].
  eapply accepts_bind; [apply (quiet_wait_head _ (count_quiet w))|]. intros cbs q ->.
  eapply accepts_bind with (mid := λ _ q, q = None).
  { unfold store_head. eapply accepts_bind; [apply silent_upd_crd|].
    intros _ q ->. by apply accepts_emit_to. }
  intros _ q ->.
  eapply accepts_bind with (mid := λ _ q, q = None).
  { unfold xchg_tail. eapply accepts_bind; [apply silent_crd|].
    intros c q ->. eapply accepts_bind; [apply silent_upd_crd|].
    intros _ q ->. eapply accepts_bind; [by apply accepts_emit_to|].
    intros _ q ->. by apply accepts_ret. }
  intros tl' q ->.
  eapply accepts_bind with (mid := λ _ q, q = Some 0).
  { unfold synchronize_rcu. eapply accepts_bind; [by apply accepts_emit_to|].
    intros _ q ->. by apply accepts_modify. }
  intros _ q ->.
  eapply accepts_bind; [apply count_invoke_batch|]. intros c q ->.
  unfold sub_qlen. eapply accepts_bind; [apply silent_upd_crd|].
  intros _ q ->. apply accepts_emit_to. cbn. by rewrite decide_True.
Qed.

End GracePeriodOrder.

(** The automaton does refuse a callback that comes before the grace
    period of its batch, or outside a batch. *)
Example gp_refuses_early_callback :
  run (gp_step 0%nat) Idle
    [EvStoreHead 0%nat None;
     EvXchgTail 0%nat (HeadOf 0%nat) (NextOf (rcu_head_at 7));
     EvInvoke 3%nat (rcu_head_at 7)] = None
  ∧ run (gp_step 0%nat) Idle [EvInvoke 3%nat (rcu_head_at 7)] = None
  ∧ run (gp_step 0%nat) Idle
      [EvStoreHead 0%nat None;
       EvXchgTail 0%nat (HeadOf 0%nat) (NextOf (rcu_head_at 7));
       EvSynchronizeRcu;
       EvInvoke 3%nat (rcu_head_at 7);
       EvSubQlen 0%nat 1] = Some Idle.
Proof. done. Qed.

(** X4 (companion of C9). In every run of the worker thread, of either
    variant and against any host, whatever the queue holds: no callback
    is invoked on the dummy node of the worker's own queue, and every
    subtraction from [qlen] is from the worker's own [qlen] and subtracts
    the number of callbacks invoked since the last grace period (counted
    as an [unsigned long]). *)
Theorem worker_subtracts_the_callbacks_it_invoked
    {host : Host} {bits : CallRcuFlags} (n fuel : nat) (crdp : wid) (s : State) :
  is_Some (run (count_step crdp) None
             (trace_of (Impl.call_rcu_thread n fuel crdp s))) ∧
  is_Some (run (count_step crdp) None
             (trace_of (Legacy.call_rcu_thread n fuel crdp s))).
Proof.
  split; eapply accepts_trace.
  - apply (cycle_impl_thread _ (count_quiet crdp) None crdp (count_drain crdp)).
  - apply (cycle_legacy_thread _ (count_quiet crdp) None crdp (count_drain crdp)).
Qed.

(** The automaton does refuse a callback on the dummy node and a
    subtraction that differs from the count. *)
Example count_refuses_dummy_and_miscount :
  run (count_step 0%nat) None
    [EvSynchronizeRcu; EvInvoke 3%nat (dummy_of 0)] = None
  ∧ run (count_step 0%nat) None
      [EvSynchronizeRcu; EvInvoke 3%nat (rcu_head_at 7);
       EvSubQlen 0%nat 2] = None
  ∧ run (count_step 0%nat) None
      [EvSynchronizeRcu; EvInvoke 3%nat (rcu_head_at 7);
       EvInvoke 3%nat (rcu_head_at 8); EvSubQlen 0%nat 2] = Some None.
Proof. done. Qed.

(** * Forward evaluation of the store accesses *)

Lemma crd_run w c s : crds s !! w = Some c → crd w s = Ret c s [].
Proof. intros Hc. unfold crd. by rewrite Hc. Qed.

Lemma upd_crd_run w f c s :
  crds s !! w = Some c →
  upd_crd w f s = Ret () (set_crds <[w := f c]> s) [].
Proof. intros Hc. unfold upd_crd. rewrite bind_run, (crd_run _ _ _ Hc). done. Qed.

Lemma load_tail_run w c s :
  crds s !! w = Some c →
  load_tail w s = Ret (wfq_tail (cbs c)) s [EvLoadTail w (wfq_tail (cbs c))].
Proof. intros Hc. unfold load_tail. rewrite bind_run, (crd_run _ _ _ Hc). done. Qed.

Lemma load_head_run w c s :
  crds s !! w = Some c →
  load_head w s = Ret (wfq_head (cbs c)) s [EvLoadHead w (wfq_head (cbs c))].
Proof. intros Hc. unfold load_head. rewrite bind_run, (crd_run _ _ _ Hc). done. Qed.

Lemma store_head_run w v c s :
  crds s !! w = Some c →
  store_head w v s =
  Ret () (set_crds <[w := with_cbs (with_head v (cbs c)) c]> s) [EvStoreHead w v].
Proof.
  intros Hc. unfold store_head.
  rewrite bind_run, (upd_crd_run _ _ _ _ Hc). done.
Qed.

Lemma xchg_tail_run w new c s :
  crds s !! w = Some c →
  xchg_tail w new s =
  Ret (wfq_tail (cbs c)) (set_crds <[w := with_cbs (with_tail new (cbs c)) c]> s)
      [EvXchgTail w new (wfq_tail (cbs c))].
Proof.
  intros Hc. unfold xchg_tail.
  rewrite bind_run, (crd_run _ _ _ Hc).
  rewrite bind_run, (upd_crd_run _ _ _ _ Hc). done.
Qed.

Lemma read_flags_run w c s :
  crds s !! w = Some c →
  read_flags w s = Ret (flags c) s [EvReadFlags w (flags c)].
Proof. intros Hc. unfold read_flags. rewrite bind_run, (crd_run _ _ _ Hc). done. Qed.

Lemma read_futex_run w c s :
  crds s !! w = Some c →
  read_futex w s = Ret (futex c) s [EvReadFutex w (futex c)].
Proof. intros Hc. unfold read_futex. rewrite bind_run, (crd_run _ _ _ Hc). done. Qed.

Lemma read_qlen_run w c s :
  crds s !! w = Some c →
  read_qlen w s = Ret (qlen c) s [EvReadQlen w (qlen c)].
Proof. intros Hc. unfold read_qlen. rewrite bind_run, (crd_run _ _ _ Hc). done. Qed.

Lemma or_flags_run w m c s :
  crds s !! w = Some c →
  or_flags w m s =
  Ret () (set_crds <[w := with_flags (Z.lor (flags c) m) c]> s) [EvOrFlags w m].
Proof.
  intros Hc. unfold or_flags. rewrite bind_run, (upd_crd_run _ _ _ _ Hc). done.
Qed.

Lemma set_futex_run w v c s :
  crds s !! w = Some c →
  set_futex w v s = Ret () (set_crds <[w := with_futex v c]> s) [EvSetFutex w v].
Proof.
  intros Hc. unfold set_futex. rewrite bind_run, (upd_crd_run _ _ _ _ Hc). done.
Qed.

Lemma add_qlen_run w v c s :
  crds s !! w = Some c →
  add_qlen w v s =
  Ret () (set_crds <[w := with_qlen (wrap_ulong (qlen c + v)) c]> s) [EvAddQlen w v].
Proof.
  intros Hc. unfold add_qlen. rewrite bind_run, (upd_crd_run _ _ _ _ Hc). done.
Qed.

Lemma sub_qlen_run w v c s :
  crds s !! w = Some c →
  sub_qlen w v s =
  Ret () (set_crds <[w := with_qlen (wrap_ulong (qlen c - v)) c]> s) [EvSubQlen w v].
Proof.
  intros Hc. unfold sub_qlen. rewrite bind_run, (upd_crd_run _ _ _ _ Hc). done.
Qed.

Lemma load_next_run n v s : node_next s n = Some v → load_next n s = Ret v s [].
Proof. intros Hn. unfold load_next. by rewrite Hn. Qed.

Lemma load_func_run n f s : node_func s n = Some f → load_func n s = Ret f s [].
Proof. intros Hn. unfold load_func. by rewrite Hn. Qed.

(** An update of a worker structure that keeps the [next] word of its
    dummy node changes the [next] word and callback of no node. *)
Lemma node_next_set_crd w c c' s n :
  crds s !! w = Some c →
  wfq_dummy_next (cbs c') = wfq_dummy_next (cbs c) →
  node_next (set_crds <[w := c']> s) n = node_next s n.
Proof.
  intros Hc Hf. destruct n as [w'|a]; simpl; [|done].
  destruct (decide (w' = w)) as [->|Hne].
  - rewrite lookup_insert_eq, Hc. simpl. by rewrite Hf.
  - by rewrite lookup_insert_ne.
Qed.

Lemma node_func_set_crds g s n : node_func (set_crds g s) n = node_func s n.
Proof. by destruct n. Qed.

(** * What one drain does to a batch *)

Ltac in_list :=
  solve [ repeat first [ assumption
                       | apply list_elem_of_here
                       | apply list_elem_of_further ] ].

(** Evaluate the store-independent steps at the front of a run. *)
Ltac run_simpl :=
  repeat (rewrite bind_run; cbn [emit modify gets stop mret M_ret]).

Lemma linked_frame s s' n l tl :
  (∀ m, m ∈ n :: l → node_next s' m = node_next s m) →
  linked s n l tl → linked s' n l tl.
Proof.
  revert n. induction l as [|n' l IH]; intros n Hfr; simpl.
  - intros [Hn ->]. split; [|done]. rewrite Hfr; [done | in_list].
  - intros [Hn Hl]. split.
    + rewrite Hfr; [done | in_list].
    + apply IH; [|done]. intros m Hm. apply Hfr. in_list.
Qed.

Lemma linked_head_next s n l tl :
  linked s n l tl → node_next s n = Some (head l).
Proof. destruct l; simpl; tauto. Qed.

Section Drain.
Context {host : Host} {bits : CallRcuFlags}.

Lemma wait_next_ready fuel n tl s v :
  node_next s n = Some v →
  v ≠ None ∨ NextOf n = tl →
  wait_next fuel n tl s = Ret () s [].
Proof.
  intros Hn Hv.
  assert (bool_decide (v = None) && bool_decide (NextOf n ≠ tl) = false) as Hc.
  { destruct Hv as [Hv| ->].
    - by rewrite (bool_decide_eq_false_2 _ Hv).
    - rewrite andb_false_iff. right. apply bool_decide_eq_false. tauto. }
  destruct fuel; simpl; rewrite bind_run, (load_next_run _ _ _ Hn), Hc; done.
Qed.

Lemma wrap_ulong_range z : 0 ≤ wrap_ulong z < 2 ^ 64.
Proof. unfold wrap_ulong. apply Z.mod_pos_bound. lia. Qed.

Lemma wrap_ulong_small z : 0 ≤ z < 2 ^ 64 → wrap_ulong z = z.
Proof. intros Hz. unfold wrap_ulong. by apply Z.mod_small. Qed.

Lemma wrap_ulong_succ c k :
  wrap_ulong (wrap_ulong (c + 1) + k) = wrap_ulong (c + (1 + k)).
Proof.
  unfold wrap_ulong. rewrite Z.add_mod_idemp_l by lia. f_equal. lia.
Qed.

(** The walk over a linked batch: every node but the dummy node of the
    queue is invoked once, in order, and counted. *)
Lemma invoke_batch_linked crdp tl b fn_of fuel :
  batch_owned crdp b →
  ∀ l n s c,
    (∀ m, m ∈ n :: l → m ∈ b) →
    NoDup (n :: l) →
    linked s n l tl →
    (∀ m, m ∈ n :: l → m ≠ dummy_of crdp → node_func s m = Some (fn_of m)) →
    is_Some (crds s !! crdp) →
    0 ≤ c < 2 ^ 64 →
    (length (n :: l) ≤ fuel)%nat →
    ∃ s',
      invoke_batch fuel crdp tl n c s =
      Ret (wrap_ulong (c + Z.of_nat (length (real_callbacks crdp (n :: l))))) s'
          (map (λ m, EvInvoke (fn_of m) m) (real_callbacks crdp (n :: l)))
      ∧ is_Some (crds s' !! crdp).
Proof.
  intros (_ & _ & Hcb & Hcba).
  induction fuel as [|fuel IH]; intros l n s c Hsub Hnd Hl Hf Ha Hc Hfuel;
    [simpl in Hfuel; lia|].
  pose proof (linked_head_next _ _ _ _ Hl) as Hnext.
  assert (head l ≠ None ∨ NextOf n = tl) as Hready.
  { destruct l; simpl in *; [right; by destruct Hl | by left]. }
  cbn [invoke_batch].
  rewrite bind_run, (wait_next_ready _ _ _ _ _ Hnext Hready).
  unfold real_callbacks. rewrite filter_cons.
  destruct (decide (n = dummy_of crdp)) as [->|Hreal].
  - rewrite decide_False by tauto.
    rewrite bind_run, (load_next_run _ _ _ Hnext).
    destruct l as [|n' l]; cbn [head].
    + exists s. cbn [mret M_ret filter length map].
      rewrite Z.add_0_r, wrap_ulong_small; done.
    + destruct Hl as [_ Hl]. apply NoDup_cons in Hnd as [_ Hnd].
      destruct (IH l n' s c) as (s' & Hrun & Ha'); try done.
      * intros m Hm. apply Hsub. in_list.
      * intros m Hm. apply Hf. in_list.
      * simpl in *. lia.
      * exists s'. by rewrite Hrun.
  - rewrite decide_True by done.
    rewrite bind_run, (load_next_run _ _ _ Hnext).
    assert (node_func s n = Some (fn_of n)) as Hfn by (apply Hf; [in_list|done]).
    rewrite bind_run, (load_func_run _ _ _ Hfn).
    set (s2 := run_callback (fn_of n) n s).
    assert (is_Some (crds s2 !! crdp)) as Ha2 by by apply Hcba.
    destruct l as [|n' l]; cbn [head].
    + exists s2. split; [|done]. by run_simpl.
    + destruct Hl as [_ Hl]. apply NoDup_cons in Hnd as [Hnin Hnd].
      assert (∀ m, m ∈ n' :: l → m ≠ n) as Hne by (intros m Hm ->; done).
      destruct (IH l n' s2 (wrap_ulong (c + 1))) as (s' & Hrun & Ha'); try done.
      * intros m Hm. apply Hsub. in_list.
      * eapply linked_frame; [|done]. intros m Hm.
        apply Hcb; [apply Hsub; in_list | by apply Hne].
      * intros m Hm Hmd. unfold s2.
        destruct (Hcb (fn_of n) n s m) as [_ ->];
          [apply Hsub; in_list | by apply Hne | apply Hf; [in_list|done]].
      * apply wrap_ulong_range.
      * simpl in *. lia.
      * exists s'. split; [|done]. run_simpl. fold s2. rewrite Hrun.
        cbn [app map length].
        rewrite wrap_ulong_succ. do 2 f_equal.
        change (filter (λ m, m ≠ dummy_of crdp) (n' :: l))
          with (real_callbacks crdp (n' :: l)). lia.
Qed.

Lemma wait_head_ready fuel w c n s :
  crds s !! w = Some c →
  wfq_head (cbs c) = Some n →
  wait_head fuel w s = Ret n s [EvLoadHead w (Some n)].
Proof.
  intros Hc Hh.
  destruct fuel; simpl; rewrite bind_run, (load_head_run _ _ _ Hc), Hh; done.
Qed.

Lemma linked_tail_is_next s n l tl : linked s n l tl → ∃ m, tl = NextOf m.
Proof.
  revert n. induction l as [|n' l IH]; intros n; simpl.
  - intros [_ ->]. eauto.
  - intros [_ Hl]. eauto.
Qed.

End Drain.

Section DrainStore.
Context {host : Host}.

Lemma callbacks_run_cons fn_of m l s :
  callbacks_run fn_of (m :: l) s =
  callbacks_run fn_of l (run_callback (fn_of m) m s).
Proof. reflexivity. Qed.

(** The store that the walk over a linked batch returns in. *)
Lemma invoke_batch_linked_store crdp tl b fn_of fuel :
  batch_owned crdp b →
  ∀ l n s c,
    (∀ m, m ∈ n :: l → m ∈ b) →
    NoDup (n :: l) →
    linked s n l tl →
    (∀ m, m ∈ n :: l → m ≠ dummy_of crdp → node_func s m = Some (fn_of m)) →
    is_Some (crds s !! crdp) →
    0 ≤ c < 2 ^ 64 →
    (length (n :: l) ≤ fuel)%nat →
    invoke_batch fuel crdp tl n c s =
    Ret (wrap_ulong (c + Z.of_nat (length (real_callbacks crdp (n :: l)))))
        (callbacks_run fn_of (real_callbacks crdp (n :: l)) s)
        (map (λ m, EvInvoke (fn_of m) m) (real_callbacks crdp (n :: l))).
Proof.
  intros (_ & _ & Hcb & Hcba).
  induction fuel as [|fuel IH]; intros l n s c Hsub Hnd Hl Hf Ha Hc Hfuel;
    [simpl in Hfuel; lia|].
  pose proof (linked_head_next _ _ _ _ Hl) as Hnext.
  assert (head l ≠ None ∨ NextOf n = tl) as Hready.
  { destruct l; simpl in *; [right; by destruct Hl | by left]. }
  cbn [invoke_batch].
  rewrite bind_run, (wait_next_ready _ _ _ _ _ Hnext Hready).
  unfold real_callbacks. rewrite filter_cons.
  destruct (decide (n = dummy_of crdp)) as [->|Hreal].
  - rewrite decide_False by tauto.
    rewrite bind_run, (load_next_run _ _ _ Hnext).
    destruct l as [|n' l]; cbn [head].
    + cbn [mret M_ret filter length map callbacks_run foldl].
      rewrite Z.add_0_r, wrap_ulong_small; done.
    + destruct Hl as [_ Hl]. apply NoDup_cons in Hnd as [_ Hnd].
      rewrite (IH l n' s c); try done.
      * intros m Hm. apply Hsub. in_list.
      * intros m Hm. apply Hf. in_list.
      * simpl in *. lia.
  - rewrite decide_True by done.
    rewrite bind_run, (load_next_run _ _ _ Hnext).
    assert (node_func s n = Some (fn_of n)) as Hfn by (apply Hf; [in_list|done]).
    rewrite bind_run, (load_func_run _ _ _ Hfn).
    rewrite callbacks_run_cons.
    set (s2 := run_callback (fn_of n) n s).
    assert (is_Some (crds s2 !! crdp)) as Ha2 by by apply Hcba.
    destruct l as [|n' l]; cbn [head].
    + by run_simpl.
    + destruct Hl as [_ Hl]. apply NoDup_cons in Hnd as [Hnin Hnd].
      assert (∀ m, m ∈ n' :: l → m ≠ n) as Hne by (intros m Hm ->; done).
      run_simpl. fold s2.
      rewrite (IH l n' s2 (wrap_ulong (c + 1))); try done.
      * cbn [app map length].
        rewrite wrap_ulong_succ. do 2 f_equal.
        change (filter (λ m, m ≠ dummy_of crdp) (n' :: l))
          with (real_callbacks crdp (n' :: l)). lia.
      * intros m Hm. apply Hsub. in_list.
      * eapply linked_frame; [|done]. intros m Hm.
        apply Hcb; [apply Hsub; in_list | by apply Hne].
      * intros m Hm Hmd. unfold s2.
        destruct (Hcb (fn_of n) n s m) as [_ ->];
          [apply Hsub; in_list | by apply Hne | apply Hf; [in_list|done]].
      * apply wrap_ulong_range.
      * simpl in *. lia.
Qed.

(** The callbacks leave the worker structure allocated. *)
Lemma callbacks_run_allocated crdp b fn_of l s :
  batch_owned crdp b →
  is_Some (crds s !! crdp) →
  is_Some (crds (callbacks_run fn_of l s) !! crdp).
Proof.
  intros (_ & _ & _ & Hcba). revert s.
  induction l as [|m l IH]; intros s Ha; [done|].
  rewrite callbacks_run_cons. by apply IH, Hcba.
Qed.

Lemma callbacks_run_qlen crdp fn_of l s :
  qlen_undisturbed crdp →
  q_len (callbacks_run fn_of l s) crdp = q_len s crdp.
Proof.
  intros [_ Hcb]. revert s. induction l as [|m l IH]; intros s; [done|].
  rewrite callbacks_run_cons, IH. apply Hcb.
Qed.

(** One drain of a queue that holds a linked batch, with the store it
    returns in. *)
Lemma drain_linked_store fuel crdp s c n l fn_of :
  crds s !! crdp = Some c →
  queue_holds s crdp (n :: l) →
  NoDup (n :: l) →
  (∀ m, m ∈ n :: l → m ≠ dummy_of crdp → node_func s m = Some (fn_of m)) →
  batch_owned crdp (n :: l) →
  (length (n :: l) ≤ fuel)%nat →
  let invoked := real_callbacks crdp (n :: l) in
  let k := wrap_ulong (Z.of_nat (length invoked)) in
  let s1 :=
    callbacks_run fn_of invoked
      (interfere (set_crds <[crdp := snapshot_taken crdp c]> s)) in
  ∃ c1,
    crds s1 !! crdp = Some c1 ∧
    drain fuel crdp s =
    Ret () (set_crds <[crdp := with_qlen (wrap_ulong (qlen c1 - k)) c1]> s1)
      ([EvLoadTail crdp (wfq_tail (cbs c));
        EvLoadHead crdp (Some n);
        EvStoreHead crdp None;
        EvXchgTail crdp (HeadOf crdp) (wfq_tail (cbs c));
        EvSynchronizeRcu]
       ++ map (λ m, EvInvoke (fn_of m) m) invoked
       ++ [EvSubQlen crdp k]) ∧
    (qlen_undisturbed crdp → qlen c1 = qlen c).
Proof.
  intros Hc (c' & Hc' & Hhead & Hl) Hnd Hf Hown Hfuel invoked k s1.
  rewrite Hc in Hc'. injection Hc' as <-.
  pose proof Hown as (Hint & Hinta & _ & _).
  destruct (linked_tail_is_next _ _ _ _ Hl) as [m0 Htl].
  set (ca := with_cbs (with_head None (cbs c)) c).
  set (sa := set_crds <[crdp := ca]> s).
  set (cb := with_cbs (with_tail (HeadOf crdp) (cbs ca)) ca).
  set (sb := set_crds <[crdp := cb]> sa).
  assert (sb = set_crds <[crdp := snapshot_taken crdp c]> s) as Hsb.
  { unfold sb, sa, set_crds; cbn [crds heads]. by rewrite insert_insert_eq. }
  assert (crds sa !! crdp = Some ca) as Hca by apply lookup_insert_eq.
  assert (crds sb !! crdp = Some cb) as Hcb by apply lookup_insert_eq.
  assert (∀ m, node_next sb m = node_next s m) as Hnx.
  { intros m. unfold sb. rewrite (node_next_set_crd _ ca) by done.
    unfold sa. by rewrite (node_next_set_crd _ c). }
  assert (∀ m, node_func sb m = node_func s m) as Hfx.
  { intros m. unfold sb, sa. by rewrite !node_func_set_crds. }
  assert (is_Some (crds (interfere sb) !! crdp)) as Hi
    by (apply Hinta; rewrite Hcb; eauto).
  assert (is_Some (crds s1 !! crdp)) as [c1 Hc1].
  { unfold s1. rewrite <- Hsb. by eapply callbacks_run_allocated. }
  exists c1. split; [done|]. split.
  - unfold drain.
    rewrite bind_run, (load_tail_run _ _ _ Hc).
    rewrite decide_True by (rewrite Htl; done).
    rewrite bind_run, (wait_head_ready _ _ _ _ _ Hc Hhead).
    rewrite bind_run, (store_head_run _ _ _ _ Hc). fold ca sa.
    rewrite bind_run, (xchg_tail_run _ _ _ _ Hca). fold cb sb.
    change (wfq_tail (cbs ca)) with (wfq_tail (cbs c)).
    unfold synchronize_rcu. run_simpl.
    rewrite (invoke_batch_linked_store crdp (wfq_tail (cbs c)) (n :: l) fn_of
               fuel Hown l n (interfere sb) 0); try done.
    + rewrite Z.add_0_l. rewrite Hsb. fold invoked s1.
      rewrite (sub_qlen_run _ _ _ _ Hc1). by cbn [app].
    + eapply linked_frame; [|done]. intros m Hm.
      destruct (Hint sb m Hm) as [-> _]. apply Hnx.
    + intros m Hm Hmd. destruct (Hint sb m Hm) as [_ ->].
      rewrite Hfx. by apply Hf.
  - intros Hq. pose proof Hq as [Hqi _].
    assert (q_len s1 crdp = Some (qlen c)) as Hlen.
    { unfold s1. rewrite callbacks_run_qlen by done. rewrite Hqi, <- Hsb.
      unfold q_len. by rewrite Hcb. }
    unfold q_len in Hlen. rewrite Hc1 in Hlen. by injection Hlen.
Qed.

End DrainStore.

(** C1. The drain cycle of the worker thread, in either variant and
    against any host.

    In every run of the thread the events of a batch come in this
    order: NULL is stored to the head word of the worker's queue and
    the tail is exchanged for the address of the head word (the
    snapshot), then [synchronize_rcu] is called, and only then are
    callbacks invoked, until [qlen] is decreased; no callback is
    invoked at any other point. The run may be cut anywhere (out of
    fuel, fault, abort): the order holds as far as the run goes.

    And an iteration of the loop of the thread that finds a batch in
    the queue does all of it: entered on a store in which the queue of
    the worker holds the linked batch [b0 :: l] (with [PAUSE] clear, in
    the variant that has it), the iteration takes the snapshot, calls
    [synchronize_rcu] once, and then invokes the callbacks of the nodes
    of that batch and of no other node, before anything else the thread
    does. *)
Theorem worker_invokes_after_grace_period
    {host : Host} {bits : CallRcuFlags} (n fuel : nat) (crdp : wid) (s : State) :
  is_Some (run (gp_step crdp) Idle
             (trace_of (Impl.call_rcu_thread n fuel crdp s))) ∧
  is_Some (run (gp_step crdp) Idle
             (trace_of (Legacy.call_rcu_thread n fuel crdp s))) ∧
  ∀ (impl rt : bool) (c : call_rcu_data) (b0 : node) (l : list node)
    (fn_of : node → fn),
    crds s !! crdp = Some c →
    (impl = true → Z.land (flags c) URCU_CALL_RCU_PAUSE = 0) →
    queue_holds s crdp (b0 :: l) →
    NoDup (b0 :: l) →
    (∀ m, m ∈ b0 :: l → m ≠ dummy_of crdp → node_func s m = Some (fn_of m)) →
    batch_owned crdp (b0 :: l) →
    (length (b0 :: l) ≤ fuel)%nat →
    ∃ rest,
      trace_of
        ((if impl then Impl.call_rcu_thread_loop (S n) fuel rt crdp
          else Legacy.call_rcu_thread_loop (S n) fuel rt crdp) s) =
      (if impl then [EvReadFlags crdp (flags c)] else [])
      ++ [EvLoadTail crdp (wfq_tail (cbs c));
          EvLoadHead crdp (Some b0);
          EvStoreHead crdp None;
          EvXchgTail crdp (HeadOf crdp) (wfq_tail (cbs c));
          EvSynchronizeRcu]
      ++ map (λ m, EvInvoke (fn_of m) m) (real_callbacks crdp (b0 :: l))
      ++ EvSubQlen crdp
           (wrap_ulong (Z.of_nat (length (real_callbacks crdp (b0 :: l)))))
         :: rest.
Proof.
  split; [|split].
  - eapply accepts_trace.
    apply (cycle_impl_thread _ (gp_quiet crdp) Idle crdp (gp_drain crdp)).
  - eapply accepts_trace.
    apply (cycle_legacy_thread _ (gp_quiet crdp) Idle crdp (gp_drain crdp)).
  - intros impl rt c b0 l fn_of Hc Hpause Hq Hnd Hf Hown Hfuel.
    destruct (drain_linked_store fuel crdp s c b0 l fn_of Hc Hq Hnd Hf Hown
                Hfuel) as (c1 & _ & Hdrain & _).
    destruct impl.
    + cbn [Impl.call_rcu_thread_loop].
      assert (Impl.pause fuel crdp s = Ret () s [EvReadFlags crdp (flags c)])
        as Hp.
      { unfold Impl.pause.
        rewrite bind_run, (read_flags_run _ _ _ Hc); cbv beta iota.
        rewrite decide_False by (rewrite Hpause; tauto). done. }
      rewrite bind_trace, Hp. cbn [trace_of].
      rewrite bind_trace, Hdrain. cbn [trace_of].
      eexists. rewrite <- !app_assoc. reflexivity.
    + cbn [Legacy.call_rcu_thread_loop].
      rewrite bind_trace, Hdrain. cbn [trace_of].
      eexists. rewrite <- !app_assoc. reflexivity.
Qed.

(** C9. One drain of a queue that holds the linked batch [n :: l]: the
    worker takes the snapshot, waits for a grace period, invokes the
    callback of every node of the batch except the dummy node of the
    queue, once each and in queue order, and then subtracts from [qlen]
    the number of callbacks it has invoked (as an [unsigned long]). The
    function pointer of the dummy node is never called, and the dummy
    node is not counted.

    The store the drain returns in is the store [s1] in which the last
    callback has returned, with that number subtracted from the [qlen]
    that the worker has in [s1]; when neither the other threads nor the
    callbacks write this [qlen], it is the [qlen] the worker had before
    the drain, less the number of callbacks invoked. The drain block is
    the same text in both variants of the worker. *)
Theorem drain_invokes_each_callback_once
    {host : Host}
    (fuel : nat) (crdp : wid) (s : State) (c : call_rcu_data)
    (n : node) (l : list node) (fn_of : node → fn) :
  crds s !! crdp = Some c →
  queue_holds s crdp (n :: l) →
  NoDup (n :: l) →
  (∀ m, m ∈ n :: l → m ≠ dummy_of crdp → node_func s m = Some (fn_of m)) →
  batch_owned crdp (n :: l) →
  (length (n :: l) ≤ fuel)%nat →
  let invoked := real_callbacks crdp (n :: l) in
  let k := wrap_ulong (Z.of_nat (length invoked)) in
  let s1 :=
    callbacks_run fn_of invoked
      (interfere (set_crds <[crdp := snapshot_taken crdp c]> s)) in
  ∃ c1 s',
    crds s1 !! crdp = Some c1 ∧
    s' = set_crds <[crdp := with_qlen (wrap_ulong (qlen c1 - k)) c1]> s1 ∧
    drain fuel crdp s =
    Ret () s'
      ([EvLoadTail crdp (wfq_tail (cbs c));
        EvLoadHead crdp (Some n);
        EvStoreHead crdp None;
        EvXchgTail crdp (HeadOf crdp) (wfq_tail (cbs c));
        EvSynchronizeRcu]
       ++ map (λ m, EvInvoke (fn_of m) m) invoked
       ++ [EvSubQlen crdp k]) ∧
    (qlen_undisturbed crdp →
     q_len s' crdp = Some (wrap_ulong (qlen c - k))) ∧
    NoDup invoked ∧
    (∀ m, m ∈ invoked ↔ m ∈ n :: l ∧ m ≠ dummy_of crdp).
Proof.
  intros Hc Hq Hnd Hf Hown Hfuel invoked k s1.
  destruct (drain_linked_store fuel crdp s c n l fn_of Hc Hq Hnd Hf Hown Hfuel)
    as (c1 & Hc1 & Hrun & Hlen).
  exists c1, (set_crds <[crdp := with_qlen (wrap_ulong (qlen c1 - k)) c1]> s1).
  split; [done|]. split; [done|]. split; [done|]. split; [|split].
  - intros Hund. unfold q_len, set_crds; cbn [crds].
    rewrite lookup_insert_eq. cbn. by rewrite Hlen.
  - by apply NoDup_filter.
  - intros m. unfold invoked, real_callbacks.
    by rewrite list_elem_of_filter, (comm and).
Qed.

(** * Inversion of runs that return *)

Lemma mret_Ret {A} (a b : A) s s' t :
  (mret a : M A) s = Ret b s' t → b = a ∧ s' = s ∧ t = [].
Proof. by intros [= -> -> <-]. Qed.

Lemma gets_Ret {A} (f : State → A) s b s' t :
  gets f s = Ret b s' t → b = f s ∧ s' = s ∧ t = [].
Proof. by intros [= <- <- <-]. Qed.

Lemma modify_Ret f s b s' t :
  modify f s = Ret b s' t → s' = f s ∧ t = [].
Proof. by intros [= <- <-]. Qed.

Lemma emit_Ret e s b s' t :
  emit e s = Ret b s' t → s' = s ∧ t = [e].
Proof. by intros [= <- <-]. Qed.

Create HintDb run.

#[global] Hint Unfold crd upd_crd load_next load_func write_link store_link
  read_flags or_flags and_flags set_flags read_futex dec_futex set_futex
  read_qlen add_qlen sub_qlen load_tail load_head store_head xchg_tail : run.

(** Split a hypothesis [m s = Ret a s' t] along the steps of [m]. *)
Ltac inv_run_step :=
  match goal with
  | H : (_ ≫= _) _ = Ret _ _ _ |- _ =>
      let H1 := fresh "Hrun" in
      apply bind_Ret in H as (? & ? & ? & ? & H1 & H & ?)
  | H : @mret M _ _ _ _ = Ret _ _ _ |- _ => apply mret_Ret in H as (? & ? & ?)
  | H : gets _ _ = Ret _ _ _ |- _ => apply gets_Ret in H as (? & ? & ?)
  | H : modify _ _ = Ret _ _ _ |- _ => apply modify_Ret in H as (? & ?)
  | H : emit _ _ = Ret _ _ _ |- _ => apply emit_Ret in H as (? & ?)
  | H : stop _ _ = Ret _ _ _ |- _ => discriminate H
  | H : Halt _ _ _ = Ret _ _ _ |- _ => discriminate H
  | H : Ret _ _ _ = Ret _ _ _ |- _ => injection H as ? ? ?
  | H : (if decide ?P then _ else _) _ = Ret _ _ _ |- _ => destruct (decide P)
  | H : (if decide ?P then _ else _) = Ret _ _ _ |- _ => destruct (decide P)
  | H : (if ?b then _ else _) _ = Ret _ _ _ |- _ => destruct b eqn:?
  | H : (if ?b then _ else _) = Ret _ _ _ |- _ => destruct b eqn:?
  | H : (match ?x with _ => _ end) _ = Ret _ _ _ |- _ => destruct x eqn:?
  | H : (match ?x with _ => _ end) = Ret _ _ _ |- _ => destruct x eqn:?
  end.

Ltac inv_run := repeat (inv_run_step; simplify_eq).
Ltac inv_prims := repeat (autounfold with run in *; inv_run_step; simplify_eq).

(** Case analysis on membership in an explicit list of events. *)
Ltac elem_cases H :=
  repeat first
    [ apply elem_of_nil in H; destruct H
    | apply elem_of_cons in H as [H|H]; [try discriminate H|] ].

(** * The default worker *)

Section GetDefault.
Context {host : Host} {bits : CallRcuFlags}.

Lemma call_rcu_lock_run s :
  call_rcu_lock s =
  if decide (pthread_mutex_lock_ret (interfere s) = 0)
  then Ret () (interfere s) [EvLock]
  else Halt Died (interfere s) [EvLock].
Proof.
  unfold call_rcu_lock. run_simpl. by destruct (decide _).
Qed.

Lemma call_rcu_unlock_run s :
  call_rcu_unlock s =
  if decide (pthread_mutex_unlock_ret s = 0)
  then Ret () s [EvUnlock]
  else Halt Died s [EvUnlock].
Proof.
  unfold call_rcu_unlock. run_simpl. by destruct (decide _).
Qed.

(** C10. [get_default_call_rcu_data] (the same text in both variants)
    never returns NULL: what it returns is the default worker. When one
    exists it is returned as it is, with no step taken. A worker is
    created only when there is none, with [flags] 0 and [cpu_affinity]
    -1, so that it is neither a realtime nor a pinned worker. A second
    call returns the same worker and creates nothing. On a host whose
    calls succeed the first call does return. *)
Theorem get_default_is_idempotent (s : State) :
  (∀ r s' t,
     get_default_call_rcu_data s = Ret r s' t →
     ∃ w, r = Some w ∧
          default_call_rcu_data s' = Some w ∧
          (∀ w0, default_call_rcu_data s = Some w0 → w = w0 ∧ s' = s ∧ t = []) ∧
          (∀ w1, EvCreateThread w1 ∈ t →
             w1 = w ∧ default_call_rcu_data s = None ∧
             ∃ c, crds s' !! w = Some c ∧
                  flags c = 0 ∧ cpu_affinity c = -1 ∧
                  Z.land (flags c) URCU_CALL_RCU_RT = 0 ∧ cpu_affinity c < 0) ∧
          get_default_call_rcu_data s' = Ret (Some w) s' [])
  ∧ (reliable host → ∃ r s' t, get_default_call_rcu_data s = Ret r s' t)
  ∧ (default_call_rcu_data s = None →
     default_call_rcu_data (interfere s) = None →
     ∀ r s' t, get_default_call_rcu_data s = Ret r s' t →
               ∃ w, t = [EvLock; EvListAdd w; EvMb; EvCreateThread w; EvUnlock]).
Proof.
  assert (∀ s0 w, default_call_rcu_data s0 = Some w →
            get_default_call_rcu_data s0 = Ret (Some w) s0 []) as Hidem.
  { intros s0 w Hd. unfold get_default_call_rcu_data. run_simpl.
    rewrite Hd. by rewrite decide_True. }
  assert (∀ o : option wid, ¬ o ≠ None → o = None) as Hnn.
  { intros [w|] Ho; [by destruct Ho | done]. }
  split; [|split].
  - intros r s' t Hrun.
    unfold get_default_call_rcu_data, call_rcu_lock, call_rcu_unlock,
      call_rcu_data_init, cds_list_add, cmm_smp_mb in Hrun.
    inv_prims; cbn in *; simplify_map_eq.
    + destruct (default_call_rcu_data s) as [w|] eqn:Hd; [|done].
      exists w. split; [done|]. split; [done|]. split; [|split].
      * by intros ? [= ->].
      * intros ? Hin. by apply elem_of_nil in Hin.
      * by apply Hidem.
    + match goal with H : ¬ default_call_rcu_data s ≠ None |- _ =>
        apply Hnn in H; rename H into Hd end.
      destruct (default_call_rcu_data (interfere s)) as [w|] eqn:Hd1; [|done].
      exists w. split; [done|]. split; [done|]. split; [|split].
      * intros ? ?. congruence.
      * intros ? Hin. elem_cases Hin.
      * by apply Hidem.
    + match goal with H : ¬ default_call_rcu_data s ≠ None |- _ =>
        apply Hnn in H; rename H into Hd end.
      exists w. split; [done|]. split; [done|]. split; [|split].
      * intros ? ?. congruence.
      * intros wc Hin.
        assert (wc = w) as -> by (elem_cases Hin; by injection Hin).
        split; [done|]. split; [done|].
        rewrite lookup_insert_eq. eexists. split; [done|]. by cbn.
      * by apply Hidem.
  - intros Hrel.
    assert (∀ s0, pthread_mutex_lock_ret s0 = 0) as Hlk by (intros s0; apply Hrel).
    assert (∀ s0, pthread_mutex_unlock_ret s0 = 0) as Hul by (intros s0; apply Hrel).
    assert (∀ s0, (pthread_create_ret s0).1 = 0) as Hpc by (intros s0; apply Hrel).
    destruct (default_call_rcu_data s) as [w|] eqn:Hd.
    { rewrite (Hidem s w Hd). eauto. }
    unfold get_default_call_rcu_data. run_simpl. rewrite Hd.
    rewrite decide_False by (intros Hx; by apply Hx).
    rewrite bind_run, call_rcu_lock_run, decide_True by apply Hlk.
    run_simpl.
    destruct (default_call_rcu_data (interfere s)) as [w|] eqn:Hd1.
    { rewrite decide_True by done.
      rewrite bind_run, call_rcu_unlock_run, decide_True by apply Hul.
      cbn. eauto. }
    rewrite decide_False by (intros Hx; by apply Hx).
    unfold call_rcu_data_init. run_simpl.
    destruct (Hrel (interfere s)) as (_ & _ & _ & [w Hw]). rewrite Hw.
    unfold cds_list_add, cmm_smp_mb. run_simpl.
    rewrite (upd_crd_run _ _ _ _ (lookup_insert_eq _ _ _)).
    run_simpl. rewrite decide_True by apply Hpc.
    rewrite bind_run.
    erewrite upd_crd_run by (cbn; apply lookup_insert_eq).
    run_simpl.
    rewrite call_rcu_unlock_run, decide_True by apply Hul.
    cbn. eauto.
  - intros Hd Hd1 r s' t Hrun.
    unfold get_default_call_rcu_data, call_rcu_lock, call_rcu_unlock,
      call_rcu_data_init, cds_list_add, cmm_smp_mb in Hrun.
    inv_prims; cbn in *; simplify_map_eq; try congruence.
    eauto.
Qed.

End GetDefault.

#[global] Hint Unfold poll synchronize_rcu futex_wait futex_wake cmm_smp_mb
  call_rcu_lock call_rcu_unlock cds_list_add cds_list_del free_crd
  warn_once : run.

(** * The per-CPU slots *)

Section PerCpu.
Context {host : Host} {bits : CallRcuFlags}.

(** With the array in place, [alloc_cpu_call_rcu_data] does nothing. *)
Lemma impl_alloc_noop s :
  maxcpus s ≠ 0 → Impl.alloc_cpu_call_rcu_data s = Ret () s [].
Proof.
  intros Hm. unfold Impl.alloc_cpu_call_rcu_data.
  destruct have_percpu; [|done]. run_simpl. by rewrite decide_True.
Qed.

Lemma legacy_alloc_noop s :
  maxcpus s ≠ 0 → Legacy.alloc_cpu_call_rcu_data s = Ret () s [].
Proof.
  intros Hm. unfold Legacy.alloc_cpu_call_rcu_data.
  destruct have_percpu; [|done]. run_simpl. by rewrite decide_True.
Qed.

Lemma when_checked_cases s :
  when_checked s =
  let s1 := interfere s in
  if decide (pthread_mutex_lock_ret s1 = 0) then
    if have_percpu then
      if decide (maxcpus s1 ≠ 0) then s1
      else
        let s2 := set_maxcpus (sysconf_nprocessors_conf s1) s1 in
        if decide (sysconf_nprocessors_conf s1 <= 0) then s2
        else if malloc_array s2
             then set_per_cpu
                    (Some (replicate (Z.to_nat (sysconf_nprocessors_conf s1)) None)) s2
             else set_warned warn_alloc_array s2
    else s1
  else s1.
Proof.
  unfold when_checked. rewrite bind_run, call_rcu_lock_run. cbn zeta.
  destruct (decide (pthread_mutex_lock_ret _ = 0)); [|done].
  unfold Impl.alloc_cpu_call_rcu_data. destruct have_percpu; [|done].
  run_simpl. destruct (decide (maxcpus _ ≠ 0)); [done|].
  run_simpl. destruct (decide (_ <= 0)); [done|].
  run_simpl. destruct (malloc_array _); [by run_simpl|].
  run_simpl. unfold warn_once. by destruct (warned_alloc _).
Qed.

Ltac errno_cases :=
  unfold EINVAL, ENOMEM, EEXIST in *; try (split; intros); try done; try lia.

(** X1 (companion of C7, current variant). In [set_cpu_call_rcu_data]
    the array is allocated before the range of [cpu] is checked, so that [-EINVAL] is
    returned exactly when [cpu] is outside [0, maxcpus) for the value
    [maxcpus] has once the array has been allocated; on a process that
    has not allocated the array yet, a [cpu] below the number of
    configured processors is not refused as invalid, and the slot is
    published after the allocation when the array can be had. *)
Theorem impl_set_cpu_allocates_before_range_check s cpu crdp ret s' t :
  Impl.set_cpu_call_rcu_data cpu crdp s = Ret ret s' t →
  maxcpus s' = maxcpus (when_checked s) ∧
  (ret = - EINVAL ↔ cpu < 0 ∨ maxcpus s' <= cpu) ∧
  (have_percpu = true →
   maxcpus (interfere s) = 0 →
   per_cpu_call_rcu_data (interfere s) = None →
   0 <= cpu < sysconf_nprocessors_conf (interfere s) →
   ret ≠ - EINVAL ∧
   maxcpus s' = sysconf_nprocessors_conf (interfere s) ∧
   (ret = 0 →
    t = [EvLock; EvSetArray true; EvSetSlot cpu crdp; EvUnlock] ∧
    slot s' cpu = Some crdp)).
Proof.
  unfold Impl.set_cpu_call_rcu_data, Impl.alloc_cpu_call_rcu_data, slot.
  intros Hrun. rewrite when_checked_cases. cbn zeta.
  inv_prims; cbn in *.
  all: split; [repeat case_decide; try done|].
  all: split; [errno_cases|].
  all: intros Hhave Hfresh Harr Hcpu; try done; try lia.
  all: split; [errno_cases|]; split; [done|]; intros Hret; errno_cases.
  all: try congruence.
  all: rewrite list_lookup_insert_eq; [done|].
  all: eapply lookup_lt_Some; eassumption.
Qed.

Lemma impl_set_cpu_occupied s cpu r w0 :
  slot (interfere s) cpu = Some (Some w0) →
  0 <= cpu < maxcpus (interfere s) →
  pthread_mutex_lock_ret (interfere s) = 0 →
  pthread_mutex_unlock_ret (interfere s) = 0 →
  Impl.set_cpu_call_rcu_data cpu (Some r) s =
  Ret (- EEXIST) (set_errno EEXIST (interfere s)) [EvLock; EvUnlock].
Proof.
  unfold slot. intros Hslot Hcpu Hlk Hul.
  destruct (per_cpu_call_rcu_data (interfere s)) as [arr|] eqn:Harr; [|done].
  unfold Impl.set_cpu_call_rcu_data.
  rewrite bind_run, call_rcu_lock_run, decide_True by done.
  rewrite bind_run, impl_alloc_noop by lia.
  run_simpl. rewrite decide_False by lia.
  run_simpl. rewrite Harr, Hslot.
  rewrite bool_decide_eq_true_2 by done. rewrite bool_decide_eq_true_2 by done.
  cbn [andb]. rewrite bind_run, call_rcu_unlock_run, decide_True by done.
  by run_simpl.
Qed.

Lemma impl_set_cpu_publishes s cpu crdp ret s' t :
  Impl.set_cpu_call_rcu_data cpu crdp s = Ret ret s' t →
  (∀ cpu' v, EvSetSlot cpu' v ∈ t →
     cpu' = cpu ∧ v = crdp ∧ ret = 0 ∧
     (crdp = None ∨ slot (when_checked s) cpu = Some None)) ∧
  (ret = - EEXIST →
     crdp ≠ None ∧
     (∃ w0, slot (when_checked s) cpu = Some (Some w0)) ∧
     per_cpu_call_rcu_data s' = per_cpu_call_rcu_data (when_checked s)).
Proof.
  unfold Impl.set_cpu_call_rcu_data, Impl.alloc_cpu_call_rcu_data, slot.
  intros Hrun. rewrite when_checked_cases. cbn zeta.
  inv_prims; cbn in *.
  all: repeat case_decide; try done.
  all: split; [intros cpu' v Hin; elem_cases Hin|intros Hret; errno_cases].
  all: try (injection Hin as -> ->; split; [done|]; split; [done|]; split; [done|]).
  all: repeat match goal with
         | H : _ && _ = false |- _ => apply andb_false_iff in H as [H|H]
         | H : _ && _ = true |- _ => apply andb_true_iff in H as [? ?]
         | H : bool_decide _ = false |- _ => apply bool_decide_eq_false in H
         | H : bool_decide _ = true |- _ => apply bool_decide_eq_true in H
         end.
  all: try assumption.
  all: try (split; [destruct o; by eauto | congruence]).
  all: destruct crdp as [?|]; [|by left]; destruct o as [?|]; [|by right].
  all: exfalso; match goal with H : ¬ _ |- _ => by apply H end.
Qed.

Lemma legacy_set_cpu_overwrites s cpu crdp ret s' t :
  Legacy.set_cpu_call_rcu_data cpu crdp s = Ret ret s' t →
  ret ≠ - EEXIST ∧ (ret = 0 → slot s' cpu = Some crdp).
Proof.
  unfold Legacy.set_cpu_call_rcu_data, Legacy.alloc_cpu_call_rcu_data, slot.
  intros Hrun. inv_prims; cbn in *.
  all: split; [errno_cases|intros Hret; errno_cases].
  all: rewrite list_lookup_insert_eq; [done|].
  all: eapply lookup_lt_Some; eassumption.
Qed.

(** C4, as the code has it. In the current variant a call for a slot
    that already holds a worker, with a non-NULL [r], returns [-EEXIST]
    (with [errno] set) and leaves the store as it was; a slot is
    published only by a call that returns 0, and then [r] is NULL or the
    slot was NULL when the call checked it; a call that returns [-EEXIST]
    had a non-NULL [r] and an occupied slot, and leaves the array as it
    was. The older variant has no such refusal: it never returns
    [-EEXIST], and whenever it returns 0 the slot holds [r]. *)
Theorem set_cpu_refuses_occupied_slot (s : State) (cpu : Z) :
  (∀ r w0,
     slot (interfere s) cpu = Some (Some w0) →
     0 <= cpu < maxcpus (interfere s) →
     pthread_mutex_lock_ret (interfere s) = 0 →
     pthread_mutex_unlock_ret (interfere s) = 0 →
     Impl.set_cpu_call_rcu_data cpu (Some r) s =
     Ret (- EEXIST) (set_errno EEXIST (interfere s)) [EvLock; EvUnlock]) ∧
  (∀ crdp ret s' t,
     Impl.set_cpu_call_rcu_data cpu crdp s = Ret ret s' t →
     (∀ cpu' v, EvSetSlot cpu' v ∈ t →
        cpu' = cpu ∧ v = crdp ∧ ret = 0 ∧
        (crdp = None ∨ slot (when_checked s) cpu = Some None)) ∧
     (ret = - EEXIST →
        crdp ≠ None ∧
        (∃ w0, slot (when_checked s) cpu = Some (Some w0)) ∧
        per_cpu_call_rcu_data s' = per_cpu_call_rcu_data (when_checked s))) ∧
  (∀ crdp ret s' t,
     Legacy.set_cpu_call_rcu_data cpu crdp s = Ret ret s' t →
     ret ≠ - EEXIST ∧ (ret = 0 → slot s' cpu = Some crdp)).
Proof.
  split; [|split].
  - apply impl_set_cpu_occupied.
  - apply impl_set_cpu_publishes.
  - apply legacy_set_cpu_overwrites.
Qed.

End PerCpu.

(** ** Runs that keep a trace automaton in one state *)

Section Stays.
Context {Q : Type} (step : Q → event → option Q) (q0 : Q).

Lemma stays_bind {A B} (m : M A) (k : A → M B) :
  stays step q0 m → (∀ a, stays step q0 (k a)) → stays step q0 (m ≫= k).
Proof.
  intros Hm Hk. eapply accepts_bind; [apply Hm|]. intros a q ->. apply Hk.
Qed.

Lemma stays_ret {A} (a : A) : stays step q0 (mret a).
Proof. by apply accepts_ret. Qed.

Lemma stays_gets {A} (f : State → A) : stays step q0 (gets f).
Proof. by apply accepts_gets. Qed.

Lemma stays_modify f : stays step q0 (modify f).
Proof. by apply accepts_modify. Qed.

Lemma stays_stop {A} h : stays step q0 (stop (A:=A) h).
Proof. apply accepts_stop. Qed.

Lemma stays_emit e : step q0 e = Some q0 → stays step q0 (emit e).
Proof. intros He. by eapply accepts_emit. Qed.

Lemma stays_crd w : stays step q0 (crd w).
Proof. apply silent_crd. Qed.

Lemma stays_load_next n : stays step q0 (load_next n).
Proof. apply silent_load_next. Qed.

Lemma stays_load_func n : stays step q0 (load_func n).
Proof. apply silent_load_func. Qed.

Lemma stays_write_link p v : stays step q0 (write_link p v).
Proof. apply silent_write_link. Qed.

Lemma stays_for_each l body :
  (∀ w, stays step q0 (body w)) → stays step q0 (for_each l body).
Proof.
  intros Hb. induction l as [|w l IH]; simpl.
  - apply stays_ret.
  - apply stays_bind; [apply Hb | intros; apply IH].
Qed.

Lemma stays_trace {A} (m : M A) s :
  stays step q0 m → is_Some (run step q0 (trace_of (m s))).
Proof. apply accepts_trace. Qed.

End Stays.

Create HintDb stays.
Create HintDb ops.

#[global] Hint Unfold upd_crd store_link
  read_flags or_flags and_flags set_flags read_futex dec_futex set_futex
  read_qlen add_qlen sub_qlen load_tail load_head store_head xchg_tail
  poll synchronize_rcu futex_wait futex_wake cmm_smp_mb
  call_rcu_lock call_rcu_unlock cds_list_add cds_list_del free_crd
  warn_once : ops.

#[global] Hint Resolve stays_ret stays_gets stays_modify stays_stop stays_crd
  stays_load_next stays_load_func stays_write_link : stays.

(** Decompose a computation down to its events; an event is accepted when
    evaluating the automaton on it gives the state back. *)
Ltac stays_step :=
  lazymatch goal with
  | |- stays _ _ (_ ≫= _) => apply stays_bind; [|intros]
  | |- stays _ _ (emit _) => apply stays_emit; reflexivity
  | |- stays _ _ (if ?b then _ else _) => destruct b
  | |- stays _ _ (match ?x with _ => _ end) => destruct x
  | |- stays _ _ _ => first [ solve [eauto with stays] | progress autounfold with ops ]
  end.

Ltac stays_auto := repeat stays_step.

(** The two accesses of the older [call_rcu_data_free] that go through
    an address taken at another type. *)
Lemma stays_store_through {host : Host} {Q : Type}
    (step : Q → event → option Q) (q0 : Q) a v :
  stays step q0 (Legacy.store_through a v).
Proof. unfold Legacy.store_through. stays_auto. Qed.

Lemma stays_add_qlen_through {Q : Type}
    (step : Q → event → option Q) (q0 : Q) p v :
  step q0 (EvAddQlen p v) = Some q0 →
  stays step q0 (Legacy.add_qlen_through p v).
Proof.
  intros He s. unfold Legacy.add_qlen_through.
  destruct (crds s !! p) as [c|] eqn:Hc.
  - assert (stays step q0 (add_qlen p v)) as Hadd.
    { unfold add_qlen. apply stays_bind; [stays_auto|]. intros _.
      by apply stays_emit. }
    apply Hadd.
  - simpl. rewrite He. eauto.
Qed.

#[global] Hint Resolve stays_store_through : stays.
#[global] Hint Extern 1 (stays _ _ (Legacy.add_qlen_through _ _)) =>
  apply stays_add_qlen_through; reflexivity : stays.

Ltac as_stays :=
  lazymatch goal with
  | |- accepts ?st ?m ?q _ => change (stays st q m)
  end.

(** * Tearing down the per-CPU workers *)

Section FreeAll.
Context {host : Host} {bits : CallRcuFlags}.

Lemma fa_get_cpu cpu : stays fa_step Nulling (Impl.get_cpu_call_rcu_data cpu).
Proof. unfold Impl.get_cpu_call_rcu_data. stays_auto. Qed.

Lemma fa_set_cpu cpu :
  stays fa_step Nulling (Impl.set_cpu_call_rcu_data cpu None).
Proof.
  unfold Impl.set_cpu_call_rcu_data, Impl.alloc_cpu_call_rcu_data. stays_auto.
Qed.

Lemma fa_null_slots n cpu crdp :
  stays fa_step Nulling (Impl.null_slots n cpu crdp).
Proof.
  revert cpu crdp. induction n as [|n IH]; intros cpu crdp; simpl.
  - stays_auto.
  - apply stays_bind; [stays_auto|]. intros m.
    destruct (decide _); [|stays_auto].
    apply stays_bind; [apply fa_get_cpu|]. intros c.
    apply stays_bind; [|intros; apply IH].
    destruct c; [|stays_auto].
    apply stays_bind; [apply fa_set_cpu | intros; stays_auto].
Qed.

Lemma fa_wait_flag fuel w mask : stays fa_step Destroying (wait_flag fuel w mask).
Proof. induction fuel; simpl; stays_auto. Qed.

Lemma fa_wait_head fuel w : stays fa_step Destroying (wait_head fuel w).
Proof. induction fuel; simpl; stays_auto. Qed.

Lemma fa_wake w : stays fa_step Destroying (wake_call_rcu_thread w).
Proof. unfold wake_call_rcu_thread, call_rcu_wake_up. stays_auto. Qed.

Lemma fa_get_default : stays fa_step Destroying get_default_call_rcu_data.
Proof.
  unfold get_default_call_rcu_data, call_rcu_data_init. stays_auto.
Qed.

Hint Resolve fa_wait_flag fa_wait_head fa_wake fa_get_default : stays.

Lemma fa_call_rcu_data_free fuel crdp :
  stays fa_step Destroying (Impl.call_rcu_data_free fuel crdp).
Proof.
  unfold Impl.call_rcu_data_free, Impl.stop_worker, Impl.splice_leftover,
    Impl.unlink_and_free.
  stays_auto.
Qed.

Lemma fa_free_slots n fuel cpu crdp :
  stays fa_step Destroying (Impl.free_slots n fuel cpu crdp).
Proof.
  revert cpu. induction n as [|n IH]; intros cpu; simpl.
  - stays_auto.
  - apply stays_bind; [stays_auto|]. intros m.
    destruct (decide _); [|stays_auto].
    destruct (crdp !! Z.to_nat cpu) as [[w|]|]; [| apply IH | stays_auto].
    apply stays_bind; [apply fa_call_rcu_data_free | intros; apply IH].
Qed.

Lemma fa_free_all n fuel :
  accepts fa_step (Impl.free_all_cpu_call_rcu_data n fuel) Nulling (λ _ _, True).
Proof.
  unfold Impl.free_all_cpu_call_rcu_data.
  eapply accepts_bind; [apply (stays_gets fa_step Nulling)|]. intros m q ->.
  destruct (decide _); [by apply accepts_ret|].
  eapply accepts_bind; [apply (stays_gets fa_step Nulling)|]. intros p q ->.
  destruct p.
  - eapply accepts_bind; [apply fa_null_slots|]. intros crdp q ->.
    eapply accepts_bind with (mid := λ _ q, q = Destroying).
    { unfold synchronize_rcu.
      eapply accepts_bind; [by apply accepts_emit_to|]. intros _ q ->.
      by apply accepts_modify. }
    intros _ q ->. eapply accepts_weaken; [apply fa_free_slots|done].
  - eapply (accepts_weaken _ _ _ (λ _ q, q = Nulling)); [|done].
    as_stays. stays_auto.
Qed.

Lemma ns_wait_flag fuel w mask : stays no_sync_step () (wait_flag fuel w mask).
Proof. induction fuel; simpl; stays_auto. Qed.

Lemma ns_wait_head fuel w : stays no_sync_step () (wait_head fuel w).
Proof. induction fuel; simpl; stays_auto. Qed.

Lemma ns_wake w : stays no_sync_step () (wake_call_rcu_thread w).
Proof. unfold wake_call_rcu_thread, call_rcu_wake_up. stays_auto. Qed.

Hint Resolve ns_wait_flag ns_wait_head ns_wake : stays.

Lemma ns_get_cpu cpu : stays no_sync_step () (Legacy.get_cpu_call_rcu_data cpu).
Proof. unfold Legacy.get_cpu_call_rcu_data. stays_auto. Qed.

Lemma ns_set_cpu cpu crdp :
  stays no_sync_step () (Legacy.set_cpu_call_rcu_data cpu crdp).
Proof.
  unfold Legacy.set_cpu_call_rcu_data, Legacy.alloc_cpu_call_rcu_data.
  stays_auto.
Qed.

Lemma ns_call_rcu_data_free fuel crdp :
  stays no_sync_step () (Legacy.call_rcu_data_free fuel crdp).
Proof.
  unfold Legacy.call_rcu_data_free, Legacy.xchg_default. stays_auto.
Qed.

Lemma ns_free_slots n fuel cpu :
  stays no_sync_step () (Legacy.free_slots n fuel cpu).
Proof.
  revert cpu. induction n as [|n IH]; intros cpu; simpl.
  - stays_auto.
  - apply stays_bind; [stays_auto|]. intros m.
    destruct (decide _); [|stays_auto].
    apply stays_bind; [apply ns_get_cpu|]. intros [w|]; [|apply IH].
    apply stays_bind; [apply ns_set_cpu|]. intros _.
    apply stays_bind; [apply ns_call_rcu_data_free | intros; apply IH].
Qed.

Lemma ns_free_all n fuel :
  stays no_sync_step () (Legacy.free_all_cpu_call_rcu_data n fuel).
Proof.
  unfold Legacy.free_all_cpu_call_rcu_data.
  apply stays_bind; [stays_auto|]. intros m.
  destruct (decide _); [stays_auto | apply ns_free_slots].
Qed.

Lemma no_sync_run t :
  is_Some (run no_sync_step () t) → EvSynchronizeRcu ∉ t.
Proof.
  induction t as [|e t IH]; intros Hr Hin; [by apply elem_of_nil in Hin|].
  apply elem_of_cons in Hin as [<-|Hin]; simpl in Hr.
  - by destruct Hr.
  - destruct e; try (by apply IH); by destruct Hr.
Qed.

End FreeAll.

(** ** The first loop of the teardown *)

Section NullSlots.
Context {host : Host} {bits : CallRcuFlags}.

Lemma replicate_cons_end {A} (x : A) k l :
  replicate k x ++ x :: l = replicate (S k) x ++ l.
Proof. by rewrite replicate_S_end, <- app_assoc. Qed.

Lemma get_cpu_in_range s cpu arr v :
  per_cpu_call_rcu_data s = Some arr →
  0 <= cpu < maxcpus s →
  arr !! Z.to_nat cpu = Some v →
  Impl.get_cpu_call_rcu_data cpu s =
  Ret v s [EvDerefArray true; EvDerefSlot cpu v].
Proof.
  intros Harr Hcpu Hv. unfold Impl.get_cpu_call_rcu_data.
  run_simpl. rewrite Harr. run_simpl.
  rewrite (bool_decide_eq_false_2 (cpu < 0 ∨ maxcpus s <= cpu)) by lia.
  rewrite andb_false_r. run_simpl.
  rewrite decide_False by lia. rewrite Hv. by run_simpl.
Qed.

Lemma set_cpu_null s cpu arr :
  calm host →
  per_cpu_call_rcu_data s = Some arr →
  0 <= cpu < maxcpus s →
  (Z.to_nat cpu < length arr)%nat →
  Impl.set_cpu_call_rcu_data cpu None s =
  Ret 0 (set_per_cpu (Some (<[Z.to_nat cpu := None]> arr)) (interfere s))
    [EvLock; EvSetSlot cpu None; EvUnlock].
Proof.
  intros Hcalm Harr Hcpu Hlen.
  destruct (Hcalm s) as (Hp & Hm & _).
  destruct (Hcalm (interfere s)) as (_ & _ & Hlk & _).
  destruct (lookup_lt_is_Some_2 arr (Z.to_nat cpu) Hlen) as [v Hv].
  unfold Impl.set_cpu_call_rcu_data.
  rewrite bind_run, call_rcu_lock_run, decide_True by done.
  rewrite bind_run, impl_alloc_noop by lia.
  run_simpl. rewrite decide_False by lia.
  run_simpl. rewrite Hp, Harr, Hv.
  rewrite (bool_decide_eq_false_2 (None ≠ None)) by (by intros ?).
  rewrite andb_false_r. run_simpl.
  rewrite call_rcu_unlock_run.
  rewrite decide_True by apply Hcalm. done.
Qed.

Lemma null_slots_run rest :
  calm host →
  ∀ fuel prev s,
    per_cpu_call_rcu_data s = Some (replicate (length prev) None ++ rest) →
    maxcpus s = Z.of_nat (length prev + length rest) →
    (length rest ≤ fuel)%nat →
    ∃ s',
      Impl.null_slots fuel (Z.of_nat (length prev)) prev s =
        Ret (prev ++ rest) s' (nulling_trace (length prev) rest) ∧
      per_cpu_call_rcu_data s' =
        Some (replicate (length prev + length rest) None) ∧
      maxcpus s' = maxcpus s.
Proof.
  intros Hcalm. induction rest as [|v rest IH]; intros fuel prev s Harr Hm Hfuel.
  - exists s. rewrite app_nil_r, Nat.add_0_r in *. split; [|done].
    destruct fuel; cbn [Impl.null_slots]; run_simpl;
      rewrite decide_False by lia; by rewrite ?app_nil_r.
  - destruct fuel as [|fuel]; [cbn in Hfuel; lia|].
    cbn [length] in *.
    assert ((replicate (length prev) None ++ v :: rest) !!
              Z.to_nat (Z.of_nat (length prev)) = Some v) as Hv.
    { rewrite Nat2Z.id, lookup_app_r by (by rewrite length_replicate).
      by rewrite length_replicate, Nat.sub_diag. }
    cbn [Impl.null_slots]. run_simpl. rewrite decide_True by lia.
    rewrite bind_run, (get_cpu_in_range _ _ _ _ Harr) by (done || lia).
    cbv beta iota.
    assert (∃ s1 t1,
      (match v with
       | Some _ => Impl.set_cpu_call_rcu_data (Z.of_nat (length prev)) None;; mret ()
       | None => mret ()
       end) s = Ret () s1 t1 ∧
      t1 = (match v with
            | Some _ => [EvLock; EvSetSlot (Z.of_nat (length prev)) None; EvUnlock]
            | None => []
            end) ∧
      per_cpu_call_rcu_data s1 =
        Some (replicate (length (prev ++ [v])) None ++ rest) ∧
      maxcpus s1 = maxcpus s) as (s1 & t1 & Hstep & -> & Harr1 & Hm1).
    { rewrite length_app. cbn [length]. rewrite Nat.add_1_r.
      destruct v as [w|].
      - eexists _, _. split.
        { rewrite bind_run, (set_cpu_null _ _ _ Hcalm Harr); [done|lia|].
          rewrite Nat2Z.id, length_app, length_replicate. cbn. lia. }
        split; [done|]. cbn. destruct (Hcalm s) as (_ & -> & _).
        split; [|done]. f_equal.
        rewrite Nat2Z.id, insert_app_r_alt by (by rewrite length_replicate).
        rewrite length_replicate, Nat.sub_diag.
        apply replicate_cons_end.
      - exists s, []. split; [done|]. split; [done|]. split; [|done].
        rewrite Harr. f_equal. apply replicate_cons_end. }
    rewrite bind_run, Hstep; cbv beta iota.
    destruct (IH fuel (prev ++ [v]) s1) as (s' & Hrun & Harr' & Hm'); [done| |lia|].
    { rewrite Hm1, Hm, length_app. cbn. lia. }
    exists s'. replace (Z.of_nat (length prev) + 1) with
      (Z.of_nat (length (prev ++ [v]))) by (rewrite length_app; cbn; lia).
    rewrite Hrun. rewrite length_app in *. cbn [length] in *.
    rewrite Nat.add_1_r in *. split.
    + rewrite <- (app_assoc prev [v] rest). by cbn [app nulling_trace].
    + split; [|congruence]. rewrite Harr'. f_equal. f_equal. lia.
Qed.

(** The teardown as a whole: the first loop, the grace period, and the
    second loop over the values that the slots held. *)
Lemma free_all_run (n fuel : nat) (arr : list (option wid)) (s : State) :
  calm host →
  per_cpu_call_rcu_data s = Some arr →
  maxcpus s = Z.of_nat (length arr) →
  arr ≠ [] →
  malloc_array s = true →
  (length arr ≤ n)%nat →
  ∃ s1,
    per_cpu_call_rcu_data s1 = Some (replicate (length arr) None) ∧
    Impl.free_all_cpu_call_rcu_data n fuel s =
      match Impl.free_slots n fuel 0 arr (interfere s1) with
      | Ret a s2 t2 =>
          Ret a s2 (nulling_trace 0 arr ++ EvSynchronizeRcu :: t2)
      | Halt h s2 t2 =>
          Halt h s2 (nulling_trace 0 arr ++ EvSynchronizeRcu :: t2)
      end.
Proof.
  intros Hcalm Harr Hm Hne Hp Hn.
  destruct (null_slots_run arr Hcalm n [] s) as (s1 & Hrun & Harr1 & Hm1);
    [done|done|done|].
  exists s1. split; [done|].
  unfold Impl.free_all_cpu_call_rcu_data. run_simpl.
  rewrite decide_False by (destruct arr; [done|cbn in Hm; lia]).
  run_simpl. rewrite Hp.
  cbn [length app] in Hrun. change (Z.of_nat 0) with 0 in Hrun.
  rewrite bind_run, Hrun; cbv beta iota.
  unfold synchronize_rcu. run_simpl.
  by destruct (Impl.free_slots n fuel 0 arr (interfere s1)).
Qed.

(** X7 (companion of C5, current variant). On a machine with per-CPU
    slots whose array [arr] is in place, with a host on which the mutex
    calls succeed and no other thread writes the slots: the first loop of
    [free_all_cpu_call_rcu_data] reads every slot and clears those that
    hold a worker; in the store [s1] in which [synchronize_rcu] is then
    called every slot is NULL; and the second loop, which hands the
    workers to [call_rcu_data_free], runs after the grace period over
    the values [arr] that the slots held. *)
Theorem impl_free_all_nulls_every_slot (n fuel : nat)
    (arr : list (option wid)) (s : State) :
  calm host →
  per_cpu_call_rcu_data s = Some arr →
  maxcpus s = Z.of_nat (length arr) →
  arr ≠ [] →
  malloc_array s = true →
  (length arr ≤ n)%nat →
  ∃ s1,
    per_cpu_call_rcu_data s1 = Some (replicate (length arr) None) ∧
    Impl.free_all_cpu_call_rcu_data n fuel s =
      match Impl.free_slots n fuel 0 arr (interfere s1) with
      | Ret a s2 t2 =>
          Ret a s2 (nulling_trace 0 arr ++ EvSynchronizeRcu :: t2)
      | Halt h s2 t2 =>
          Halt h s2 (nulling_trace 0 arr ++ EvSynchronizeRcu :: t2)
      end.
Proof. apply free_all_run. Qed.

(** C5, as the code has it. In the current variant every run of
    [free_all_cpu_call_rcu_data], as far as it goes, writes slots only
    before its call of [synchronize_rcu], and writes NULL to them, and
    touches the evicted workers (their flags and queue, the registry
    list, their memory) only after it; a run that returns, on a machine
    with per-CPU slots and with the scratch array allocated, has waited
    for that grace period. With the array [arr] of the slots in place,
    on a host on which the mutex calls succeed and no other thread
    writes the slots, the first loop clears every slot that holds a
    worker: in the store [s1] in which [synchronize_rcu] is called
    every slot is NULL, and what follows the grace period is the second
    loop, which hands to [call_rcu_data_free] the workers that the
    slots held. The older variant never calls [synchronize_rcu] in
    this function: it hands each worker to [call_rcu_data_free] as soon
    as its slot is NULL. *)
Theorem free_all_waits_between_nulling_and_destroying
    (n fuel : nat) (s : State) :
  is_Some (run fa_step Nulling
             (trace_of (Impl.free_all_cpu_call_rcu_data n fuel s))) ∧
  (∀ s' t,
     Impl.free_all_cpu_call_rcu_data n fuel s = Ret () s' t →
     maxcpus s > 0 → malloc_array s = true →
     run fa_step Nulling t = Some Destroying ∧ EvSynchronizeRcu ∈ t) ∧
  (∀ arr,
     calm host →
     per_cpu_call_rcu_data s = Some arr →
     maxcpus s = Z.of_nat (length arr) →
     arr ≠ [] →
     malloc_array s = true →
     (length arr ≤ n)%nat →
     ∃ s1,
       per_cpu_call_rcu_data s1 = Some (replicate (length arr) None) ∧
       Impl.free_all_cpu_call_rcu_data n fuel s =
         match Impl.free_slots n fuel 0 arr (interfere s1) with
         | Ret a s2 t2 =>
             Ret a s2 (nulling_trace 0 arr ++ EvSynchronizeRcu :: t2)
         | Halt h s2 t2 =>
             Halt h s2 (nulling_trace 0 arr ++ EvSynchronizeRcu :: t2)
         end) ∧
  EvSynchronizeRcu ∉ trace_of (Legacy.free_all_cpu_call_rcu_data n fuel s).
Proof.
  split; [|split; [|split]].
  - eapply accepts_trace, fa_free_all.
  - intros s' t Hrun Hm Hp.
    unfold Impl.free_all_cpu_call_rcu_data, synchronize_rcu in Hrun.
    inv_run; try lia; try congruence.
    match goal with H : Impl.null_slots _ _ _ _ = _ |- _ => rename H into Hr1 end.
    match goal with H : Impl.free_slots _ _ _ _ _ = _ |- _ => rename H into Hr3 end.
    pose proof (fa_null_slots n 0 [] s) as H1. rewrite Hr1 in H1.
    destruct H1 as (q1 & Hq1 & ->).
    match type of Hr3 with Impl.free_slots _ _ _ ?c ?s2 = _ =>
      pose proof (fa_free_slots n fuel 0 c s2) as H3 end.
    rewrite Hr3 in H3. destruct H3 as (q3 & Hq3 & ->).
    split.
    + cbn [app]. rewrite run_app, Hq1. cbn. by rewrite Hq3.
    + cbn [app]. apply elem_of_app. right. apply list_elem_of_here.
  - intros arr. apply free_all_run.
  - apply no_sync_run. eapply stays_trace, ns_free_all.
Qed.

End NullSlots.

(** * The futex gate *)

Section FutexGate.
Context {host : Host} {bits : CallRcuFlags}.

Lemma gate_wait_head fuel w me q : stays (gate_step me) q (wait_head fuel w).
Proof. induction fuel; simpl; stays_auto. Qed.

Lemma gate_wait_next fuel n tl me q :
  stays (gate_step me) q (wait_next fuel n tl).
Proof. induction fuel; simpl; stays_auto. Qed.

Lemma gate_wait_unpause fuel w me q :
  stays (gate_step me) q (Impl.wait_unpause fuel w).
Proof. induction fuel; simpl; stays_auto. Qed.

Hint Resolve gate_wait_head gate_wait_next gate_wait_unpause : stays.

Lemma gate_invoke_batch fuel w tl n c me q :
  stays (gate_step me) q (invoke_batch fuel w tl n c).
Proof.
  revert n c. induction fuel as [|fuel IH]; intros n c; [stays_auto|].
  cbn [invoke_batch]. stays_auto; apply IH.
Qed.

Hint Resolve gate_invoke_batch : stays.

(** The pause handshake has a fence of its own, which comes when the
    worker is either not using the gate or has armed it. *)
Lemma gate_pause fuel w q :
  q = Unarmed ∨ q = Armed → stays (gate_step w) q (Impl.pause fuel w).
Proof. unfold Impl.pause. intros [-> | ->]; stays_auto. Qed.

(** Reading the tail once the gate is armed. *)
Lemma gate_load_tail w q :
  q = Armed ∨ q = SawEmpty →
  accepts (gate_step w) (load_tail w) q
    (λ tl q', q' = if decide (tl = HeadOf w) then SawEmpty else Armed).
Proof.
  intros Hq. unfold load_tail.
  eapply accepts_bind; [apply silent_crd|]. intros c q' ->.
  eapply accepts_bind with
    (mid := λ _ q', q' = if decide (wfq_tail (cbs c) = HeadOf w)
                         then SawEmpty else Armed).
  - apply accepts_emit_to. cbn.
    destruct (decide (wfq_tail (cbs c) = HeadOf w)) as [Ht|Ht].
    + rewrite decide_True by done. by destruct Hq as [-> | ->].
    + rewrite decide_False by (by intros [_ ?]).
      rewrite decide_True by done. by destruct Hq as [-> | ->].
  - intros _ q' ->. by apply accepts_ret.
Qed.

(** Reading [futex] after the second fence. *)
Lemma gate_read_futex w :
  accepts (gate_step w) (read_futex w) Fenced
    (λ v q', q' = if decide (v = -1) then MayWait else Unarmed).
Proof.
  unfold read_futex.
  eapply accepts_bind; [apply silent_crd|]. intros c q' ->.
  eapply accepts_bind with
    (mid := λ _ q', q' = if decide (futex c = -1) then MayWait else Unarmed).
  - apply accepts_emit_to. cbn.
    destruct (decide (futex c = -1)) as [Hv|Hv].
    + by rewrite decide_True.
    + by rewrite decide_False by (by intros [_ ?]).
  - intros _ q' ->. by apply accepts_ret.
Qed.

(** What is left of a drain once the tail has been read and shows a
    callback. *)
Lemma gate_drain_batch fuel w q :
  stays (gate_step w) q
    (cbs ← wait_head fuel w;
     store_head w None;;
     cbs_tail ← xchg_tail w (HeadOf w);
     synchronize_rcu;;
     cbcount ← invoke_batch fuel w cbs_tail cbs 0;
     sub_qlen w cbcount).
Proof. stays_auto. Qed.

Lemma gate_drain_armed fuel w q :
  q = Armed ∨ q = SawEmpty →
  accepts (gate_step w) (drain fuel w) q (λ _ q', q' = Armed ∨ q' = SawEmpty).
Proof.
  intros Hq. unfold drain.
  eapply accepts_bind; [by apply gate_load_tail|]. intros tl q' ->.
  destruct (decide (HeadOf w ≠ tl)) as [Hne|He].
  - rewrite decide_False by congruence.
    eapply accepts_weaken; [apply gate_drain_batch|]. intros _ q' ->. by left.
  - apply accepts_ret. rewrite decide_True; [by right|].
    destruct (decide (HeadOf w = tl)); [done|]. by destruct He.
Qed.

Lemma gate_drain_unarmed fuel w :
  stays (gate_step w) Unarmed (drain fuel w).
Proof. unfold drain. stays_auto. Qed.

(** The sleep of a worker that uses the gate: whatever it does, the gate
    is armed again when it returns. *)
Lemma gate_sleep w q :
  q = Armed ∨ q = SawEmpty →
  accepts (gate_step w) (sleep false w) q (λ _ q', q' = Armed).
Proof.
  intros Hq. unfold sleep.
  eapply accepts_bind; [by apply gate_load_tail|]. intros tl q' ->.
  destruct (decide (HeadOf w = tl)) as [<-|Hne].
  - rewrite decide_True by done.
    eapply accepts_bind with (mid := λ _ q', q' = Unarmed).
    { unfold call_rcu_wait, cmm_smp_mb.
      eapply accepts_bind with (mid := λ _ q', q' = Fenced);
        [by apply accepts_emit_to|]. intros _ q' ->.
      eapply accepts_bind; [apply gate_read_futex|].
      intros v q' ->. destruct (decide (v = -1)).
      - unfold futex_wait.
        eapply accepts_bind with (mid := λ _ q', q' = Unarmed).
        + apply accepts_emit_to. cbn. by rewrite decide_True.
        + intros _ q' ->. by apply accepts_modify.
      - by apply accepts_ret. }
    intros _ q' ->.
    eapply accepts_bind with (mid := λ _ q', q' = Unarmed).
    { as_stays. stays_auto. }
    intros _ q' ->.
    eapply accepts_bind with (mid := λ _ q', q' = Decremented).
    { unfold dec_futex. eapply accepts_bind; [apply silent_upd_crd|].
      intros _ q' ->. apply accepts_emit_to. cbn. by rewrite decide_True. }
    intros _ q' ->. unfold cmm_smp_mb. by apply accepts_emit_to.
  - rewrite decide_False by congruence. as_stays. stays_auto.
Qed.

Lemma gate_sleep_rt w : stays (gate_step w) Unarmed (sleep true w).
Proof. unfold sleep. stays_auto. Qed.

Lemma gate_read_flags w me q : stays (gate_step me) q (read_flags w).
Proof. stays_auto. Qed.

Lemma gate_impl_loop n fuel w :
  accepts (gate_step w) (Impl.call_rcu_thread_loop n fuel false w) Armed
    (λ _ _, True) ∧
  accepts (gate_step w) (Impl.call_rcu_thread_loop n fuel true w) Unarmed
    (λ _ _, True).
Proof.
  induction n as [|n [IH1 IH2]]; [split; apply accepts_stop|].
  cbn [Impl.call_rcu_thread_loop]. split.
  - eapply accepts_bind; [apply gate_pause; by right|]. intros _ q ->.
    eapply accepts_bind; [apply gate_drain_armed; by left|].
    intros ? q Hq. cbv beta in Hq.
    eapply accepts_bind; [apply gate_read_flags|].
    intros f q' Hq'. cbv beta in Hq'. subst q'.
    destruct (decide _); [by apply accepts_ret|].
    eapply accepts_bind with (mid := λ _ q', q' = q).
    { apply accepts_emit_to. by destruct Hq as [-> | ->]. }
    intros ? q' Hq'. cbv beta in Hq'. subst q'.
    eapply accepts_bind; [by apply gate_sleep|]. intros _ q' ->.
    eapply accepts_bind; [by apply accepts_emit_to|]. intros _ q' ->.
    apply IH1.
  - eapply accepts_bind; [apply gate_pause; by left|]. intros _ q ->.
    eapply accepts_bind; [apply gate_drain_unarmed|]. intros _ q ->.
    eapply accepts_bind; [apply gate_read_flags|]. intros f q' ->.
    destruct (decide _); [by apply accepts_ret|].
    eapply accepts_bind; [by apply accepts_emit_to|]. intros _ q' ->.
    eapply accepts_bind; [apply gate_sleep_rt|]. intros _ q' ->.
    eapply accepts_bind; [by apply accepts_emit_to|]. intros _ q' ->.
    apply IH2.
Qed.

Lemma gate_legacy_loop n fuel w :
  accepts (gate_step w) (Legacy.call_rcu_thread_loop n fuel false w) Armed
    (λ _ _, True) ∧
  accepts (gate_step w) (Legacy.call_rcu_thread_loop n fuel true w) Unarmed
    (λ _ _, True).
Proof.
  induction n as [|n [IH1 IH2]]; [split; apply accepts_stop|].
  cbn [Legacy.call_rcu_thread_loop]. split.
  - eapply accepts_bind; [apply gate_drain_armed; by left|].
    intros ? q Hq. cbv beta in Hq.
    eapply accepts_bind; [apply gate_read_flags|].
    intros f q' Hq'. cbv beta in Hq'. subst q'.
    destruct (decide _); [by apply accepts_ret|].
    eapply accepts_bind; [by apply gate_sleep|]. intros _ q' ->.
    apply IH1.
  - eapply accepts_bind; [apply gate_drain_unarmed|]. intros _ q ->.
    eapply accepts_bind; [apply gate_read_flags|]. intros f q' ->.
    destruct (decide _); [by apply accepts_ret|].
    eapply accepts_bind; [apply gate_sleep_rt|]. intros _ q' ->.
    apply IH2.
Qed.

(** An event other than a wait is accepted anywhere. *)
Lemma gate_emit_any w e q :
  is_Some (gate_step w q e) →
  accepts (gate_step w) (emit e) q (λ _ _, True).
Proof. intros [q' Hq']. by eapply accepts_emit. Qed.

(** What is left of the thread after its loop has no wait. *)
Lemma gate_reset w (rt : bool) q :
  accepts (gate_step w) (if rt then mret () else cmm_smp_mb;; set_futex w 0)
    q (λ _ _, True).
Proof.
  destruct rt; [by apply accepts_ret|].
  eapply accepts_bind with (mid := λ _ _, True).
  - unfold cmm_smp_mb. by apply gate_emit_any.
  - intros _ q' _. unfold set_futex.
    eapply accepts_bind; [apply silent_upd_crd|]. intros _ q'' ->.
    by apply gate_emit_any.
Qed.

Lemma gate_or_flags w m q :
  accepts (gate_step w) (or_flags w m) q (λ _ _, True).
Proof.
  unfold or_flags.
  eapply accepts_bind; [apply silent_upd_crd|]. intros _ q' ->.
  by apply gate_emit_any.
Qed.

Lemma gate_prologue w (rt : bool) :
  accepts (gate_step w) (if rt then mret () else dec_futex w;; cmm_smp_mb)
    Unarmed (λ _ q, q = if rt then Unarmed else Armed).
Proof.
  destruct rt; [by apply accepts_ret|].
  eapply accepts_bind with (mid := λ _ q, q = Decremented).
  - unfold dec_futex. eapply accepts_bind; [apply silent_upd_crd|].
    intros _ q ->. apply accepts_emit_to. cbn. by rewrite decide_True.
  - intros _ q ->. unfold cmm_smp_mb. by apply accepts_emit_to.
Qed.

Lemma gate_impl_thread n fuel w :
  accepts (gate_step w) (Impl.call_rcu_thread n fuel w) Unarmed (λ _ _, True).
Proof.
  unfold Impl.call_rcu_thread.
  eapply accepts_bind; [apply gate_read_flags|]. intros f q ->.
  eapply accepts_bind with (mid := λ _ q, q = Unarmed).
  { as_stays. unfold set_thread_cpu_affinity. stays_auto. }
  intros r q ->.
  destruct (decide _); [apply accepts_stop|].
  eapply accepts_bind; [by apply accepts_emit_to|]. intros _ q ->.
  eapply accepts_bind; [apply silent_modify|]. intros _ q ->.
  eapply accepts_bind; [apply gate_prologue|]. intros _ q ->.
  eapply accepts_bind with (mid := λ _ _, True).
  { destruct (bool_decide _); apply gate_impl_loop. }
  intros _ q _.
  eapply accepts_bind with (mid := λ _ _, True); [apply gate_reset|].
  intros _ q' _.
  eapply accepts_bind with (mid := λ _ _, True); [apply gate_or_flags|].
  intros _ q'' _. by apply gate_emit_any.
Qed.

Lemma gate_legacy_thread n fuel w :
  accepts (gate_step w) (Legacy.call_rcu_thread n fuel w) Unarmed (λ _ _, True).
Proof.
  unfold Legacy.call_rcu_thread.
  eapply accepts_bind; [apply gate_read_flags|]. intros f q ->.
  eapply accepts_bind with (mid := λ _ q, q = Unarmed).
  { as_stays. unfold set_thread_cpu_affinity. stays_auto. }
  intros r q ->.
  destruct (decide _); [apply accepts_stop|].
  eapply accepts_bind; [apply silent_modify|]. intros _ q ->.
  eapply accepts_bind; [apply gate_prologue|]. intros _ q ->.
  eapply accepts_bind with (mid := λ _ _, True).
  { destruct (bool_decide _); apply gate_legacy_loop. }
  intros _ q _.
  eapply accepts_bind with (mid := λ _ _, True); [apply gate_reset|].
  intros _ q' _. apply gate_or_flags.
Qed.

End FutexGate.

(** X5 (the worker side of the gate of C8). In every run of the worker
    thread, of either variant and against any host, the thread waits on
    no [futex] but its own, and only when, in this order and with none of
    these steps undone in between, it has decremented [futex], issued a
    fence, read the tail of its queue and found the queue empty, issued
    a fence and read -1 from [futex]. *)
Theorem worker_waits_only_behind_the_gate
    {host : Host} {bits : CallRcuFlags} (n fuel : nat) (crdp : wid) (s : State) :
  is_Some (run (gate_step crdp) Unarmed
             (trace_of (Impl.call_rcu_thread n fuel crdp s))) ∧
  is_Some (run (gate_step crdp) Unarmed
             (trace_of (Legacy.call_rcu_thread n fuel crdp s))).
Proof.
  split; eapply accepts_trace.
  - apply gate_impl_thread.
  - apply gate_legacy_thread.
Qed.

(** The automaton does refuse a wait that is not behind the gate: with
    no step before it, with a callback seen in the queue, with the first
    fence missing, with a [futex] that is not -1. *)
Example gate_refuses_unguarded_wait :
  run (gate_step 0%nat) Unarmed [EvFutexWait 0%nat] = None
  ∧ run (gate_step 0%nat) Unarmed
      [EvDecFutex 0%nat; EvMb; EvLoadTail 0%nat (NextOf (rcu_head_at 7));
       EvMb; EvReadFutex 0%nat (-1); EvFutexWait 0%nat] = None
  ∧ run (gate_step 0%nat) Unarmed
      [EvDecFutex 0%nat; EvLoadTail 0%nat (HeadOf 0%nat);
       EvMb; EvReadFutex 0%nat (-1); EvFutexWait 0%nat] = None
  ∧ run (gate_step 0%nat) Unarmed
      [EvDecFutex 0%nat; EvMb; EvLoadTail 0%nat (HeadOf 0%nat);
       EvMb; EvReadFutex 0%nat 0; EvFutexWait 0%nat] = None
  ∧ run (gate_step 0%nat) Unarmed
      [EvDecFutex 0%nat; EvMb; EvLoadTail 0%nat (HeadOf 0%nat);
       EvMb; EvReadFutex 0%nat (-1); EvFutexWait 0%nat] = Some Unarmed.
Proof. done. Qed.

(** X6 (the producer side of the gate of C8). [call_rcu_wake_up] on a
    worker [w] issues a fence and reads [futex]; when it reads -1 it
    stores 0 to [futex] and wakes one waiter, and otherwise it does
    nothing more. *)
Theorem wake_up_resets_futex_and_wakes (w : wid) (c : call_rcu_data) (s : State) :
  crds s !! w = Some c →
  call_rcu_wake_up w s =
    if decide (futex c = -1) then
      Ret () (set_crds <[w := with_futex 0 c]> s)
        [EvMb; EvReadFutex w (-1); EvSetFutex w 0; EvFutexWake w]
    else Ret () s [EvMb; EvReadFutex w (futex c)].
Proof.
  intros Hc. unfold call_rcu_wake_up, cmm_smp_mb.
  rewrite bind_run; cbn [emit]; cbv beta iota.
  rewrite bind_run, (read_futex_run _ _ _ Hc); cbv beta iota.
  destruct (decide (futex c = -1)) as [Hv|Hv].
  - rewrite bind_run, (set_futex_run _ _ _ _ Hc); cbv beta iota.
    unfold futex_wake. cbn [emit]. by rewrite Hv.
  - done.
Qed.

(** * Quiescing the workers before a fork *)

Section Fork.
Context {host : Host} {bits : CallRcuFlags}.

(** A wait on a flag only ends on a read that shows the flag. *)
Lemma wait_flag_observes fuel w mask s s' t :
  wait_flag fuel w mask s = Ret () s' t →
  ∃ t0 v, t = t0 ++ [EvReadFlags w v] ∧ Z.land v mask ≠ 0.
Proof.
  revert s t. induction fuel as [|fuel IH]; intros s t Hrun; simpl in Hrun.
  - unfold read_flags in Hrun. inv_prims. cbn. by eexists [], _.
  - unfold read_flags, poll in Hrun. inv_prims.
    + match goal with H : wait_flag _ _ _ _ = _ |- _ =>
        apply IH in H as (t0 & v & -> & Hv) end.
      cbn. by eexists (_ :: _ :: t0), v.
    + cbn. by eexists [], _.
Qed.

(** What happens to one element of the list happens within the loop. *)
Lemma for_each_element l body s s' t w :
  for_each l body s = Ret () s' t →
  w ∈ l →
  ∃ sa sb tw t1 t2, body w sa = Ret () sb tw ∧ t = t1 ++ tw ++ t2.
Proof.
  revert s t. induction l as [|x l IH]; intros s t Hrun Hin; simpl in Hrun.
  - by apply elem_of_nil in Hin.
  - apply bind_Ret in Hrun as ([] & s1 & ta & tb & Hx & Hl & ->).
    apply elem_of_cons in Hin as [->|Hin].
    + exists s, s1, ta, [], tb. by split.
    + destruct (IH _ _ Hl Hin) as (sa & sb & tw & t1 & t2 & Hw & ->).
      exists sa, sb, tw, (ta ++ t1), t2. split; [done|].
      by rewrite <- !app_assoc.
Qed.

Lemma request_pause_keeps_list w s s' t :
  (or_flags w URCU_CALL_RCU_PAUSE;; cmm_smp_mb;; wake_call_rcu_thread w) s
    = Ret () s' t →
  call_rcu_data_list s' = call_rcu_data_list s.
Proof.
  unfold wake_call_rcu_thread, call_rcu_wake_up. intros Hrun.
  inv_prims; by cbn.
Qed.

Lemma for_each_keeps_list l body s s' t :
  (∀ w s s' t, body w s = Ret () s' t →
     call_rcu_data_list s' = call_rcu_data_list s) →
  for_each l body s = Ret () s' t →
  call_rcu_data_list s' = call_rcu_data_list s.
Proof.
  intros Hb. revert s t. induction l as [|x l IH]; intros s t Hrun;
    simpl in Hrun.
  - by inv_run.
  - apply bind_Ret in Hrun as ([] & s1 & ta & tb & Hx & Hl & ->).
    rewrite (IH _ _ Hl). by eapply Hb.
Qed.

(** What [call_rcu_before_fork] reads. In the current variant, when
    the function returns, it has, for every worker of the registry list
    (as the list stands once the mutex is held), set [PAUSE] in the
    flags of the worker and, later, read a value of these flags that
    has [PAUSED] set; whether the worker has set this [PAUSED] since
    is another matter (see [ForkCycle]). The older variant only takes
    the mutex: in every run its trace is the lock alone, and what it
    does to the store is what the other threads do while it waits for
    the mutex. *)
Lemma before_fork_reads_paused (fuel : nat) (s : State) :
  (∀ s' t,
     Impl.call_rcu_before_fork fuel s = Ret () s' t →
     ∀ w, w ∈ call_rcu_data_list (interfere s) →
       ∃ t1 t2 t3 v,
         t = t1 ++ [EvOrFlags w URCU_CALL_RCU_PAUSE] ++ t2 ++
             [EvReadFlags w v] ++ t3 ∧
         Z.land v URCU_CALL_RCU_PAUSED ≠ 0) ∧
  trace_of (Legacy.call_rcu_before_fork s) = [EvLock] ∧
  state_of (Legacy.call_rcu_before_fork s) = interfere s.
Proof.
  split; [|split].
  - intros s' t Hrun w Hw.
    unfold Impl.call_rcu_before_fork in Hrun.
    apply bind_Ret in Hrun as ([] & s1 & ta & tb & Hlk & Hrun & ->).
    assert (s1 = interfere s ∧ ta = [EvLock]) as [-> ->].
    { rewrite call_rcu_lock_run in Hlk. destruct (decide _); by simplify_eq. }
    apply bind_Ret in Hrun as (l1 & s2 & tc & td & Hg & Hrun & ->).
    apply gets_Ret in Hg as (-> & -> & ->).
    apply bind_Ret in Hrun as ([] & s3 & te & tf & Hl1 & Hrun & ->).
    apply bind_Ret in Hrun as (l2 & s4 & tg & th & Hg & Hl2 & ->).
    apply gets_Ret in Hg as (-> & -> & ->).
    destruct (for_each_element _ _ _ _ _ w Hl1 Hw)
      as (sa & sb & tw & t1 & t2 & Hbody & ->).
    assert (∃ tw', tw = EvOrFlags w URCU_CALL_RCU_PAUSE :: tw') as [tw' ->].
    { unfold or_flags in Hbody.
      apply bind_Ret in Hbody as ([] & ? & ? & ? & Hor & _ & ->).
      inv_prims. eauto. }
    assert (call_rcu_data_list s3 = call_rcu_data_list (interfere s)) as Hl.
    { eapply for_each_keeps_list; [|exact Hl1].
      intros w0 sa0 sb0 t0 Hb. exact (request_pause_keeps_list _ _ _ _ Hb). }
    rewrite Hl in Hl2.
    destruct (for_each_element _ _ _ _ _ w Hl2 Hw)
      as (sc & sd & tw2 & t3 & t4 & Hwait & ->).
    apply wait_flag_observes in Hwait as (t0 & v & -> & Hv).
    exists (EvLock :: t1), (tw' ++ t2 ++ t3 ++ t0), t4, v.
    split; [|done]. cbn. rewrite <- !app_assoc. cbn. by rewrite <- !app_assoc.
  - unfold Legacy.call_rcu_before_fork. rewrite call_rcu_lock_run.
    by destruct (decide _).
  - unfold Legacy.call_rcu_before_fork. rewrite call_rcu_lock_run.
    by destruct (decide _).
Qed.

End Fork.

(** * Destroying a worker *)

Section Destroy.
Context {host : Host} {bits : CallRcuFlags}.

Lemma unlink_and_free_run r s s' t :
  Impl.unlink_and_free r s = Ret () s' t →
  s' = set_crds (delete r) (set_list (filter (λ x, x ≠ r)) (interfere s)) ∧
  t = [EvLock; EvListDel r; EvUnlock; EvFree r].
Proof.
  unfold Impl.unlink_and_free. intros Hrun. inv_prims. by cbn.
Qed.

(** X2 (companion of C6, current variant). A call for a worker other
    than the default
    one that returns has, as its last steps, taken the mutex, unlinked
    the worker from the registry list, released the mutex and freed the
    structure, whatever the queue of the worker held: the worker is no
    longer in the list and its structure is no longer allocated. *)
Theorem impl_free_always_unlinks_and_frees fuel r s s' t :
  Impl.call_rcu_data_free fuel (Some r) s = Ret () s' t →
  default_call_rcu_data s ≠ Some r →
  (∃ t0, t = t0 ++ [EvLock; EvListDel r; EvUnlock; EvFree r]) ∧
  (r ∉ call_rcu_data_list s') ∧
  crds s' !! r = None.
Proof.
  unfold Impl.call_rcu_data_free. intros Hrun Hd.
  apply bind_Ret in Hrun as (d & s1 & ta & tb & Hg & Hrun & ->).
  apply gets_Ret in Hg as (-> & -> & ->).
  destruct (decide _) as [Heq|_]; [by rewrite <- Heq in Hd|].
  apply bind_Ret in Hrun as ([] & s2 & tc & td & _ & Hrun & ->).
  apply bind_Ret in Hrun as ([] & s3 & te & tf & _ & Hrun & ->).
  apply unlink_and_free_run in Hrun as [-> ->].
  split; [|split].
  - exists (tc ++ te). cbn. by rewrite <- app_assoc.
  - cbn. rewrite list_elem_of_filter. tauto.
  - cbn. apply lookup_delete_eq.
Qed.

(** A call for NULL or for the default worker does nothing, in both
    variants. *)
Lemma free_refuses_null_and_default fuel crdp s :
  crdp = None ∨ crdp = default_call_rcu_data s →
  Impl.call_rcu_data_free fuel crdp s = Ret () s [] ∧
  Legacy.call_rcu_data_free fuel crdp s = Ret () s [].
Proof.
  intros Hc. unfold Impl.call_rcu_data_free, Legacy.call_rcu_data_free.
  run_simpl. destruct crdp as [r|]; [|done].
  destruct Hc as [Hc|Hc]; [done|]. by rewrite !decide_True.
Qed.

(** The older variant on a stopped worker whose queue is empty: it reads
    the flags and the tail, and returns; the worker stays in the registry
    list and its structure stays allocated. *)
Lemma legacy_free_skips_empty_queue fuel r c s :
  crds s !! r = Some c →
  default_call_rcu_data s ≠ Some r →
  Z.land (flags c) URCU_CALL_RCU_STOPPED ≠ 0 →
  wfq_tail (cbs c) = HeadOf r →
  Legacy.call_rcu_data_free fuel (Some r) s =
  Ret () s [EvReadFlags r (flags c); EvLoadTail r (HeadOf r)].
Proof.
  intros Hc Hd Hst Htl. unfold Legacy.call_rcu_data_free.
  run_simpl. rewrite decide_False by congruence.
  rewrite bind_run, (read_flags_run _ _ _ Hc).
  rewrite decide_False by done. run_simpl.
  rewrite (load_tail_run _ _ _ Hc), Htl.
  by rewrite decide_False by (intros Hx; by apply Hx).
Qed.

End Destroy.

(** * Splicing the leftover callbacks onto the default worker *)

Section Splice.
Context {host : Host} {bits : CallRcuFlags}.

Lemma queue_holds_cons s w n l :
  queue_holds s w (n :: l) ↔
  q_head s w = Some (Some n) ∧ ∃ tl, q_tail s w = Some tl ∧ linked s n l tl.
Proof.
  unfold queue_holds, q_head, q_tail. split.
  - intros (c & -> & Hh & Hl). cbn. rewrite Hh. eauto.
  - intros (Hh & tl & Ht & Hl). destruct (crds s !! w) as [c|]; [|done].
    cbn in *. exists c. simplify_eq. by rewrite Hh.
Qed.

Lemma queue_holds_nil s w :
  queue_holds s w [] ↔ q_head s w = Some None ∧ q_tail s w = Some (HeadOf w).
Proof.
  unfold queue_holds, q_head, q_tail. split.
  - intros (c & -> & Hh & Ht). cbn. by rewrite Hh, Ht.
  - intros (Hh & Ht). destruct (crds s !! w) as [c|]; [|done].
    cbn in *. exists c. by simplify_eq.
Qed.

(** A store through the [next] word of a node changes that word and
    nothing else that the queue protocol reads. *)
Lemma write_link_next m v s :
  is_Some (node_next s m) →
  ∃ s', write_link (NextOf m) v s = Ret () s' [] ∧
        node_next s' m = Some v ∧
        (∀ m', m' ≠ m → node_next s' m' = node_next s m') ∧
        (∀ m', node_func s' m' = node_func s m') ∧
        same_queue_words s s' ∧
        (∀ w, q_flags s' w = q_flags s w ∧ q_futex s' w = q_futex s w).
Proof.
  intros [v0 Hm]. destruct m as [w|a]; cbn in *.
  - destruct (crds s !! w) as [c|] eqn:Hc; [|done].
    eexists. split; [by apply upd_crd_run|]. cbn.
    split; [by rewrite lookup_insert_eq|].
    split; [|split; [|split]]; [| |intros w'|intros w'].
    + intros [w'|a'] Hne; cbn; [|done].
      rewrite lookup_insert_ne; [done|congruence].
    + by intros [w'|a'].
    + unfold q_head, q_tail, q_len. cbn.
      destruct (decide (w' = w)) as [->|Hne].
      * by rewrite lookup_insert_eq, Hc.
      * by rewrite lookup_insert_ne.
    + unfold q_flags, q_futex. cbn.
      destruct (decide (w' = w)) as [->|Hne].
      * by rewrite lookup_insert_eq, Hc.
      * by rewrite lookup_insert_ne.
  - destruct (heads s !! a) as [h|] eqn:Hh; [|done].
    eexists. split; [done|]. cbn.
    split; [by rewrite lookup_insert_eq|].
    split; [|split; [|split]]; [| |done|done].
    + intros [w'|a'] Hne; cbn; [done|].
      rewrite lookup_insert_ne; [done|congruence].
    + intros [w'|a']; cbn; [done|].
      destruct (decide (a' = a)) as [->|Hne].
      * by rewrite lookup_insert_eq, Hh.
      * by rewrite lookup_insert_ne.
Qed.

(** Linking a second chain behind the last node of a first one. *)
Lemma linked_append s s' n1 l1 tl1 n2 l2 tl2 m :
  linked s n1 l1 tl1 →
  linked s n2 l2 tl2 →
  NoDup (n1 :: l1) →
  (∀ x, x ∈ n1 :: l1 → x ∉ n2 :: l2) →
  tl1 = NextOf m →
  node_next s' m = Some (Some n2) →
  (∀ m', m' ≠ m → node_next s' m' = node_next s m') →
  linked s' n1 (l1 ++ n2 :: l2) tl2.
Proof.
  intros Hl1 Hl2 Hnd Hdis Htl Hm Hfr.
  assert (m ∉ n2 :: l2 → linked s' n2 l2 tl2) as Hsecond.
  { intros Hnin. eapply linked_frame; [|done].
    intros x Hx. apply Hfr. by intros ->. }
  revert n1 Hl1 Hnd Hdis. induction l1 as [|n1' l1 IH]; intros n1 Hl1 Hnd Hdis.
  - cbn in Hl1. destruct Hl1 as [_ ->]. injection Htl as <-.
    cbn. split; [done|]. apply Hsecond, Hdis. in_list.
  - cbn in Hl1. destruct Hl1 as [Hn1 Hl1].
    apply NoDup_cons in Hnd as [Hnin Hnd].
    cbn. split.
    + rewrite Hfr; [done|]. intros ->. apply Hnin.
      clear -Hl1 Htl. revert n1' Hl1. induction l1 as [|x l1 IH]; intros n1' Hl1.
      * cbn in Hl1. destruct Hl1 as [_ ->]. injection Htl as ->. in_list.
      * cbn in Hl1. destruct Hl1 as [_ Hl1]. apply list_elem_of_further.
        by apply IH.
    + apply IH; [done|done|]. intros x Hx. apply Hdis. in_list.
Qed.

Lemma linked_last s n l m :
  linked s n l (NextOf m) → node_next s m = Some None ∧ m ∈ n :: l.
Proof.
  revert n. induction l as [|n' l IH]; intros n; cbn.
  - intros [Hn [= <-]]. split; [done | in_list].
  - intros [_ Hl]. destruct (IH _ Hl) as [? ?]. split; [done | in_list].
Qed.

Lemma q_words_insert w c' s w' :
  q_head (set_crds <[w := c']> s) w' =
    (if decide (w' = w) then Some (wfq_head (cbs c')) else q_head s w') ∧
  q_tail (set_crds <[w := c']> s) w' =
    (if decide (w' = w) then Some (wfq_tail (cbs c')) else q_tail s w') ∧
  q_len (set_crds <[w := c']> s) w' =
    (if decide (w' = w) then Some (qlen c') else q_len s w').
Proof.
  unfold q_head, q_tail, q_len. cbn. destruct (decide (w' = w)) as [->|Hne].
  - by rewrite lookup_insert_eq.
  - by rewrite lookup_insert_ne.
Qed.

(** [wake_call_rcu_thread] writes the futex word at most. *)
Lemma wake_call_rcu_thread_run w c s :
  crds s !! w = Some c →
  ∃ s', wake_call_rcu_thread w s = Ret () s' (wake_trace w c) ∧
        (∀ m, node_next s' m = node_next s m) ∧
        same_queue_words s s'.
Proof.
  intros Hc. unfold wake_call_rcu_thread, wake_trace, call_rcu_wake_up.
  rewrite bind_run, (read_flags_run _ _ _ Hc). cbn.
  destruct (decide (Z.land (flags c) URCU_CALL_RCU_RT = 0)); cbn.
  - unfold cmm_smp_mb. run_simpl.
    rewrite (read_futex_run _ _ _ Hc). cbn.
    destruct (decide (futex c = -1)); cbn.
    + rewrite bind_run, (set_futex_run _ _ _ _ Hc). cbn.
      unfold futex_wake. cbn. eexists. split; [done|]. split.
      * intros m. by apply (node_next_set_crd _ c).
      * intros w'. pose proof (q_words_insert w (with_futex 0 c) s w') as Hq.
        destruct (decide (w' = w)) as [->|Hne]; [|done].
        unfold q_head, q_tail, q_len in *. by rewrite Hc in *.
    + by eexists.
  - by eexists.
Qed.

Lemma q_len_lookup s w v :
  q_len s w = Some v → ∃ c, crds s !! w = Some c ∧ qlen c = v.
Proof.
  unfold q_len. destruct (crds s !! w) as [c|]; [|done].
  intros [= <-]. eauto.
Qed.

(** The last three statements of the splice: the length of [r] is added
    to the length of the default worker [d], which is then woken up. *)
Lemma splice_accounting r d cr cd s :
  crds s !! r = Some cr →
  crds s !! d = Some cd →
  ∃ s' cd',
    (q ← read_qlen r; add_qlen d q;; wake_call_rcu_thread d) s =
      Ret () s' (EvReadQlen r (qlen cr) :: EvAddQlen d (qlen cr) ::
                 wake_trace d cd') ∧
    flags cd' = flags cd ∧ futex cd' = futex cd ∧
    (∀ m, node_next s' m = node_next s m) ∧
    (∀ w, q_head s' w = q_head s w ∧ q_tail s' w = q_tail s w) ∧
    q_len s' d = Some (wrap_ulong (qlen cd + qlen cr)).
Proof.
  intros Hr Hd.
  rewrite bind_run, (read_qlen_run _ _ _ Hr). cbn.
  rewrite bind_run, (add_qlen_run _ _ _ _ Hd). cbn.
  set (cd' := with_qlen (wrap_ulong (qlen cd + qlen cr)) cd).
  set (s1 := set_crds <[d := cd']> s).
  assert (crds s1 !! d = Some cd') as Hd1 by apply lookup_insert_eq.
  destruct (wake_call_rcu_thread_run d cd' s1 Hd1) as (s' & -> & Hnx & Hq).
  exists s', cd'. split; [done|]. split; [done|]. split; [done|].
  split; [|split].
  - intros m. rewrite Hnx. by apply (node_next_set_crd _ cd).
  - intros w. destruct (Hq w) as (-> & -> & _). unfold s1.
    destruct (q_words_insert d cd' s w) as (-> & -> & _).
    destruct (decide (w = d)) as [->|Hne]; [|done].
    unfold q_head, q_tail. by rewrite Hd.
  - destruct (Hq d) as (_ & _ & ->). unfold s1.
    destruct (q_words_insert d cd' s d) as (_ & _ & ->).
    by rewrite decide_True.
Qed.

Lemma wake_trace_ext w c c' :
  flags c' = flags c → futex c' = futex c → wake_trace w c' = wake_trace w c.
Proof. unfold wake_trace. by intros -> ->. Qed.

Lemma q_words_lookup s w hd tl :
  q_head s w = Some hd → q_tail s w = Some tl →
  ∃ c, crds s !! w = Some c ∧ wfq_head (cbs c) = hd ∧ wfq_tail (cbs c) = tl.
Proof.
  unfold q_head, q_tail. destruct (crds s !! w) as [c|]; [|done].
  intros [= <-] [= <-]. eauto.
Qed.

Lemma q_words_transfer s s' w c :
  crds s !! w = Some c →
  q_len s' w = q_len s w → q_flags s' w = q_flags s w →
  q_futex s' w = q_futex s w →
  ∃ c', crds s' !! w = Some c' ∧
        qlen c' = qlen c ∧ flags c' = flags c ∧ futex c' = futex c.
Proof.
  unfold q_len, q_flags, q_futex. intros ->.
  destruct (crds s' !! w) as [c'|]; [|done].
  intros [= ?] [= ?] [= ?]. eauto.
Qed.

(** What the splice does when the queue of [r] holds a batch: the batch
    is taken off the queue of [r] and linked behind what the queue of the
    default worker [d] holds. *)
Lemma splice_leftover_run fuel r d n l bd cr cd s :
  default_call_rcu_data s = Some d → r ≠ d →
  crds s !! r = Some cr → crds s !! d = Some cd →
  queue_holds s r (n :: l) → queue_holds s d bd →
  NoDup bd → (∀ x, x ∈ bd → x ∉ n :: l) →
  ∃ s',
    Impl.splice_leftover fuel r s =
      Ret () s'
        ([EvLoadTail r (wfq_tail (cbs cr)); EvLoadHead r (Some n);
          EvStoreHead r None;
          EvXchgTail r (HeadOf r) (wfq_tail (cbs cr));
          EvXchgTail d (wfq_tail (cbs cr)) (wfq_tail (cbs cd));
          EvStoreLink (wfq_tail (cbs cd)) (Some n);
          EvReadQlen r (qlen cr); EvAddQlen d (qlen cr)] ++ wake_trace d cd) ∧
    queue_holds s' d (bd ++ n :: l) ∧
    queue_holds s' r [] ∧
    q_len s' d = Some (wrap_ulong (qlen cd + qlen cr)).
Proof.
  intros Hdef Hne Hr Hd Hqr Hqd Hnd Hdis.
  destruct Hqr as (c & Hc & Hhead & Hl). rewrite Hr in Hc. injection Hc as <-.
  destruct (linked_tail_is_next _ _ _ _ Hl) as [mr Hmr].
  unfold Impl.splice_leftover.
  rewrite bind_run, (load_tail_run _ _ _ Hr); cbv beta iota.
  rewrite decide_True by (rewrite Hmr; done).
  rewrite bind_run, (wait_head_ready _ _ _ _ _ Hr Hhead); cbv beta iota.
  rewrite bind_run, (store_head_run _ _ _ _ Hr); cbv beta iota.
  set (cr1 := with_cbs (with_head None (cbs cr)) cr).
  set (s1 := set_crds <[r := cr1]> s).
  assert (crds s1 !! r = Some cr1) as Hr1 by apply lookup_insert_eq.
  rewrite bind_run, (xchg_tail_run _ _ _ _ Hr1); cbv beta iota.
  set (cr2 := with_cbs (with_tail (HeadOf r) (cbs cr1)) cr1).
  set (s2 := set_crds <[r := cr2]> s1).
  assert (crds s2 !! d = Some cd) as Hd2.
  { unfold s2, s1. cbn. by rewrite !lookup_insert_ne. }
  assert (∀ m, node_next s2 m = node_next s m) as Hnx2.
  { intros m. unfold s2. rewrite (node_next_set_crd _ cr1); [|done..].
    unfold s1. by rewrite (node_next_set_crd _ cr). }
  assert (default_call_rcu_data s2 = Some d) as Hdef2 by done.
  assert (gets default_call_rcu_data s2 = Ret (Some d) s2 []) as Hgets.
  { unfold gets. by rewrite Hdef2. }
  assert (get_default_call_rcu_data s2 = Ret (Some d) s2 []) as Hget.
  { unfold get_default_call_rcu_data. rewrite bind_run, Hgets; cbv beta iota.
    by rewrite decide_True. }
  rewrite bind_run, Hget; cbv beta iota.
  rewrite bind_run, Hgets; cbv beta iota.
  rewrite bind_run, (xchg_tail_run _ _ _ _ Hd2); cbv beta iota.
  set (cd3 := with_cbs (with_tail (wfq_tail (cbs cr1)) (cbs cd)) cd).
  set (s3 := set_crds <[d := cd3]> s2).
  assert (crds s3 !! d = Some cd3) as Hd3 by apply lookup_insert_eq.
  assert (∀ m, node_next s3 m = node_next s m) as Hnx3.
  { intros m. unfold s3. by rewrite (node_next_set_crd _ cd). }
  assert (crds s3 !! r = Some cr2) as Hr3.
  { unfold s3. cbn. rewrite lookup_insert_ne by done. apply lookup_insert_eq. }
  unfold store_link.
  destruct bd as [|n1 l1].
  - destruct Hqd as (c & Hc & Hdh & Hdt). rewrite Hd in Hc. injection Hc as <-.
    rewrite Hdt.
    assert (write_link (HeadOf d) (Some n) s3 =
            Ret () (set_crds <[d := with_cbs (with_head (Some n) (cbs cd3)) cd3]> s3) [])
      as Hw
      by exact (upd_crd_run d (λ c, with_cbs (with_head (Some n) (cbs c)) c)
                  cd3 s3 Hd3).
    set (cd4 := with_cbs (with_head (Some n) (cbs cd3)) cd3) in *.
    set (s4 := set_crds <[d := cd4]> s3) in *.
    assert (crds s4 !! d = Some cd4) as Hd4 by apply lookup_insert_eq.
    assert (crds s4 !! r = Some cr2) as Hr4.
    { unfold s4. cbn. by rewrite lookup_insert_ne. }
    destruct (splice_accounting r d cr2 cd4 s4 Hr4 Hd4)
      as (s5 & cd5 & Hacc & Hfl & Hfu & Hnx5 & Hq5 & Hlen5).
    exists s5. split.
    { rewrite bind_run, bind_run, Hw; cbv beta iota.
      unfold emit at 1; cbv beta iota. rewrite Hacc.
      by rewrite (wake_trace_ext _ cd cd5). }
    split; [|split; [|done]].
    + apply queue_holds_cons. destruct (Hq5 d) as [-> ->].
      unfold q_head, q_tail. rewrite Hd4. cbn. split; [done|].
      eexists. split; [done|]. eapply linked_frame; [|done].
      intros m _. rewrite Hnx5. unfold s4.
      rewrite (node_next_set_crd _ cd3); done.
    + apply queue_holds_nil. destruct (Hq5 r) as [-> ->].
      unfold q_head, q_tail. by rewrite Hr4.
  - destruct Hqd as (c & Hc & Hdh & Hdl). rewrite Hd in Hc. injection Hc as <-.
    destruct (linked_tail_is_next _ _ _ _ Hdl) as [md Hmd]. rewrite Hmd in *.
    destruct (linked_last _ _ _ _ Hdl) as [Hlast Hin].
    destruct (write_link_next md (Some n) s3) as (s4 & Hw & Hmd4 & Hfr4 & _ & Hq4 & Hfl4).
    { rewrite Hnx3, Hlast. eauto. }
    destruct (q_words_transfer s3 s4 r cr2 Hr3) as (cr4 & Hr4 & Hlen4 & _);
      [apply Hq4 | apply Hfl4 | apply Hfl4 |].
    destruct (q_words_transfer s3 s4 d cd3 Hd3) as (cd4 & Hd4 & Hdlen4 & Hdfl4 & Hdfu4);
      [apply Hq4 | apply Hfl4 | apply Hfl4 |].
    destruct (splice_accounting r d cr4 cd4 s4 Hr4 Hd4)
      as (s5 & cd5 & Hacc & Hfl & Hfu & Hnx5 & Hq5 & Hlen5).
    exists s5. split.
    { rewrite bind_run, bind_run, Hw; cbv beta iota.
      unfold emit at 1; cbv beta iota. rewrite Hacc, Hlen4.
      rewrite (wake_trace_ext _ cd cd5); [done| |].
      - by rewrite Hfl, Hdfl4.
      - by rewrite Hfu, Hdfu4. }
    split; [|split].
    + apply queue_holds_cons. destruct (Hq5 d) as [-> ->].
      destruct (Hq4 d) as (-> & -> & _).
      unfold q_head, q_tail. rewrite Hd3. cbn. split; [by rewrite Hdh|].
      eexists. split; [done|].
      eapply (linked_append s s5); [exact Hdl|exact Hl|done|done|done| |].
      * by rewrite Hnx5.
      * intros m' Hm'. by rewrite Hnx5, Hfr4, Hnx3.
    + apply queue_holds_nil. destruct (Hq5 r) as [-> ->].
      destruct (Hq4 r) as (-> & -> & _).
      unfold q_head, q_tail. by rewrite Hr3.
    + by rewrite Hlen5, Hdlen4, Hlen4.
Qed.

(** X3 (companion of C2, current variant).  [call_rcu_data_free] for a
    stopped worker [r] other than the default worker [d], whose queue
    holds the batch [n :: l] while the queue of [d] holds [bd]: the
    function takes the batch off the queue of [r], exchanges the tail of
    the queue of [d] for the tail of the batch, stores the first node of
    the batch through the previous tail, and adds the length of [r] to the
    length of [d]; in the store [s'] reached at that point the queue of
    [d] holds [bd] followed by the batch, in order, and the queue of [r]
    is empty.  The function then goes on with the unlinking and the
    release of [r] from [s']. *)
Theorem impl_free_splices_leftover_onto_default fuel r d n l bd cr cd s :
  default_call_rcu_data s = Some d → r ≠ d →
  crds s !! r = Some cr → crds s !! d = Some cd →
  Z.land (flags cr) URCU_CALL_RCU_STOPPED ≠ 0 →
  queue_holds s r (n :: l) → queue_holds s d bd →
  NoDup bd → (∀ x, x ∈ bd → x ∉ n :: l) →
  ∃ s',
    queue_holds s' d (bd ++ n :: l) ∧
    queue_holds s' r [] ∧
    q_len s' d = Some (wrap_ulong (qlen cd + qlen cr)) ∧
    Impl.call_rcu_data_free fuel (Some r) s =
      let spliced :=
        [EvReadFlags r (flags cr);
         EvLoadTail r (wfq_tail (cbs cr)); EvLoadHead r (Some n);
         EvStoreHead r None;
         EvXchgTail r (HeadOf r) (wfq_tail (cbs cr));
         EvXchgTail d (wfq_tail (cbs cr)) (wfq_tail (cbs cd));
         EvStoreLink (wfq_tail (cbs cd)) (Some n);
         EvReadQlen r (qlen cr); EvAddQlen d (qlen cr)] ++ wake_trace d cd in
      match Impl.unlink_and_free r s' with
      | Ret a s2 t2 => Ret a s2 (spliced ++ t2)
      | Halt h s2 t2 => Halt h s2 (spliced ++ t2)
      end.
Proof.
  intros Hdef Hne Hr Hd Hst Hqr Hqd Hnd Hdis.
  destruct (splice_leftover_run fuel r d n l bd cr cd s)
    as (s' & Hsp & Hd' & Hr' & Hlen); try done.
  exists s'. split; [done|]. split; [done|]. split; [done|].
  unfold Impl.call_rcu_data_free.
  assert (gets default_call_rcu_data s = Ret (Some d) s []) as Hgets.
  { unfold gets. by rewrite Hdef. }
  rewrite bind_run, Hgets; cbv beta iota.
  rewrite decide_False by congruence.
  assert (Impl.stop_worker fuel r s = Ret () s [EvReadFlags r (flags cr)]) as Hstop.
  { unfold Impl.stop_worker. rewrite bind_run, (read_flags_run _ _ _ Hr).
    cbv beta iota. by rewrite decide_False. }
  rewrite bind_run, Hstop; cbv beta iota.
  rewrite bind_run, Hsp; cbv beta iota zeta.
  destruct (Impl.unlink_and_free r s'); by rewrite !app_nil_l, ?app_assoc.
Qed.

End Splice.

(** * Picking the worker of a callback *)

Section Dispatch.
Context {host : Host} {bits : CallRcuFlags} {sched : Sched}.

Lemma get_default_known s w :
  default_call_rcu_data s = Some w →
  get_default_call_rcu_data s = Ret (Some w) s [].
Proof.
  intros Hd. unfold get_default_call_rcu_data. run_simpl.
  rewrite Hd. by rewrite decide_True.
Qed.

Lemma get_call_rcu_data_selects s w t :
  selects s w t → Impl.get_call_rcu_data s = Ret (Some w) s t.
Proof.
  intros Hsel. unfold Impl.get_call_rcu_data.
  destruct Hsel as [w Ht|w arr Ht Hh Hcpu Harr Hslot|w Ht Hm Hd
                   |w arr Ht Hh Hcpu Harr Hslot Hd].
  - run_simpl. rewrite Ht. by rewrite decide_True.
  - run_simpl. rewrite Ht. rewrite decide_False by (by intros ?).
    run_simpl. rewrite decide_True by lia. run_simpl. rewrite Hh.
    rewrite (get_cpu_in_range _ _ _ _ Harr Hcpu Hslot). cbv beta iota.
    by rewrite decide_True.
  - run_simpl. rewrite Ht. rewrite decide_False by (by intros ?).
    run_simpl. rewrite decide_False by lia.
    by rewrite (get_default_known _ _ Hd).
  - run_simpl. rewrite Ht. rewrite decide_False by (by intros ?).
    run_simpl. rewrite decide_True by lia. run_simpl. rewrite Hh.
    rewrite (get_cpu_in_range _ _ _ _ Harr Hcpu Hslot). cbv beta iota.
    rewrite decide_False by (by intros ?).
    rewrite (get_default_known _ _ Hd). done.
Qed.

Lemma get_default_returns s r s' t :
  get_default_call_rcu_data s = Ret r s' t →
  ∃ w, r = Some w ∧ default_call_rcu_data s' = Some w.
Proof.
  intros Hrun.
  unfold get_default_call_rcu_data, call_rcu_lock, call_rcu_unlock,
    call_rcu_data_init, cds_list_add, cmm_smp_mb in Hrun.
  inv_prims; cbn in *; simplify_map_eq.
  - destruct (default_call_rcu_data s) as [w|] eqn:Hd; [|done]. eauto.
  - destruct (default_call_rcu_data (interfere s)) as [w|] eqn:Hd; [|done].
    eauto.
  - eauto.
Qed.

Lemma get_cpu_returns cpu s r s' t :
  Impl.get_cpu_call_rcu_data cpu s = Ret (Some r) s' t →
  EvDerefSlot cpu (Some r) ∈ t.
Proof.
  intros Hrun. unfold Impl.get_cpu_call_rcu_data in Hrun.
  inv_prims; cbn in *; in_list.
Qed.

(** X8. [get_call_rcu_data] picks the worker of the calling thread when
    it has one, then the worker in the per-CPU slot of the processor the
    thread runs on, then the default worker; on a store that has such a
    worker the call returns it and changes nothing. Whenever the call
    returns, it returns a worker, never NULL: the thread's own, one read
    from a per-CPU slot, or the default worker of the store it leaves. *)
Theorem get_call_rcu_data_picks_by_priority (s : State) :
  (∀ w t, selects s w t → Impl.get_call_rcu_data s = Ret (Some w) s t) ∧
  (∀ r s' t,
     Impl.get_call_rcu_data s = Ret r s' t →
     ∃ w, r = Some w ∧
          (thread_call_rcu_data s = Some w ∨
           (thread_call_rcu_data s = None ∧
            ∃ cpu, EvDerefSlot cpu (Some w) ∈ t) ∨
           (thread_call_rcu_data s = None ∧
            default_call_rcu_data s' = Some w))).
Proof.
  split; [apply get_call_rcu_data_selects|].
  intros r s' t Hrun. unfold Impl.get_call_rcu_data in Hrun.
  apply bind_Ret in Hrun as (th & s1 & t1 & t2 & Hth & Hrun & ->).
  apply gets_Ret in Hth as (-> & -> & ->).
  destruct (decide (thread_call_rcu_data s ≠ None)) as [Hsome|Hnone].
  { apply mret_Ret in Hrun as (-> & -> & ->).
    destruct (thread_call_rcu_data s) as [w|]; [eauto|done]. }
  assert (thread_call_rcu_data s = None) as Hth.
  { destruct (thread_call_rcu_data s); [by destruct Hnone|done]. }
  apply bind_Ret in Hrun as (m & s1 & t1 & t2' & Hm & Hrun & ->).
  apply gets_Ret in Hm as (-> & -> & ->).
  destruct (decide (maxcpus s > 0)).
  - apply bind_Ret in Hrun as (cpu & s1 & t1 & t3 & Hc & Hrun & ->).
    apply gets_Ret in Hc as (-> & -> & ->).
    apply bind_Ret in Hrun as (c & s1 & t1 & t4 & Hget & Hrun & ->).
    destruct (decide (c ≠ None)) as [Hc|Hc].
    + apply mret_Ret in Hrun as (-> & -> & ->).
      destruct c as [w|]; [|done]. exists w. split; [done|]. right. left.
      split; [done|]. eexists. cbn. rewrite app_nil_r.
      by eapply get_cpu_returns.
    + apply get_default_returns in Hrun as (w & -> & Hd). eauto 10.
  - apply get_default_returns in Hrun as (w & -> & Hd). eauto 10.
Qed.

End Dispatch.

(** * Enqueueing a callback *)

Section CallRcu.
Context {host : Host} {bits : CallRcuFlags} {sched : Sched}.

Lemma bind_assoc_run {A B C} (m : M A) (k1 : A → M B) (k2 : B → M C) s :
  (m ≫= λ a, k1 a ≫= k2) s = ((m ≫= k1) ≫= k2) s.
Proof.
  rewrite !bind_run. destruct (m s) as [a s1 t1|]; [|done].
  rewrite bind_run. destruct (k1 a s1) as [b s2 t2|]; [|done].
  destruct (k2 b s2); by rewrite app_assoc.
Qed.

Lemma same_registry_refl s : same_registry s s.
Proof. by repeat split. Qed.

Lemma same_registry_trans s1 s2 s3 :
  same_registry s1 s2 → same_registry s2 s3 → same_registry s1 s3.
Proof.
  intros (? & ? & ? & ? & ?) (? & ? & ? & ? & ?).
  repeat split; congruence.
Qed.

Lemma same_registry_set_crds g s : same_registry s (set_crds g s).
Proof. by repeat split. Qed.

Lemma same_registry_set_heads g s : same_registry s (set_heads g s).
Proof. by repeat split. Qed.

Lemma write_link_registry p v s s' t :
  write_link p v s = Ret () s' t → same_registry s s'.
Proof.
  destruct p as [w|[w|a]]; cbn; intros Hrun.
  - unfold upd_crd in Hrun. inv_prims. apply same_registry_set_crds.
  - unfold upd_crd in Hrun. inv_prims. apply same_registry_set_crds.
  - destruct (heads s !! a); [|done]. injection Hrun as <- <-.
    apply same_registry_set_heads.
Qed.

(** The two stores that initialise the caller's record. *)
Lemma prepare_head_run a f s :
  ∃ s0,
    (cds_wfq_node_init a;; store_func a f) s = Ret () s0 [] ∧
    node_next s0 (rcu_head_at a) = Some None ∧
    node_func s0 (rcu_head_at a) = Some f ∧
    (∀ m, m ≠ rcu_head_at a →
       node_next s0 m = node_next s m ∧ node_func s0 m = node_func s m) ∧
    crds s0 = crds s ∧
    same_registry s s0 ∧
    ∃ g, s0 = set_heads g s.
Proof.
  eexists. split.
  { rewrite bind_run. unfold cds_wfq_node_init. cbn [modify]. cbv beta iota.
    unfold store_func. cbn. rewrite lookup_insert_eq. done. }
  cbn. rewrite lookup_insert_eq. split; [done|]. split; [done|].
  split; [|split; [done|split; [done|]]].
  - intros [w|a'] Hne; cbn; [done|].
    rewrite !lookup_insert_ne by congruence. done.
  - by exists (λ h, <[a := {| rh_next := None; rh_func := f |}]>
                  (<[a := {| rh_next := None;
                             rh_func := from_option rh_func 0%nat (h !! a) |}]> h)).
Qed.

(** An enqueue on a queue that holds [b] leaves it holding [b] followed
    by the node. *)
Lemma cds_wfq_enqueue_run w n b c s :
  crds s !! w = Some c →
  queue_holds s w b →
  NoDup b → n ∉ b →
  node_next s n = Some None →
  ∃ s' c',
    cds_wfq_enqueue w n s =
      Ret () s' [EvXchgTail w (NextOf n) (wfq_tail (cbs c));
                 EvStoreLink (wfq_tail (cbs c)) (Some n)] ∧
    queue_holds s' w (b ++ [n]) ∧
    crds s' !! w = Some c' ∧
    qlen c' = qlen c ∧ flags c' = flags c ∧ futex c' = futex c ∧
    (∀ m, node_func s' m = node_func s m) ∧
    (∀ m, m ∉ b → node_next s' m = node_next s m) ∧
    same_registry s s'.
Proof.
  intros Hc Hq Hnd Hn Hnx. unfold cds_wfq_enqueue, store_link.
  rewrite bind_run, (xchg_tail_run _ _ _ _ Hc); cbv beta iota.
  set (c1 := with_cbs (with_tail (NextOf n) (cbs c)) c).
  set (s1 := set_crds <[w := c1]> s).
  assert (crds s1 !! w = Some c1) as Hc1 by apply lookup_insert_eq.
  assert (∀ m, node_next s1 m = node_next s m) as Hnx1.
  { intros m. unfold s1. by rewrite (node_next_set_crd _ c). }
  destruct b as [|n1 l1].
  - destruct Hq as (c0 & Hc0 & Hh & Ht). rewrite Hc in Hc0. injection Hc0 as <-.
    rewrite Ht.
    assert (write_link (HeadOf w) (Some n) s1 =
            Ret () (set_crds <[w := with_cbs (with_head (Some n) (cbs c1)) c1]> s1) [])
      as Hw
      by exact (upd_crd_run w (λ c, with_cbs (with_head (Some n) (cbs c)) c)
                  c1 s1 Hc1).
    set (c2 := with_cbs (with_head (Some n) (cbs c1)) c1) in *.
    set (s2 := set_crds <[w := c2]> s1) in *.
    assert (∀ m, node_next s2 m = node_next s m) as Hnx2.
    { intros m. unfold s2. by rewrite (node_next_set_crd _ c1). }
    exists s2, c2. split.
    { rewrite bind_run, Hw; cbv beta iota. done. }
    split.
    { exists c2. split; [apply lookup_insert_eq|]. split; [done|].
      cbn. by rewrite Hnx2. }
    split; [apply lookup_insert_eq|]. split; [done|]. split; [done|].
    split; [done|]. split; [by intros [?|?]|]. split; [by intros|].
    by repeat split.
  - destruct Hq as (c0 & Hc0 & Hh & Hl). rewrite Hc in Hc0. injection Hc0 as <-.
    destruct (linked_tail_is_next _ _ _ _ Hl) as [m Hm]. rewrite Hm in *.
    destruct (linked_last _ _ _ _ Hl) as [Hlast Hin].
    destruct (write_link_next m (Some n) s1)
      as (s2 & Hw & Hm2 & Hfr2 & Hfn2 & Hq2 & Hfl2).
    { rewrite Hnx1, Hlast. eauto. }
    destruct (q_words_transfer s1 s2 w c1 Hc1) as (c2 & Hc2 & Hlen2 & Hf2 & Hu2);
      [apply Hq2 | apply Hfl2 | apply Hfl2 |].
    exists s2, c2. split.
    { rewrite bind_run, Hw; cbv beta iota. done. }
    split.
    { apply queue_holds_cons. destruct (Hq2 w) as (-> & -> & _).
      unfold q_head, q_tail. rewrite Hc1. cbn. split; [by rewrite Hh|].
      eexists. split; [done|].
      eapply (linked_append s s2 n1 l1 _ n [] (NextOf n) m);
        [exact Hl|done|done| |done|done|].
      - intros x Hx Hx'. apply list_elem_of_singleton in Hx'. by subst.
      - intros m' Hm'. by rewrite Hfr2, Hnx1. }
    split; [done|]. split; [done|]. split; [done|]. split; [done|].
    split; [intros m'; by rewrite Hfn2|].
    split.
    { intros m' Hm'. rewrite Hfr2, Hnx1; [done|]. by intros ->. }
    eapply same_registry_trans; [apply same_registry_set_crds|].
    by eapply write_link_registry.
Qed.

Lemma queue_holds_frame s s' w b :
  q_head s' w = q_head s w → q_tail s' w = q_tail s w →
  (∀ m, m ∈ b → node_next s' m = node_next s m) →
  queue_holds s w b → queue_holds s' w b.
Proof.
  intros Hh Ht Hn. destruct b as [|n l].
  - rewrite !queue_holds_nil. by rewrite Hh, Ht.
  - rewrite !queue_holds_cons. rewrite Hh, Ht.
    intros (? & tl & ? & Hl). split; [done|]. exists tl. split; [done|].
    by eapply linked_frame.
Qed.

(** [wake_call_rcu_thread], in full. *)
Lemma wake_call_rcu_thread_cases w c s :
  crds s !! w = Some c →
  wake_call_rcu_thread w s =
  Ret ()
    (if decide (Z.land (flags c) URCU_CALL_RCU_RT = 0 ∧ futex c = -1)
     then set_crds <[w := with_futex 0 c]> s else s)
    (wake_trace w c).
Proof.
  intros Hc. unfold wake_call_rcu_thread, wake_trace, call_rcu_wake_up.
  rewrite bind_run, (read_flags_run _ _ _ Hc); cbv beta iota.
  destruct (decide (Z.land (flags c) URCU_CALL_RCU_RT = 0)) as [Hrt|Hrt].
  - unfold cmm_smp_mb. rewrite bind_run; cbn [emit]; cbv beta iota.
    rewrite bind_run, (read_futex_run _ _ _ Hc); cbv beta iota.
    destruct (decide (futex c = -1)) as [Hf|Hf].
    + rewrite decide_True by done.
      rewrite bind_run, (set_futex_run _ _ _ _ Hc); cbv beta iota.
      unfold futex_wake. by cbn.
    + rewrite decide_False by (by intros [_ ?]). done.
  - rewrite decide_False by (by intros [? _]). done.
Qed.

(** The last two statements of [call_rcu]. *)
Lemma enqueue_accounting w c s :
  crds s !! w = Some c →
  ∃ s' c',
    (add_qlen w 1;; wake_call_rcu_thread w) s =
      Ret () s' (EvAddQlen w 1 :: wake_trace w c) ∧
    crds s' !! w = Some c' ∧
    cbs c' = cbs c ∧ flags c' = flags c ∧
    qlen c' = wrap_ulong (qlen c + 1) ∧
    (∀ m, node_next s' m = node_next s m) ∧
    (∀ m, node_func s' m = node_func s m) ∧
    same_registry s s'.
Proof.
  intros Hc.
  rewrite bind_run, (add_qlen_run _ _ _ _ Hc); cbv beta iota.
  set (c1 := with_qlen (wrap_ulong (qlen c + 1)) c).
  set (s1 := set_crds <[w := c1]> s).
  assert (crds s1 !! w = Some c1) as Hc1 by apply lookup_insert_eq.
  rewrite (wake_call_rcu_thread_cases _ _ _ Hc1).
  rewrite (wake_trace_ext w c c1) by done.
  destruct (decide _).
  - exists (set_crds <[w := with_futex 0 c1]> s1), (with_futex 0 c1).
    split; [done|]. split; [apply lookup_insert_eq|].
    split; [done|]. split; [done|]. split; [done|].
    split; [|split; [by intros [?|?]|done]].
    intros m. rewrite (node_next_set_crd _ c1) by done.
    unfold s1. by rewrite (node_next_set_crd _ c).
  - exists s1, c1. split; [done|]. split; [done|].
    split; [done|]. split; [done|]. split; [done|].
    split; [|split; [by intros [?|?]|done]].
    intros m. unfold s1. by rewrite (node_next_set_crd _ c).
Qed.

Lemma selects_frame s s' w t :
  same_registry s s' →
  sched_getcpu s' = sched_getcpu s →
  selects s w t → selects s' w t.
Proof.
  intros (_ & Ht & Hd & Hp & Hm) Hcpu Hsel.
  destruct Hsel; rewrite <- ?Hcpu.
  - apply selects_thread. congruence.
  - eapply selects_cpu; rewrite ?Hcpu; try done; congruence.
  - apply selects_default_no_cpus; congruence.
  - eapply selects_default_empty_slot; rewrite ?Hcpu; try done; congruence.
Qed.

(** What [call_rcu] does on a store in which [get_call_rcu_data] has a
    worker [w] to pick, whose queue holds [b]. *)
Lemma call_rcu_run a f w c b t0 s :
  selects s w t0 →
  (∀ g, sched_getcpu (set_heads g s) = sched_getcpu s) →
  crds s !! w = Some c →
  queue_holds s w b → NoDup b → rcu_head_at a ∉ b →
  ∃ s' c',
    Impl.call_rcu a f s =
      Ret () s'
        (t0 ++
         [EvXchgTail w (NextOf (rcu_head_at a)) (wfq_tail (cbs c));
          EvStoreLink (wfq_tail (cbs c)) (Some (rcu_head_at a));
          EvAddQlen w 1] ++ wake_trace w c) ∧
    queue_holds s' w (b ++ [rcu_head_at a]) ∧
    node_func s' (rcu_head_at a) = Some f ∧
    (∀ m, m ≠ rcu_head_at a → node_func s' m = node_func s m) ∧
    crds s' !! w = Some c' ∧
    flags c' = flags c ∧ qlen c' = wrap_ulong (qlen c + 1) ∧
    same_registry s s'.
Proof.
  intros Hsel Hcpu Hc Hq Hnd Ha.
  destruct (prepare_head_run a f s)
    as (s0 & Hprep & Hnx0 & Hfn0 & Hfr0 & Hcrds0 & Hreg0 & g & Hg).
  assert (selects s0 w t0) as Hsel0.
  { eapply selects_frame; [done| |done]. rewrite Hg. apply Hcpu. }
  assert (crds s0 !! w = Some c) as Hc0 by (by rewrite Hcrds0).
  assert (queue_holds s0 w b) as Hq0.
  { eapply queue_holds_frame; [| | |exact Hq].
    - unfold q_head. by rewrite Hcrds0.
    - unfold q_tail. by rewrite Hcrds0.
    - intros m Hm. apply Hfr0. by intros ->. }
  destruct (cds_wfq_enqueue_run w (rcu_head_at a) b c s0)
    as (s1 & c1 & Henq & Hq1 & Hc1 & Hlen1 & Hfl1 & Hfu1 & Hfn1 & Hnx1 & Hreg1);
    try done.
  destruct (enqueue_accounting w c1 s1 Hc1)
    as (s2 & c2 & Hacc & Hc2 & Hcbs2 & Hfl2 & Hlen2 & Hnx2 & Hfn2 & Hreg2).
  exists s2, c2. split.
  { unfold Impl.call_rcu.
    rewrite (bind_assoc_run (cds_wfq_node_init a) (λ _, store_func a f)).
    rewrite bind_run, Hprep; cbv beta iota.
    rewrite bind_run, (get_call_rcu_data_selects _ _ _ Hsel0); cbv beta iota.
    rewrite bind_run, Henq; cbv beta iota. rewrite Hacc.
    rewrite (wake_trace_ext w c c1) by done.
    done. }
  split.
  { eapply queue_holds_frame; [| | |exact Hq1].
    - unfold q_head. rewrite Hc1, Hc2. cbn. by rewrite Hcbs2.
    - unfold q_tail. rewrite Hc1, Hc2. cbn. by rewrite Hcbs2.
    - intros m _. apply Hnx2. }
  split; [by rewrite Hfn2, Hfn1|].
  split.
  { intros m Hm. rewrite Hfn2, Hfn1. by apply Hfr0. }
  split; [done|]. split; [congruence|]. split; [congruence|].
  eapply same_registry_trans; [exact Hreg0|].
  eapply same_registry_trans; [exact Hreg1|exact Hreg2].
Qed.

(** X9. [call_rcu] on a store in which [get_call_rcu_data] has a worker
    [w] to pick: the callback [f] is stored in the caller's record, the
    record is enqueued behind what the queue of [w] holds, 1 is added to
    the [qlen] of [w], and [w] is woken up ([wake_trace]: through the
    futex, unless it is a realtime worker or does not sleep). The
    callbacks of the other records, the registry list and the pointers of
    the file are left as they were. *)
Theorem call_rcu_enqueues_behind_the_queue
    (a : nat) (f : fn) (w : wid) (c : call_rcu_data) (b : list node)
    (t0 : list event) (s : State) :
  selects s w t0 →
  (∀ g, sched_getcpu (set_heads g s) = sched_getcpu s) →
  crds s !! w = Some c →
  queue_holds s w b → NoDup b → rcu_head_at a ∉ b →
  ∃ s',
    Impl.call_rcu a f s =
      Ret () s'
        (t0 ++
         [EvXchgTail w (NextOf (rcu_head_at a)) (wfq_tail (cbs c));
          EvStoreLink (wfq_tail (cbs c)) (Some (rcu_head_at a));
          EvAddQlen w 1] ++ wake_trace w c) ∧
    queue_holds s' w (b ++ [rcu_head_at a]) ∧
    node_func s' (rcu_head_at a) = Some f ∧
    (∀ m, m ≠ rcu_head_at a → node_func s' m = node_func s m) ∧
    q_len s' w = Some (wrap_ulong (qlen c + 1)) ∧
    same_registry s s'.
Proof.
  intros Hsel Hcpu Hc Hq Hnd Ha.
  destruct (call_rcu_run a f w c b t0 s)
    as (s' & c' & Hrun & Hq' & Hf & Hfr & Hc' & _ & Hlen & Hreg); try done.
  exists s'. repeat (split; [done|]). split; [|done].
  unfold q_len. rewrite Hc'. cbn. by rewrite Hlen.
Qed.

(** X10. Two calls of [call_rcu] in a row by a thread that stays on its
    processor: the two records end up behind what the queue held, in the
    order of the calls, and 2 has been added to [qlen]. *)
Theorem call_rcu_keeps_the_order_of_calls
    (a1 a2 : nat) (f1 f2 : fn) (w : wid) (c : call_rcu_data) (b : list node)
    (t0 : list event) (s : State) :
  selects s w t0 →
  (∀ s', sched_getcpu s' = sched_getcpu s) →
  crds s !! w = Some c →
  queue_holds s w b → NoDup b →
  rcu_head_at a1 ∉ b → rcu_head_at a2 ∉ b → a1 ≠ a2 →
  ∃ s' t,
    (Impl.call_rcu a1 f1;; Impl.call_rcu a2 f2) s = Ret () s' t ∧
    queue_holds s' w (b ++ [rcu_head_at a1; rcu_head_at a2]) ∧
    node_func s' (rcu_head_at a1) = Some f1 ∧
    node_func s' (rcu_head_at a2) = Some f2 ∧
    q_len s' w = Some (wrap_ulong (qlen c + 2)).
Proof.
  intros Hsel Hcpu Hc Hq Hnd Ha1 Ha2 Hne.
  destruct (call_rcu_run a1 f1 w c b t0 s)
    as (s1 & c1 & Hrun1 & Hq1 & Hf1 & Hfr1 & Hc1 & _ & Hlen1 & Hreg1); try done.
  destruct (call_rcu_run a2 f2 w c1 (b ++ [rcu_head_at a1]) t0 s1)
    as (s2 & c2 & Hrun2 & Hq2 & Hf2 & Hfr2 & Hc2 & _ & Hlen2 & Hreg2); try done.
  - eapply selects_frame; [done| |done]. apply Hcpu.
  - intros g. by rewrite !Hcpu.
  - apply NoDup_app. split; [done|]. split; [|apply NoDup_singleton].
    intros x Hx Hx'. apply list_elem_of_singleton in Hx'. by subst.
  - intros Hin. apply elem_of_app in Hin as [Hin|Hin]; [done|].
    apply list_elem_of_singleton in Hin. congruence.
  - eexists s2, _. split.
    { rewrite bind_run, Hrun1; cbv beta iota. by rewrite Hrun2. }
    rewrite <- app_assoc in Hq2. split; [done|].
    split; [rewrite Hfr2; [done|congruence]|]. split; [done|].
    unfold q_len. rewrite Hc2. cbn. rewrite Hlen2, Hlen1. f_equal.
    unfold wrap_ulong. rewrite Zplus_mod_idemp_l. f_equal. lia.
Qed.

End CallRcu.

(** * From [call_rcu] to the invocation *)

Section EnqueueThenDrain.
Context {host : Host} {bits : CallRcuFlags} {sched : Sched}.

(** One drain of a queue that holds a linked batch. *)
Lemma drain_linked_run fuel crdp s n l fn_of :
  queue_holds s crdp (n :: l) →
  NoDup (n :: l) →
  (∀ m, m ∈ n :: l → m ≠ dummy_of crdp → node_func s m = Some (fn_of m)) →
  batch_owned crdp (n :: l) →
  (length (n :: l) ≤ fuel)%nat →
  ∃ c s1 c1,
    crds s !! crdp = Some c ∧
    crds s1 !! crdp = Some c1 ∧
    drain fuel crdp s =
    Ret ()
      (set_crds
         <[crdp := with_qlen
                     (wrap_ulong
                        (qlen c1 -
                         wrap_ulong
                           (Z.of_nat (length (real_callbacks crdp (n :: l))))))
                     c1]> s1)
      ([EvLoadTail crdp (wfq_tail (cbs c));
        EvLoadHead crdp (Some n);
        EvStoreHead crdp None;
        EvXchgTail crdp (HeadOf crdp) (wfq_tail (cbs c));
        EvSynchronizeRcu]
       ++ map (λ m, EvInvoke (fn_of m) m) (real_callbacks crdp (n :: l))
       ++ [EvSubQlen crdp
             (wrap_ulong (Z.of_nat (length (real_callbacks crdp (n :: l)))))]).
Proof.
  intros (c & Hc & Hhead & Hl) Hnd Hf Hown Hfuel.
  pose proof Hown as (Hint & Hinta & _ & _).
  destruct (linked_tail_is_next _ _ _ _ Hl) as [m0 Htl].
  set (ca := with_cbs (with_head None (cbs c)) c).
  set (sa := set_crds <[crdp := ca]> s).
  set (cb := with_cbs (with_tail (HeadOf crdp) (cbs ca)) ca).
  set (sb := set_crds <[crdp := cb]> sa).
  assert (crds sa !! crdp = Some ca) as Hca by apply lookup_insert_eq.
  assert (crds sb !! crdp = Some cb) as Hcb by apply lookup_insert_eq.
  assert (∀ m, node_next sb m = node_next s m) as Hnx.
  { intros m. unfold sb. rewrite (node_next_set_crd _ ca) by done.
    unfold sa. by rewrite (node_next_set_crd _ c). }
  assert (∀ m, node_func sb m = node_func s m) as Hfx.
  { intros m. unfold sb, sa. by rewrite !node_func_set_crds. }
  destruct (invoke_batch_linked crdp (wfq_tail (cbs c)) (n :: l) fn_of fuel
              Hown l n (interfere sb) 0) as (s1 & Hrun & [c1 Hc1]); try done.
  - eapply linked_frame; [|done]. intros m Hm.
    destruct (Hint sb m Hm) as [-> _]. apply Hnx.
  - intros m Hm Hmd. destruct (Hint sb m Hm) as [_ ->].
    rewrite Hfx. by apply Hf.
  - apply Hinta. rewrite Hcb. eauto.
  - exists c, s1, c1. split; [done|]. split; [done|].
    unfold drain.
    rewrite bind_run, (load_tail_run _ _ _ Hc).
    rewrite decide_True by (rewrite Htl; done).
    rewrite bind_run, (wait_head_ready _ _ _ _ _ Hc Hhead).
    rewrite bind_run, (store_head_run _ _ _ _ Hc). fold ca sa.
    rewrite bind_run, (xchg_tail_run _ _ _ _ Hca). fold cb sb.
    change (wfq_tail (cbs ca)) with (wfq_tail (cbs c)).
    unfold synchronize_rcu. run_simpl.
    rewrite Hrun. rewrite Z.add_0_l.
    rewrite (sub_qlen_run _ _ _ _ Hc1).
    by cbn [app].
Qed.

Lemma real_callbacks_snoc w b a :
  real_callbacks w (b ++ [rcu_head_at a]) =
  real_callbacks w b ++ [rcu_head_at a].
Proof.
  unfold real_callbacks. rewrite filter_app. f_equal.
Qed.

Lemma linked_tail_snoc s n l tl b x :
  linked s n l tl → n :: l = b ++ [x] → tl = NextOf x.
Proof.
  revert n b. induction l as [|n' l IH]; intros n b; cbn.
  - intros [_ ->] Hb. destruct b as [|y [|z b]]; simplify_eq/=; done.
  - intros [_ Hl] Hb. destruct b as [|y b]; [done|].
    injection Hb as -> Hb. by eapply IH.
Qed.

(** X11. [call_rcu] followed by a drain of the worker it picked: after
    the snapshot and one grace period the drain invokes the callbacks that
    were queued before, in order, then [f] on the caller's record, once,
    and subtracts their number from [qlen]. *)
Theorem call_rcu_then_drain_invokes_the_callback
    (fuel : nat) (a : nat) (f : fn) (w : wid) (c : call_rcu_data)
    (b : list node) (fn_of : node → fn) (t0 : list event) (s : State) :
  selects s w t0 →
  (∀ g, sched_getcpu (set_heads g s) = sched_getcpu s) →
  crds s !! w = Some c →
  queue_holds s w b → NoDup b → rcu_head_at a ∉ b →
  (∀ m, m ∈ b → m ≠ dummy_of w → node_func s m = Some (fn_of m)) →
  batch_owned w (b ++ [rcu_head_at a]) →
  (length b < fuel)%nat →
  ∃ s',
    (Impl.call_rcu a f;; drain fuel w) s =
      Ret () s'
        (t0 ++
         [EvXchgTail w (NextOf (rcu_head_at a)) (wfq_tail (cbs c));
          EvStoreLink (wfq_tail (cbs c)) (Some (rcu_head_at a));
          EvAddQlen w 1] ++ wake_trace w c ++
         [EvLoadTail w (NextOf (rcu_head_at a));
          EvLoadHead w (head (b ++ [rcu_head_at a]));
          EvStoreHead w None;
          EvXchgTail w (HeadOf w) (NextOf (rcu_head_at a));
          EvSynchronizeRcu]
         ++ map (λ m, EvInvoke (fn_of m) m) (real_callbacks w b)
         ++ [EvInvoke f (rcu_head_at a);
             EvSubQlen w
               (wrap_ulong (Z.of_nat (length (real_callbacks w b)) + 1))]).
Proof.
  intros Hsel Hcpu Hc Hq Hnd Ha Hf Hown Hfuel.
  destruct (call_rcu_run a f w c b t0 s)
    as (s1 & c1 & Hrun1 & Hq1 & Hf1 & Hfr1 & Hc1 & _ & Hlen1 & Hreg1); try done.
  set (fn_of' := λ m, if decide (m = rcu_head_at a) then f else fn_of m).
  destruct (b ++ [rcu_head_at a]) as [|n l] eqn:Hb.
  { by destruct b. }
  assert (wfq_tail (cbs c1) = NextOf (rcu_head_at a)) as Htl.
  { destruct Hq1 as (c0 & Hc0 & _ & Hl). rewrite Hc1 in Hc0.
    injection Hc0 as <-. by eapply linked_tail_snoc. }
  destruct (drain_linked_run fuel w s1 n l fn_of')
    as (c1' & s2 & c2 & Hc1' & Hc2 & Hdrain); try done.
  - rewrite <- Hb. apply NoDup_app. split; [done|].
    split; [|apply NoDup_singleton].
    intros x Hx Hx'. apply list_elem_of_singleton in Hx'. by subst.
  - intros m Hm Hmd. rewrite <- Hb in Hm. unfold fn_of'.
    destruct (decide (m = rcu_head_at a)) as [->|Hne]; [done|].
    rewrite Hfr1 by done. apply Hf; [|done].
    apply elem_of_app in Hm as [Hm|Hm]; [done|].
    by apply list_elem_of_singleton in Hm.
  - rewrite <- Hb, length_app. cbn. lia.
  - rewrite Hc1 in Hc1'. injection Hc1' as <-.
    eexists. rewrite bind_run, Hrun1; cbv beta iota. rewrite Hdrain.
    rewrite <- Hb, real_callbacks_snoc, map_app, length_app, Htl.
    cbn [map length head].
    assert (map (λ m, EvInvoke (fn_of' m) m) (real_callbacks w b) =
            map (λ m, EvInvoke (fn_of m) m) (real_callbacks w b)) as ->.
    { apply map_ext_in. intros m Hm. unfold fn_of'.
      rewrite decide_False; [done|]. intros ->.
      apply list_elem_of_In in Hm. unfold real_callbacks in Hm.
      by apply list_elem_of_filter in Hm as [_ Hm]. }
    unfold fn_of'. rewrite decide_True by done.
    rewrite Nat2Z.inj_add. change (Z.of_nat 1) with 1.
    replace (head (b ++ [rcu_head_at a])) with (Some n) by (by rewrite Hb).
    f_equal. rewrite <- !app_assoc. by cbn.
Qed.

End EnqueueThenDrain.

(** * Reading back the per-CPU slots *)

Section PerCpuMore.
Context {host : Host} {bits : CallRcuFlags}.

(** X12. [set_cpu_call_rcu_data] then [get_cpu_call_rcu_data] (current
    variant). A call that returns 0 has published [crdp] in the slot of
    [cpu], has left the other slots and [errno] as they were when it
    checked them, and a [get_cpu_call_rcu_data] for [cpu] that follows
    returns [crdp]. A call that fails returns [-EINVAL], [-ENOMEM] or
    [-EEXIST], sets [errno] to the matching code and leaves the array as
    it was. *)
Theorem set_cpu_then_get_cpu (cpu : Z) (crdp : option wid) (s : State)
    (ret : Z) (s' : State) (t : list event) :
  Impl.set_cpu_call_rcu_data cpu crdp s = Ret ret s' t →
  (ret = 0 ∧
   slot s' cpu = Some crdp ∧
   (∀ cpu', 0 <= cpu' → cpu' ≠ cpu →
      slot s' cpu' = slot (when_checked s) cpu') ∧
   errno s' = errno (when_checked s) ∧
   Impl.get_cpu_call_rcu_data cpu s' =
     Ret crdp s' [EvDerefArray true; EvDerefSlot cpu crdp]) ∨
  ((ret = - EINVAL ∨ ret = - ENOMEM ∨ ret = - EEXIST) ∧
   errno s' = - ret ∧
   per_cpu_call_rcu_data s' = per_cpu_call_rcu_data (when_checked s)).
Proof.
  unfold Impl.set_cpu_call_rcu_data, Impl.alloc_cpu_call_rcu_data.
  intros Hrun. rewrite when_checked_cases. cbn zeta.
  inv_prims; cbn in *; repeat case_decide; try done.
  all: try (right; split; [by eauto|]; split; [unfold EINVAL, ENOMEM, EEXIST; lia|done]).
  all: left; split; [done|].
  all: match goal with H : ?arr !! Z.to_nat _ = Some _ |- _ =>
         pose proof (lookup_lt_Some _ _ _ H) as Hlen end.
  all: split; [unfold slot; cbn; by rewrite list_lookup_insert_eq|].
  all: split; [intros cpu' Hpos Hne; unfold slot; cbn;
               rewrite list_lookup_insert_ne; [|lia];
               by simplify_option_eq|].
  all: split; [try done|].
  all: try (eapply get_cpu_in_range; cbn; [done|lia|by rewrite list_lookup_insert_eq]).
Qed.

End PerCpuMore.

Section GetCpu.
Context {host : Host} {bits : CallRcuFlags}.

(** X13. [get_cpu_call_rcu_data] (current variant) checks [cpu] against
    [maxcpus]: it returns a worker only for a processor inside the range
    whose slot holds that worker; for a processor outside the range, or
    with no array, it returns NULL and reads no slot. The only warning it
    prints is the one for a processor outside the range, and it prints it
    once: the call that prints it sets the flag that silences the later
    ones. A call that prints no warning leaves the store as it was. *)
Theorem get_cpu_checks_the_range_and_warns_once (cpu : Z) (s : State)
    (r : option wid) (s' : State) (t : list event) :
  Impl.get_cpu_call_rcu_data cpu s = Ret r s' t →
  (∀ w, r = Some w →
     0 <= cpu < maxcpus s ∧ slot s cpu = Some (Some w)) ∧
  (cpu < 0 ∨ maxcpus s <= cpu ∨ per_cpu_call_rcu_data s = None →
     r = None ∧ ∀ c v, EvDerefSlot c v ∉ t) ∧
  (∀ m, EvWarn m ∈ t →
     m = warn_get_out_of_range ∧ warned_get s = false ∧
     warned_get s' = true ∧ (cpu < 0 ∨ maxcpus s <= cpu)) ∧
  (warned_get s = true ∨ 0 <= cpu < maxcpus s → s' = s).
Proof.
  unfold Impl.get_cpu_call_rcu_data, slot. intros Hrun.
  inv_prims; cbn in *.
  all: repeat match goal with
         | H : _ && _ = false |- _ => apply andb_false_iff in H as [H|H]
         | H : _ && _ = true |- _ => apply andb_true_iff in H as [? ?]
         | H : negb _ = true |- _ => apply negb_true_iff in H
         | H : negb _ = false |- _ => apply negb_false_iff in H
         | H : bool_decide _ = false |- _ => apply bool_decide_eq_false in H
         | H : bool_decide _ = true |- _ => apply bool_decide_eq_true in H
         end.
  all: split; [intros w0 Hw; simplify_eq; try lia; try (split; [lia|]);
               by simplify_option_eq|].
  all: split; [intros Hout; try (split; [done|]); try (exfalso; lia);
               try (destruct Hout as [?|[?|?]]; [lia|lia|congruence]);
               intros c v Hin; elem_cases Hin|].
  all: split; [intros m Hin; elem_cases Hin; simplify_eq; done|].
  all: try (intros [Hw|Hr]; [congruence|lia]).
  all: try done.
Qed.

End GetCpu.

(** * The worker as an RCU reader *)

Section Reader.
Context {host : Host} {bits : CallRcuFlags}.

Lemma reader_wait_head fuel w me :
  stays (reader_step me) Online (wait_head fuel w).
Proof. induction fuel; simpl; stays_auto. Qed.

Lemma reader_wait_next fuel n tl me :
  stays (reader_step me) Online (wait_next fuel n tl).
Proof. induction fuel; simpl; stays_auto. Qed.

Hint Resolve reader_wait_head reader_wait_next : stays.

Lemma reader_invoke_batch fuel w tl n c me :
  stays (reader_step me) Online (invoke_batch fuel w tl n c).
Proof.
  revert n c. induction fuel as [|fuel IH]; intros n c; [stays_auto|].
  cbn [invoke_batch]. stays_auto; apply IH.
Qed.

Hint Resolve reader_invoke_batch : stays.

Lemma reader_drain fuel w me : stays (reader_step me) Online (drain fuel w).
Proof. unfold drain. stays_auto. Qed.

Lemma reader_sleep rt w me : stays (reader_step me) Offline (sleep rt w).
Proof. unfold sleep, call_rcu_wait. stays_auto. Qed.

Lemma reader_read_flags w me q :
  q ≠ Paused → q ≠ Leaving → stays (reader_step me) q (read_flags w).
Proof. intros. destruct q; try done; stays_auto. Qed.

(** Reading the flags while paused. *)
Lemma reader_read_flags_paused w :
  accepts (reader_step w) (read_flags w) Paused
    (λ f q, q = if decide (Z.land f URCU_CALL_RCU_PAUSE = 0)
                then Out else Paused).
Proof.
  unfold read_flags.
  eapply accepts_bind; [apply silent_crd|]. intros c q ->.
  eapply accepts_bind with
    (mid := λ _ q, q = if decide (Z.land (flags c) URCU_CALL_RCU_PAUSE = 0)
                       then Out else Paused).
  - apply accepts_emit_to. cbn.
    destruct (decide (Z.land (flags c) URCU_CALL_RCU_PAUSE = 0)).
    + by rewrite decide_True.
    + by rewrite decide_False by (by intros [_ ?]).
  - intros _ q ->. by apply accepts_ret.
Qed.

(** The wait of a paused worker: it returns when the flags it reads have
    [PAUSE] clear. *)
Lemma reader_wait_unpause fuel w :
  accepts (reader_step w) (Impl.wait_unpause fuel w) Paused (λ _ q, q = Out).
Proof.
  induction fuel as [|fuel IH]; cbn [Impl.wait_unpause].
  - eapply accepts_bind; [apply reader_read_flags_paused|]. intros f q ->.
    destruct (decide (Z.land f URCU_CALL_RCU_PAUSE ≠ 0)) as [Hf|Hf].
    + apply accepts_stop.
    + apply accepts_ret. rewrite decide_True; [done|].
      destruct (decide (Z.land f URCU_CALL_RCU_PAUSE = 0)); [done|by destruct Hf].
  - eapply accepts_bind; [apply reader_read_flags_paused|]. intros f q ->.
    destruct (decide (Z.land f URCU_CALL_RCU_PAUSE ≠ 0)) as [Hf|Hf].
    + rewrite decide_False by done.
      eapply accepts_bind with (mid := λ _ q, q = Paused).
      { as_stays. unfold poll. stays_auto. }
      intros _ q ->. apply IH.
    + apply accepts_ret. rewrite decide_True; [done|].
      destruct (decide (Z.land f URCU_CALL_RCU_PAUSE = 0)); [done|by destruct Hf].
Qed.

(** The pause handshake: the worker unregisters, announces [PAUSED],
    waits and registers again. *)
Lemma reader_pause fuel w :
  accepts (reader_step w) (Impl.pause fuel w) Online (λ _ q, q = Online).
Proof.
  unfold Impl.pause.
  eapply accepts_bind; [by apply reader_read_flags|]. intros f q ->.
  destruct (decide _); [|by apply accepts_ret].
  eapply accepts_bind with (mid := λ _ q, q = Leaving);
    [by apply accepts_emit_to|]. intros _ q ->.
  eapply accepts_bind with (mid := λ _ q, q = Leaving);
    [unfold cmm_smp_mb; by apply accepts_emit_to|]. intros _ q ->.
  eapply accepts_bind with (mid := λ _ q, q = Paused).
  { unfold or_flags. eapply accepts_bind; [apply silent_upd_crd|].
    intros _ q ->. apply accepts_emit_to. cbn. by rewrite decide_True. }
  intros _ q ->.
  eapply accepts_bind; [apply reader_wait_unpause|]. intros _ q ->.
  by apply accepts_emit_to.
Qed.

Lemma reader_impl_loop n fuel rt w :
  accepts (reader_step w) (Impl.call_rcu_thread_loop n fuel rt w) Online
    (λ _ q, q = Online).
Proof.
  induction n as [|n IH]; [apply accepts_stop|].
  cbn [Impl.call_rcu_thread_loop].
  eapply accepts_bind; [apply reader_pause|]. intros _ q ->.
  eapply accepts_bind; [apply reader_drain|]. intros _ q ->.
  eapply accepts_bind; [by apply reader_read_flags|]. intros f q ->.
  destruct (decide _); [by apply accepts_ret|].
  eapply accepts_bind with (mid := λ _ q, q = Offline);
    [by apply accepts_emit_to|]. intros _ q ->.
  eapply accepts_bind; [apply reader_sleep|]. intros _ q ->.
  eapply accepts_bind with (mid := λ _ q, q = Online);
    [by apply accepts_emit_to|]. intros _ q ->.
  apply IH.
Qed.

Lemma reader_impl_thread n fuel w :
  URCU_CALL_RCU_STOPPED ≠ URCU_CALL_RCU_PAUSED →
  accepts (reader_step w) (Impl.call_rcu_thread n fuel w) Out
    (λ _ q, q = Leaving).
Proof.
  intros Hbits. unfold Impl.call_rcu_thread.
  eapply accepts_bind; [by apply reader_read_flags|]. intros f q ->.
  eapply accepts_bind with (mid := λ _ q, q = Out).
  { as_stays. unfold set_thread_cpu_affinity. stays_auto. }
  intros r q ->.
  destruct (decide _); [apply accepts_stop|].
  eapply accepts_bind with (mid := λ _ q, q = Online);
    [by apply accepts_emit_to|]. intros _ q ->.
  eapply accepts_bind; [apply silent_modify|]. intros _ q ->.
  eapply accepts_bind with (mid := λ _ q, q = Online).
  { as_stays. destruct (bool_decide _); stays_auto. }
  intros _ q ->.
  eapply accepts_bind; [apply reader_impl_loop|]. intros _ q ->.
  eapply accepts_bind with (mid := λ _ q, q = Online).
  { as_stays. destruct (bool_decide _); stays_auto. }
  intros _ q ->.
  eapply accepts_bind with (mid := λ _ q, q = Online).
  { unfold or_flags. eapply accepts_bind; [apply silent_upd_crd|].
    intros _ q ->. apply accepts_emit_to. cbn.
    by rewrite decide_False by (by intros [_ ?]). }
  intros _ q ->. by apply accepts_emit_to.
Qed.

End Reader.

(** X14. In every run of the worker thread of the current variant,
    against any host: the thread registers as an RCU reader before it
    does anything with its queue; it waits for a grace period and invokes
    callbacks only while registered and online; it waits on its [futex]
    and sleeps 10 ms only between [rcu_thread_offline] and
    [rcu_thread_online]; when asked to pause it unregisters before it
    announces [PAUSED], then only reads its flags and polls, and it
    registers again only after it has read its flags with [PAUSE] clear.
    A run that returns has unregistered as its last step. *)
Theorem worker_sleeps_offline_and_pauses_unregistered
    {host : Host} {bits : CallRcuFlags} (n fuel : nat) (crdp : wid)
    (s : State) :
  URCU_CALL_RCU_STOPPED ≠ URCU_CALL_RCU_PAUSED →
  match Impl.call_rcu_thread n fuel crdp s with
  | Ret _ _ t => run (reader_step crdp) Out t = Some Leaving
  | Halt _ _ t => is_Some (run (reader_step crdp) Out t)
  end.
Proof.
  intros Hbits. pose proof (reader_impl_thread n fuel crdp Hbits s) as H.
  destruct (Impl.call_rcu_thread n fuel crdp s); [|done].
  by destruct H as (q & -> & ->).
Qed.

(** * How the worker leaves *)

Section WorkerExit.
Context {host : Host} {bits : CallRcuFlags}.

Lemma read_flags_Ret w s f s' t :
  read_flags w s = Ret f s' t →
  s' = s ∧ t = [EvReadFlags w f] ∧ q_flags s w = Some f.
Proof.
  unfold read_flags, crd, q_flags. intros Hrun.
  destruct (crds s !! w) as [c|] eqn:Hc; inv_prims; simplify_eq.
  all: rewrite ?Hc in *; simplify_eq; done.
Qed.

Lemma impl_loop_leaves_on_stop n fuel rt w s s' t :
  Impl.call_rcu_thread_loop n fuel rt w s = Ret () s' t →
  ∃ t0 f, t = t0 ++ [EvReadFlags w f] ∧ Z.land f URCU_CALL_RCU_STOP ≠ 0.
Proof.
  revert s t. induction n as [|n IH]; intros s t Hrun; [done|].
  cbn [Impl.call_rcu_thread_loop] in Hrun.
  apply bind_Ret in Hrun as (? & s1 & t1 & t2 & _ & Hrun & ->).
  apply bind_Ret in Hrun as (? & s2 & t2' & t3 & _ & Hrun & ->).
  apply bind_Ret in Hrun as (f & s3 & t3' & t4 & Hf & Hrun & ->).
  apply read_flags_Ret in Hf as (-> & -> & _).
  destruct (decide (Z.land f URCU_CALL_RCU_STOP ≠ 0)) as [Hstop|Hgo].
  - apply mret_Ret in Hrun as (_ & -> & ->).
    exists (t1 ++ t2'), f. split; [|done]. by rewrite app_nil_r, app_assoc.
  - apply bind_Ret in Hrun as (? & s4 & t5 & t6 & _ & Hrun & ->).
    apply bind_Ret in Hrun as (? & s5 & t7 & t8 & _ & Hrun & ->).
    apply bind_Ret in Hrun as (? & s6 & t9 & t10 & _ & Hrun & ->).
    apply IH in Hrun as (t0 & f' & -> & Hf').
    exists (t1 ++ t2' ++ [EvReadFlags w f] ++ t5 ++ t7 ++ t9 ++ t0), f'.
    split; [|done]. by rewrite <- !app_assoc.
Qed.

Lemma legacy_loop_leaves_on_stop n fuel rt w s s' t :
  Legacy.call_rcu_thread_loop n fuel rt w s = Ret () s' t →
  ∃ t0 f, t = t0 ++ [EvReadFlags w f] ∧ Z.land f URCU_CALL_RCU_STOP ≠ 0.
Proof.
  revert s t. induction n as [|n IH]; intros s t Hrun; [done|].
  cbn [Legacy.call_rcu_thread_loop] in Hrun.
  apply bind_Ret in Hrun as (? & s2 & t2' & t3 & _ & Hrun & ->).
  apply bind_Ret in Hrun as (f & s3 & t3' & t4 & Hf & Hrun & ->).
  apply read_flags_Ret in Hf as (-> & -> & _).
  destruct (decide (Z.land f URCU_CALL_RCU_STOP ≠ 0)) as [Hstop|Hgo].
  - apply mret_Ret in Hrun as (_ & -> & ->).
    exists t2', f. split; [|done]. by rewrite app_nil_r.
  - apply bind_Ret in Hrun as (? & s5 & t7 & t8 & _ & Hrun & ->).
    apply IH in Hrun as (t0 & f' & -> & Hf').
    exists (t2' ++ [EvReadFlags w f] ++ t7 ++ t0), f'.
    split; [|done]. by rewrite <- !app_assoc.
Qed.

Lemma land_lor_same a b : Z.land (Z.lor a b) b = b.
Proof.
  apply Z.bits_inj'. intros k Hk.
  rewrite Z.land_spec, Z.lor_spec. by destruct (Z.testbit a k), (Z.testbit b k).
Qed.

Lemma or_flags_Ret w m s s' t :
  or_flags w m s = Ret () s' t →
  ∃ c, crds s !! w = Some c ∧
       s' = set_crds <[w := with_flags (Z.lor (flags c) m) c]> s ∧
       t = [EvOrFlags w m].
Proof.
  unfold or_flags, upd_crd, crd. intros Hrun.
  destruct (crds s !! w) as [c|] eqn:Hc; inv_prims; simplify_eq;
    rewrite ?Hc in *; simplify_eq.
  by eexists.
Qed.

Lemma set_futex_Ret w v s s' t :
  set_futex w v s = Ret () s' t →
  ∃ c, crds s !! w = Some c ∧
       s' = set_crds <[w := with_futex v c]> s ∧
       t = [EvSetFutex w v].
Proof.
  unfold set_futex, upd_crd, crd. intros Hrun.
  destruct (crds s !! w) as [c|] eqn:Hc; inv_prims; simplify_eq;
    rewrite ?Hc in *; simplify_eq.
  by eexists.
Qed.

(** The steps of the thread after its loop. *)
Lemma worker_epilogue (rt : bool) w s s' t :
  ((if rt then mret () else cmm_smp_mb;; set_futex w 0);;
   or_flags w URCU_CALL_RCU_STOPPED) s = Ret () s' t →
  ∃ c',
    t = (if rt then [] else [EvMb; EvSetFutex w 0])
        ++ [EvOrFlags w URCU_CALL_RCU_STOPPED] ∧
    crds s' !! w = Some c' ∧
    Z.land (flags c') URCU_CALL_RCU_STOPPED = URCU_CALL_RCU_STOPPED ∧
    (rt = false → futex c' = 0).
Proof.
  intros Hrun.
  apply bind_Ret in Hrun as ([] & s1 & t1 & t2 & Hreset & Hor & ->).
  apply or_flags_Ret in Hor as (c & Hc & -> & ->).
  eexists. unfold set_crds; cbn [crds]. rewrite lookup_insert_eq.
  destruct rt.
  - apply mret_Ret in Hreset as (_ & -> & ->).
    split; [done|]. split; [done|]. split; [apply land_lor_same|done].
  - apply bind_Ret in Hreset as ([] & s3 & t4 & t5 & Hmb & Hset & ->).
    unfold cmm_smp_mb in Hmb. apply emit_Ret in Hmb as (-> & ->).
    apply set_futex_Ret in Hset as (c0 & Hc0 & -> & ->).
    unfold set_crds in Hc; cbn [crds] in Hc.
    rewrite lookup_insert_eq in Hc. injection Hc as <-.
    split; [done|]. split; [done|]. split; [apply land_lor_same|done].
Qed.

End WorkerExit.

(** X15. A run of the worker thread that returns, in either variant: the
    last thing the thread did before leaving its loop was to read its
    flags and find [STOP] set; it then stores 0 to [futex] behind a
    fence (unless it is a realtime worker), sets [STOPPED], and, in the
    current variant, unregisters as a reader. Nothing comes in between,
    and the worker structure is left with [STOPPED] set. *)
Theorem worker_returns_only_when_asked_to_stop
    {host : Host} {bits : CallRcuFlags} (n fuel : nat) (crdp : wid)
    (s s' : State) (t : list event) (impl : bool) :
  (if impl then Impl.call_rcu_thread n fuel crdp s
   else Legacy.call_rcu_thread n fuel crdp s) = Ret () s' t →
  ∃ t0 f t1 c',
    t = t0 ++ [EvReadFlags crdp f] ++ t1
        ++ [EvOrFlags crdp URCU_CALL_RCU_STOPPED]
        ++ (if impl then [EvUnregisterThread] else []) ∧
    Z.land f URCU_CALL_RCU_STOP ≠ 0 ∧
    (t1 = [] ∨ t1 = [EvMb; EvSetFutex crdp 0] ∧ futex c' = 0) ∧
    crds s' !! crdp = Some c' ∧
    Z.land (flags c') URCU_CALL_RCU_STOPPED = URCU_CALL_RCU_STOPPED.
Proof.
  intros Hrun. destruct impl.
  - unfold Impl.call_rcu_thread in Hrun.
    apply bind_Ret in Hrun as (f0 & s1 & t1 & t2 & Hf0 & Hrun & ->).
    apply bind_Ret in Hrun as (r & s2 & t2' & t3 & _ & Hrun & ->).
    destruct (decide (r ≠ 0)); [done|].
    apply bind_Ret in Hrun as ([] & s3 & t4 & t5 & _ & Hrun & ->).
    apply bind_Ret in Hrun as ([] & s4 & t6 & t7 & _ & Hrun & ->).
    apply bind_Ret in Hrun as ([] & s5 & t8 & t9 & _ & Hrun & ->).
    apply bind_Ret in Hrun as ([] & s6 & t10 & t11 & Hloop & Hrun & ->).
    apply impl_loop_leaves_on_stop in Hloop as (t0 & f & -> & Hstop).
    rewrite bind_assoc_run in Hrun.
    apply bind_Ret in Hrun as ([] & s7 & t12 & t13 & Hrun & Hun & ->).
    apply emit_Ret in Hun as (-> & ->).
    apply worker_epilogue in Hrun as (c' & -> & Hc & Hfl & Hfu).
    exists (t1 ++ t2' ++ t4 ++ t6 ++ t8 ++ t0), f.
    destruct (bool_decide _).
    + exists [], c'. rewrite <- !app_assoc. cbn. eauto 10.
    + exists [EvMb; EvSetFutex crdp 0], c'. rewrite <- !app_assoc. cbn.
      split; [done|]. split; [done|]. split; [right; auto|done].
  - unfold Legacy.call_rcu_thread in Hrun.
    apply bind_Ret in Hrun as (f0 & s1 & t1 & t2 & Hf0 & Hrun & ->).
    apply bind_Ret in Hrun as (r & s2 & t2' & t3 & _ & Hrun & ->).
    destruct (decide (r ≠ 0)); [done|].
    apply bind_Ret in Hrun as ([] & s4 & t6 & t7 & _ & Hrun & ->).
    apply bind_Ret in Hrun as ([] & s5 & t8 & t9 & _ & Hrun & ->).
    apply bind_Ret in Hrun as ([] & s6 & t10 & t11 & Hloop & Hrun & ->).
    apply legacy_loop_leaves_on_stop in Hloop as (t0 & f & -> & Hstop).
    apply worker_epilogue in Hrun as (c' & -> & Hc & Hfl & Hfu).
    exists (t1 ++ t2' ++ t6 ++ t8 ++ t0), f.
    destruct (bool_decide _).
    + exists [], c'. rewrite <- !app_assoc. cbn. eauto 10.
    + exists [EvMb; EvSetFutex crdp 0], c'. rewrite <- !app_assoc. cbn.
      split; [done|]. split; [done|]. split; [right; auto|done].
Qed.

(** * The stop handshake *)

Section StopHandshake.
Context {host : Host} {bits : CallRcuFlags}.

Lemma stop_read_flags r q :
  accepts (stop_step r) (read_flags r) q (λ f q', q' = after_read f q).
Proof.
  unfold read_flags.
  eapply accepts_bind; [apply silent_crd|]. intros c q' ->.
  eapply accepts_bind with (mid := λ _ q', q' = after_read (flags c) q).
  { apply accepts_emit_to. cbn. by rewrite decide_True. }
  intros _ q' ->. by apply accepts_ret.
Qed.

Lemma stop_seen_read_flags r w :
  stays (stop_step r) SeenStopped (read_flags w).
Proof.
  unfold read_flags. apply stays_bind; [stays_auto|]. intros c.
  apply stays_bind; [|intros; stays_auto].
  apply stays_emit. cbn. unfold after_read. by repeat destruct (decide _).
Qed.

Hint Resolve stop_seen_read_flags : stays.

(** Once [STOPPED] has been seen every event is accepted but a new
    request to stop. *)
Ltac seen_auto :=
  repeat first
    [ stays_step
    | apply stays_emit; cbn; repeat case_bool_decide; reflexivity ].

Lemma stop_seen_wait_head fuel r w :
  stays (stop_step r) SeenStopped (wait_head fuel w).
Proof. induction fuel; simpl; seen_auto. Qed.

Lemma stop_seen_wake r w :
  stays (stop_step r) SeenStopped (wake_call_rcu_thread w).
Proof. unfold wake_call_rcu_thread, call_rcu_wake_up. seen_auto. Qed.

Lemma stop_seen_get_default r :
  stays (stop_step r) SeenStopped get_default_call_rcu_data.
Proof.
  unfold get_default_call_rcu_data, call_rcu_data_init. seen_auto.
Qed.

Hint Resolve stop_seen_wait_head stop_seen_wake stop_seen_get_default : stays.

Lemma stop_seen_splice fuel r :
  stays (stop_step r) SeenStopped (Impl.splice_leftover fuel r).
Proof. unfold Impl.splice_leftover. seen_auto. Qed.

Lemma stop_seen_unlink r :
  stays (stop_step r) SeenStopped (Impl.unlink_and_free r).
Proof. unfold Impl.unlink_and_free. seen_auto. Qed.

(** The wait for [STOPPED]: it returns once the flag has been read. *)
Lemma stop_wait_flag fuel r q :
  q = Asked ∨ q = SeenStopped →
  accepts (stop_step r) (wait_flag fuel r URCU_CALL_RCU_STOPPED) q
    (λ _ q', q' = SeenStopped).
Proof.
  intros Hq.
  assert (stays (stop_step r) q (poll 1)) as Hpoll.
  { unfold poll. destruct Hq as [-> | ->]; stays_auto. }
  assert (∀ f, Z.land f URCU_CALL_RCU_STOPPED = 0 → after_read f q = q)
    as Hsame.
  { intros f Hf. unfold after_read. rewrite decide_False by (by intros ?).
    by destruct Hq as [-> | ->]. }
  induction fuel as [|fuel IH]; cbn [wait_flag].
  - eapply accepts_bind; [apply stop_read_flags|]. intros f q' ->.
    destruct (decide (Z.land f URCU_CALL_RCU_STOPPED = 0)) as [Hf|Hf].
    + apply accepts_stop.
    + apply accepts_ret. unfold after_read. by rewrite decide_True.
  - eapply accepts_bind; [apply stop_read_flags|]. intros f q' ->.
    destruct (decide (Z.land f URCU_CALL_RCU_STOPPED = 0)) as [Hf|Hf].
    + rewrite Hsame by done.
      eapply accepts_bind; [apply Hpoll|]. intros _ q' ->. apply IH.
    + apply accepts_ret. unfold after_read. by rewrite decide_True.
Qed.

(** The wake-up of the worker that has been asked to stop. *)
Lemma stop_asked_wake r :
  accepts (stop_step r) (wake_call_rcu_thread r) Asked
    (λ _ q, q = Asked ∨ q = SeenStopped).
Proof.
  unfold wake_call_rcu_thread.
  eapply accepts_bind; [apply stop_read_flags|]. intros f q ->.
  unfold after_read. destruct (decide (Z.land f URCU_CALL_RCU_STOPPED ≠ 0)).
  - eapply accepts_weaken with (post := λ _ q, q = SeenStopped);
      [|intros _ ? ->; by right].
    as_stays. unfold call_rcu_wake_up. seen_auto.
  - eapply accepts_weaken with (post := λ _ q, q = Asked);
      [|intros _ ? ->; by left].
    as_stays. unfold call_rcu_wake_up, read_futex. stays_auto.
Qed.

(** The request to stop and the wait that follows a first read of the
    flags, the same text in both variants. *)
Lemma stop_request fuel r f :
  accepts (stop_step r)
    (if decide (Z.land f URCU_CALL_RCU_STOPPED = 0) then
       or_flags r URCU_CALL_RCU_STOP;;
       wake_call_rcu_thread r;;
       wait_flag fuel r URCU_CALL_RCU_STOPPED
     else mret ())
    (after_read f NotRead)
    (λ _ q, q = SeenStopped).
Proof.
  unfold after_read.
  destruct (decide (Z.land f URCU_CALL_RCU_STOPPED = 0)) as [Hf|Hf].
  - rewrite decide_False by (by intros ?).
    eapply accepts_bind with (mid := λ _ q, q = Asked).
    { unfold or_flags. eapply accepts_bind; [apply silent_upd_crd|].
      intros _ q ->. apply accepts_emit_to. cbn. by rewrite decide_True. }
    intros _ q ->.
    eapply accepts_bind; [apply stop_asked_wake|]. intros ? q Hq.
    cbv beta in Hq. by apply stop_wait_flag.
  - apply accepts_ret. by rewrite decide_True.
Qed.

Lemma stop_impl_free fuel r :
  accepts (stop_step r) (Impl.call_rcu_data_free fuel (Some r)) NotRead
    (λ _ q, q = NotRead ∨ q = SeenStopped).
Proof.
  unfold Impl.call_rcu_data_free.
  eapply accepts_bind; [apply silent_gets|]. intros d q ->.
  destruct (decide _); [apply accepts_ret; by left|].
  eapply accepts_bind with (mid := λ _ q, q = SeenStopped).
  { unfold Impl.stop_worker.
    eapply accepts_bind; [apply stop_read_flags|]. intros f q ->.
    apply stop_request. }
  intros _ q ->.
  eapply accepts_bind; [apply stop_seen_splice|]. intros _ q ->.
  eapply accepts_weaken; [apply stop_seen_unlink|]. intros _ q ->. by right.
Qed.

Lemma stop_legacy_free fuel r :
  accepts (stop_step r) (Legacy.call_rcu_data_free fuel (Some r)) NotRead
    (λ _ q, q = NotRead ∨ q = SeenStopped).
Proof.
  unfold Legacy.call_rcu_data_free.
  eapply accepts_bind; [apply silent_gets|]. intros d q ->.
  destruct (decide _); [apply accepts_ret; by left|].
  eapply accepts_bind; [apply stop_read_flags|]. intros f q ->.
  eapply accepts_bind; [apply stop_request|]. intros _ q ->.
  eapply accepts_weaken with (post := λ _ q, q = SeenStopped);
    [|intros _ q ->; by right].
  as_stays. unfold Legacy.xchg_default. seen_auto.
Qed.

End StopHandshake.

(** X16. [call_rcu_data_free] for a worker [r], in either variant and
    against any host: it asks [r] to stop at most once, only after it
    has read the flags of [r] without [STOPPED] and not after it has
    read them with [STOPPED]; it polls only once it has asked [r] to
    stop or has read [STOPPED]; and it reads or writes the queue of
    [r], reads its [qlen], unlinks [r] from the registry list or
    releases its structure only after it has read a value of the flags
    of [r] with [STOPPED] set. *)
Theorem free_touches_the_worker_only_once_stopped
    {host : Host} {bits : CallRcuFlags} (fuel : nat) (r : wid) (s : State) :
  is_Some (run (stop_step r) NotRead
             (trace_of (Impl.call_rcu_data_free fuel (Some r) s))) ∧
  is_Some (run (stop_step r) NotRead
             (trace_of (Legacy.call_rcu_data_free fuel (Some r) s))).
Proof.
  split; eapply accepts_trace.
  - apply stop_impl_free.
  - apply stop_legacy_free.
Qed.

(** * The flags across a fork *)

Section ForkCycle.
Context {host : Host} {bits : CallRcuFlags}.

Lemma nonzero_bit z : z ≠ 0 → ∃ k, 0 <= k ∧ Z.testbit z k = true.
Proof.
  intros Hz. destruct (Z.lt_trichotomy z 0) as [Hneg|[?|Hpos]]; [|done|].
  - exists (Z.log2 (Z.pred (- z)) + 1).
    pose proof (Z.log2_nonneg (Z.pred (- z))).
    split; [lia|]. apply Z.bits_above_log2_neg; lia.
  - exists (Z.log2 z). split; [apply Z.log2_nonneg|by apply Z.bit_log2].
Qed.

Lemma land_nonzero_bit a b :
  Z.land a b ≠ 0 ↔ ∃ k, 0 <= k ∧ Z.testbit a k = true ∧ Z.testbit b k = true.
Proof.
  split.
  - intros Hne. apply nonzero_bit in Hne as (k & Hk & Hb).
    rewrite Z.land_spec in Hb. apply andb_true_iff in Hb. eauto.
  - intros (k & Hk & Ha & Hb) Hz.
    assert (Z.testbit (Z.land a b) k = true) as Hab
      by (by rewrite Z.land_spec, Ha, Hb).
    rewrite Hz, Z.bits_0 in Hab. done.
Qed.

(** Setting bits keeps the bits that are set. *)
Lemma land_lor_keeps f m mask : Z.land f mask ≠ 0 → Z.land (Z.lor f m) mask ≠ 0.
Proof.
  rewrite !land_nonzero_bit. intros (k & Hk & Hf & Hm).
  exists k. split; [done|]. split; [|done].
  by rewrite Z.lor_spec, Hf.
Qed.

(** Clearing [PAUSE] keeps [PAUSED]. *)
Lemma clear_keeps f p q :
  Z.land p q = 0 → 0 <= q < 2 ^ 64 →
  Z.land f q ≠ 0 → Z.land (wrap_ulong (Z.land f (Z.lnot p))) q ≠ 0.
Proof.
  intros Hpq Hq. rewrite !land_nonzero_bit. intros (k & Hk & Hf & Hqk).
  exists k. split; [done|]. split; [|done].
  assert (k < 64) as Hlt.
  { destruct (decide (k < 64)); [done|].
    rewrite (Z.bits_above_log2 q k) in Hqk; [done|lia|].
    destruct (decide (q = 0)) as [->|]; [by rewrite Z.bits_0 in Hqk|].
    apply Z.log2_lt_pow2; [lia|].
    eapply Z.lt_le_trans; [apply Hq|]. apply Z.pow_le_mono_r; lia. }
  assert (Z.testbit p k = false) as Hp.
  { destruct (Z.testbit p k) eqn:Hpk; [|done].
    assert (Z.testbit (Z.land p q) k = true) as Hc
      by (by rewrite Z.land_spec, Hpk, Hqk).
    by rewrite Hpq, Z.bits_0 in Hc. }
  unfold wrap_ulong. rewrite Z.mod_pow2_bits_low by lia.
  by rewrite Z.land_spec, Z.lnot_spec, Hf, Hp.
Qed.

(** And it clears [PAUSE]. *)
Lemma clear_clears f p :
  0 <= p → Z.land (wrap_ulong (Z.land f (Z.lnot p))) p = 0.
Proof.
  intros Hp. apply Z.bits_inj'. intros k Hk.
  rewrite Z.land_spec, Z.bits_0. unfold wrap_ulong.
  destruct (decide (k < 64)).
  - rewrite Z.mod_pow2_bits_low by lia.
    rewrite Z.land_spec, Z.lnot_spec by done.
    by destruct (Z.testbit f k), (Z.testbit p k).
  - rewrite Z.mod_pow2_bits_high by lia. done.
Qed.

Lemma carried_refl s : paused_carried s s.
Proof. by split. Qed.

Lemma carried_trans s1 s2 s3 :
  paused_carried s1 s2 → paused_carried s2 s3 → paused_carried s1 s3.
Proof.
  intros [Hl1 H1] [Hl2 H2]. split; [by rewrite Hl2|]. auto.
Qed.

Lemma carried_interfere s : keeps_paused host → paused_carried s (interfere s).
Proof. intros Hk. destruct (Hk s) as (_ & Hl & Hp). by split. Qed.

(** A write to the flags of [w] that keeps [PAUSED], or to another word
    of its structure. *)
Lemma carried_insert w c c' s :
  crds s !! w = Some c →
  (Z.land (flags c) URCU_CALL_RCU_PAUSED ≠ 0 →
   Z.land (flags c') URCU_CALL_RCU_PAUSED ≠ 0) →
  paused_carried s (set_crds <[w := c']> s).
Proof.
  intros Hc Hfl. split; [done|]. intros v (cv & Hv & Hp).
  unfold shows, set_crds; cbn [crds].
  destruct (decide (v = w)) as [->|Hne].
  - rewrite lookup_insert_eq. simplify_eq. eauto.
  - rewrite lookup_insert_ne by done. eauto.
Qed.

Lemma and_flags_Ret w m s s' t :
  and_flags w m s = Ret () s' t →
  ∃ c, crds s !! w = Some c ∧
       s' = set_crds <[w := with_flags (wrap_ulong (Z.land (flags c) m)) c]> s ∧
       t = [EvAndFlags w m].
Proof.
  unfold and_flags, upd_crd, crd. intros Hrun.
  destruct (crds s !! w) as [c|] eqn:Hc; inv_prims; simplify_eq;
    rewrite ?Hc in *; simplify_eq.
  by eexists.
Qed.

(** The wait for [PAUSED]: when it returns the worker shows the flag. *)
Lemma wait_flag_shows fuel w s s' t :
  keeps_paused host →
  wait_flag fuel w URCU_CALL_RCU_PAUSED s = Ret () s' t →
  paused_carried s s' ∧ shows s' w URCU_CALL_RCU_PAUSED.
Proof.
  intros Hk. revert s t. induction fuel as [|fuel IH]; intros s t Hrun;
    cbn [wait_flag] in Hrun.
  - apply bind_Ret in Hrun as (f & s1 & t1 & t2 & Hf & Hrun & ->).
    apply read_flags_Ret in Hf as (-> & -> & Hq).
    destruct (decide _); [done|].
    apply mret_Ret in Hrun as (_ & -> & ->).
    split; [apply carried_refl|]. unfold q_flags in Hq.
    destruct (crds s !! w) as [c|] eqn:Hc; [|done]. simplify_eq/=. by exists c.
  - apply bind_Ret in Hrun as (f & s1 & t1 & t2 & Hf & Hrun & ->).
    apply read_flags_Ret in Hf as (-> & -> & Hq).
    destruct (decide _).
    + apply bind_Ret in Hrun as ([] & s2 & t3 & t4 & Hp & Hrun & ->).
      unfold poll in Hp. inv_prims.
      apply IH in Hrun as [Hc Hs]. split; [|done].
      eapply carried_trans; [by apply carried_interfere|done].
    + apply mret_Ret in Hrun as (_ & -> & ->).
      split; [apply carried_refl|]. unfold q_flags in Hq.
      destruct (crds s !! w) as [c|] eqn:Hc; [|done]. simplify_eq/=.
      by exists c.
Qed.

Lemma wait_all_shows fuel l s s' t :
  keeps_paused host →
  for_each l (λ w, wait_flag fuel w URCU_CALL_RCU_PAUSED) s = Ret () s' t →
  paused_carried s s' ∧ ∀ w, w ∈ l → shows s' w URCU_CALL_RCU_PAUSED.
Proof.
  intros Hk. revert s t. induction l as [|x l IH]; intros s t Hrun;
    cbn [for_each] in Hrun.
  - apply mret_Ret in Hrun as (_ & -> & ->).
    split; [apply carried_refl|]. intros w Hw. by apply elem_of_nil in Hw.
  - apply bind_Ret in Hrun as ([] & s1 & t1 & t2 & Hx & Hrun & ->).
    apply wait_flag_shows in Hx as [Hc1 Hx]; [|done].
    apply IH in Hrun as [Hc2 Hl].
    split; [by eapply carried_trans|].
    intros w Hw. apply elem_of_cons in Hw as [->|Hw]; [|by apply Hl].
    by apply Hc2.
Qed.

(** The loop of [call_rcu_after_fork_parent]: [PAUSE] is cleared in the
    workers of the list, and stays clear where it was. *)
Lemma resume_all l s s' t :
  0 <= URCU_CALL_RCU_PAUSE →
  0 <= URCU_CALL_RCU_PAUSED < 2 ^ 64 →
  Z.land URCU_CALL_RCU_PAUSE URCU_CALL_RCU_PAUSED = 0 →
  for_each l (λ w, and_flags w (Z.lnot URCU_CALL_RCU_PAUSE)) s = Ret () s' t →
  paused_carried s s' ∧
  (∀ w, w ∈ l →
     ∃ c, crds s' !! w = Some c ∧ Z.land (flags c) URCU_CALL_RCU_PAUSE = 0) ∧
  (∀ w c, crds s !! w = Some c →
          Z.land (flags c) URCU_CALL_RCU_PAUSE = 0 →
          ∃ c', crds s' !! w = Some c' ∧
                Z.land (flags c') URCU_CALL_RCU_PAUSE = 0).
Proof.
  intros Hp Hq Hpq. revert s t. induction l as [|x l IH]; intros s t Hrun;
    cbn [for_each] in Hrun.
  - apply mret_Ret in Hrun as (_ & -> & ->).
    split; [apply carried_refl|]. split; [|by eauto].
    intros w Hw. by apply elem_of_nil in Hw.
  - apply bind_Ret in Hrun as ([] & s1 & t1 & t2 & Hx & Hrun & ->).
    apply and_flags_Ret in Hx as (c & Hc & -> & ->).
    apply IH in Hrun as (Hc2 & Hl & Hkeep).
    assert (∀ w cw, crds s !! w = Some cw →
              Z.land (flags cw) URCU_CALL_RCU_PAUSE = 0 →
              ∃ c', crds s' !! w = Some c' ∧
                    Z.land (flags c') URCU_CALL_RCU_PAUSE = 0) as Hkeep'.
    { intros w cw Hw Hcl. destruct (decide (w = x)) as [->|Hne].
      - eapply Hkeep.
        + unfold set_crds; cbn [crds]. by rewrite lookup_insert_eq.
        + cbn. by apply clear_clears.
      - eapply Hkeep; [|exact Hcl].
        unfold set_crds; cbn [crds]. by rewrite lookup_insert_ne. }
    split; [|split; [|done]].
    + eapply carried_trans; [|exact Hc2].
      eapply carried_insert; [done|]. cbn. by apply clear_keeps.
    + intros w Hw. apply elem_of_cons in Hw as [->|Hw]; [|by apply Hl].
      eapply Hkeep.
      * unfold set_crds; cbn [crds]. by rewrite lookup_insert_eq.
      * cbn. by apply clear_clears.
Qed.

(** The first loop of [call_rcu_before_fork] over workers that are
    allocated. *)
Lemma request_all l s :
  (∀ w, w ∈ l → shows s w URCU_CALL_RCU_PAUSED) →
  ∃ s' t,
    for_each l (λ crdp,
      or_flags crdp URCU_CALL_RCU_PAUSE;;
      cmm_smp_mb;;
      wake_call_rcu_thread crdp) s = Ret () s' t ∧
    paused_carried s s' ∧ ∀ ms, EvPoll ms ∉ t.
Proof.
  revert s. induction l as [|x l IH]; intros s Hl; cbn [for_each].
  - exists s, []. split; [done|]. split; [apply carried_refl|].
    intros ms Hin. by apply elem_of_nil in Hin.
  - destruct (Hl x) as (c & Hc & Hp); [by left|].
    set (c1 := with_flags (Z.lor (flags c) URCU_CALL_RCU_PAUSE) c).
    set (s1 := set_crds <[x := c1]> s).
    assert (crds s1 !! x = Some c1) as Hc1.
    { unfold s1, set_crds; cbn [crds]. by rewrite lookup_insert_eq. }
    assert (paused_carried s s1) as Hcar1.
    { eapply carried_insert; [done|]. cbn. apply land_lor_keeps. }
    set (s2 := if decide (Z.land (flags c1) URCU_CALL_RCU_RT = 0 ∧ futex c1 = -1)
               then set_crds <[x := with_futex 0 c1]> s1 else s1).
    assert (paused_carried s1 s2) as Hcar2.
    { unfold s2. destruct (decide _); [|apply carried_refl].
      by eapply carried_insert. }
    destruct (IH s2) as (s' & t & Hrun & Hcar3 & Hnp).
    { intros w Hw. apply Hcar2, Hcar1, Hl. by right. }
    exists s', ([EvOrFlags x URCU_CALL_RCU_PAUSE] ++ [EvMb] ++ wake_trace x c1 ++ t).
    split; [|split].
    + rewrite bind_run.
      rewrite bind_run, (or_flags_run _ _ _ _ Hc); cbv beta iota. fold c1 s1.
      unfold cmm_smp_mb in Hrun |- *. rewrite bind_run; cbn [emit]; cbv beta iota.
      rewrite (wake_call_rcu_thread_cases _ _ _ Hc1). fold s2.
      rewrite Hrun. by rewrite <- !app_assoc.
    + eapply carried_trans; [exact Hcar1|].
      eapply carried_trans; [exact Hcar2|exact Hcar3].
    + intros ms Hin. apply elem_of_app in Hin as [Hin|Hin]; [elem_cases Hin|].
      apply elem_of_app in Hin as [Hin|Hin]; [elem_cases Hin|].
      apply elem_of_app in Hin as [Hin|Hin]; [|by apply (Hnp ms)].
      unfold wake_trace in Hin. repeat case_decide; elem_cases Hin.
Qed.

(** The second loop over workers that show [PAUSED]: a read each. *)
Lemma wait_all_at_once fuel l s :
  (∀ w, w ∈ l → shows s w URCU_CALL_RCU_PAUSED) →
  ∃ t,
    for_each l (λ w, wait_flag fuel w URCU_CALL_RCU_PAUSED) s = Ret () s t ∧
    ∀ ms, EvPoll ms ∉ t.
Proof.
  induction l as [|x l IH]; intros Hl; cbn [for_each].
  - exists []. split; [done|]. intros ms Hin. by apply elem_of_nil in Hin.
  - destruct (Hl x) as (c & Hc & Hp); [by left|].
    destruct IH as (t & Hrun & Hnp); [intros w Hw; apply Hl; by right|].
    exists ([EvReadFlags x (flags c)] ++ t). split.
    + rewrite bind_run.
      assert (wait_flag fuel x URCU_CALL_RCU_PAUSED s =
              Ret () s [EvReadFlags x (flags c)]) as ->.
      { destruct fuel; cbn [wait_flag];
          rewrite bind_run, (read_flags_run _ _ _ Hc); cbv beta iota;
          by rewrite decide_False. }
      by rewrite Hrun.
    + intros ms Hin. apply elem_of_cons in Hin as [?|Hin]; [done|].
      by apply (Hnp ms).
Qed.

End ForkCycle.

(** X17. A fork cycle of the current variant leaves [PAUSED] set.
    [call_rcu_after_fork_parent] clears [PAUSE] and nothing else, and
    nothing in the file clears [PAUSED]: after [call_rcu_before_fork]
    and [call_rcu_after_fork_parent] have returned, every worker of the
    registry list has [PAUSE] clear and [PAUSED] still set. A later
    [call_rcu_before_fork] therefore returns without polling once,
    whatever the workers do in the meantime: it reads the [PAUSED] of the
    fork before. *)
Theorem second_before_fork_waits_for_no_worker
    {host : Host} {bits : CallRcuFlags}
    (fuel : nat) (s s1 s2 : State) (t1 t2 : list event) :
  keeps_paused host →
  0 <= URCU_CALL_RCU_PAUSE →
  0 <= URCU_CALL_RCU_PAUSED < 2 ^ 64 →
  Z.land URCU_CALL_RCU_PAUSE URCU_CALL_RCU_PAUSED = 0 →
  Impl.call_rcu_before_fork fuel s = Ret () s1 t1 →
  Impl.call_rcu_after_fork_parent s1 = Ret () s2 t2 →
  (∀ w, w ∈ call_rcu_data_list s2 →
     ∃ c, crds s2 !! w = Some c ∧
          Z.land (flags c) URCU_CALL_RCU_PAUSE = 0 ∧
          Z.land (flags c) URCU_CALL_RCU_PAUSED ≠ 0) ∧
  ∀ fuel', ∃ s3 t3,
    Impl.call_rcu_before_fork fuel' s2 = Ret () s3 t3 ∧
    ∀ ms, EvPoll ms ∉ t3.
Proof.
  intros Hk Hp Hq Hpq Hbefore Hafter.
  assert (∀ w, w ∈ call_rcu_data_list s1 → shows s1 w URCU_CALL_RCU_PAUSED)
    as Hs1.
  { unfold Impl.call_rcu_before_fork in Hbefore.
    apply bind_Ret in Hbefore as ([] & sa & ta & tb & _ & Hrun & ->).
    apply bind_Ret in Hrun as (l1 & sb & tc & td & _ & Hrun & ->).
    apply bind_Ret in Hrun as ([] & sc & te & tf & _ & Hrun & ->).
    apply bind_Ret in Hrun as (l2 & sd & tg & th & Hg & Hrun & ->).
    apply gets_Ret in Hg as (-> & -> & ->).
    apply wait_all_shows in Hrun as [[Hl _] Hall]; [|done].
    intros w Hw. apply Hall. by rewrite <- Hl. }
  assert (paused_carried s1 s2 ∧
          ∀ w, w ∈ call_rcu_data_list s1 →
            ∃ c, crds s2 !! w = Some c ∧
                 Z.land (flags c) URCU_CALL_RCU_PAUSE = 0) as [Hcar Hclear].
  { unfold Impl.call_rcu_after_fork_parent in Hafter.
    apply bind_Ret in Hafter as (l & sa & ta & tb & Hg & Hrun & ->).
    apply gets_Ret in Hg as (-> & -> & ->).
    apply bind_Ret in Hrun as ([] & sb & tc & td & Hrun & Hun & ->).
    rewrite call_rcu_unlock_run in Hun.
    destruct (decide _); [|done]. simplify_eq.
    apply resume_all in Hrun as (? & ? & _); done. }
  assert (∀ w, w ∈ call_rcu_data_list s2 → shows s2 w URCU_CALL_RCU_PAUSED)
    as Hs2.
  { intros w Hw. destruct Hcar as [Hl Hsh]. apply Hsh, Hs1. by rewrite <- Hl. }
  split.
  { intros w Hw. destruct (Hs2 w Hw) as (c & Hc & Hpd).
    destruct (Hclear w) as (c' & Hc' & Hpc); [by rewrite <- (proj1 Hcar)|].
    simplify_eq. eauto. }
  intros fuel'. unfold Impl.call_rcu_before_fork.
  destruct (Hk s2) as (Hlock & Hlist & Hkeep).
  destruct (request_all (call_rcu_data_list (interfere s2)) (interfere s2))
    as (s3 & t3 & Hreq & Hcar3 & Hnp3).
  { intros w Hw. apply Hkeep, Hs2. by rewrite <- Hlist. }
  destruct (wait_all_at_once fuel' (call_rcu_data_list s3) s3)
    as (t4 & Hwait & Hnp4).
  { intros w Hw. apply Hcar3, Hkeep, Hs2.
    rewrite <- Hlist. by rewrite <- (proj1 Hcar3). }
  exists s3, ([EvLock] ++ t3 ++ t4). split.
  - rewrite bind_run, call_rcu_lock_run.
    rewrite decide_True by (by destruct (Hk (interfere s2))).
    cbv beta iota. rewrite bind_run; cbn [gets]; cbv beta iota.
    rewrite bind_run, Hreq; cbv beta iota.
    rewrite bind_run; cbn [gets]; cbv beta iota.
    rewrite Hwait. done.
  - intros ms Hin. apply elem_of_app in Hin as [Hin|Hin]; [elem_cases Hin|].
    apply elem_of_app in Hin as [Hin|Hin]; [by apply (Hnp3 ms)|by apply (Hnp4 ms)].
Qed.

(** * Creating workers *)

Section Create.
Context {host : Host} {bits : CallRcuFlags}.

Lemma create_call_rcu_data_Ret fl aff s r s' t :
  Impl.create_call_rcu_data fl aff s = Ret r s' t →
  ∃ w c,
    r = Some w ∧ malloc_crd (interfere s) = Some w ∧
    t = [EvLock; EvListAdd w; EvMb; EvCreateThread w; EvUnlock] ∧
    crds s' !! w = Some c ∧
    cbs c = cds_wfq_init w ∧ flags c = fl ∧ futex c = 0 ∧ qlen c = 0 ∧
    cpu_affinity c = aff ∧
    call_rcu_data_list s' = w :: call_rcu_data_list (interfere s) ∧
    default_call_rcu_data s' = default_call_rcu_data (interfere s) ∧
    thread_call_rcu_data s' = thread_call_rcu_data (interfere s) ∧
    per_cpu_call_rcu_data s' = per_cpu_call_rcu_data (interfere s) ∧
    maxcpus s' = maxcpus (interfere s) ∧
    heads s' = heads (interfere s) ∧
    (∀ w', w' ≠ w → crds s' !! w' = crds (interfere s) !! w').
Proof.
  intros Hrun.
  unfold Impl.create_call_rcu_data, Impl.__create_call_rcu_data,
    call_rcu_lock, call_rcu_unlock, call_rcu_data_init, cds_list_add,
    cmm_smp_mb in Hrun.
  inv_prims; cbn in *; simplify_map_eq.
  eexists _, _. split; [done|]. split; [done|]. split; [done|].
  split; [by rewrite lookup_insert_eq|]. cbn.
  repeat (split; [done|]).
  intros w' Hne. by rewrite !lookup_insert_ne.
Qed.

Lemma create_call_rcu_data_returns fl aff s :
  reliable host → ∃ r s' t, Impl.create_call_rcu_data fl aff s = Ret r s' t.
Proof.
  intros Hrel.
  assert (∀ s0, pthread_mutex_lock_ret s0 = 0) as Hlk by (intros s0; apply Hrel).
  assert (∀ s0, pthread_mutex_unlock_ret s0 = 0) as Hul by (intros s0; apply Hrel).
  assert (∀ s0, (pthread_create_ret s0).1 = 0) as Hpc by (intros s0; apply Hrel).
  unfold Impl.create_call_rcu_data, Impl.__create_call_rcu_data.
  rewrite bind_run, call_rcu_lock_run, decide_True by apply Hlk.
  cbv beta iota.
  unfold call_rcu_data_init. run_simpl.
  destruct (Hrel (interfere s)) as (_ & _ & _ & [w Hw]). rewrite Hw.
  unfold cds_list_add, cmm_smp_mb. run_simpl.
  rewrite (upd_crd_run _ _ _ _ (lookup_insert_eq _ _ _)).
  run_simpl. rewrite decide_True by apply Hpc.
  rewrite bind_run.
  erewrite upd_crd_run by (cbn; apply lookup_insert_eq).
  run_simpl.
  rewrite call_rcu_unlock_run, decide_True by apply Hul.
  cbn. eauto.
Qed.

End Create.

(** X18. [create_call_rcu_data] of the current variant never returns
    NULL. A call that returns has, under the mutex, allocated a worker,
    linked it at the front of the registry list and started its thread;
    the worker has the flags and the affinity asked for, [futex] and
    [qlen] 0, and a queue that holds its dummy node alone. The call makes
    the worker neither the default worker nor the worker of the thread or
    of a processor: these pointers, and the other workers, are as the
    call found them once it held the mutex. On a host whose calls succeed
    the call returns. *)
Theorem create_call_rcu_data_registers_a_worker
    {host : Host} {bits : CallRcuFlags} (fl aff : Z) (s : State) :
  (∀ r s' t,
     Impl.create_call_rcu_data fl aff s = Ret r s' t →
     ∃ w c,
       r = Some w ∧
       t = [EvLock; EvListAdd w; EvMb; EvCreateThread w; EvUnlock] ∧
       crds s' !! w = Some c ∧
       flags c = fl ∧ cpu_affinity c = aff ∧ futex c = 0 ∧ qlen c = 0 ∧
       queue_holds s' w [dummy_of w] ∧
       call_rcu_data_list s' = w :: call_rcu_data_list (interfere s) ∧
       default_call_rcu_data s' = default_call_rcu_data (interfere s) ∧
       thread_call_rcu_data s' = thread_call_rcu_data (interfere s) ∧
       per_cpu_call_rcu_data s' = per_cpu_call_rcu_data (interfere s) ∧
       (∀ w', w' ≠ w → crds s' !! w' = crds (interfere s) !! w')) ∧
  (reliable host →
   ∃ r s' t, Impl.create_call_rcu_data fl aff s = Ret r s' t).
Proof.
  split; [|apply create_call_rcu_data_returns].
  intros r s' t Hrun.
  apply create_call_rcu_data_Ret in Hrun
    as (w & c & -> & _ & -> & Hc & Hcbs & Hfl & Hfu & Hql & Haff & Hl & Hd
        & Hth & Hpc & Hm & Hh & Hothers).
  exists w, c. repeat (split; [done|]).
  split.
  { exists c. split; [done|]. rewrite Hcbs. cbn. split; [done|].
    split; [|done]. rewrite Hc. cbn. by rewrite Hcbs. }
  done.
Qed.

Section CreateThenCall.
Context {host : Host} {bits : CallRcuFlags} {sched : Sched}.


End CreateThenCall.

(** * A worker for every processor *)

Section CreateAll.
Context {host : Host} {bits : CallRcuFlags}.

Lemma create_worker_run fl aff s :
  reliable host →
  ∃ w s',
    Impl.__create_call_rcu_data fl aff s =
      Ret (Some w) s' [EvListAdd w; EvMb; EvCreateThread w] ∧
    per_cpu_call_rcu_data s' = per_cpu_call_rcu_data s ∧
    maxcpus s' = maxcpus s.
Proof.
  intros Hrel.
  assert (∀ s0, (pthread_create_ret s0).1 = 0) as Hpc by (intros s0; apply Hrel).
  unfold Impl.__create_call_rcu_data, call_rcu_data_init. run_simpl.
  destruct (Hrel s) as (_ & _ & _ & [w Hw]). rewrite Hw.
  unfold cds_list_add, cmm_smp_mb. run_simpl.
  rewrite (upd_crd_run _ _ _ _ (lookup_insert_eq _ _ _)).
  run_simpl. rewrite decide_True by apply Hpc.
  rewrite bind_run.
  erewrite upd_crd_run by (cbn; apply lookup_insert_eq).
  run_simpl. eauto.
Qed.

Lemma set_cpu_empty s cpu crdp arr :
  calm host →
  per_cpu_call_rcu_data s = Some arr →
  0 <= cpu < maxcpus s →
  arr !! Z.to_nat cpu = Some None →
  Impl.set_cpu_call_rcu_data cpu crdp s =
  Ret 0 (set_per_cpu (Some (<[Z.to_nat cpu := crdp]> arr)) (interfere s))
    [EvLock; EvSetSlot cpu crdp; EvUnlock].
Proof.
  intros Hcalm Harr Hcpu Hv.
  destruct (Hcalm s) as (Hp & Hm & _).
  destruct (Hcalm (interfere s)) as (_ & _ & Hlk & _).
  unfold Impl.set_cpu_call_rcu_data.
  rewrite bind_run, call_rcu_lock_run, decide_True by done.
  rewrite bind_run, impl_alloc_noop by lia.
  run_simpl. rewrite decide_False by lia.
  run_simpl. rewrite Hp, Harr, Hv.
  rewrite (bool_decide_eq_false_2 (None ≠ None)) by (by intros ?).
  rewrite andb_false_l. run_simpl.
  rewrite call_rcu_unlock_run.
  rewrite decide_True by apply Hcalm. done.
Qed.

(** The loop of [create_all_cpu_call_rcu_data] from processor [i] on. *)
Lemma create_cpus_run fuel fl :
  calm host → reliable host →
  ∀ n i s arr,
    per_cpu_call_rcu_data s = Some arr →
    maxcpus s = Z.of_nat (length arr) →
    (i ≤ length arr)%nat →
    (length arr - i ≤ n)%nat →
    ∃ s' t arr',
      Impl.create_cpus n fuel fl (Z.of_nat i) s = Ret 0 s' t ∧
      per_cpu_call_rcu_data s' = Some arr' ∧
      maxcpus s' = maxcpus s ∧
      length arr' = length arr ∧
      (∀ k, (k < i)%nat → arr' !! k = arr !! k) ∧
      (∀ k, (i ≤ k < length arr)%nat →
         ∃ w, arr' !! k = Some (Some w) ∧
              (arr !! k = Some None →
               EvCreateThread w ∈ t ∧ EvSetSlot (Z.of_nat k) (Some w) ∈ t) ∧
              (∀ w0, arr !! k = Some (Some w0) → w = w0)) ∧
      (∀ k v, EvSetSlot k v ∈ t →
         ∃ j, k = Z.of_nat j ∧ (i ≤ j < length arr)%nat ∧ arr !! j = Some None).
Proof.
  intros Hcalm Hrel.
  assert (∀ n i s arr,
    per_cpu_call_rcu_data s = Some arr →
    maxcpus s = Z.of_nat (length arr) →
    (i = length arr)%nat →
    ∃ s' t arr',
      Impl.create_cpus n fuel fl (Z.of_nat i) s = Ret 0 s' t ∧
      per_cpu_call_rcu_data s' = Some arr' ∧
      maxcpus s' = maxcpus s ∧
      length arr' = length arr ∧
      (∀ k, (k < i)%nat → arr' !! k = arr !! k) ∧
      (∀ k, (i ≤ k < length arr)%nat →
         ∃ w, arr' !! k = Some (Some w) ∧
              (arr !! k = Some None →
               EvCreateThread w ∈ t ∧ EvSetSlot (Z.of_nat k) (Some w) ∈ t) ∧
              (∀ w0, arr !! k = Some (Some w0) → w = w0)) ∧
      (∀ k v, EvSetSlot k v ∈ t →
         ∃ j, k = Z.of_nat j ∧ (i ≤ j < length arr)%nat ∧ arr !! j = Some None))
    as Hdone.
  { intros n i s arr Harr Hm ->. exists s, [], arr.
    split.
    { destruct n; cbn [Impl.create_cpus]; run_simpl;
        by rewrite decide_False by lia. }
    repeat (split; [done|]). split; [intros k Hk; lia|].
    intros k v Hin. by apply elem_of_nil in Hin. }
  induction n as [|n IH]; intros i s arr Harr Hm Hi Hn.
  { apply Hdone; [done|done|lia]. }
  destruct (decide (i = length arr)) as [Heq|Hne]; [by apply Hdone|].
  assert (i < length arr)%nat as Hlt by lia.
  destruct (lookup_lt_is_Some_2 arr i Hlt) as [v Hv].
  destruct (Hcalm s) as (Hp1 & Hm1 & Hlk & Hul).
  assert (per_cpu_call_rcu_data (interfere s) = Some arr) as Harr1
    by (by rewrite Hp1).
  assert (maxcpus (interfere s) = Z.of_nat (length arr)) as Hmx1
    by (by rewrite Hm1).
  set (s1 := interfere s) in *.
  assert (Z.of_nat i + 1 = Z.of_nat (S i)) as Hsucc by lia.
  destruct v as [w|].
  - (* the slot holds a worker *)
    destruct (IH (S i) s1 arr) as (s' & t & arr' & Hrun & Harr' & Hm' & Hlen
                                   & Hlow & Hhigh & Hset); [done|done|lia|lia|].
    exists s', ([EvLock; EvDerefArray true; EvDerefSlot (Z.of_nat i) (Some w);
                 EvUnlock] ++ t), arr'.
    split.
    { cbn [Impl.create_cpus]. run_simpl. rewrite decide_True by lia.
      rewrite bind_run, call_rcu_lock_run, decide_True by apply Hcalm.
      cbv beta iota. fold s1.
      rewrite bind_run, (get_cpu_in_range s1 (Z.of_nat i) arr (Some w));
        [|done|lia|by rewrite Nat2Z.id].
      cbv beta iota. rewrite decide_True by done.
      rewrite bind_run, call_rcu_unlock_run, decide_True by apply Hcalm.
      cbv beta iota. rewrite Hsucc, Hrun. done. }
    split; [done|]. split; [by rewrite Hm', Hm1|]. split; [done|].
    split; [intros k Hk; apply Hlow; lia|]. split.
    + intros k Hk. destruct (decide (k = i)) as [->|Hki].
      * exists w. split; [rewrite Hlow by lia; done|].
        split; [intros; congruence|]. intros w0 Hw0. congruence.
      * destruct (Hhigh k) as (w' & Hk' & Hnew & Hold); [lia|].
        exists w'. split; [done|]. split; [|done].
        intros Hnone. destruct (Hnew Hnone) as [H1 H2].
        split; apply elem_of_app; by right.
    + intros k v Hin. apply elem_of_app in Hin as [Hin|Hin]; [elem_cases Hin|].
      destruct (Hset k v Hin) as (j & -> & Hj & Hnone).
      exists j. split; [done|]. split; [lia|done].
  - (* the slot is empty: a worker is created and put in it *)
    destruct (create_worker_run fl (Z.of_nat i) s1 Hrel)
      as (w & s2 & Hcr & Hp2 & Hm2).
    assert (per_cpu_call_rcu_data s2 = Some arr) as Harr2 by (by rewrite Hp2).
    assert (maxcpus s2 = Z.of_nat (length arr)) as Hmx2 by (by rewrite Hm2).
    destruct (Hcalm s2) as (Hp3 & Hm3 & _ & _).
    set (arr3 := <[i := Some w]> arr).
    set (s3 := set_per_cpu (Some arr3) (interfere s2)) in *.
    destruct (IH (S i) s3 arr3) as (s' & t & arr' & Hrun & Harr' & Hm' & Hlen
                                    & Hlow & Hhigh & Hset).
    { done. }
    { unfold s3, arr3. cbn. by rewrite length_insert, Hm3. }
    { unfold arr3. rewrite length_insert. lia. }
    { unfold arr3. rewrite length_insert. lia. }
    exists s', ([EvLock; EvDerefArray true; EvDerefSlot (Z.of_nat i) None;
                 EvListAdd w; EvMb; EvCreateThread w; EvUnlock;
                 EvLock; EvSetSlot (Z.of_nat i) (Some w); EvUnlock] ++ t), arr'.
    split.
    { cbn [Impl.create_cpus]. run_simpl. rewrite decide_True by lia.
      rewrite bind_run, call_rcu_lock_run, decide_True by apply Hcalm.
      cbv beta iota. fold s1.
      rewrite bind_run, (get_cpu_in_range s1 (Z.of_nat i) arr None);
        [|done|lia|by rewrite Nat2Z.id].
      cbv beta iota. rewrite decide_False by (by intros ?).
      rewrite bind_run, Hcr; cbv beta iota.
      rewrite bind_run, call_rcu_unlock_run, decide_True by apply Hcalm.
      cbv beta iota.
      rewrite bind_run, (set_cpu_empty s2 (Z.of_nat i) (Some w) arr);
        [|done|done|lia|by rewrite Nat2Z.id].
      cbv beta iota. rewrite decide_False by (by intros ?).
      rewrite Nat2Z.id. fold arr3 s3. rewrite Hsucc, Hrun. done. }
    unfold arr3 in *. rewrite length_insert in *.
    split; [done|]. split; [by rewrite Hm'; cbn; rewrite Hm3, Hm2, Hm1|].
    split; [done|].
    split.
    { intros k Hk. rewrite Hlow by lia. by rewrite list_lookup_insert_ne by lia. }
    split.
    + intros k Hk. destruct (decide (k = i)) as [->|Hki].
      * exists w. split; [rewrite Hlow by lia; by rewrite list_lookup_insert_eq|].
        split; [|intros; congruence].
        intros _. split; in_list.
      * destruct (Hhigh k) as (w' & Hk' & Hnew & Hold); [lia|].
        rewrite list_lookup_insert_ne in Hnew, Hold by done.
        exists w'. split; [done|]. split; [|done].
        intros Hnone. destruct (Hnew Hnone) as [H1 H2].
        split; apply elem_of_app; by right.
    + intros k v Hin. apply elem_of_app in Hin as [Hin|Hin].
      * elem_cases Hin. injection Hin as -> ->. exists i.
        split; [done|]. split; [lia|done].
      * destruct (Hset k v Hin) as (j & -> & Hj & Hnone).
        rewrite list_lookup_insert_ne in Hnone by lia.
        exists j. split; [done|]. split; [lia|done].
Qed.

(** The allocation step under the mutex. *)
Lemma lock_alloc_run s :
  calm host →
  ∃ t0,
    (call_rcu_lock;; Impl.alloc_cpu_call_rcu_data) s =
      Ret () (when_checked s) t0 ∧
    ∀ k v, EvSetSlot k v ∉ t0.
Proof.
  intros Hcalm. unfold when_checked.
  rewrite bind_run, call_rcu_lock_run, decide_True by apply Hcalm.
  cbv beta iota. unfold Impl.alloc_cpu_call_rcu_data, warn_once.
  destruct have_percpu; [|eexists; split; [done|]; intros k v Hin; elem_cases Hin].
  run_simpl. destruct (decide _);
    [eexists; split; [done|]; intros k v Hin; elem_cases Hin|].
  run_simpl. destruct (decide _);
    [eexists; split; [done|]; intros k v Hin; elem_cases Hin|].
  run_simpl. destruct (malloc_array _); run_simpl;
    [eexists; split; [done|]; intros k v Hin; elem_cases Hin|].
  destruct (warned_alloc _); run_simpl;
    eexists; (split; [done|]); intros k v Hin; elem_cases Hin.
Qed.

End CreateAll.

(** X20. [create_all_cpu_call_rcu_data] of the current variant, on a
    machine with a per-CPU array (allocated by this call or before), on a
    host whose calls succeed and where no other thread writes the array:
    the call returns 0; afterwards every processor has a worker; a
    processor that had one keeps it; for a processor that had none a
    thread is created and its worker published in the slot; and no other
    slot is written. *)
Theorem create_all_gives_every_processor_a_worker
    {host : Host} {bits : CallRcuFlags} (n fuel : nat) (fl : Z)
    (arr : list (option wid)) (s : State) :
  calm host → reliable host →
  per_cpu_call_rcu_data (when_checked s) = Some arr →
  maxcpus (when_checked s) = Z.of_nat (length arr) →
  arr ≠ [] →
  (length arr ≤ n)%nat →
  ∃ s' t arr',
    Impl.create_all_cpu_call_rcu_data n fuel fl s = Ret 0 s' t ∧
    per_cpu_call_rcu_data s' = Some arr' ∧
    length arr' = length arr ∧
    (∀ k, (k < length arr)%nat →
       ∃ w, arr' !! k = Some (Some w) ∧
            (arr !! k = Some None →
             EvCreateThread w ∈ t ∧ EvSetSlot (Z.of_nat k) (Some w) ∈ t) ∧
            (∀ w0, arr !! k = Some (Some w0) → w = w0)) ∧
    (∀ k v, EvSetSlot k v ∈ t →
       ∃ j, k = Z.of_nat j ∧ arr !! j = Some None).
Proof.
  intros Hcalm Hrel Harr Hm Hne Hn.
  destruct (lock_alloc_run s Hcalm) as (t0 & Hpre & Hno).
  destruct (create_cpus_run fuel fl Hcalm Hrel n 0%nat (when_checked s) arr)
    as (s' & t & arr' & Hrun & Harr' & Hm' & Hlen & _ & Hhigh & Hset);
    [done|done|lia|lia|].
  exists s', (t0 ++ [EvUnlock] ++ t), arr'. split.
  { unfold Impl.create_all_cpu_call_rcu_data.
    rewrite (bind_assoc_run call_rcu_lock (λ _, Impl.alloc_cpu_call_rcu_data)).
    rewrite bind_run, Hpre; cbv beta iota.
    rewrite bind_run, call_rcu_unlock_run, decide_True by apply Hcalm.
    cbv beta iota. run_simpl.
    rewrite decide_False by (destruct arr; [done|cbn in Hm; lia]).
    run_simpl. rewrite Harr. rewrite decide_False by done.
    change 0 with (Z.of_nat 0). rewrite Hrun. done. }
  split; [done|]. split; [done|]. split.
  - intros k Hk. destruct (Hhigh k) as (w & Hw & Hnew & Hold); [lia|].
    exists w. split; [done|]. split; [|done].
    intros Hnone. destruct (Hnew Hnone).
    split; (apply elem_of_app; right; apply elem_of_app; by right).
  - intros k v Hin. apply elem_of_app in Hin as [Hin|Hin]; [by apply Hno in Hin|].
    apply elem_of_app in Hin as [Hin|Hin]; [elem_cases Hin|].
    destruct (Hset k v Hin) as (j & -> & _ & Hj). eauto.
Qed.

(** X21. [create_all_cpu_call_rcu_data] of the current variant without a
    per-CPU array, on a host whose mutex calls succeed: when [maxcpus] is
    not positive once the allocation step has run (the build has no
    [sched_getcpu], or [sysconf] reports no processor) the call returns
    [-EINVAL] with [errno] set to [EINVAL]; when [maxcpus] is positive
    and the array could not be allocated it returns [-ENOMEM] with
    [errno] set to [ENOMEM]. In both cases it creates no worker and
    leaves the store as the allocation step left it, [errno] apart. *)
Theorem create_all_fails_without_an_array
    {host : Host} {bits : CallRcuFlags} (n fuel : nat) (fl : Z) (s : State) :
  calm host →
  maxcpus (when_checked s) <= 0 ∨ per_cpu_call_rcu_data (when_checked s) = None →
  ∃ t,
    Impl.create_all_cpu_call_rcu_data n fuel fl s =
      Ret (if decide (maxcpus (when_checked s) <= 0) then - EINVAL else - ENOMEM)
        (set_errno (if decide (maxcpus (when_checked s) <= 0) then EINVAL
                    else ENOMEM) (when_checked s)) t ∧
    ∀ w, EvCreateThread w ∉ t.
Proof.
  intros Hcalm Hcase.
  assert (∃ t0,
            (call_rcu_lock;; Impl.alloc_cpu_call_rcu_data) s =
              Ret () (when_checked s) t0 ∧
            ∀ w, EvCreateThread w ∉ t0) as (t0 & Hpre & Hno).
  { unfold when_checked.
    rewrite bind_run, call_rcu_lock_run, decide_True by apply Hcalm.
    cbv beta iota. unfold Impl.alloc_cpu_call_rcu_data, warn_once.
    destruct have_percpu;
      [|eexists; split; [done|]; intros k Hin; elem_cases Hin].
    run_simpl. destruct (decide _);
      [eexists; split; [done|]; intros k Hin; elem_cases Hin|].
    run_simpl. destruct (decide _);
      [eexists; split; [done|]; intros k Hin; elem_cases Hin|].
    run_simpl. destruct (malloc_array _); run_simpl;
      [eexists; split; [done|]; intros k Hin; elem_cases Hin|].
    destruct (warned_alloc _); run_simpl;
      eexists; (split; [done|]); intros k Hin; elem_cases Hin. }
  exists (t0 ++ [EvUnlock]). split.
  - unfold Impl.create_all_cpu_call_rcu_data.
    rewrite (bind_assoc_run call_rcu_lock (λ _, Impl.alloc_cpu_call_rcu_data)).
    rewrite bind_run, Hpre; cbv beta iota.
    rewrite bind_run, call_rcu_unlock_run, decide_True by apply Hcalm.
    cbv beta iota. run_simpl.
    destruct (decide (maxcpus (when_checked s) <= 0)) as [Hm|Hm].
    + run_simpl. by rewrite app_nil_r.
    + destruct Hcase as [?|Hnone]; [done|].
      run_simpl. rewrite Hnone. rewrite decide_True by done.
      run_simpl. by rewrite app_nil_r.
  - intros w Hin. apply elem_of_app in Hin as [Hin|Hin]; [by apply Hno in Hin|].
    elem_cases Hin.
Qed.

(** * The child of a fork *)

Section Keeps.
Context (P : State → State → Prop).
Hypothesis P_refl : ∀ s, P s s.
Hypothesis P_trans : ∀ s1 s2 s3, P s1 s2 → P s2 s3 → P s1 s3.

Lemma keeps_bind {A B} (m : M A) (k : A → M B) :
  keeps P m → (∀ a, keeps P (k a)) → keeps P (m ≫= k).
Proof.
  intros Hm Hk s b s' t Hrun.
  apply bind_Ret in Hrun as (a & s1 & t1 & t2 & H1 & H2 & ->).
  eapply P_trans; [by eapply Hm|by eapply Hk].
Qed.

Lemma keeps_ret {A} (a : A) : keeps P (mret a).
Proof. intros s b s' t Hrun. apply mret_Ret in Hrun as (_ & -> & _). apply P_refl. Qed.

Lemma keeps_gets {A} (f : State → A) : keeps P (gets f).
Proof. intros s b s' t Hrun. apply gets_Ret in Hrun as (_ & -> & _). apply P_refl. Qed.

Lemma keeps_emit e : keeps P (emit e).
Proof. intros s b s' t Hrun. apply emit_Ret in Hrun as (-> & _). apply P_refl. Qed.

Lemma keeps_stop {A} h : keeps P (stop (A:=A) h).
Proof. by intros s b s' t Hrun. Qed.

Lemma keeps_modify f : (∀ s, P s (f s)) → keeps P (modify f).
Proof. intros Hf s b s' t Hrun. apply modify_Ret in Hrun as (-> & _). apply Hf. Qed.

Lemma keeps_crd w : keeps P (crd w).
Proof.
  intros s c s' t Hrun. unfold crd in Hrun.
  destruct (crds s !! w); [|done]. injection Hrun as _ <- _. apply P_refl.
Qed.

Lemma keeps_load_next n : keeps P (load_next n).
Proof.
  intros s c s' t Hrun. unfold load_next in Hrun.
  destruct (node_next s n); [|done]. injection Hrun as _ <- _. apply P_refl.
Qed.

Lemma keeps_load_func n : keeps P (load_func n).
Proof.
  intros s c s' t Hrun. unfold load_func in Hrun.
  destruct (node_func s n); [|done]. injection Hrun as _ <- _. apply P_refl.
Qed.

(** A write to a worker that is allocated, and a write to the records. *)
Hypothesis P_crd : ∀ s w c c', crds s !! w = Some c → P s (set_crds <[w := c']> s).
Hypothesis P_heads : ∀ s g, P s (set_heads g s).

Lemma keeps_upd_crd w f : keeps P (upd_crd w f).
Proof.
  intros s c s' t Hrun. unfold upd_crd, crd in Hrun.
  destruct (crds s !! w) as [c0|] eqn:Hc; inv_prims; simplify_eq;
    rewrite ?Hc in *; simplify_eq.
  by eapply P_crd.
Qed.

Lemma keeps_write_link p v : keeps P (write_link p v).
Proof.
  destruct p as [w|[w|a]]; cbn [write_link]; try apply keeps_upd_crd.
  intros s c s' t Hrun. destruct (heads s !! a); [|done].
  injection Hrun as _ <- _. apply P_heads.
Qed.

End Keeps.

Create HintDb keeps.

#[global] Hint Resolve keeps_ret keeps_gets keeps_emit keeps_stop keeps_crd
  keeps_load_next keeps_load_func : keeps.

Ltac head_of t :=
  lazymatch t with
  | ?f _ => head_of f
  | _ => t
  end.

(** Decompose a computation down to its accesses, unfolding one
    definition at a time. *)
Ltac keeps_step :=
  lazymatch goal with
  | |- keeps _ (_ ≫= _) => apply keeps_bind; [by eauto with keeps| |intros]
  | |- keeps _ (if ?b then _ else _) => destruct b
  | |- keeps _ (match ?x with _ => _ end) => destruct x
  | |- keeps _ ?m =>
      first [ solve [eauto with keeps]
            | let h := head_of m in progress unfold h ]
  end.

Ltac keeps_auto := repeat keeps_step.

Section Child.
Context {host : Host} {bits : CallRcuFlags}.
Hypothesis alone : ∀ s, interfere s = s.
Variable d : wid.

Lemma left_alone_refl s : left_alone d s s.
Proof. by intros Hd. Qed.

Lemma left_alone_trans s1 s2 s3 :
  left_alone d s1 s2 → left_alone d s2 s3 → left_alone d s1 s3.
Proof.
  intros H1 H2 Hd. destruct (H1 Hd) as (Hd2 & Ht & Hp & Hm & Hl & Hc).
  destruct (H2 Hd2) as (Hd3 & Ht3 & Hp3 & Hm3 & Hl3 & Hc3).
  repeat split; try congruence.
  - intros H. by apply Hc, Hc3.
  - intros H. by apply Hc3, Hc.
Qed.

Lemma left_alone_crd s w c c' :
  crds s !! w = Some c → left_alone d s (set_crds <[w := c']> s).
Proof.
  intros Hc Hd. repeat split; try done; cbn.
  - destruct (decide (w0 = w)) as [->|?];
      [by rewrite lookup_insert_eq|by rewrite lookup_insert_ne].
  - destruct (decide (w0 = w)) as [->|?];
      [congruence|by rewrite lookup_insert_ne].
Qed.

Lemma left_alone_heads s g : left_alone d s (set_heads g s).
Proof. by intros Hd. Qed.

Lemma left_alone_interfere : keeps (left_alone d) (modify interfere).
Proof.
  apply keeps_modify. intros s. rewrite alone. apply left_alone_refl.
Qed.

Hint Resolve left_alone_refl left_alone_trans left_alone_crd left_alone_heads
  left_alone_interfere : keeps.

Lemma left_alone_upd_crd w f : keeps (left_alone d) (upd_crd w f).
Proof. eapply keeps_upd_crd; eauto with keeps. Qed.

Lemma left_alone_write_link p v : keeps (left_alone d) (write_link p v).
Proof. eapply keeps_write_link; eauto with keeps. Qed.

Hint Resolve left_alone_upd_crd left_alone_write_link : keeps.

Lemma left_alone_wait_flag fuel w mask :
  keeps (left_alone d) (wait_flag fuel w mask).
Proof. induction fuel; simpl; keeps_auto. Qed.

Lemma left_alone_wait_head fuel w : keeps (left_alone d) (wait_head fuel w).
Proof. induction fuel; simpl; keeps_auto. Qed.

Lemma left_alone_wake w : keeps (left_alone d) (wake_call_rcu_thread w).
Proof. unfold wake_call_rcu_thread, call_rcu_wake_up. keeps_auto. Qed.

Lemma left_alone_get_default : keeps (left_alone d) get_default_call_rcu_data.
Proof.
  intros s r s' t Hrun Hd.
  rewrite (get_default_known _ _ Hd) in Hrun. injection Hrun as _ <- _.
  by apply left_alone_refl.
Qed.

Hint Resolve left_alone_wait_flag left_alone_wait_head left_alone_wake
  left_alone_get_default : keeps.

Lemma left_alone_stop_worker fuel r :
  keeps (left_alone d) (Impl.stop_worker fuel r).
Proof. unfold Impl.stop_worker. keeps_auto. Qed.

Lemma left_alone_splice fuel r :
  keeps (left_alone d) (Impl.splice_leftover fuel r).
Proof. unfold Impl.splice_leftover. keeps_auto. Qed.

Lemma no_or_wait_head fuel w : stays no_or_step () (wait_head fuel w).
Proof. induction fuel; simpl; stays_auto. Qed.

Lemma no_or_wake w : stays no_or_step () (wake_call_rcu_thread w).
Proof. unfold wake_call_rcu_thread, call_rcu_wake_up. stays_auto. Qed.

Lemma no_or_get_default : stays no_or_step () get_default_call_rcu_data.
Proof. unfold get_default_call_rcu_data, call_rcu_data_init. stays_auto. Qed.

Hint Resolve no_or_wait_head no_or_wake no_or_get_default : stays.

Lemma no_or_splice fuel r : stays no_or_step () (Impl.splice_leftover fuel r).
Proof. unfold Impl.splice_leftover. stays_auto. Qed.

Lemma no_or_run t :
  is_Some (run no_or_step () t) → ∀ w m, EvOrFlags w m ∉ t.
Proof.
  induction t as [|e t IH]; intros Hr w m Hin; [by apply elem_of_nil in Hin|].
  apply elem_of_cons in Hin as [<-|Hin]; simpl in Hr.
  - by destruct Hr.
  - destruct e; try (by eapply IH); by destruct Hr.
Qed.

Lemma set_flags_Ret w v s s' t :
  set_flags w v s = Ret () s' t →
  ∃ c, crds s !! w = Some c ∧
       s' = set_crds <[w := with_flags v c]> s ∧
       t = [EvSetFlags w v].
Proof.
  unfold set_flags, upd_crd, crd. intros Hrun.
  destruct (crds s !! w) as [c|] eqn:Hc; inv_prims; simplify_eq;
    rewrite ?Hc in *; simplify_eq.
  by eexists.
Qed.

(** The disposal of one worker in the child: its flags are set to
    [STOPPED], so that [call_rcu_data_free] does not ask it to stop. *)
Lemma dispose_in_child fuel r s s' t :
  URCU_CALL_RCU_STOPPED ≠ 0 →
  default_call_rcu_data s = Some d → r ≠ d →
  (set_flags r URCU_CALL_RCU_STOPPED;;
   Impl.call_rcu_data_free fuel (Some r)) s = Ret () s' t →
  default_call_rcu_data s' = Some d ∧
  thread_call_rcu_data s' = thread_call_rcu_data s ∧
  per_cpu_call_rcu_data s' = per_cpu_call_rcu_data s ∧
  maxcpus s' = maxcpus s ∧
  call_rcu_data_list s' = filter (λ x, x ≠ r) (call_rcu_data_list s) ∧
  (∀ w, crds s' !! w = None ↔ w = r ∨ crds s !! w = None) ∧
  (∀ w m, EvOrFlags w m ∉ t) ∧
  EvSetFlags r URCU_CALL_RCU_STOPPED ∈ t ∧ EvFree r ∈ t.
Proof.
  intros Hbit Hd Hne Hrun.
  apply bind_Ret in Hrun as ([] & s1 & t1 & t2 & Hset & Hrun & ->).
  apply set_flags_Ret in Hset as (c & Hc & -> & ->).
  set (s1 := set_crds <[r := with_flags URCU_CALL_RCU_STOPPED c]> s) in *.
  assert (left_alone d s s1) as Hs1 by (by eapply left_alone_crd).
  destruct (Hs1 Hd) as (Hd1 & Ht1 & Hp1 & Hm1 & Hl1 & Hc1).
  assert (crds s1 !! r = Some (with_flags URCU_CALL_RCU_STOPPED c)) as Hr1.
  { unfold s1, set_crds; cbn [crds]. by rewrite lookup_insert_eq. }
  unfold Impl.call_rcu_data_free in Hrun.
  apply bind_Ret in Hrun as (d' & s2 & ta & tb & Hg & Hrun & ->).
  apply gets_Ret in Hg as (-> & -> & ->).
  rewrite Hd1 in Hrun. rewrite decide_False in Hrun by congruence.
  apply bind_Ret in Hrun as ([] & s2 & tc & td & Hstop & Hrun & ->).
  assert (s2 = s1 ∧ tc = [EvReadFlags r URCU_CALL_RCU_STOPPED]) as [-> ->].
  { unfold Impl.stop_worker in Hstop.
    rewrite bind_run, (read_flags_run _ _ _ Hr1) in Hstop.
    cbv beta iota in Hstop. cbn [flags with_flags] in Hstop.
    rewrite decide_False in Hstop by (by rewrite Z.land_diag).
    by injection Hstop as <- <-. }
  apply bind_Ret in Hrun as ([] & s3 & te & tf & Hsplice & Hrun & ->).
  pose proof (left_alone_splice fuel r _ _ _ _ Hsplice Hd1)
    as (Hd3 & Ht3 & Hp3 & Hm3 & Hl3 & Hc3).
  pose proof (stays_trace no_or_step () _ s1 (no_or_splice fuel r)) as Hno.
  rewrite Hsplice in Hno. cbn [trace_of] in Hno.
  pose proof (no_or_run _ Hno) as Hnor.
  apply unlink_and_free_run in Hrun as [-> ->].
  rewrite alone. cbn.
  split; [done|]. split; [congruence|]. split; [congruence|].
  split; [congruence|]. split; [by rewrite Hl3, Hl1|].
  split.
  { intros w. destruct (decide (w = r)) as [->|Hwr].
    - rewrite lookup_delete_eq. by split; [left|].
    - rewrite lookup_delete_ne by done. rewrite Hc3, Hc1.
      split; [by right|by intros [?|?]]. }
  split.
  { intros w m Hin. elem_cases Hin.
    apply elem_of_app in Hin as [Hin|Hin]; [by apply (Hnor w m) in Hin|].
    elem_cases Hin. }
  split; [in_list|].
  rewrite !elem_of_cons, !elem_of_app. right. right. right.
  rewrite !elem_of_cons. auto.
Qed.

(** The loop of [call_rcu_after_fork_child]. *)
Lemma dispose_all fuel l s s' t :
  URCU_CALL_RCU_STOPPED ≠ 0 →
  default_call_rcu_data s = Some d →
  for_each l (λ crdp,
    d' ← gets default_call_rcu_data;
    if decide (Some crdp = d') then mret ()
    else
      set_flags crdp URCU_CALL_RCU_STOPPED;;
      Impl.call_rcu_data_free fuel (Some crdp)) s = Ret () s' t →
  default_call_rcu_data s' = Some d ∧
  thread_call_rcu_data s' = thread_call_rcu_data s ∧
  per_cpu_call_rcu_data s' = per_cpu_call_rcu_data s ∧
  maxcpus s' = maxcpus s ∧
  (∀ x, x ∈ call_rcu_data_list s' ↔
        x ∈ call_rcu_data_list s ∧ (x = d ∨ x ∉ l)) ∧
  (∀ w, crds s' !! w = None ↔ (w ∈ l ∧ w ≠ d) ∨ crds s !! w = None) ∧
  (∀ w m, EvOrFlags w m ∉ t) ∧
  (∀ w, w ∈ l → w ≠ d →
        EvSetFlags w URCU_CALL_RCU_STOPPED ∈ t ∧ EvFree w ∈ t).
Proof.
  intros Hbit. revert s t. induction l as [|r l IH]; intros s t Hd Hrun;
    cbn [for_each] in Hrun.
  - apply mret_Ret in Hrun as (_ & -> & ->).
    repeat (split; [done|]). split; [|split; [|split]].
    + intros x. rewrite elem_of_nil. tauto.
    + intros w. rewrite elem_of_nil. tauto.
    + intros w m Hin. by apply elem_of_nil in Hin.
    + intros w Hin. by apply elem_of_nil in Hin.
  - apply bind_Ret in Hrun as ([] & s1 & t1 & t2 & Hbody & Hrun & ->).
    apply bind_Ret in Hbody as (d' & s0 & ta & tb & Hg & Hbody & ->).
    apply gets_Ret in Hg as (-> & -> & ->). rewrite Hd in Hbody.
    destruct (decide (Some r = Some d)) as [[= ->]|Hne].
    + apply mret_Ret in Hbody as (_ & -> & ->).
      destruct (IH _ _ Hd Hrun) as (Hd' & Ht & Hp & Hm & Hl & Hc & Hno & Hev).
      repeat (split; [done|]). split; [|split; [|split]].
      * intros x. rewrite Hl, not_elem_of_cons.
        destruct (decide (x = d)); intuition congruence.
      * intros w. rewrite Hc, elem_of_cons. intuition congruence.
      * done.
      * intros w Hin Hw. apply elem_of_cons in Hin as [?|Hin]; [done|].
        by apply Hev.
    + assert (r ≠ d) as Hrd by congruence.
      destruct (dispose_in_child fuel r s s1 tb Hbit Hd Hrd Hbody)
        as (Hd1 & Ht1 & Hp1 & Hm1 & Hl1 & Hc1 & Hno1 & Hs1 & Hf1).
      destruct (IH _ _ Hd1 Hrun) as (Hd' & Ht & Hp & Hm & Hl & Hc & Hno & Hev).
      split; [done|]. split; [congruence|]. split; [congruence|].
      split; [congruence|]. split; [|split; [|split]].
      * intros x. rewrite Hl, Hl1, list_elem_of_filter, not_elem_of_cons.
        destruct (decide (x = d)); intuition congruence.
      * intros w. rewrite Hc, Hc1, elem_of_cons. intuition congruence.
      * intros w m Hin. cbn in Hin.
        apply elem_of_app in Hin as [Hin|Hin];
          [by apply (Hno1 w m) in Hin|by apply (Hno w m) in Hin].
      * intros w Hin Hw. apply elem_of_cons in Hin as [->|Hin].
        -- split; cbn; apply elem_of_app; by left.
        -- destruct (Hev w Hin Hw). split; cbn; apply elem_of_app; by right.
Qed.

End Child.

Section ChildDefault.
Context {host : Host} {bits : CallRcuFlags}.
Hypothesis alone : ∀ s, interfere s = s.

(** The default worker the child creates. *)
Lemma new_default_in_child s r s' t :
  default_call_rcu_data s = None →
  get_default_call_rcu_data s = Ret r s' t →
  ∃ d c,
    default_call_rcu_data s' = Some d ∧
    call_rcu_data_list s' = d :: call_rcu_data_list s ∧
    thread_call_rcu_data s' = thread_call_rcu_data s ∧
    per_cpu_call_rcu_data s' = per_cpu_call_rcu_data s ∧
    maxcpus s' = maxcpus s ∧
    crds s' = <[d := c]> (crds s) ∧
    t = [EvLock; EvListAdd d; EvMb; EvCreateThread d; EvUnlock].
Proof.
  intros Hd Hrun.
  unfold get_default_call_rcu_data, call_rcu_lock, call_rcu_unlock,
    call_rcu_data_init, cds_list_add, cmm_smp_mb in Hrun.
  inv_prims; cbn in *; rewrite ?alone in *; simplify_map_eq; try congruence.
  eexists _, _. repeat (split; [done|]). split; [|done].
  rewrite !insert_insert_eq. reflexivity.
Qed.

End ChildDefault.

(** X22. [call_rcu_after_fork_child] of the current variant, in a
    process with no other thread (the child of a fork). When the registry
    list is empty the call releases the mutex and does nothing else.
    Otherwise, when it returns, a new default worker [d] has been created
    and is the only worker of the registry list; the thread pointer and
    the per-CPU array are NULL ([maxcpus] is 0 in a per-CPU build); every
    worker the list had has been given the flags [STOPPED] and freed,
    while [d] and the workers that were not listed stay allocated. No
    worker has been asked to stop: the call sets no flag with
    [uatomic_or]. *)
Theorem after_fork_child_keeps_a_new_default_worker_only
    {host : Host} {bits : CallRcuFlags} (fuel : nat) (s s' : State)
    (t : list event) :
  (∀ s0, interfere s0 = s0) →
  URCU_CALL_RCU_STOPPED ≠ 0 →
  Impl.call_rcu_after_fork_child fuel s = Ret () s' t →
  (call_rcu_data_list s = [] → s' = s ∧ t = [EvUnlock]) ∧
  (call_rcu_data_list s ≠ [] →
   ∃ d,
     default_call_rcu_data s' = Some d ∧
     thread_call_rcu_data s' = None ∧
     per_cpu_call_rcu_data s' = None ∧
     (have_percpu = true → maxcpus s' = 0) ∧
     (∀ x, x ∈ call_rcu_data_list s' ↔ x = d) ∧
     (∀ w, crds s' !! w = None ↔
           w ≠ d ∧ (w ∈ call_rcu_data_list s ∨ crds s !! w = None)) ∧
     EvCreateThread d ∈ t ∧
     (∀ w, w ∈ call_rcu_data_list s → w ≠ d →
           EvSetFlags w URCU_CALL_RCU_STOPPED ∈ t ∧ EvFree w ∈ t) ∧
     (∀ w m, EvOrFlags w m ∉ t)).
Proof.
  intros alone Hbit Hrun. unfold Impl.call_rcu_after_fork_child in Hrun.
  apply bind_Ret in Hrun as ([] & s1 & t1 & t2 & Hun & Hrun & ->).
  rewrite call_rcu_unlock_run in Hun. destruct (decide _); [|done].
  injection Hun as <- <-.
  apply bind_Ret in Hrun as (l0 & s1 & u1 & u2 & Hg & Hrun & ->).
  apply gets_Ret in Hg as (-> & -> & ->).
  destruct (decide (call_rcu_data_list s = [])) as [Hnil|Hne].
  { apply mret_Ret in Hrun as (_ & -> & ->). by split. }
  split; [done|]. intros _.
  apply bind_Ret in Hrun as ([] & s1 & u3 & u4 & Hm & Hrun & ->).
  apply modify_Ret in Hm as (-> & ->).
  apply bind_Ret in Hrun as (r & s2 & u5 & u6 & Hdef & Hrun & ->).
  apply new_default_in_child in Hdef
    as (d & c & Hd2 & Hl2 & Ht2 & Hp2 & Hm2 & Hc2 & ->); [|done|done].
  cbn in Hl2, Ht2, Hp2, Hm2, Hc2.
  apply bind_Ret in Hrun as ([] & s3 & te & u7 & Hreset & Hrun & ->).
  apply bind_Ret in Hrun as ([] & s4 & u8 & u9 & Hpc & Hrun & ->).
  apply modify_Ret in Hpc as (-> & ->).
  apply bind_Ret in Hrun as ([] & s5 & u10 & u11 & Hem & Hrun & ->).
  apply emit_Ret in Hem as (-> & ->).
  apply bind_Ret in Hrun as ([] & s6 & u12 & u13 & Hth & Hrun & ->).
  apply modify_Ret in Hth as (-> & ->).
  apply bind_Ret in Hrun as (l & s7 & u14 & u15 & Hg & Hrun & ->).
  apply gets_Ret in Hg as (-> & -> & ->).
  assert (default_call_rcu_data s3 = Some d ∧
          call_rcu_data_list s3 = d :: call_rcu_data_list s ∧
          crds s3 = <[d := c]> (crds s) ∧
          (have_percpu = true → maxcpus s3 = 0) ∧ te = []) as
    (Hd3 & Hl3 & Hc3 & Hm3 & ->).
  { unfold Impl.maxcpus_reset in Hreset. destruct have_percpu.
    - apply modify_Ret in Hreset as (-> & ->). by cbn.
    - apply mret_Ret in Hreset as (_ & -> & ->). done. }
  apply (dispose_all alone d) in Hrun as
    (Hd' & Ht' & Hp' & Hm' & Hl' & Hc' & Hno & Hev); [|done|done].
  cbn in Ht', Hp', Hm', Hl', Hc', Hev.
  exists d. split; [done|]. split; [done|]. split; [done|].
  split; [by rewrite Hm'|]. split; [|split; [|split; [|split]]].
  - intros x. rewrite Hl', Hl3, not_elem_of_cons, elem_of_cons.
    destruct (decide (x = d)); intuition congruence.
  - intros w. rewrite Hc', Hl3, Hc3, elem_of_cons.
    destruct (decide (w = d)) as [->|Hw].
    + rewrite lookup_insert_eq. intuition congruence.
    + rewrite lookup_insert_ne by done. intuition congruence.
  - cbn. rewrite !elem_of_cons. auto 10.
  - intros w Hw Hwd. destruct (Hev w) as [H1 H2]; [rewrite Hl3; by right|done|].
    cbn. rewrite !elem_of_cons. auto 10.
  - intros w m Hin. cbn in Hin. elem_cases Hin. by apply (Hno w m) in Hin.
Qed.

(** * The child of a fork in the older variant *)

Section LegacyChild.
Context {host : Host} {bits : CallRcuFlags}.

(** One turn of the loop for an idle worker: the worker stays in the
    list. *)
Lemma legacy_dispose_idle fuel w d c s :
  URCU_CALL_RCU_STOPPED ≠ 0 →
  default_call_rcu_data s = Some d → w ≠ d →
  crds s !! w = Some c →
  wfq_tail (cbs c) = HeadOf w →
  (set_flags w URCU_CALL_RCU_STOPPED;;
   Legacy.call_rcu_data_free fuel (Some w)) s =
  Ret () (set_crds <[w := with_flags URCU_CALL_RCU_STOPPED c]> s)
    [EvSetFlags w URCU_CALL_RCU_STOPPED;
     EvReadFlags w URCU_CALL_RCU_STOPPED; EvLoadTail w (HeadOf w)].
Proof.
  intros Hbit Hd Hne Hc Htl.
  set (c1 := with_flags URCU_CALL_RCU_STOPPED c).
  set (s1 := set_crds <[w := c1]> s).
  assert (crds s1 !! w = Some c1) as Hc1.
  { unfold s1, set_crds; cbn [crds]. by rewrite lookup_insert_eq. }
  unfold set_flags.
  rewrite bind_run. rewrite bind_run, (upd_crd_run _ _ _ _ Hc); cbv beta iota.
  fold c1 s1. cbn [emit]. cbv beta iota.
  unfold Legacy.call_rcu_data_free.
  rewrite bind_run; cbn [gets]; cbv beta iota.
  replace (default_call_rcu_data s1) with (Some d) by done.
  rewrite decide_False by congruence.
  rewrite bind_run, (read_flags_run _ _ _ Hc1); cbv beta iota.
  cbn [flags c1 with_flags].
  rewrite decide_False by (by rewrite Z.land_diag).
  rewrite bind_run; cbn [mret M_ret]; cbv beta iota.
  rewrite bind_run, (load_tail_run _ _ _ Hc1); cbv beta iota.
  cbn [cbs c1 with_flags]. rewrite Htl.
  rewrite decide_False by (by intros ?). done.
Qed.

(** The loop of the older [call_rcu_after_fork_child] when the last
    worker of the list is idle: every turn leaves the list as it is. *)
Lemma legacy_dispose_rest_spins fuel w d :
  URCU_CALL_RCU_STOPPED ≠ 0 → w ≠ d →
  ∀ n s c,
    default_call_rcu_data s = Some d →
    last (call_rcu_data_list s) = Some w →
    head (call_rcu_data_list s) ≠ Some w →
    crds s !! w = Some c →
    wfq_tail (cbs c) = HeadOf w →
    ∃ s' t,
      Legacy.dispose_rest n fuel s = Halt OutOfFuel s' t ∧
      call_rcu_data_list s' = call_rcu_data_list s ∧
      is_Some (crds s' !! w) ∧
      (∀ x, EvListDel x ∉ t) ∧ (∀ x, EvFree x ∉ t).
Proof.
  intros Hbit Hne n. induction n as [|n IH]; intros s c Hd Hlast Hhead Hc Htl.
  - exists s, []. cbn [Legacy.dispose_rest]. run_simpl.
    rewrite decide_False by congruence.
    split; [done|]. split; [done|]. split; [by eexists|].
    split; intros x Hin; by apply elem_of_nil in Hin.
  - set (s1 := set_crds <[w := with_flags URCU_CALL_RCU_STOPPED c]> s).
    destruct (IH s1 (with_flags URCU_CALL_RCU_STOPPED c))
      as (s' & t & Hrun & Hl & Hw & Hno1 & Hno2); try done.
    { unfold s1, set_crds; cbn [crds]. by rewrite lookup_insert_eq. }
    exists s', ([EvSetFlags w URCU_CALL_RCU_STOPPED;
                 EvReadFlags w URCU_CALL_RCU_STOPPED;
                 EvLoadTail w (HeadOf w)] ++ t).
    split; [|split; [done|split; [done|]]].
    + cbn [Legacy.dispose_rest]. run_simpl.
      rewrite decide_False by congruence. run_simpl.
      rewrite Hd, Hlast. rewrite decide_False by congruence.
      rewrite (bind_assoc_run (set_flags w URCU_CALL_RCU_STOPPED)
                 (λ _, Legacy.call_rcu_data_free fuel (Some w))).
      rewrite bind_run, (legacy_dispose_idle fuel w d c s) by done.
      cbv beta iota. fold s1. by rewrite Hrun.
    + split; intros x Hin; apply elem_of_app in Hin as [Hin|Hin];
        try (by elem_cases Hin); [by apply (Hno1 x)|by apply (Hno2 x)].
Qed.

Lemma default_created s :
  reliable host → ∃ r s' t, get_default_call_rcu_data s = Ret r s' t.
Proof.
  intros Hrel.
  assert (∀ s0, pthread_mutex_lock_ret s0 = 0) as Hlk by (intros s0; apply Hrel).
  assert (∀ s0, pthread_mutex_unlock_ret s0 = 0) as Hul by (intros s0; apply Hrel).
  assert (∀ s0, (pthread_create_ret s0).1 = 0) as Hpc by (intros s0; apply Hrel).
  destruct (default_call_rcu_data s) as [w|] eqn:Hd.
  { rewrite (get_default_known s w Hd). eauto. }
  unfold get_default_call_rcu_data. run_simpl. rewrite Hd.
  rewrite decide_False by (intros Hx; by apply Hx).
  rewrite bind_run, call_rcu_lock_run, decide_True by apply Hlk.
  run_simpl.
  destruct (default_call_rcu_data (interfere s)) as [w|] eqn:Hd1.
  { rewrite decide_True by done.
    rewrite bind_run, call_rcu_unlock_run, decide_True by apply Hul.
    cbn. eauto. }
  rewrite decide_False by (intros Hx; by apply Hx).
  unfold call_rcu_data_init. run_simpl.
  destruct (Hrel (interfere s)) as (_ & _ & _ & [w Hw]). rewrite Hw.
  unfold cds_list_add, cmm_smp_mb. run_simpl.
  rewrite (upd_crd_run _ _ _ _ (lookup_insert_eq _ _ _)).
  run_simpl. rewrite decide_True by apply Hpc.
  rewrite bind_run.
  erewrite upd_crd_run by (cbn; apply lookup_insert_eq).
  run_simpl.
  rewrite call_rcu_unlock_run, decide_True by apply Hul.
  cbn. eauto.
Qed.

End LegacyChild.

(** X23. [call_rcu_after_fork_child] of the older variant, in a process
    with no other thread and on a host whose calls succeed. When the
    registry list is empty the call creates a default worker all the
    same and returns. When the last worker of the list is idle (its
    queue is empty) the loop never ends: each turn sets the flags of
    that worker to [STOPPED] and calls [call_rcu_data_free], which
    returns without unlinking it, so that the list is the same at the
    next turn; whatever the bound on the number of turns, the run
    exhausts it, and nothing is unlinked or freed. *)
Theorem legacy_after_fork_child_spins_on_an_idle_worker
    {host : Host} {bits : CallRcuFlags} (n fuel : nat) (s : State) :
  (∀ s0, interfere s0 = s0) →
  reliable host →
  URCU_CALL_RCU_STOPPED ≠ 0 →
  (call_rcu_data_list s = [] →
   ∃ d s',
     Legacy.call_rcu_after_fork_child n fuel s =
       Ret () s'
         [EvUnlock; EvLock; EvListAdd d; EvMb; EvCreateThread d; EvUnlock] ∧
     call_rcu_data_list s' = [d] ∧ default_call_rcu_data s' = Some d) ∧
  (∀ w c,
     last (call_rcu_data_list s) = Some w →
     crds s !! w = Some c →
     wfq_tail (cbs c) = HeadOf w →
     malloc_crd (set_default None s) ≠ Some w →
     ∃ s' t,
       Legacy.call_rcu_after_fork_child n fuel s = Halt OutOfFuel s' t ∧
       w ∈ call_rcu_data_list s' ∧ is_Some (crds s' !! w) ∧
       (∀ x, EvListDel x ∉ t) ∧ (∀ x, EvFree x ∉ t)).
Proof.
  intros alone Hrel Hbit.
  assert (∀ s0, pthread_mutex_unlock_ret s0 = 0) as Hul by (intros s0; apply Hrel).
  destruct (default_created (set_default None s) Hrel) as (r & s1 & t1 & Hdef).
  pose proof Hdef as Hinv.
  apply new_default_in_child in Hinv
    as (d & c0 & Hd1 & Hl1 & Ht1 & Hp1 & Hm1 & Hc1 & ->); [|done|done].
  cbn in Hl1, Hc1.
  assert (∀ k : unit → M unit,
            Legacy.call_rcu_after_fork_child n fuel s =
            match Legacy.dispose_rest n fuel s1 with
            | Ret a s2 t2 =>
                Ret a s2 ([EvUnlock; EvLock; EvListAdd d; EvMb;
                           EvCreateThread d; EvUnlock] ++ t2)
            | Halt h s2 t2 =>
                Halt h s2 ([EvUnlock; EvLock; EvListAdd d; EvMb;
                            EvCreateThread d; EvUnlock] ++ t2)
            end) as Hshape.
  { intros _. unfold Legacy.call_rcu_after_fork_child.
    rewrite bind_run, call_rcu_unlock_run, decide_True by apply Hul.
    cbv beta iota. rewrite bind_run; cbn [modify]; cbv beta iota.
    rewrite bind_run, Hdef; cbv beta iota.
    by destruct (Legacy.dispose_rest n fuel s1). }
  specialize (Hshape (λ _, mret ())).
  split.
  - intros Hnil. exists d, s1. rewrite Hshape. rewrite Hnil in Hl1.
    assert (Legacy.dispose_rest n fuel s1 = Ret () s1 []) as ->.
    { destruct n; cbn [Legacy.dispose_rest]; run_simpl; rewrite Hl1;
        by rewrite decide_True. }
    done.
  - intros w c Hlast Hc Htl Hfresh.
    assert (w ≠ d) as Hwd.
    { intros ->. apply Hfresh.
      unfold get_default_call_rcu_data, call_rcu_lock, call_rcu_unlock,
        call_rcu_data_init, cds_list_add, cmm_smp_mb in Hdef.
      inv_prims; cbn in *; rewrite ?alone in *; simplify_map_eq;
        congruence. }
    destruct (legacy_dispose_rest_spins fuel w d Hbit Hwd n s1 c)
      as (s' & t & Hrun & Hl & Hw & Hno1 & Hno2).
    + done.
    + rewrite Hl1. destruct (call_rcu_data_list s); [done|]. done.
    + rewrite Hl1. cbn. congruence.
    + rewrite Hc1. by rewrite lookup_insert_ne.
    + done.
    + exists s', ([EvUnlock; EvLock; EvListAdd d; EvMb; EvCreateThread d;
                   EvUnlock] ++ t).
      rewrite Hshape, Hrun. split; [done|]. split.
      { rewrite Hl, Hl1. right.
        apply last_Some in Hlast as [l' ->].
        apply elem_of_app. right. by left. }
      split; [done|].
      split; intros x Hin; apply elem_of_app in Hin as [Hin|Hin];
        try (by elem_cases Hin); [by apply (Hno1 x)|by apply (Hno2 x)].
Qed.

(** * A worker for every processor in the older variant *)

Section LegacyCreateAll.
Context {host : Host} {bits : CallRcuFlags}.

Lemma legacy_get_cpu_in_range s cpu arr v :
  per_cpu_call_rcu_data s = Some arr →
  0 <= cpu < maxcpus s →
  arr !! Z.to_nat cpu = Some v →
  Legacy.get_cpu_call_rcu_data cpu s = Ret v s [].
Proof.
  intros Harr Hcpu Hv. unfold Legacy.get_cpu_call_rcu_data.
  run_simpl. rewrite Harr. run_simpl.
  rewrite (bool_decide_eq_false_2 (cpu < 0 ∨ maxcpus s <= cpu)) by lia.
  rewrite andb_false_r. run_simpl.
  rewrite decide_False by lia. rewrite Hv. by run_simpl.
Qed.

Lemma legacy_set_cpu_in_range s cpu crdp arr v :
  calm host →
  per_cpu_call_rcu_data s = Some arr →
  0 <= cpu < maxcpus s →
  arr !! Z.to_nat cpu = Some v →
  Legacy.set_cpu_call_rcu_data cpu crdp s =
  Ret 0 (set_per_cpu (Some (<[Z.to_nat cpu := crdp]> arr)) (interfere s))
    [EvLock; EvUnlock].
Proof.
  intros Hcalm Harr Hcpu Hv.
  destruct (Hcalm s) as (Hp & Hm & _).
  destruct (Hcalm (interfere s)) as (_ & _ & Hlk & Hul).
  unfold Legacy.set_cpu_call_rcu_data.
  rewrite bind_run, call_rcu_lock_run, decide_True by done.
  run_simpl. rewrite decide_False by lia.
  rewrite bind_run, legacy_alloc_noop by lia.
  cbv beta iota.
  rewrite bind_run, call_rcu_unlock_run, decide_True by done.
  run_simpl. rewrite Hp, Harr, Hv. by run_simpl.
Qed.

Lemma legacy_create_worker_run fl aff s :
  reliable host →
  ∃ w s',
    Legacy.__create_call_rcu_data fl aff s =
      Ret (Some w) s' [EvListAdd w; EvMb; EvCreateThread w] ∧
    per_cpu_call_rcu_data s' = per_cpu_call_rcu_data s ∧
    maxcpus s' = maxcpus s ∧
    call_rcu_data_list s' = w :: call_rcu_data_list s.
Proof.
  intros Hrel.
  assert (∀ s0, (pthread_create_ret s0).1 = 0) as Hpc by (intros s0; apply Hrel).
  unfold Legacy.__create_call_rcu_data, call_rcu_data_init. run_simpl.
  destruct (Hrel s) as (_ & _ & _ & [w Hw]). rewrite Hw.
  unfold cds_list_add, cmm_smp_mb. run_simpl.
  rewrite (upd_crd_run _ _ _ _ (lookup_insert_eq _ _ _)).
  run_simpl. rewrite decide_True by apply Hpc.
  rewrite bind_run.
  erewrite upd_crd_run by (cbn; apply lookup_insert_eq).
  run_simpl. eexists _, _. split; [done|]. by cbn.
Qed.

(** The loop of the older [create_all_cpu_call_rcu_data] from processor
    [i] on. *)
Lemma legacy_create_cpus_run fl :
  calm host → reliable host →
  ∀ n i s arr,
    per_cpu_call_rcu_data s = Some arr →
    maxcpus s = Z.of_nat (length arr) →
    (i ≤ length arr)%nat →
    (length arr - i ≤ n)%nat →
    ∃ s' t arr',
      Legacy.create_cpus n fl (Z.of_nat i) s = Ret 0 s' t ∧
      per_cpu_call_rcu_data s' = Some arr' ∧
      maxcpus s' = maxcpus s ∧
      length arr' = length arr ∧
      (∀ k, (k < i)%nat → arr' !! k = arr !! k) ∧
      (∀ k, (i ≤ k < length arr)%nat →
         ∃ w, arr' !! k = Some (Some w) ∧
              (arr !! k = Some None → EvCreateThread w ∈ t) ∧
              (∀ w0, arr !! k = Some (Some w0) → w = w0)) ∧
      (∀ w, EvCreateThread w ∈ t →
         ∃ k, (i ≤ k < length arr)%nat ∧ arr !! k = Some None ∧
              arr' !! k = Some (Some w)).
Proof.
  intros Hcalm Hrel.
  induction n as [|n IH]; intros i s arr Harr Hm Hi Hn.
  { exists s, [], arr. split.
    { cbn [Legacy.create_cpus]. run_simpl. by rewrite decide_False by lia. }
    repeat (split; [done|]). split; [intros k Hk; lia|].
    intros w Hin. by apply elem_of_nil in Hin. }
  destruct (decide (i = length arr)) as [Heq|Hne].
  { exists s, [], arr. split.
    { cbn [Legacy.create_cpus]. run_simpl. by rewrite decide_False by lia. }
    repeat (split; [done|]). split; [intros k Hk; lia|].
    intros w Hin. by apply elem_of_nil in Hin. }
  assert (i < length arr)%nat as Hlt by lia.
  destruct (lookup_lt_is_Some_2 arr i Hlt) as [v Hv].
  destruct (Hcalm s) as (Hp1 & Hm1 & Hlk & Hul).
  assert (per_cpu_call_rcu_data (interfere s) = Some arr) as Harr1
    by (by rewrite Hp1).
  assert (maxcpus (interfere s) = Z.of_nat (length arr)) as Hmx1
    by (by rewrite Hm1).
  set (s1 := interfere s) in *.
  assert (Z.of_nat i + 1 = Z.of_nat (S i)) as Hsucc by lia.
  destruct v as [w|].
  - destruct (IH (S i) s1 arr) as (s' & t & arr' & Hrun & Harr' & Hm' & Hlen
                                   & Hlow & Hhigh & Hnew); [done|done|lia|lia|].
    exists s', ([EvLock; EvUnlock] ++ t), arr'.
    split.
    { cbn [Legacy.create_cpus]. run_simpl. rewrite decide_True by lia.
      rewrite bind_run, call_rcu_lock_run, decide_True by apply Hcalm.
      cbv beta iota. fold s1.
      rewrite bind_run, (legacy_get_cpu_in_range s1 (Z.of_nat i) arr (Some w));
        [|done|lia|by rewrite Nat2Z.id].
      cbv beta iota. rewrite decide_True by done.
      rewrite bind_run, call_rcu_unlock_run, decide_True by apply Hcalm.
      cbv beta iota. rewrite Hsucc, Hrun. done. }
    split; [done|]. split; [by rewrite Hm', Hm1|]. split; [done|].
    split; [intros k Hk; apply Hlow; lia|]. split.
    + intros k Hk. destruct (decide (k = i)) as [->|Hki].
      * exists w. split; [rewrite Hlow by lia; done|].
        split; [intros; congruence|]. intros w0 Hw0. congruence.
      * destruct (Hhigh k) as (w' & Hk' & Hcr & Hold); [lia|].
        exists w'. split; [done|]. split; [|done].
        intros Hnone. apply elem_of_app. right. by apply Hcr.
    + intros w' Hin. apply elem_of_app in Hin as [Hin|Hin]; [elem_cases Hin|].
      destruct (Hnew w' Hin) as (k & Hk & Hnone & Hk').
      exists k. split; [lia|done].
  - destruct (legacy_create_worker_run fl (Z.of_nat i) s1 Hrel)
      as (w & s2 & Hcr & Hp2 & Hm2 & _).
    assert (per_cpu_call_rcu_data s2 = Some arr) as Harr2 by (by rewrite Hp2).
    assert (maxcpus s2 = Z.of_nat (length arr)) as Hmx2 by (by rewrite Hm2).
    destruct (Hcalm s2) as (Hp3 & Hm3 & _ & _).
    set (arr3 := <[i := Some w]> arr).
    set (s3 := set_per_cpu (Some arr3) (interfere s2)) in *.
    destruct (IH (S i) s3 arr3) as (s' & t & arr' & Hrun & Harr' & Hm' & Hlen
                                    & Hlow & Hhigh & Hnew).
    { done. }
    { unfold s3, arr3. cbn. by rewrite length_insert, Hm3. }
    { unfold arr3. rewrite length_insert. lia. }
    { unfold arr3. rewrite length_insert. lia. }
    exists s', ([EvLock; EvListAdd w; EvMb; EvCreateThread w; EvUnlock;
                 EvLock; EvUnlock] ++ t), arr'.
    split.
    { cbn [Legacy.create_cpus]. run_simpl. rewrite decide_True by lia.
      rewrite bind_run, call_rcu_lock_run, decide_True by apply Hcalm.
      cbv beta iota. fold s1.
      rewrite bind_run, (legacy_get_cpu_in_range s1 (Z.of_nat i) arr None);
        [|done|lia|by rewrite Nat2Z.id].
      cbv beta iota. rewrite decide_False by (by intros ?).
      rewrite bind_run, Hcr; cbv beta iota.
      rewrite bind_run, call_rcu_unlock_run, decide_True by apply Hcalm.
      cbv beta iota.
      rewrite bind_run, (legacy_set_cpu_in_range s2 (Z.of_nat i) (Some w) arr None);
        [|done|done|lia|by rewrite Nat2Z.id].
      cbv beta iota. rewrite decide_False by (by intros ?).
      rewrite Nat2Z.id. fold arr3 s3. rewrite Hsucc, Hrun. done. }
    unfold arr3 in *. rewrite length_insert in *.
    split; [done|]. split; [by rewrite Hm'; cbn; rewrite Hm3, Hm2, Hm1|].
    split; [done|].
    split.
    { intros k Hk. rewrite Hlow by lia. by rewrite list_lookup_insert_ne by lia. }
    split.
    + intros k Hk. destruct (decide (k = i)) as [->|Hki].
      * exists w. split; [rewrite Hlow by lia; by rewrite list_lookup_insert_eq|].
        split; [|intros; congruence].
        intros _. in_list.
      * destruct (Hhigh k) as (w' & Hk' & Hcr' & Hold); [lia|].
        rewrite list_lookup_insert_ne in Hcr', Hold by done.
        exists w'. split; [done|]. split; [|done].
        intros Hnone. apply elem_of_app. right. by apply Hcr'.
    + intros w' Hin. apply elem_of_app in Hin as [Hin|Hin].
      * elem_cases Hin. injection Hin as ->. exists i.
        split; [lia|]. split; [done|].
        rewrite Hlow by lia. by rewrite list_lookup_insert_eq.
      * destruct (Hnew w' Hin) as (k & Hk & Hnone & Hk').
        rewrite list_lookup_insert_ne in Hnone by lia.
        exists k. split; [lia|done].
Qed.

End LegacyCreateAll.

(** X24. [create_all_cpu_call_rcu_data] of the older variant, with the
    per-CPU array in place, on a host whose calls succeed and where no
    other thread writes the array: the call returns 0; afterwards every
    processor has a worker in its slot; a processor that had one keeps
    it; and a thread is created for exactly the processors that had
    none, the worker that runs it being the one in the slot. *)
Theorem legacy_create_all_gives_every_processor_a_worker
    {host : Host} {bits : CallRcuFlags} (n : nat) (fl : Z)
    (arr : list (option wid)) (s : State) :
  calm host → reliable host →
  per_cpu_call_rcu_data s = Some arr →
  maxcpus s = Z.of_nat (length arr) →
  arr ≠ [] →
  (length arr ≤ n)%nat →
  ∃ s' t arr',
    Legacy.create_all_cpu_call_rcu_data n fl s = Ret 0 s' t ∧
    per_cpu_call_rcu_data s' = Some arr' ∧
    length arr' = length arr ∧
    (∀ k, (k < length arr)%nat →
       ∃ w, arr' !! k = Some (Some w) ∧
            (arr !! k = Some None → EvCreateThread w ∈ t) ∧
            (∀ w0, arr !! k = Some (Some w0) → w = w0)) ∧
    (∀ w, EvCreateThread w ∈ t →
       ∃ k, arr !! k = Some None ∧ arr' !! k = Some (Some w)).
Proof.
  intros Hcalm Hrel Harr Hm Hne Hn.
  destruct (Hcalm s) as (Hp1 & Hm1 & Hlk & Hul).
  assert (0 < maxcpus s) as Hpos by (destruct arr; [done|cbn in Hm; lia]).
  destruct (legacy_create_cpus_run fl Hcalm Hrel n 0%nat (interfere s) arr)
    as (s' & t & arr' & Hrun & Harr' & Hm' & Hlen & _ & Hhigh & Hnew);
    [by rewrite Hp1|by rewrite Hm1|lia|lia|].
  exists s', ([EvLock; EvUnlock] ++ t), arr'. split.
  { unfold Legacy.create_all_cpu_call_rcu_data.
    rewrite bind_run, call_rcu_lock_run, decide_True by apply Hcalm.
    cbv beta iota.
    rewrite bind_run, legacy_alloc_noop by lia. cbv beta iota.
    rewrite bind_run, call_rcu_unlock_run, decide_True by apply Hcalm.
    cbv beta iota. run_simpl.
    rewrite decide_False by lia.
    run_simpl. rewrite Hp1, Harr. rewrite decide_False by done.
    change 0 with (Z.of_nat 0). rewrite Hrun. done. }
  split; [done|]. split; [done|]. split.
  - intros k Hk. destruct (Hhigh k) as (w & Hw & Hcr & Hold); [lia|].
    exists w. split; [done|]. split; [|done].
    intros Hnone. apply elem_of_app. right. by apply Hcr.
  - intros w Hin. apply elem_of_app in Hin as [Hin|Hin]; [elem_cases Hin|].
    destruct (Hnew w Hin) as (k & _ & Hk). eauto.
Qed.

(** * The reader side of QSBR *)

Section QsbrReader.
Import Qsbr.

Lemma wake_up_gp_cases q :
  let '(q', t) := wake_up_gp q in
  rcu_gp_ctr q' = rcu_gp_ctr q ∧ ctr q' = ctr q ∧ waiting q' = 0 ∧
  gp_futex q' =
    (if decide (waiting q ≠ 0 ∧ gp_futex q = -1) then 0 else gp_futex q) ∧
  (FutexWake ∈ t ↔ waiting q ≠ 0 ∧ gp_futex q = -1) ∧
  (waiting q = 0 → q' = q).
Proof.
  unfold wake_up_gp. destruct (decide (waiting q ≠ 0)) as [Hw|Hw]; cbn.
  - destruct (decide (gp_futex q ≠ -1)) as [Hf|Hf]; cbn.
    + rewrite decide_False by (by intros [_ ?]).
      repeat (split; [done|]). split; [|done]. split.
      * intros Hin. elem_cases Hin.
      * by intros [_ ?].
    + assert (gp_futex q = -1) as Hf' by lia.
      rewrite decide_True by done.
      repeat (split; [done|]). split; [|done]. split; [done|]. intros _.
      rewrite !elem_of_cons. auto 10.
  - assert (waiting q = 0) as Hw' by lia.
    rewrite decide_False by (by intros [? _]).
    repeat (split; [done|]). split; [|done]. split.
    + intros Hin. elem_cases Hin.
    + by intros [? _].
Qed.

End QsbrReader.

(** X25. The reader primitives of urcu/static/urcu-qsbr.h. After
    [_rcu_quiescent_state] and after [_rcu_thread_online] the [ctr] of
    the reader is the current [rcu_gp_ctr], so that [rcu_gp_ongoing]
    does not hold for it, and holds again once the counter has moved to
    another value (if [ctr] is not 0). After [_rcu_thread_offline] the
    [ctr] is 0 and [rcu_gp_ongoing] does not hold whatever the counter
    becomes. [_rcu_quiescent_state] and [_rcu_thread_offline] clear
    [waiting] and wake the waiter on [gp_futex] exactly when [waiting]
    was set and [gp_futex] is -1, storing 0 to [gp_futex] first;
    [_rcu_thread_online] wakes nobody and leaves [waiting] and
    [gp_futex] as they are. None of them writes [rcu_gp_ctr], and
    [_rcu_read_lock] and [_rcu_read_unlock] do nothing. *)
Theorem qsbr_reader_is_not_waited_for (q : Qsbr.state) :
  let qs := (Qsbr._rcu_quiescent_state q).1 in
  let ts := (Qsbr._rcu_quiescent_state q).2 in
  let qo := (Qsbr._rcu_thread_offline q).1 in
  let to := (Qsbr._rcu_thread_offline q).2 in
  let qn := (Qsbr._rcu_thread_online q).1 in
  let tn := (Qsbr._rcu_thread_online q).2 in
  let woken := Qsbr.waiting q ≠ 0 ∧ Qsbr.gp_futex q = -1 in
  (Qsbr.ctr qs = Qsbr.rcu_gp_ctr q ∧ Qsbr.ctr qn = Qsbr.rcu_gp_ctr q ∧
   Qsbr.ctr qo = 0) ∧
  (Qsbr.rcu_gp_ongoing qs = false ∧ Qsbr.rcu_gp_ongoing qn = false) ∧
  (∀ g, Qsbr.rcu_gp_ongoing (Qsbr.with_gp_ctr g qo) = false) ∧
  (∀ g, Qsbr.rcu_gp_ctr q ≠ 0 → g ≠ Qsbr.rcu_gp_ctr q →
        Qsbr.rcu_gp_ongoing (Qsbr.with_gp_ctr g qs) = true ∧
        Qsbr.rcu_gp_ongoing (Qsbr.with_gp_ctr g qn) = true) ∧
  ((Qsbr.FutexWake ∈ ts ↔ woken) ∧ (Qsbr.FutexWake ∈ to ↔ woken) ∧
   Qsbr.FutexWake ∉ tn) ∧
  (Qsbr.waiting qs = 0 ∧ Qsbr.waiting qo = 0 ∧
   Qsbr.waiting qn = Qsbr.waiting q) ∧
  (Qsbr.gp_futex qs = (if decide woken then 0 else Qsbr.gp_futex q) ∧
   Qsbr.gp_futex qo = (if decide woken then 0 else Qsbr.gp_futex q) ∧
   Qsbr.gp_futex qn = Qsbr.gp_futex q) ∧
  (Qsbr.rcu_gp_ctr qs = Qsbr.rcu_gp_ctr q ∧
   Qsbr.rcu_gp_ctr qo = Qsbr.rcu_gp_ctr q ∧
   Qsbr.rcu_gp_ctr qn = Qsbr.rcu_gp_ctr q) ∧
  Qsbr._rcu_read_lock q = (q, []) ∧ Qsbr._rcu_read_unlock q = (q, []).
Proof.
  cbn zeta.
  unfold Qsbr._rcu_quiescent_state, Qsbr._rcu_thread_offline,
    Qsbr._rcu_thread_online. cbn zeta.
  pose proof (wake_up_gp_cases (Qsbr.with_ctr (Qsbr.rcu_gp_ctr q) q)) as Hs.
  pose proof (wake_up_gp_cases (Qsbr.with_ctr 0 q)) as Ho.
  destruct (Qsbr.wake_up_gp (Qsbr.with_ctr (Qsbr.rcu_gp_ctr q) q))
    as [qs ts].
  destruct (Qsbr.wake_up_gp (Qsbr.with_ctr 0 q)) as [qo to].
  cbn [fst snd Qsbr.ctr Qsbr.waiting Qsbr.gp_futex Qsbr.rcu_gp_ctr
       Qsbr.with_ctr] in *.
  destruct Hs as (Hg1 & Hc1 & Hw1 & Hf1 & Hk1 & _).
  destruct Ho as (Hg2 & Hc2 & Hw2 & Hf2 & Hk2 & _).
  unfold Qsbr.rcu_gp_ongoing, Qsbr.with_gp_ctr.
  cbn [Qsbr.ctr Qsbr.rcu_gp_ctr].
  rewrite Hc1, Hc2, Hg1.
  split; [done|]. split.
  { split; apply andb_false_iff; right; by apply bool_decide_eq_false_2; auto. }
  split.
  { intros g. apply andb_false_iff. left. by apply bool_decide_eq_false_2; auto. }
  split.
  { intros g Hne Hg. split; apply andb_true_iff; split;
      by apply bool_decide_eq_true_2. }
  split.
  { split; [|split].
    - rewrite !elem_of_app, !elem_of_cons, !elem_of_nil, Hk1.
      intuition congruence.
    - rewrite !elem_of_app, !elem_of_cons, !elem_of_nil, Hk2.
      intuition congruence.
    - intros Hin. elem_cases Hin. }
  done.
Qed.

(** * The producer side of the older variant *)

Section LegacyProducer.
Context {host : Host} {bits : CallRcuFlags} {sched : Sched}.

Lemma legacy_get_selects warned s w t :
  selects s w t →
  Legacy.get_call_rcu_data warned s = Ret (Some w, warned) s [].
Proof.
  intros Hsel. unfold Legacy.get_call_rcu_data.
  destruct Hsel as [w Ht|w arr Ht Hh Hcpu Harr Hslot|w Ht Hm Hd
                   |w arr Ht Hh Hcpu Harr Hslot Hd].
  - run_simpl. rewrite Ht. by rewrite decide_True.
  - run_simpl. rewrite Ht. rewrite decide_False by (by intros ?).
    run_simpl. rewrite decide_False by lia. run_simpl. rewrite Hh.
    rewrite decide_True by lia. rewrite Harr, Hslot. cbn.
    rewrite (bool_decide_eq_false_2 (_ ∨ _)) by lia.
    by rewrite orb_false_r.
  - run_simpl. rewrite Ht. rewrite decide_False by (by intros ?).
    run_simpl. rewrite decide_True by lia.
    rewrite bind_run, (get_default_known _ _ Hd). done.
  - run_simpl. rewrite Ht. rewrite decide_False by (by intros ?).
    run_simpl. rewrite decide_False by lia. run_simpl. rewrite Hh.
    rewrite decide_True by lia. rewrite Harr, Hslot.
    rewrite bind_run, (get_default_known _ _ Hd). cbn.
    rewrite (bool_decide_eq_false_2 (_ ∨ _)) by lia.
    by rewrite orb_false_r.
Qed.

Lemma legacy_get_Ret warned s r b s' t :
  Legacy.get_call_rcu_data warned s = Ret (r, b) s' t →
  let cpu := if have_percpu then sched_getcpu s else -1 in
  ∃ w, r = Some w ∧
       (thread_call_rcu_data s = Some w ∨
        (thread_call_rcu_data s = None ∧ 0 <= cpu < maxcpus s ∧
         slot s cpu = Some (Some w) ∧ s' = s ∧ t = []) ∨
        (thread_call_rcu_data s = None ∧
         default_call_rcu_data s' = Some w)) ∧
       (b = true ↔
        warned = true ∨
        (thread_call_rcu_data s = None ∧ 0 < maxcpus s ∧
         (cpu < 0 ∨ maxcpus s <= cpu))).
Proof.
  intros Hrun cpu. unfold Legacy.get_call_rcu_data in Hrun.
  apply bind_Ret in Hrun as (th & s1 & t1 & t2 & Hth & Hrun & ->).
  apply gets_Ret in Hth as (-> & -> & ->).
  destruct (decide (thread_call_rcu_data s ≠ None)) as [Hsome|Hnone].
  { apply mret_Ret in Hrun as ([= -> ->] & -> & ->).
    destruct (thread_call_rcu_data s) as [w|]; [|done].
    exists w. split; [done|]. split; [by left|]. split; [by left|].
    by intros [?|[? _]]. }
  assert (thread_call_rcu_data s = None) as Hth.
  { destruct (thread_call_rcu_data s); [by destruct Hnone|done]. }
  assert (∀ (wd : bool) sa ta,
            (d ← get_default_call_rcu_data; mret (d, wd)) s = Ret (r, b) sa ta →
            ∃ w, r = Some w ∧ default_call_rcu_data sa = Some w ∧ b = wd)
    as Hdflt.
  { intros wd sa ta Hd.
    apply bind_Ret in Hd as (d & sb & tb & tc & Hd & Hret & ->).
    apply mret_Ret in Hret as ([= -> ->] & -> & ->).
    apply get_default_returns in Hd as (w & -> & Hw). eauto. }
  apply bind_Ret in Hrun as (m & s1 & t1 & t2' & Hm & Hrun & ->).
  apply gets_Ret in Hm as (-> & -> & ->).
  destruct (decide (maxcpus s <= 0)) as [Hle|Hgt].
  { apply Hdflt in Hrun as (w & -> & Hw & ->).
    exists w. split; [done|]. split; [by right; right|].
    split; [by left|]. intros [?|(_ & ? & _)]; [done|lia]. }
  apply bind_Ret in Hrun as (c & s1 & t1 & t3 & Hc & Hrun & ->).
  apply gets_Ret in Hc as (-> & -> & ->). fold cpu in Hrun.
  apply bind_Ret in Hrun as (pc & s1 & t1 & t4 & Hpc & Hrun & ->).
  apply gets_Ret in Hpc as (-> & -> & ->).
  assert (∀ wd : bool,
            wd = warned || bool_decide (cpu < 0 ∨ maxcpus s <= cpu) →
            (wd = true ↔
             warned = true ∨
             (thread_call_rcu_data s = None ∧ 0 < maxcpus s ∧
              (cpu < 0 ∨ maxcpus s <= cpu)))) as Hflag.
  { intros wd ->. rewrite orb_true_iff, bool_decide_eq_true.
    split; [intros [?|?]; [by left|right; repeat split; [done|lia|done]]|].
    intros [?|(_ & _ & ?)]; auto. }
  destruct (decide (cpu >= 0 ∧ maxcpus s > cpu)) as [Hin|Hout].
  - destruct (per_cpu_call_rcu_data s) as [arr|] eqn:Harr.
    + destruct (arr !! Z.to_nat cpu) as [[w|]|] eqn:Hslot; [| |done].
      * apply mret_Ret in Hrun as ([= -> ->] & -> & ->).
        exists w. split; [done|]. split; [|by apply Hflag].
        right. left. split; [done|]. split; [lia|].
        unfold slot. rewrite Harr. done.
      * apply Hdflt in Hrun as (w & -> & Hw & ->).
        exists w. split; [done|]. split; [by right; right|by apply Hflag].
    + apply Hdflt in Hrun as (w & -> & Hw & ->).
      exists w. split; [done|]. split; [by right; right|by apply Hflag].
  - apply Hdflt in Hrun as (w & -> & Hw & ->).
    exists w. split; [done|]. split; [by right; right|by apply Hflag].
Qed.

(** What the older [call_rcu] does on a store in which
    [get_call_rcu_data] has a worker [w] to pick, whose queue holds [b]. *)
Lemma legacy_call_rcu_run warned a f w c b t0 s :
  selects s w t0 →
  (∀ g, sched_getcpu (set_heads g s) = sched_getcpu s) →
  crds s !! w = Some c →
  queue_holds s w b → NoDup b → rcu_head_at a ∉ b →
  ∃ s' c',
    Legacy.call_rcu warned a f s =
      Ret warned s'
        ([EvXchgTail w (NextOf (rcu_head_at a)) (wfq_tail (cbs c));
          EvStoreLink (wfq_tail (cbs c)) (Some (rcu_head_at a));
          EvAddQlen w 1] ++ wake_trace w c) ∧
    queue_holds s' w (b ++ [rcu_head_at a]) ∧
    node_func s' (rcu_head_at a) = Some f ∧
    (∀ m, m ≠ rcu_head_at a → node_func s' m = node_func s m) ∧
    crds s' !! w = Some c' ∧
    flags c' = flags c ∧ qlen c' = wrap_ulong (qlen c + 1) ∧
    same_registry s s'.
Proof.
  intros Hsel Hcpu Hc Hq Hnd Ha.
  destruct (prepare_head_run a f s)
    as (s0 & Hprep & Hnx0 & Hfn0 & Hfr0 & Hcrds0 & Hreg0 & g & Hg).
  assert (selects s0 w t0) as Hsel0.
  { eapply selects_frame; [done| |done]. rewrite Hg. apply Hcpu. }
  assert (crds s0 !! w = Some c) as Hc0 by (by rewrite Hcrds0).
  assert (queue_holds s0 w b) as Hq0.
  { eapply queue_holds_frame; [| | |exact Hq].
    - unfold q_head. by rewrite Hcrds0.
    - unfold q_tail. by rewrite Hcrds0.
    - intros m Hm. apply Hfr0. by intros ->. }
  destruct (cds_wfq_enqueue_run w (rcu_head_at a) b c s0)
    as (s1 & c1 & Henq & Hq1 & Hc1 & Hlen1 & Hfl1 & Hfu1 & Hfn1 & Hnx1 & Hreg1);
    try done.
  destruct (enqueue_accounting w c1 s1 Hc1)
    as (s2 & c2 & Hacc & Hc2 & Hcbs2 & Hfl2 & Hlen2 & Hnx2 & Hfn2 & Hreg2).
  exists s2, c2. split.
  { unfold Legacy.call_rcu.
    rewrite (bind_assoc_run (cds_wfq_node_init a) (λ _, store_func a f)).
    rewrite bind_run, Hprep; cbv beta iota.
    rewrite bind_run, (legacy_get_selects _ _ _ _ Hsel0); cbv beta iota.
    cbn [fst snd].
    rewrite bind_run, Henq; cbv beta iota.
    rewrite (bind_assoc_run (add_qlen w 1) (λ _, wake_call_rcu_thread w)).
    rewrite bind_run, Hacc; cbv beta iota.
    rewrite (wake_trace_ext w c c1) by done.
    cbn. by rewrite !app_nil_r. }
  split.
  { eapply queue_holds_frame; [| | |exact Hq1].
    - unfold q_head. rewrite Hc1, Hc2. cbn. by rewrite Hcbs2.
    - unfold q_tail. rewrite Hc1, Hc2. cbn. by rewrite Hcbs2.
    - intros m _. apply Hnx2. }
  split; [by rewrite Hfn2, Hfn1|].
  split.
  { intros m Hm. rewrite Hfn2, Hfn1. by apply Hfr0. }
  split; [done|]. split; [congruence|]. split; [congruence|].
  eapply same_registry_trans; [exact Hreg0|].
  eapply same_registry_trans; [exact Hreg1|exact Hreg2].
Qed.

End LegacyProducer.

(** X26. [get_call_rcu_data] of the older variant picks the worker of
    the calling thread, then the worker in the per-CPU slot of the
    processor the thread runs on, then the default worker; on a store
    that has such a worker it returns it and changes nothing. Whenever
    it returns, it returns a worker, never NULL. Its [warned] flag is set
    after the call exactly when it was set before or when the thread has
    no worker of its own, [maxcpus] is positive and the processor number
    is outside [0, maxcpus): the complaint is made once. *)
Theorem legacy_get_call_rcu_data_picks_by_priority
    {host : Host} {bits : CallRcuFlags} {sched : Sched}
    (warned : bool) (s : State) :
  let cpu := if have_percpu then sched_getcpu s else -1 in
  (∀ w t, selects s w t →
          Legacy.get_call_rcu_data warned s = Ret (Some w, warned) s []) ∧
  (∀ r b s' t,
     Legacy.get_call_rcu_data warned s = Ret (r, b) s' t →
     ∃ w, r = Some w ∧
          (thread_call_rcu_data s = Some w ∨
           (thread_call_rcu_data s = None ∧ 0 <= cpu < maxcpus s ∧
            slot s cpu = Some (Some w) ∧ s' = s ∧ t = []) ∨
           (thread_call_rcu_data s = None ∧
            default_call_rcu_data s' = Some w)) ∧
          (b = true ↔
           warned = true ∨
           (thread_call_rcu_data s = None ∧ 0 < maxcpus s ∧
            (cpu < 0 ∨ maxcpus s <= cpu))) ∧
          (b = true →
           ∀ r2 b2 s2 t2,
             Legacy.get_call_rcu_data b s' = Ret (r2, b2) s2 t2 → b2 = true)).
Proof.
  intros cpu. split; [intros w t; apply legacy_get_selects|].
  intros r b s' t Hrun.
  destruct (legacy_get_Ret _ _ _ _ _ _ Hrun) as (w & -> & Hsrc & Hflag).
  exists w. split; [done|]. split; [done|]. split; [done|].
  intros -> r2 b2 s2 t2 Hrun2.
  destruct (legacy_get_Ret _ _ _ _ _ _ Hrun2) as (_ & _ & _ & Hflag2).
  apply Hflag2. by left.
Qed.

(** X27. [call_rcu] of the older variant, on a store in which
    [get_call_rcu_data] has a worker [w] to pick: the callback is stored
    in the caller's record, the record is enqueued behind what the queue
    of [w] holds, 1 is added to the [qlen] of [w] and [w] is woken up as
    [wake_call_rcu_thread] does. The per-CPU slot is read without a
    recorded dereference, and the [warned] flag is left as it was. *)
Theorem legacy_call_rcu_enqueues_behind_the_queue
    {host : Host} {bits : CallRcuFlags} {sched : Sched}
    (warned : bool) (a : nat) (f : fn) (w : wid) (c : call_rcu_data)
    (b : list node) (t0 : list event) (s : State) :
  selects s w t0 →
  (∀ g, sched_getcpu (set_heads g s) = sched_getcpu s) →
  crds s !! w = Some c →
  queue_holds s w b → NoDup b → rcu_head_at a ∉ b →
  ∃ s',
    Legacy.call_rcu warned a f s =
      Ret warned s'
        ([EvXchgTail w (NextOf (rcu_head_at a)) (wfq_tail (cbs c));
          EvStoreLink (wfq_tail (cbs c)) (Some (rcu_head_at a));
          EvAddQlen w 1] ++ wake_trace w c) ∧
    queue_holds s' w (b ++ [rcu_head_at a]) ∧
    node_func s' (rcu_head_at a) = Some f ∧
    (∀ m, m ≠ rcu_head_at a → node_func s' m = node_func s m) ∧
    q_len s' w = Some (wrap_ulong (qlen c + 1)) ∧
    same_registry s s'.
Proof.
  intros Hsel Hcpu Hc Hq Hnd Ha.
  destruct (legacy_call_rcu_run warned a f w c b t0 s)
    as (s' & c' & Hrun & Hq' & Hf & Hfr & Hc' & _ & Hlen & Hreg); try done.
  exists s'. repeat (split; [done|]). split; [|done].
  unfold q_len. rewrite Hc'. cbn. by rewrite Hlen.
Qed.

(** * A worker that is asked to stop *)

Section FlagsKept.
Context {host : Host} {bits : CallRcuFlags}.
Variable w : wid.
Hypothesis flags_interfere : ∀ s, flags_kept w s (interfere s).
Hypothesis flags_callback : ∀ f m s, flags_kept w s (run_callback f m s).

Lemma flags_kept_refl s : flags_kept w s s.
Proof. done. Qed.

Lemma flags_kept_trans s1 s2 s3 :
  flags_kept w s1 s2 → flags_kept w s2 s3 → flags_kept w s1 s3.
Proof. unfold flags_kept. congruence. Qed.

Lemma flags_kept_upd w0 f :
  (∀ c, flags (f c) = flags c) → keeps (flags_kept w) (upd_crd w0 f).
Proof.
  intros Hf s [] s' t Hrun. unfold upd_crd, crd in Hrun.
  destruct (crds s !! w0) as [c0|] eqn:Hc; inv_prims; simplify_eq.
  unfold flags_kept, q_flags, set_crds; cbn [crds].
  destruct (decide (w = w0)) as [->|Hne].
  - match goal with
    | H : crds _ !! _ = Some _ |- _ => rewrite lookup_insert_eq, H
    end.
    cbn. by rewrite Hf.
  - by rewrite lookup_insert_ne.
Qed.

#[local] Hint Resolve flags_kept_refl flags_kept_trans flags_kept_upd
  keeps_modify : keeps.

Lemma flags_kept_poll ms : keeps (flags_kept w) (poll ms).
Proof. keeps_auto. Qed.

#[local] Hint Resolve flags_kept_poll : keeps.

Lemma flags_kept_wait_head fuel w0 : keeps (flags_kept w) (wait_head fuel w0).
Proof. induction fuel as [|fuel IH]; cbn [wait_head]; keeps_auto. Qed.

Lemma flags_kept_wait_next fuel cbs tl :
  keeps (flags_kept w) (wait_next fuel cbs tl).
Proof. induction fuel as [|fuel IH]; cbn [wait_next]; keeps_auto. Qed.

#[local] Hint Resolve flags_kept_wait_head flags_kept_wait_next : keeps.

Lemma flags_kept_invoke_batch fuel w0 tl cbs k :
  keeps (flags_kept w) (invoke_batch fuel w0 tl cbs k).
Proof.
  revert cbs k. induction fuel as [|fuel IH]; intros cbs k;
    cbn [invoke_batch]; keeps_auto.
Qed.

#[local] Hint Resolve flags_kept_invoke_batch : keeps.

(** A drain leaves the flags of the worker as they are, when neither the
    other threads nor the callbacks write them. *)
Lemma flags_kept_drain fuel w0 : keeps (flags_kept w) (drain fuel w0).
Proof. keeps_auto. Qed.

End FlagsKept.

Section StopDrains.
Context {host : Host} {bits : CallRcuFlags}.

Lemma set_thread_cpu_affinity_unset w c s :
  crds s !! w = Some c → cpu_affinity c < 0 →
  set_thread_cpu_affinity w s = Ret 0 s [].
Proof.
  intros Hc Haff. unfold set_thread_cpu_affinity.
  rewrite bind_run, (crd_run _ _ _ Hc); cbv beta iota.
  by rewrite decide_True.
Qed.

(** The thread from its first statement to the top of its loop. *)
Lemma worker_start_run w c s (rt : bool) :
  crds s !! w = Some c →
  ∃ s2 c2,
    (if rt then mret () else dec_futex w;; cmm_smp_mb) (set_thread (Some w) s)
    = Ret () s2 (if rt then [] else [EvDecFutex w; EvMb]) ∧
    crds s2 !! w = Some c2 ∧ flags c2 = flags c ∧
    wfq_tail (cbs c2) = wfq_tail (cbs c) ∧
    (∀ b, queue_holds s w b → queue_holds s2 w b) ∧
    (∀ m, node_func s2 m = node_func s m).
Proof.
  intros Hc. destruct rt.
  - exists (set_thread (Some w) s), c. repeat split; try done.
    intros b. by apply queue_holds_frame.
  - set (c2 := with_futex (wrap_int32 (futex c - 1)) c).
    set (s2 := set_crds <[w := c2]> (set_thread (Some w) s)).
    assert (crds s2 !! w = Some c2) as Hc2 by apply lookup_insert_eq.
    exists s2, c2. repeat split; try done.
    + unfold dec_futex, cmm_smp_mb.
      rewrite bind_run, bind_run, (upd_crd_run _ _ c) by done. by run_simpl.
    + intros b. apply queue_holds_frame.
      * unfold q_head. rewrite Hc2. cbn [set_thread crds] in *. by rewrite Hc.
      * unfold q_tail. rewrite Hc2. cbn [set_thread crds] in *. by rewrite Hc.
      * intros m _. unfold s2. by rewrite (node_next_set_crd _ c).
Qed.

(** The drain of a worker whose [STOP] flag is set, and the flags the
    worker reads after it. *)
Lemma worker_last_drain w c s n l fn_of fuel :
  crds s !! w = Some c →
  (∀ s0, flags_kept w s0 (interfere s0)) →
  (∀ f m s0, flags_kept w s0 (run_callback f m s0)) →
  queue_holds s w (n :: l) →
  NoDup (n :: l) →
  (∀ m, m ∈ n :: l → m ≠ dummy_of w → node_func s m = Some (fn_of m)) →
  batch_owned w (n :: l) →
  (length (n :: l) ≤ fuel)%nat →
  ∃ s' c',
    drain fuel w s =
    Ret () s'
      ([EvLoadTail w (wfq_tail (cbs c));
        EvLoadHead w (Some n);
        EvStoreHead w None;
        EvXchgTail w (HeadOf w) (wfq_tail (cbs c));
        EvSynchronizeRcu]
       ++ map (λ m, EvInvoke (fn_of m) m) (real_callbacks w (n :: l))
       ++ [EvSubQlen w
             (wrap_ulong (Z.of_nat (length (real_callbacks w (n :: l)))))]) ∧
    crds s' !! w = Some c' ∧ flags c' = flags c.
Proof.
  intros Hc Hfi Hfc Hq Hnd Hf Hown Hfuel.
  destruct (drain_linked_run fuel w s n l fn_of Hq Hnd Hf Hown Hfuel)
    as (c0 & s1 & c1 & Hc0 & Hc1 & Hrun).
  rewrite Hc in Hc0. injection Hc0 as <-.
  pose proof (flags_kept_drain w Hfi Hfc fuel w _ _ _ _ Hrun) as Hkept.
  match type of Hrun with _ = Ret _ ?x _ => set (sd := x) in * end.
  unfold flags_kept, q_flags in Hkept. rewrite Hc in Hkept.
  destruct (crds sd !! w) as [cd|] eqn:Hcd; [|done].
  injection Hkept as Hkept.
  by exists sd, cd.
Qed.

(** The steps of the thread after its loop, run forward. *)
Lemma worker_stop_run w c s (rt : bool) :
  crds s !! w = Some c →
  ∃ s' c',
    ((if rt then mret () else cmm_smp_mb;; set_futex w 0);;
     or_flags w URCU_CALL_RCU_STOPPED) s =
    Ret () s' ((if rt then [] else [EvMb; EvSetFutex w 0])
               ++ [EvOrFlags w URCU_CALL_RCU_STOPPED]) ∧
    crds s' !! w = Some c' ∧
    flags c' = Z.lor (flags c) URCU_CALL_RCU_STOPPED ∧
    (rt = false → futex c' = 0).
Proof.
  intros Hc. destruct rt.
  - exists (set_crds
              <[w := with_flags (Z.lor (flags c) URCU_CALL_RCU_STOPPED) c]> s),
      (with_flags (Z.lor (flags c) URCU_CALL_RCU_STOPPED) c).
    split; [|split; [apply lookup_insert_eq|done]].
    rewrite bind_run. cbn [mret M_ret]. by rewrite (or_flags_run _ _ _ _ Hc).
  - set (c1 := with_futex 0 c).
    set (s1 := set_crds <[w := c1]> s).
    assert (crds s1 !! w = Some c1) as Hc1 by apply lookup_insert_eq.
    exists (set_crds
              <[w := with_flags (Z.lor (flags c1) URCU_CALL_RCU_STOPPED) c1]>
              s1),
      (with_flags (Z.lor (flags c1) URCU_CALL_RCU_STOPPED) c1).
    split; [|split; [apply lookup_insert_eq|done]].
    unfold cmm_smp_mb. rewrite bind_run, bind_run. cbn [emit].
    rewrite (set_futex_run _ _ _ _ Hc). fold c1 s1.
    by rewrite (or_flags_run _ _ _ _ Hc1).
Qed.

End StopDrains.

(** X28. A worker thread that starts with [STOP] already set on its
    structure still empties its queue before it leaves: it goes once
    through its loop, invokes the callback of every node the queue
    holds, once each and in queue order, after one grace period, reads
    [STOP], and only then resets [futex] (unless it is a realtime
    worker), sets [STOPPED] and returns. This holds in both variants of
    the thread, for a worker with no processor affinity and, in the
    current variant, with [PAUSE] clear, as long as neither the other
    threads nor the callbacks write the flags of the worker. *)
Theorem worker_asked_to_stop_drains_first
    {host : Host} {bits : CallRcuFlags} (impl : bool) (rounds fuel : nat)
    (w : wid) (s : State) (c : call_rcu_data) (n : node) (l : list node)
    (fn_of : node → fn) :
  crds s !! w = Some c →
  cpu_affinity c < 0 →
  (impl = true → Z.land (flags c) URCU_CALL_RCU_PAUSE = 0) →
  Z.land (flags c) URCU_CALL_RCU_STOP ≠ 0 →
  (∀ s0, flags_kept w s0 (interfere s0)) →
  (∀ f m s0, flags_kept w s0 (run_callback f m s0)) →
  queue_holds s w (n :: l) →
  NoDup (n :: l) →
  (∀ m, m ∈ n :: l → m ≠ dummy_of w → node_func s m = Some (fn_of m)) →
  batch_owned w (n :: l) →
  (length (n :: l) ≤ fuel)%nat →
  let rt := bool_decide (Z.land (flags c) URCU_CALL_RCU_RT ≠ 0) in
  let invoked := real_callbacks w (n :: l) in
  ∃ s' c',
    (if impl then Impl.call_rcu_thread (S rounds) fuel w s
     else Legacy.call_rcu_thread (S rounds) fuel w s) =
    Ret () s'
      ([EvReadFlags w (flags c)]
       ++ (if impl then [EvRegisterThread] else [])
       ++ (if rt then [] else [EvDecFutex w; EvMb])
       ++ (if impl then [EvReadFlags w (flags c)] else [])
       ++ [EvLoadTail w (wfq_tail (cbs c));
           EvLoadHead w (Some n);
           EvStoreHead w None;
           EvXchgTail w (HeadOf w) (wfq_tail (cbs c));
           EvSynchronizeRcu]
       ++ map (λ m, EvInvoke (fn_of m) m) invoked
       ++ [EvSubQlen w (wrap_ulong (Z.of_nat (length invoked)));
           EvReadFlags w (flags c)]
       ++ (if rt then [] else [EvMb; EvSetFutex w 0])
       ++ [EvOrFlags w URCU_CALL_RCU_STOPPED]
       ++ (if impl then [EvUnregisterThread] else [])) ∧
    crds s' !! w = Some c' ∧
    flags c' = Z.lor (flags c) URCU_CALL_RCU_STOPPED ∧
    (rt = false → futex c' = 0).
Proof.
  intros Hc Haff Hpause Hstop Hfi Hfc Hq Hnd Hf Hown Hfuel rt invoked.
  destruct (worker_start_run w c s rt Hc)
    as (s2 & c2 & Hstart & Hc2 & Hfl2 & Htl & Hq2 & Hf2).
  assert (∀ m, m ∈ n :: l → m ≠ dummy_of w → node_func s2 m = Some (fn_of m))
    as Hfn2 by (intros m Hm Hmd; rewrite Hf2; by apply Hf).
  destruct (worker_last_drain w c2 s2 n l fn_of fuel Hc2 Hfi Hfc
              (Hq2 _ Hq) Hnd Hfn2 Hown Hfuel)
    as (s3 & c3 & Hdrain & Hc3 & Hfl3).
  rewrite Hfl2 in Hfl3. rewrite Htl in Hdrain.
  destruct (worker_stop_run w c3 s3 rt Hc3)
    as (s' & c' & Hend & Hc' & Hfl' & Hfutex).
  rewrite Hfl3 in Hfl'.
  exists s', c'. split; [|done].
  destruct impl.
  - unfold Impl.call_rcu_thread.
    rewrite bind_run, (read_flags_run _ _ _ Hc); cbv beta iota. fold rt.
    rewrite bind_run, (set_thread_cpu_affinity_unset _ _ _ Hc Haff);
      cbv beta iota.
    rewrite decide_False by tauto. run_simpl.
    rewrite Hstart.
    rewrite bind_run. cbn [Impl.call_rcu_thread_loop].
    rewrite bind_run. unfold Impl.pause.
    rewrite bind_run, (read_flags_run _ _ _ Hc2), Hfl2; cbv beta iota.
    rewrite decide_False by (rewrite Hpause; tauto). cbn [mret M_ret].
    rewrite bind_run, Hdrain; cbv beta iota.
    rewrite bind_run, (read_flags_run _ _ _ Hc3), Hfl3; cbv beta iota.
    rewrite decide_True by done. cbn [mret M_ret].
    rewrite (bind_assoc_run
               (if rt then mret () else cmm_smp_mb;; set_futex w 0)).
    rewrite bind_run, Hend. cbn [emit]. f_equal.
    by rewrite ?app_nil_r, ?app_nil_l, <- ?app_assoc.
  - unfold Legacy.call_rcu_thread.
    rewrite bind_run, (read_flags_run _ _ _ Hc); cbv beta iota. fold rt.
    rewrite bind_run, (set_thread_cpu_affinity_unset _ _ _ Hc Haff);
      cbv beta iota.
    rewrite decide_False by tauto. run_simpl.
    rewrite Hstart.
    rewrite bind_run. cbn [Legacy.call_rcu_thread_loop].
    rewrite bind_run, Hdrain; cbv beta iota.
    rewrite bind_run, (read_flags_run _ _ _ Hc3), Hfl3; cbv beta iota.
    rewrite decide_True by done. cbn [mret M_ret].
    rewrite Hend. f_equal.
    by rewrite ?app_nil_r, ?app_nil_l, <- ?app_assoc.
Qed.

(** * The theorems at work on concrete stores *)

Import Sample Scenario.

Lemma freeing_owns_batches w b : batch_owned (host:=freeing) w b.
Proof.
  split; [done|]. split; [done|]. split.
  - intros f n s m _ Hne. destruct n as [w'|a]; [done|].
    destruct m as [w'|a']; [done|]. cbn.
    rewrite lookup_delete_ne; [done|]. congruence.
  - intros f n s Ha. by destruct n.
Qed.

(** The queue of [two_callbacks]. *)
Lemma two_callbacks_queue :
  queue_holds two_callbacks 0%nat
    [dummy_of 0; rcu_head_at 1; rcu_head_at 2].
Proof. eexists. split; [reflexivity|]. split; [reflexivity|]. cbn. auto. Qed.

Lemma freeing_leaves_qlen w : qlen_undisturbed (host:=freeing) w.
Proof. split; [done|]. by intros f [w'|a] s. Qed.

(** C9 on [two_callbacks], with callbacks that free their record: the
    dummy node is skipped, the callbacks 11 and 12 are invoked on the
    records 1 and 2, and the [qlen] of the worker goes from 2 to 0. *)
Lemma drain_invokes_each_callback_once_witness :
  q_len two_callbacks 0%nat = Some 2 ∧
  ∃ s',
    drain (host:=freeing) 3 0%nat two_callbacks =
    Ret () s'
      ([EvLoadTail 0%nat (NextOf (rcu_head_at 2));
        EvLoadHead 0%nat (Some (dummy_of 0));
        EvStoreHead 0%nat None;
        EvXchgTail 0%nat (HeadOf 0%nat) (NextOf (rcu_head_at 2));
        EvSynchronizeRcu]
       ++ [EvInvoke 11%nat (rcu_head_at 1); EvInvoke 12%nat (rcu_head_at 2)]
       ++ [EvSubQlen 0%nat (wrap_ulong 2)]) ∧
    q_len s' 0%nat = Some 0 ∧
    heads s' = ∅.
Proof.
  split; [reflexivity|].
  destruct (drain_invokes_each_callback_once (host:=freeing) 3 0%nat
              two_callbacks two_callbacks_worker
              (dummy_of 0) [rcu_head_at 1; rcu_head_at 2] callback_of)
    as (c1 & s' & Hc1 & Hs' & Hrun & Hq & _).
  - reflexivity.
  - apply two_callbacks_queue.
  - compute_done.
  - intros m Hm Hd. elem_cases Hm; subst; done.
  - apply freeing_owns_batches.
  - cbn. lia.
  - exists s'. split; [exact Hrun|]. split.
    + rewrite (Hq (freeing_leaves_qlen 0%nat)). reflexivity.
    + rewrite Hs'. vm_compute. reflexivity.
Defined.

(** C1 on [two_callbacks]: an iteration of the loop of the thread, in
    the current variant, takes the snapshot, waits for the grace period
    and invokes the callbacks 11 and 12 of the batch. *)
Lemma worker_invokes_after_grace_period_witness :
  ∃ rest,
    trace_of
      (Impl.call_rcu_thread_loop (host:=freeing) (bits:=flag_bits) 1 3 false
         0%nat two_callbacks) =
    [EvReadFlags 0%nat 0]
    ++ [EvLoadTail 0%nat (NextOf (rcu_head_at 2));
        EvLoadHead 0%nat (Some (dummy_of 0));
        EvStoreHead 0%nat None;
        EvXchgTail 0%nat (HeadOf 0%nat) (NextOf (rcu_head_at 2));
        EvSynchronizeRcu]
    ++ [EvInvoke 11%nat (rcu_head_at 1); EvInvoke 12%nat (rcu_head_at 2)]
    ++ EvSubQlen 0%nat (wrap_ulong 2) :: rest.
Proof.
  apply (proj2 (proj2 (worker_invokes_after_grace_period (host:=freeing)
                         (bits:=flag_bits) 0 3 0%nat two_callbacks))
           true false two_callbacks_worker
           (dummy_of 0) [rcu_head_at 1; rcu_head_at 2] callback_of).
  - reflexivity.
  - reflexivity.
  - apply two_callbacks_queue.
  - compute_done.
  - intros m Hm Hd. elem_cases Hm; subst; done.
  - apply freeing_owns_batches.
  - cbn. lia.
Defined.

(** The whole trace of a worker thread on [two_callbacks] that is
    stopped after its first drain. *)
Example worker_trace_on_two_callbacks :
  trace_of (Impl.call_rcu_thread (host:=freeing) (bits:=flag_bits) 1 3 0
              (set_crds (fmap (with_flags 4)) two_callbacks)) =
  [EvReadFlags 0 4; EvRegisterThread; EvDecFutex 0; EvMb; EvReadFlags 0 4;
   EvLoadTail 0 (NextOf (rcu_head_at 2)); EvLoadHead 0 (Some (dummy_of 0));
   EvStoreHead 0 None; EvXchgTail 0 (HeadOf 0) (NextOf (rcu_head_at 2));
   EvSynchronizeRcu;
   EvInvoke 11 (rcu_head_at 1); EvInvoke 12 (rcu_head_at 2);
   EvSubQlen 0 2; EvReadFlags 0 4; EvMb; EvSetFutex 0 0; EvOrFlags 0 8;
   EvUnregisterThread].
Proof. vm_compute. reflexivity. Qed.

(** C2, older variant, on [stopped_pending]: worker 1 has stopped with
    the record at 7 left in its queue, and worker 0 is the default
    worker. The call returns, worker 1 is unlinked and released, but
    the exchange has hit the pointer [default_call_rcu_data] itself
    instead of the tail of the queue of the default worker: the pointer
    now holds the address of the [next] word of the record, where no
    worker is; the head word of worker 0 has been overwritten with the
    address of the record, its tail still designates its own head word
    and its [qlen] is still 0. The queue of the default worker does not
    hold the record: a drain by its thread finds the queue empty and
    invokes nothing.

    The current variant, on the same store, leaves the record in the
    queue of the default worker and adds 1 to its [qlen]. On
    [never_drained], where the queue of worker 1 still starts with the
    dummy node of worker 1, the current variant splices this dummy node
    with the rest and then releases the structure that holds it: the
    queue of the default worker starts with a node of a structure that
    is no longer allocated. *)
Theorem legacy_free_exchanges_the_default_pointer :
  (∃ s' c0,
     Legacy.call_rcu_data_free (host:=quiet) (bits:=flag_bits) 1 (Some 1%nat)
       stopped_pending =
     Ret () s'
       [EvReadFlags 1 8; EvLoadTail 1 (NextOf (rcu_head_at 7));
        EvLoadHead 1 (Some (rcu_head_at 7)); EvStoreHead 1 None;
        EvXchgTail 1 (HeadOf 1) (NextOf (rcu_head_at 7));
        EvXchgDefault (NextOf (rcu_head_at 7)) (Some 0%nat);
        EvReadQlen 1 1;
        EvAddQlen (node_address (Host:=quiet) (rcu_head_at 7)) 1;
        EvListDel 1; EvFree 1] ∧
     call_rcu_data_list s' = [0%nat] ∧
     crds s' !! 1%nat = None ∧
     default_call_rcu_data s' =
       Some (node_address (Host:=quiet) (rcu_head_at 7)) ∧
     crds s' !! node_address (Host:=quiet) (rcu_head_at 7) = None ∧
     crds s' !! 0%nat = Some c0 ∧
     wfq_head (cbs c0) = Some (rcu_head_at 7) ∧
     wfq_tail (cbs c0) = HeadOf 0 ∧
     qlen c0 = 0 ∧
     ¬ queue_holds s' 0 [rcu_head_at 7] ∧
     drain (host:=quiet) 3 0%nat s' = Ret () s' [EvLoadTail 0 (HeadOf 0)]) ∧
  (∃ s',
     Impl.call_rcu_data_free (host:=quiet) (bits:=flag_bits) 1 (Some 1%nat)
       stopped_pending =
     Ret () s'
       [EvReadFlags 1 8; EvLoadTail 1 (NextOf (rcu_head_at 7));
        EvLoadHead 1 (Some (rcu_head_at 7)); EvStoreHead 1 None;
        EvXchgTail 1 (HeadOf 1) (NextOf (rcu_head_at 7));
        EvXchgTail 0 (NextOf (rcu_head_at 7)) (HeadOf 0);
        EvStoreLink (HeadOf 0) (Some (rcu_head_at 7));
        EvReadQlen 1 1; EvAddQlen 0 1;
        EvReadFlags 0 0; EvMb; EvReadFutex 0 (-1); EvSetFutex 0 0;
        EvFutexWake 0;
        EvLock; EvListDel 1; EvUnlock; EvFree 1] ∧
     queue_holds s' 0 [rcu_head_at 7] ∧
     qlen <$> crds s' !! 0%nat = Some 1) ∧
  (∃ s' c0,
     Impl.call_rcu_data_free (host:=quiet) (bits:=flag_bits) 1 (Some 1%nat)
       never_drained =
     Ret () s'
       [EvReadFlags 1 8; EvLoadTail 1 (NextOf (rcu_head_at 7));
        EvLoadHead 1 (Some (dummy_of 1)); EvStoreHead 1 None;
        EvXchgTail 1 (HeadOf 1) (NextOf (rcu_head_at 7));
        EvXchgTail 0 (NextOf (rcu_head_at 7)) (HeadOf 0);
        EvStoreLink (HeadOf 0) (Some (dummy_of 1));
        EvReadQlen 1 1; EvAddQlen 0 1;
        EvReadFlags 0 0; EvMb; EvReadFutex 0 (-1); EvSetFutex 0 0;
        EvFutexWake 0;
        EvLock; EvListDel 1; EvUnlock; EvFree 1] ∧
     crds s' !! 0%nat = Some c0 ∧
     wfq_head (cbs c0) = Some (dummy_of 1) ∧
     crds s' !! 1%nat = None ∧
     node_next s' (dummy_of 1) = None ∧
     ¬ queue_holds s' 0 [dummy_of 1; rcu_head_at 7]).
Proof.
  split; [|split].
  - eexists _, _. split; [vm_compute; reflexivity|].
    repeat (split; [reflexivity|]). split; [|reflexivity].
    intros (c & Hc & _ & _ & Htl). vm_compute in Hc.
    injection Hc as <-. discriminate Htl.
  - eexists. split; [vm_compute; reflexivity|].
    split; [|reflexivity]. eexists. split; [reflexivity|]. by cbn.
  - eexists _, _. split; [vm_compute; reflexivity|].
    repeat (split; [reflexivity|]).
    intros (c & _ & _ & Hnx & _). discriminate Hnx.
Qed.

(** C3, current variant, on [both_slots_taken], whose registry list
    holds the workers 2 and 1. In a first fork the workers acknowledge
    the request while [call_rcu_before_fork] polls, and
    [call_rcu_after_fork_parent] clears [PAUSE] (16): it leaves [PAUSED]
    (32) set on both workers. A second [call_rcu_before_fork] is then
    run against worker threads that do not take a single step: it sets
    [PAUSE], reads the flags of each worker once, finds the [PAUSED] of
    the first fork and returns without having polled, although no
    worker has acknowledged anything. A worker thread is meanwhile free
    to register as a reader and to run its loop with [PAUSED] set in
    its flags.

    The older variant has no handshake at all: its
    [call_rcu_before_fork] takes the mutex and touches no flag. *)
Theorem before_fork_returns_on_a_stale_paused_flag :
  let first :=
    Impl.call_rcu_before_fork (host:=polite) (bits:=flag_bits) 3
      both_slots_taken in
  let parent :=
    Impl.call_rcu_after_fork_parent (host:=polite) (bits:=flag_bits)
      (state_of first) in
  let s2 := state_of parent in
  (∃ s1,
     first =
     Ret () s1
       [EvLock;
        EvOrFlags 2 16; EvMb; EvReadFlags 2 16; EvMb; EvReadFutex 2 (-1);
        EvSetFutex 2 0; EvFutexWake 2;
        EvOrFlags 1 16; EvMb; EvReadFlags 1 16; EvMb; EvReadFutex 1 (-1);
        EvSetFutex 1 0; EvFutexWake 1;
        EvReadFlags 2 16; EvPoll 1; EvReadFlags 2 48;
        EvReadFlags 1 48]) ∧
  parent = Ret () s2 [EvAndFlags 2 (-17); EvAndFlags 1 (-17); EvUnlock] ∧
  call_rcu_data_list s2 = [2%nat; 1%nat] ∧
  flags <$> crds s2 !! 1%nat = Some 32 ∧
  flags <$> crds s2 !! 2%nat = Some 32 ∧
  interfere (Host:=quiet) s2 = s2 ∧
  (∃ s3,
     Impl.call_rcu_before_fork (host:=quiet) (bits:=flag_bits) 3 s2 =
     Ret () s3
       [EvLock;
        EvOrFlags 2 16; EvMb; EvReadFlags 2 48; EvMb; EvReadFutex 2 0;
        EvOrFlags 1 16; EvMb; EvReadFlags 1 48; EvMb; EvReadFutex 1 0;
        EvReadFlags 2 48; EvReadFlags 1 48]) ∧
  trace_of (Impl.call_rcu_thread (host:=quiet) (bits:=flag_bits) 1 3 1%nat s2) =
    [EvReadFlags 1 32; EvSetAffinity 0; EvRegisterThread;
     EvDecFutex 1; EvMb; EvReadFlags 1 32; EvLoadTail 1 (HeadOf 1);
     EvReadFlags 1 32; EvThreadOffline; EvLoadTail 1 (HeadOf 1); EvMb;
     EvReadFutex 1 (-1); EvFutexWait 1; EvPoll 10;
     EvDecFutex 1; EvMb; EvThreadOnline] ∧
  Legacy.call_rcu_before_fork (host:=quiet) both_slots_taken =
    Ret () both_slots_taken [EvLock].
Proof.
  cbv zeta. split; [eexists; vm_compute; reflexivity|].
  split; [vm_compute; reflexivity|].
  repeat (split; [reflexivity|]).
  split; [eexists; vm_compute; reflexivity|].
  split; vm_compute; reflexivity.
Qed.

(** The first fork on [both_slots_taken], with worker threads that
    acknowledge the request while the caller polls. *)
Lemma before_fork_reads_paused_witness :
  ∃ t1 t2 t3 v,
    trace_of (Impl.call_rcu_before_fork (host:=polite) (bits:=flag_bits) 3
                both_slots_taken) =
    t1 ++ [EvOrFlags 1 16] ++ t2 ++ [EvReadFlags 1 v] ++ t3 ∧
    Z.land v 32 ≠ 0.
Proof.
  apply (proj1 (before_fork_reads_paused
                  (host:=polite) (bits:=flag_bits) 3 both_slots_taken)
           (state_of (Impl.call_rcu_before_fork (host:=polite) (bits:=flag_bits) 3
                        both_slots_taken))).
  - vm_compute. reflexivity.
  - vm_compute. apply list_elem_of_further, list_elem_of_here.
Defined.

(** C4, older variant, on [one_slot_taken]: the slot of processor 0
    holds worker 1; the call for worker 2 returns 0 and the slot holds
    worker 2. *)
Lemma legacy_set_cpu_overwrites_occupied_slot :
  slot one_slot_taken 0 = Some (Some 1%nat) ∧
  ∃ s',
    Legacy.set_cpu_call_rcu_data (host:=quiet) 0 (Some 2%nat) one_slot_taken =
      Ret 0 s' [EvLock; EvUnlock] ∧
    slot s' 0 = Some (Some 2%nat).
Proof. split; [reflexivity|]. eexists. split; vm_compute; reflexivity. Qed.

(** C4, current variant, on the same store: the call is refused. *)
Lemma set_cpu_refuses_occupied_slot_witness :
  Impl.set_cpu_call_rcu_data (host:=quiet) 0 (Some 2%nat) one_slot_taken =
  Ret (- EEXIST) (set_errno EEXIST one_slot_taken) [EvLock; EvUnlock].
Proof.
  apply (proj1 (set_cpu_refuses_occupied_slot (host:=quiet) one_slot_taken 0)
           2%nat 1%nat).
  - reflexivity.
  - cbn. lia.
  - reflexivity.
  - reflexivity.
Defined.

(** C5, older variant, on [slot_with_pending]: the slot of processor 0
    is cleared under the mutex and worker 1 is handed to
    [call_rcu_data_free] at once; the call leaves the record of its
    queue behind as in C2, unlinks the worker and releases it. The
    function returns without having waited for a grace period. *)
Lemma legacy_free_all_waits_for_no_grace_period :
  slot slot_with_pending 0 = Some (Some 1%nat) ∧
  ∃ s',
    Legacy.free_all_cpu_call_rcu_data (host:=quiet) (bits:=flag_bits)
      3 3 slot_with_pending =
    Ret () s'
      [EvLock; EvUnlock;
       EvReadFlags 1 8; EvLoadTail 1 (NextOf (rcu_head_at 7));
       EvLoadHead 1 (Some (rcu_head_at 7)); EvStoreHead 1 None;
       EvXchgTail 1 (HeadOf 1) (NextOf (rcu_head_at 7));
       EvXchgDefault (NextOf (rcu_head_at 7)) (Some 0%nat);
       EvReadQlen 1 1;
       EvAddQlen (node_address (Host:=quiet) (rcu_head_at 7)) 1;
       EvListDel 1; EvFree 1] ∧
    slot s' 0 = Some None ∧
    crds s' !! 1%nat = None.
Proof.
  split; [reflexivity|]. eexists. split; [vm_compute; reflexivity|].
  by split.
Qed.

(** C5, current variant, on [both_slots_taken]: both slots are cleared,
    the grace period is waited for, and then the two workers are
    destroyed. *)
Lemma free_all_waits_between_nulling_and_destroying_witness :
  run fa_step Nulling
    (trace_of (Impl.free_all_cpu_call_rcu_data (host:=polite) (bits:=flag_bits)
                 3 3 both_slots_taken)) = Some Destroying ∧
  EvSynchronizeRcu ∈
    trace_of (Impl.free_all_cpu_call_rcu_data (host:=polite) (bits:=flag_bits)
                3 3 both_slots_taken).
Proof.
  apply (proj1 (proj2 (free_all_waits_between_nulling_and_destroying
                         (host:=polite) (bits:=flag_bits) 3 3 both_slots_taken))
           (state_of (Impl.free_all_cpu_call_rcu_data (host:=polite)
                        (bits:=flag_bits) 3 3 both_slots_taken))).
  - vm_compute. reflexivity.
  - reflexivity.
  - reflexivity.
Defined.

Example free_all_trace_on_both_slots_taken :
  trace_of (Impl.free_all_cpu_call_rcu_data (host:=polite) (bits:=flag_bits)
              3 3 both_slots_taken) =
  [EvDerefArray true; EvDerefSlot 0 (Some 1%nat); EvLock; EvSetSlot 0 None;
   EvUnlock;
   EvDerefArray true; EvDerefSlot 1 (Some 2%nat); EvLock; EvSetSlot 1 None;
   EvUnlock;
   EvSynchronizeRcu;
   EvReadFlags 1 0; EvOrFlags 1 4; EvReadFlags 1 4; EvMb; EvReadFutex 1 (-1);
   EvSetFutex 1 0; EvFutexWake 1; EvReadFlags 1 4; EvPoll 1;
   EvReadFlags 1 12; EvLoadTail 1 (HeadOf 1);
   EvLock; EvListDel 1; EvUnlock; EvFree 1;
   EvReadFlags 2 0; EvOrFlags 2 4; EvReadFlags 2 4; EvMb; EvReadFutex 2 (-1);
   EvSetFutex 2 0; EvFutexWake 2; EvReadFlags 2 4; EvPoll 1;
   EvReadFlags 2 12; EvLoadTail 2 (HeadOf 2);
   EvLock; EvListDel 2; EvUnlock; EvFree 2].
Proof. vm_compute. reflexivity. Qed.

(** C6, older variant, on [stopped_idle]: worker 1 has stopped and its
    queue is empty. The call reads the flags and the tail and returns;
    the store is what it was, worker 1 is still in the registry list and
    still allocated. The current variant, on the same store, unlinks and
    frees it. *)
Theorem legacy_free_leaks_a_worker_with_an_empty_queue :
  Legacy.call_rcu_data_free (host:=quiet) (bits:=flag_bits) 1 (Some 1%nat)
    stopped_idle =
  Ret () stopped_idle [EvReadFlags 1 8; EvLoadTail 1 (HeadOf 1)] ∧
  call_rcu_data_list stopped_idle = [1%nat; 0%nat] ∧
  is_Some (crds stopped_idle !! 1%nat) ∧
  ∃ s',
    Impl.call_rcu_data_free (host:=quiet) (bits:=flag_bits) 1 (Some 1%nat)
      stopped_idle =
    Ret () s' [EvReadFlags 1 8; EvLoadTail 1 (HeadOf 1);
               EvLock; EvListDel 1; EvUnlock; EvFree 1] ∧
    call_rcu_data_list s' = [0%nat] ∧
    crds s' !! 1%nat = None.
Proof.
  split; [vm_compute; reflexivity|]. split; [reflexivity|].
  split; [by eexists|].
  eexists. split; [vm_compute; reflexivity|]. by split.
Qed.

(** C7, older variant, on [no_array_yet], a machine with two processors:
    the first call for processor 0 is refused as invalid, because the
    range is checked against [maxcpus] before anything has set it. The
    current variant, on the same store, allocates the array, then
    accepts processor 0 and publishes the worker. *)
Theorem legacy_set_cpu_checks_the_range_before_allocating :
  sysconf_nprocessors_conf (Host:=quiet) no_array_yet = 2 ∧
  Legacy.set_cpu_call_rcu_data (host:=quiet) 0 (Some 1%nat) no_array_yet =
    Ret (- EINVAL) (set_errno EINVAL no_array_yet)
      [EvLock; EvWarn warn_set_out_of_range; EvUnlock] ∧
  ∃ s',
    Impl.set_cpu_call_rcu_data (host:=quiet) 0 (Some 1%nat) no_array_yet =
      Ret 0 s' [EvLock; EvSetArray true; EvSetSlot 0 (Some 1%nat); EvUnlock] ∧
    maxcpus s' = 2 ∧
    slot s' 0 = Some (Some 1%nat).
Proof.
  split; [reflexivity|]. split; [vm_compute; reflexivity|].
  eexists. split; [vm_compute; reflexivity|]. by split.
Qed.

(** The current variant on [no_array_yet]: the companion of C7. *)
Lemma impl_set_cpu_allocates_before_range_check_witness :
  ∃ ret s' t,
    Impl.set_cpu_call_rcu_data (host:=quiet) 0 (Some 1%nat) no_array_yet =
      Ret ret s' t ∧
    maxcpus s' = maxcpus (when_checked (host:=quiet) no_array_yet) ∧
    (ret = - EINVAL ↔ 0 < 0 ∨ maxcpus s' <= 0) ∧
    ret ≠ - EINVAL.
Proof.
  eexists _, _, _. split; [vm_compute; reflexivity|].
  pose proof (impl_set_cpu_allocates_before_range_check
                (host:=quiet) no_array_yet 0 (Some 1%nat) _ _ _ eq_refl)
    as (H1 & H2 & H3).
  split; [exact H1|]. split; [exact H2|].
  apply H3; [reflexivity|reflexivity|reflexivity|cbn; lia].
Defined.

(** The current variant on a worker that has not stopped yet, with a
    thread that acknowledges the request. *)
Lemma impl_free_always_unlinks_and_frees_witness :
  (∃ t0,
     trace_of (Impl.call_rcu_data_free (host:=polite) (bits:=flag_bits) 3
                 (Some 1%nat) both_slots_taken) =
     t0 ++ [EvLock; EvListDel 1; EvUnlock; EvFree 1]) ∧
  (1%nat ∉ call_rcu_data_list
            (state_of (Impl.call_rcu_data_free (host:=polite) (bits:=flag_bits) 3
                         (Some 1%nat) both_slots_taken))) ∧
  crds (state_of (Impl.call_rcu_data_free (host:=polite) (bits:=flag_bits) 3
                    (Some 1%nat) both_slots_taken)) !! 1%nat = None.
Proof.
  apply (impl_free_always_unlinks_and_frees (host:=polite) (bits:=flag_bits)
           3 1%nat both_slots_taken).
  - vm_compute. reflexivity.
  - discriminate.
Defined.

(** C10 on a process that has not used the file yet. *)
Lemma get_default_is_idempotent_witness :
  ∃ s',
    get_default_call_rcu_data (host:=quiet) fresh_process =
      Ret (Some 0%nat) s'
        [EvLock; EvListAdd 0; EvMb; EvCreateThread 0; EvUnlock] ∧
    get_default_call_rcu_data (host:=quiet) s' = Ret (Some 0%nat) s' [].
Proof.
  eexists. split; [vm_compute; reflexivity|].
  destruct (proj1 (get_default_is_idempotent (host:=quiet) (bits:=flag_bits)
                     fresh_process) _ _ _ eq_refl)
    as (w & Hw & _ & _ & _ & Hidem).
  injection Hw as <-. exact Hidem.
Defined.

(** X3 on [stopped_behind_busy_default]: the records 7 and 8 end up
    behind the record 5 in the queue of the default worker, whose length
    becomes 3 and which is woken up. *)
Lemma impl_free_splices_leftover_onto_default_witness :
  ∃ cr cd s',
    crds stopped_behind_busy_default !! 1%nat = Some cr ∧
    crds stopped_behind_busy_default !! 0%nat = Some cd ∧
    queue_holds s' 0%nat
      ([rcu_head_at 5] ++ [rcu_head_at 7; rcu_head_at 8]) ∧
    queue_holds s' 1%nat [] ∧
    q_len s' 0%nat = Some (wrap_ulong (qlen cd + qlen cr)) ∧
    Impl.call_rcu_data_free (host:=freeing) (bits:=flag_bits) 0 (Some 1%nat)
      stopped_behind_busy_default =
      let spliced :=
        [EvReadFlags 1%nat (flags cr);
         EvLoadTail 1%nat (wfq_tail (cbs cr));
         EvLoadHead 1%nat (Some (rcu_head_at 7));
         EvStoreHead 1%nat None;
         EvXchgTail 1%nat (HeadOf 1%nat) (wfq_tail (cbs cr));
         EvXchgTail 0%nat (wfq_tail (cbs cr)) (wfq_tail (cbs cd));
         EvStoreLink (wfq_tail (cbs cd)) (Some (rcu_head_at 7));
         EvReadQlen 1%nat (qlen cr); EvAddQlen 0%nat (qlen cr)]
        ++ wake_trace (bits:=flag_bits) 0%nat cd in
      match Impl.unlink_and_free (host:=freeing) 1%nat s' with
      | Ret a s2 t2 => Ret a s2 (spliced ++ t2)
      | Halt h s2 t2 => Halt h s2 (spliced ++ t2)
      end.
Proof.
  eexists _, _.
  assert (∀ (P : State → Prop) (x y : Prop), x → y → (x → y → ∃ s', P s') →
          ∃ s', x ∧ y ∧ P s') as Hshape.
  { intros P x y Hx Hy HP. destruct (HP Hx Hy) as [s' Hs]. eauto. }
  apply Hshape; [reflexivity | reflexivity |]. intros Hr Hd.
  apply (impl_free_splices_leftover_onto_default (host:=freeing) (bits:=flag_bits)
           0 1%nat 0%nat (rcu_head_at 7) [rcu_head_at 8] [rcu_head_at 5]
           _ _ stopped_behind_busy_default).
  - reflexivity.
  - done.
  - exact Hr.
  - exact Hd.
  - done.
  - eexists. split; [reflexivity|]. cbn. auto.
  - eexists. split; [reflexivity|]. cbn. auto.
  - compute_done.
  - intros x Hx Hin. elem_cases Hx; subst. elem_cases Hin.
Defined.

(** The whole run on that store. *)
Example impl_free_trace_behind_busy_default :
  trace_of (Impl.call_rcu_data_free (host:=freeing) (bits:=flag_bits) 0 (Some 1%nat)
              stopped_behind_busy_default) =
  [EvReadFlags 1 8; EvLoadTail 1 (NextOf (rcu_head_at 8));
   EvLoadHead 1 (Some (rcu_head_at 7)); EvStoreHead 1 None;
   EvXchgTail 1 (HeadOf 1) (NextOf (rcu_head_at 8));
   EvXchgTail 0 (NextOf (rcu_head_at 8)) (NextOf (rcu_head_at 5));
   EvStoreLink (NextOf (rcu_head_at 5)) (Some (rcu_head_at 7));
   EvReadQlen 1 2; EvAddQlen 0 2;
   EvReadFlags 0 0; EvMb; EvReadFutex 0 (-1); EvSetFutex 0 0; EvFutexWake 0;
   EvLock; EvListDel 1; EvUnlock; EvFree 1].
Proof. vm_compute. reflexivity. Qed.

(** X6 on [two_callbacks], whose worker sleeps ([futex] is -1). *)
Lemma wake_up_resets_futex_and_wakes_witness :
  ∃ c, crds two_callbacks !! 0%nat = Some c ∧
       call_rcu_wake_up 0%nat two_callbacks =
         if decide (futex c = -1) then
           Ret () (set_crds <[0%nat := with_futex 0 c]> two_callbacks)
             [EvMb; EvReadFutex 0%nat (-1); EvSetFutex 0%nat 0;
              EvFutexWake 0%nat]
         else Ret () two_callbacks [EvMb; EvReadFutex 0%nat (futex c)].
Proof.
  eexists. split; [reflexivity|].
  apply (wake_up_resets_futex_and_wakes 0%nat). reflexivity.
Defined.

(** X5 on [idle_awake]: the worker arms the gate, finds its queue empty
    twice, sleeps, is woken up by the stop request and leaves. *)
Example worker_trace_through_the_gate :
  trace_of (Impl.call_rcu_thread (host:=stopper) (bits:=flag_bits) 2 3 0
              idle_awake) =
  [EvReadFlags 0 0; EvRegisterThread; EvDecFutex 0; EvMb;
   EvReadFlags 0 0; EvLoadTail 0 (HeadOf 0); EvReadFlags 0 0;
   EvThreadOffline; EvLoadTail 0 (HeadOf 0); EvMb;
   EvReadFutex 0 (-1); EvFutexWait 0; EvPoll 10; EvDecFutex 0; EvMb;
   EvThreadOnline; EvReadFlags 0 4; EvLoadTail 0 (HeadOf 0);
   EvReadFlags 0 4; EvMb; EvSetFutex 0 0; EvOrFlags 0 8; EvUnregisterThread].
Proof. vm_compute. reflexivity. Qed.

(** X7 on [both_slots_taken]. *)
Lemma impl_free_all_nulls_every_slot_witness :
  ∃ s1,
    per_cpu_call_rcu_data s1 = Some (replicate 2 None) ∧
    Impl.free_all_cpu_call_rcu_data (host:=polite) (bits:=flag_bits) 3 3
      both_slots_taken =
      match Impl.free_slots (host:=polite) (bits:=flag_bits) 3 3 0
              [Some 1%nat; Some 2%nat] (interfere (Host:=polite) s1) with
      | Ret a s2 t2 =>
          Ret a s2 (nulling_trace 0 [Some 1%nat; Some 2%nat]
                    ++ EvSynchronizeRcu :: t2)
      | Halt h s2 t2 =>
          Halt h s2 (nulling_trace 0 [Some 1%nat; Some 2%nat]
                     ++ EvSynchronizeRcu :: t2)
      end.
Proof.
  apply (impl_free_all_nulls_every_slot (host:=polite) (bits:=flag_bits) 3 3
           [Some 1%nat; Some 2%nat] both_slots_taken).
  - done.
  - reflexivity.
  - reflexivity.
  - done.
  - reflexivity.
  - cbn. lia.
Defined.

(** X8 on [one_slot_taken], for a thread on the first processor: the
    worker in the slot of that processor is picked. *)
Lemma get_call_rcu_data_picks_by_priority_witness :
  Impl.get_call_rcu_data (host:=quiet) (sched:=first_cpu) one_slot_taken =
    Ret (Some 1%nat) one_slot_taken
      [EvDerefArray true; EvDerefSlot 0 (Some 1%nat)].
Proof.
  apply (proj1 (get_call_rcu_data_picks_by_priority
                  (host:=quiet) (sched:=first_cpu) one_slot_taken)).
  by eapply (selects_cpu (host:=quiet) (sched:=first_cpu) one_slot_taken 1%nat).
Defined.

(** X9 on [two_callbacks]: the record at 3 goes behind the records at 1
    and 2 and the sleeping default worker is woken up. *)
Lemma call_rcu_enqueues_behind_the_queue_witness :
  ∃ s',
    Impl.call_rcu (host:=quiet) (bits:=flag_bits) (sched:=first_cpu)
      3 13%nat two_callbacks =
      Ret () s'
        ([] ++
         [EvXchgTail 0%nat (NextOf (rcu_head_at 3)) (NextOf (rcu_head_at 2));
          EvStoreLink (NextOf (rcu_head_at 2)) (Some (rcu_head_at 3));
          EvAddQlen 0%nat 1] ++
         [EvReadFlags 0%nat 0; EvMb; EvReadFutex 0%nat (-1);
          EvSetFutex 0%nat 0; EvFutexWake 0%nat]) ∧
    queue_holds s' 0%nat
      ([dummy_of 0; rcu_head_at 1; rcu_head_at 2] ++ [rcu_head_at 3]) ∧
    node_func s' (rcu_head_at 3) = Some 13%nat ∧
    (∀ m, m ≠ rcu_head_at 3 → node_func s' m = node_func two_callbacks m) ∧
    q_len s' 0%nat = Some (wrap_ulong (2 + 1)) ∧
    same_registry two_callbacks s'.
Proof.
  apply (call_rcu_enqueues_behind_the_queue (host:=quiet) (bits:=flag_bits)
           (sched:=first_cpu) 3 13%nat 0%nat two_callbacks_worker
           [dummy_of 0; rcu_head_at 1; rcu_head_at 2] [] two_callbacks).
  - by apply (selects_default_no_cpus (host:=quiet) (sched:=first_cpu)).
  - done.
  - reflexivity.
  - apply two_callbacks_queue.
  - compute_done.
  - intros Hin. elem_cases Hin.
Defined.

(** X10 on [two_callbacks], for the records at 3 and 4. *)
Lemma call_rcu_keeps_the_order_of_calls_witness :
  ∃ s' t,
    (Impl.call_rcu (host:=quiet) (bits:=flag_bits) (sched:=first_cpu) 3 13%nat;;
     Impl.call_rcu (host:=quiet) (bits:=flag_bits) (sched:=first_cpu) 4 14%nat)
      two_callbacks = Ret () s' t ∧
    queue_holds s' 0%nat
      ([dummy_of 0; rcu_head_at 1; rcu_head_at 2]
       ++ [rcu_head_at 3; rcu_head_at 4]) ∧
    node_func s' (rcu_head_at 3) = Some 13%nat ∧
    node_func s' (rcu_head_at 4) = Some 14%nat ∧
    q_len s' 0%nat = Some (wrap_ulong (2 + 2)).
Proof.
  apply (call_rcu_keeps_the_order_of_calls (host:=quiet) (bits:=flag_bits)
           (sched:=first_cpu) 3 4 13%nat 14%nat 0%nat two_callbacks_worker
           [dummy_of 0; rcu_head_at 1; rcu_head_at 2] [] two_callbacks).
  - by apply (selects_default_no_cpus (host:=quiet) (sched:=first_cpu)).
  - done.
  - reflexivity.
  - apply two_callbacks_queue.
  - compute_done.
  - intros Hin. elem_cases Hin.
  - intros Hin. elem_cases Hin.
  - done.
Defined.

(** X11 on [two_callbacks], with callbacks that free their record. *)
Lemma call_rcu_then_drain_invokes_the_callback_witness :
  ∃ s',
    (Impl.call_rcu (host:=freeing) (bits:=flag_bits) (sched:=first_cpu) 3 13%nat;;
     drain (host:=freeing) 4 0%nat) two_callbacks =
      Ret () s'
        ([] ++
         [EvXchgTail 0%nat (NextOf (rcu_head_at 3)) (NextOf (rcu_head_at 2));
          EvStoreLink (NextOf (rcu_head_at 2)) (Some (rcu_head_at 3));
          EvAddQlen 0%nat 1] ++
         [EvReadFlags 0%nat 0; EvMb; EvReadFutex 0%nat (-1);
          EvSetFutex 0%nat 0; EvFutexWake 0%nat] ++
         [EvLoadTail 0%nat (NextOf (rcu_head_at 3));
          EvLoadHead 0%nat (Some (dummy_of 0));
          EvStoreHead 0%nat None;
          EvXchgTail 0%nat (HeadOf 0%nat) (NextOf (rcu_head_at 3));
          EvSynchronizeRcu]
         ++ [EvInvoke 11%nat (rcu_head_at 1); EvInvoke 12%nat (rcu_head_at 2)]
         ++ [EvInvoke 13%nat (rcu_head_at 3); EvSubQlen 0%nat (wrap_ulong 3)]).
Proof.
  apply (call_rcu_then_drain_invokes_the_callback (host:=freeing)
           (bits:=flag_bits) (sched:=first_cpu) 4 3 13%nat 0%nat two_callbacks_worker
           [dummy_of 0; rcu_head_at 1; rcu_head_at 2] callback_of []
           two_callbacks).
  - by apply (selects_default_no_cpus (host:=freeing) (sched:=first_cpu)).
  - done.
  - reflexivity.
  - apply two_callbacks_queue.
  - compute_done.
  - intros Hin. elem_cases Hin.
  - intros m Hm Hd. elem_cases Hm; subst; done.
  - apply freeing_owns_batches.
  - cbn. lia.
Defined.

(** X12 on [one_slot_taken]: worker 2 is put in the free slot of the
    second processor and read back. *)
Lemma set_cpu_then_get_cpu_witness :
  ∃ s',
    Impl.set_cpu_call_rcu_data (host:=quiet) 1 (Some 2%nat) one_slot_taken =
      Ret 0 s' [EvLock; EvSetSlot 1 (Some 2%nat); EvUnlock] ∧
    Impl.get_cpu_call_rcu_data 1 s' =
      Ret (Some 2%nat) s' [EvDerefArray true; EvDerefSlot 1 (Some 2%nat)].
Proof.
  eexists. split; [vm_compute; reflexivity|].
  destruct (set_cpu_then_get_cpu (host:=quiet) 1 (Some 2%nat) one_slot_taken
              _ _ _ eq_refl) as [(_ & _ & _ & _ & Hget)|([H|[H|H]] & _)];
    [exact Hget|done..].
Defined.

(** X13 on [one_slot_taken], whose array has two slots: processor 5 is
    outside the range, the call returns NULL and warns. *)
Lemma get_cpu_checks_the_range_and_warns_once_witness :
  ∃ s',
    Impl.get_cpu_call_rcu_data 5 one_slot_taken =
      Ret None s' [EvDerefArray true; EvWarn warn_get_out_of_range] ∧
    warned_get s' = true ∧
    Impl.get_cpu_call_rcu_data 5 s' = Ret None s' [EvDerefArray true].
Proof.
  eexists. split; [vm_compute; reflexivity|].
  destruct (get_cpu_checks_the_range_and_warns_once 5 one_slot_taken _ _ _
              eq_refl) as (_ & _ & Hwarn & _).
  destruct (Hwarn warn_get_out_of_range) as (_ & _ & Hset & _); [in_list|].
  split; [exact Hset|]. vm_compute. reflexivity.
Defined.

(** X14 on [idle_awake], whose worker is asked to stop while it sleeps. *)
Lemma worker_sleeps_offline_and_pauses_unregistered_witness :
  ∃ s' t,
    Impl.call_rcu_thread (host:=stopper) (bits:=flag_bits) 2 3 0%nat
      idle_awake = Ret () s' t ∧
    run (reader_step (bits:=flag_bits) 0%nat) Out t = Some Leaving.
Proof.
  pose proof (worker_sleeps_offline_and_pauses_unregistered (host:=stopper)
                (bits:=flag_bits) 2 3 0%nat idle_awake ltac:(done)) as H.
  destruct (Impl.call_rcu_thread 2 3 0%nat idle_awake) as [[] s' t|] eqn:E.
  - by exists s', t.
  - vm_compute in E. discriminate E.
Defined.

(** X15 on the same run. *)
Lemma worker_returns_only_when_asked_to_stop_witness :
  ∃ s' t t0 f t1 c',
    Impl.call_rcu_thread (host:=stopper) (bits:=flag_bits) 2 3 0%nat
      idle_awake = Ret () s' t ∧
    t = t0 ++ [EvReadFlags 0%nat f] ++ t1
        ++ [EvOrFlags 0%nat 8] ++ [EvUnregisterThread] ∧
    Z.land f 4 ≠ 0 ∧
    (t1 = [] ∨ t1 = [EvMb; EvSetFutex 0%nat 0] ∧ futex c' = 0) ∧
    crds s' !! 0%nat = Some c' ∧
    Z.land (flags c') 8 = 8.
Proof.
  destruct (Impl.call_rcu_thread (host:=stopper) (bits:=flag_bits) 2 3 0%nat
              idle_awake) as [[] s' t|] eqn:E.
  - destruct (worker_returns_only_when_asked_to_stop (host:=stopper)
                (bits:=flag_bits) 2 3 0%nat idle_awake s' t true E)
      as (t0 & f & t1 & c' & H).
    by exists s', t, t0, f, t1, c'.
  - vm_compute in E. discriminate E.
Defined.

Lemma polite_keeps_paused : keeps_paused (bits:=flag_bits) polite.
Proof.
  intros s. split; [done|]. split; [done|].
  intros w (c & Hc & Hp). exists (acknowledge c). split.
  - cbn. by rewrite lookup_fmap, Hc.
  - unfold acknowledge. cbn. repeat case_decide; try done;
      repeat apply land_lor_keeps; done.
Qed.

(** X17 on [both_slots_taken], with workers that acknowledge a request
    when the caller polls: the first [call_rcu_before_fork] polls, the
    second does not. *)
Lemma second_before_fork_waits_for_no_worker_witness :
  ∃ s1 t1 s2 t2,
    Impl.call_rcu_before_fork (host:=polite) (bits:=flag_bits) 2
      both_slots_taken = Ret () s1 t1 ∧
    EvPoll 1 ∈ t1 ∧
    Impl.call_rcu_after_fork_parent (host:=polite) (bits:=flag_bits) s1
      = Ret () s2 t2 ∧
    ∀ fuel', ∃ s3 t3,
      Impl.call_rcu_before_fork (host:=polite) (bits:=flag_bits) fuel' s2
        = Ret () s3 t3 ∧
      ∀ ms, EvPoll ms ∉ t3.
Proof.
  assert (∃ s1 t1 s2 t2,
            Impl.call_rcu_before_fork (host:=polite) (bits:=flag_bits) 2
              both_slots_taken = Ret () s1 t1 ∧
            EvPoll 1 ∈ t1 ∧
            Impl.call_rcu_after_fork_parent (host:=polite) (bits:=flag_bits) s1
              = Ret () s2 t2) as (s1 & t1 & s2 & t2 & E1 & Hpoll & E2).
  { eexists _, _, _, _. split; [vm_compute; reflexivity|].
    split; [in_list|]. vm_compute. reflexivity. }
  exists s1, t1, s2, t2. split; [done|]. split; [done|]. split; [done|].
  apply (second_before_fork_waits_for_no_worker (host:=polite)
           (bits:=flag_bits) 2 both_slots_taken s1 s2 t1 t2).
  - apply polite_keeps_paused.
  - done.
  - done.
  - done.
  - exact E1.
  - exact E2.
Defined.

Lemma quiet_reliable : reliable quiet.
Proof. intros s. repeat split; try done. Qed.

Lemma quiet_calm : calm quiet.
Proof. by intros s. Qed.

(** X18 on a process that has not used the file yet. *)
Lemma create_call_rcu_data_registers_a_worker_witness :
  ∃ s',
    Impl.create_call_rcu_data (host:=quiet) 0 (-1) fresh_process =
      Ret (Some 0%nat) s'
        [EvLock; EvListAdd 0%nat; EvMb; EvCreateThread 0%nat; EvUnlock] ∧
    queue_holds s' 0%nat [dummy_of 0] ∧
    call_rcu_data_list s' = [0%nat] ∧
    default_call_rcu_data s' = None.
Proof.
  eexists. split; [vm_compute; reflexivity|].
  destruct (proj1 (create_call_rcu_data_registers_a_worker (host:=quiet)
                     (bits:=flag_bits) 0 (-1) fresh_process) _ _ _ eq_refl)
    as (w & c & Hw & _ & _ & _ & _ & _ & _ & Hq & Hl & Hd & _).
  injection Hw as <-. done.
Defined.


(** X20 on a process that has not used the file yet, on a machine with
    two processors. *)
Lemma create_all_gives_every_processor_a_worker_witness :
  ∃ s' t arr',
    Impl.create_all_cpu_call_rcu_data (host:=quiet) (bits:=flag_bits) 2 1 0
      fresh_process = Ret 0 s' t ∧
    per_cpu_call_rcu_data s' = Some arr' ∧
    length arr' = 2%nat ∧
    (∀ k, (k < 2)%nat →
       ∃ w, arr' !! k = Some (Some w) ∧
            ([@None wid; None] !! k = Some None →
             EvCreateThread w ∈ t ∧ EvSetSlot (Z.of_nat k) (Some w) ∈ t) ∧
            (∀ w0, [@None wid; None] !! k = Some (Some w0) → w = w0)) ∧
    (∀ k v, EvSetSlot k v ∈ t →
       ∃ j, k = Z.of_nat j ∧ [@None wid; None] !! j = Some None).
Proof.
  apply (create_all_gives_every_processor_a_worker (host:=quiet)
           (bits:=flag_bits) 2 1 0 [@None wid; None] fresh_process).
  - apply quiet_calm.
  - apply quiet_reliable.
  - reflexivity.
  - reflexivity.
  - done.
  - cbn. lia.
Defined.

(** X21 on a build without [sched_getcpu]. *)
Lemma create_all_fails_without_an_array_witness :
  ∃ t,
    Impl.create_all_cpu_call_rcu_data (host:=no_percpu) (bits:=flag_bits) 2 1 0
      fresh_process = Ret (- EINVAL) (set_errno EINVAL fresh_process) t ∧
    ∀ w, EvCreateThread w ∉ t.
Proof.
  apply (create_all_fails_without_an_array (host:=no_percpu) (bits:=flag_bits)
           2 1 0 fresh_process).
  - by intros s.
  - left. vm_compute. discriminate.
Defined.

(** X22 on [stopped_behind_busy_default] taken as the store of a child:
    the workers 0 and 1 of the parent are disposed of, and worker 2 is
    the new default worker. *)
Lemma after_fork_child_keeps_a_new_default_worker_only_witness :
  ∃ s' t,
    Impl.call_rcu_after_fork_child (host:=quiet) (bits:=flag_bits) 1
      stopped_behind_busy_default = Ret () s' t ∧
    default_call_rcu_data s' = Some 2%nat ∧
    (∀ x, x ∈ call_rcu_data_list s' ↔ x = 2%nat) ∧
    crds s' !! 0%nat = None ∧ crds s' !! 1%nat = None ∧
    (∀ w m, EvOrFlags w m ∉ t).
Proof.
  assert (∃ s' t,
            Impl.call_rcu_after_fork_child (host:=quiet) (bits:=flag_bits) 1
              stopped_behind_busy_default = Ret () s' t ∧
            default_call_rcu_data s' = Some 2%nat) as (s' & t & Hrun & Hd).
  { eexists _, _. split; vm_compute; reflexivity. }
  exists s', t. split; [done|]. split; [done|].
  destruct (after_fork_child_keeps_a_new_default_worker_only (host:=quiet)
              (bits:=flag_bits) 1 stopped_behind_busy_default s' t
              ltac:(done) ltac:(done) Hrun) as [_ Hrest].
  destruct Hrest as (d & Hd' & _ & _ & _ & Hl & Hc & _ & _ & Hno); [done|].
  rewrite Hd in Hd'. injection Hd' as <-.
  split; [done|]. split; [|split; [|done]].
  - apply Hc. split; [done|]. left. in_list.
  - apply Hc. split; [done|]. left. in_list.
Defined.

(** X23 on [stopped_idle] taken as the store of a child: the old default
    worker 0 is idle and last in the list. *)
Lemma legacy_after_fork_child_spins_on_an_idle_worker_witness :
  ∃ s' t,
    Legacy.call_rcu_after_fork_child (host:=quiet) (bits:=flag_bits) 5 1
      stopped_idle = Halt OutOfFuel s' t ∧
    0%nat ∈ call_rcu_data_list s' ∧ is_Some (crds s' !! 0%nat) ∧
    (∀ x, EvListDel x ∉ t) ∧ (∀ x, EvFree x ∉ t).
Proof.
  apply (proj2 (legacy_after_fork_child_spins_on_an_idle_worker (host:=quiet)
                  (bits:=flag_bits) 5 1 stopped_idle ltac:(done) quiet_reliable
                  ltac:(done)) 0%nat (idle_worker 0 0%nat (-1))).
  - reflexivity.
  - reflexivity.
  - reflexivity.
  - vm_compute. discriminate.
Defined.

(** The reader automaton does refuse a sleep while online, a callback
    before registration, a registration in the middle of a pause, and an
    announcement of [PAUSED] by a registered thread. *)
Example reader_refuses_sleep_online :
  run (reader_step (bits:=flag_bits) 0%nat) Out
    [EvRegisterThread; EvFutexWait 0%nat] = None
  ∧ run (reader_step (bits:=flag_bits) 0%nat) Out
      [EvRegisterThread; EvPoll 10] = None
  ∧ run (reader_step (bits:=flag_bits) 0%nat) Out
      [EvInvoke 3%nat (rcu_head_at 7)] = None
  ∧ run (reader_step (bits:=flag_bits) 0%nat) Out
      [EvRegisterThread; EvUnregisterThread; EvMb; EvOrFlags 0%nat 32;
       EvReadFlags 0%nat 48; EvRegisterThread] = None
  ∧ run (reader_step (bits:=flag_bits) 0%nat) Out
      [EvRegisterThread; EvOrFlags 0%nat 32] = None
  ∧ run (reader_step (bits:=flag_bits) 0%nat) Out
      [EvRegisterThread; EvUnregisterThread; EvMb; EvOrFlags 0%nat 32;
       EvReadFlags 0%nat 48; EvPoll 1; EvReadFlags 0%nat 32;
       EvRegisterThread; EvThreadOffline; EvPoll 10; EvThreadOnline]
      = Some Online.
Proof. done. Qed.

(** The stop automaton does refuse a queue access, an unlinking and a
    release that come before [STOPPED] has been read, a poll before the
    request, a request before the flags have been read, a request once
    [STOPPED] has been read, and a second request; it accepts the poll
    for the head of a worker found stopped. *)
Example stop_refuses_early_release :
  run (stop_step (bits:=flag_bits) 1%nat) NotRead [EvOrFlags 1%nat 4] = None
  ∧ run (stop_step (bits:=flag_bits) 1%nat) NotRead
      [EvReadFlags 1%nat 8; EvOrFlags 1%nat 4] = None
  ∧ run (stop_step (bits:=flag_bits) 1%nat) NotRead
      [EvReadFlags 1%nat 8; EvLoadTail 1%nat (NextOf (rcu_head_at 7));
       EvLoadHead 1%nat None; EvPoll 1] = Some SeenStopped
  ∧
  run (stop_step (bits:=flag_bits) 1%nat) NotRead
    [EvReadFlags 1%nat 0; EvLoadTail 1%nat (HeadOf 1%nat)] = None
  ∧ run (stop_step (bits:=flag_bits) 1%nat) NotRead
      [EvReadFlags 1%nat 0; EvOrFlags 1%nat 4; EvListDel 1%nat] = None
  ∧ run (stop_step (bits:=flag_bits) 1%nat) NotRead
      [EvReadFlags 1%nat 0; EvOrFlags 1%nat 4; EvPoll 1; EvFree 1%nat] = None
  ∧ run (stop_step (bits:=flag_bits) 1%nat) NotRead
      [EvReadFlags 1%nat 0; EvPoll 1] = None
  ∧ run (stop_step (bits:=flag_bits) 1%nat) NotRead
      [EvReadFlags 1%nat 0; EvOrFlags 1%nat 4; EvOrFlags 1%nat 4] = None
  ∧ run (stop_step (bits:=flag_bits) 1%nat) NotRead
      [EvReadFlags 1%nat 0; EvOrFlags 1%nat 4; EvPoll 1;
       EvReadFlags 1%nat 12; EvLoadTail 1%nat (HeadOf 1%nat);
       EvLock; EvListDel 1%nat; EvUnlock; EvFree 1%nat] = Some SeenStopped.
Proof. done. Qed.

(** X24 on [one_slot_taken]: worker 1 keeps the slot of the first
    processor and a worker is created for the second. *)
Lemma legacy_create_all_gives_every_processor_a_worker_witness :
  ∃ s' t arr',
    Legacy.create_all_cpu_call_rcu_data (host:=quiet) 2 0 one_slot_taken
      = Ret 0 s' t ∧
    per_cpu_call_rcu_data s' = Some arr' ∧
    length arr' = 2%nat ∧
    (∀ k, (k < 2)%nat →
       ∃ w, arr' !! k = Some (Some w) ∧
            ([Some 1%nat; None] !! k = Some None → EvCreateThread w ∈ t) ∧
            (∀ w0, [Some 1%nat; None] !! k = Some (Some w0) → w = w0)) ∧
    (∀ w, EvCreateThread w ∈ t →
       ∃ k, [Some 1%nat; None] !! k = Some None ∧ arr' !! k = Some (Some w)).
Proof.
  apply (legacy_create_all_gives_every_processor_a_worker (host:=quiet)
           (bits:=flag_bits) 2 0 [Some 1%nat; None] one_slot_taken).
  - apply quiet_calm.
  - apply quiet_reliable.
  - reflexivity.
  - reflexivity.
  - done.
  - cbn. lia.
Defined.

(** X25 on a reader that a grace period waits for, with the waiter
    asleep: going offline wakes the waiter, and the reader is not waited
    for when the counter moves on. *)
Lemma qsbr_reader_is_not_waited_for_witness :
  let q := {| Qsbr.rcu_gp_ctr := 4; Qsbr.ctr := 2; Qsbr.waiting := 1;
              Qsbr.gp_futex := -1 |} in
  Qsbr.rcu_gp_ongoing q = true ∧
  Qsbr.rcu_gp_ongoing
    (Qsbr.with_gp_ctr 6 (Qsbr._rcu_thread_offline q).1) = false ∧
  Qsbr.FutexWake ∈ (Qsbr._rcu_thread_offline q).2.
Proof.
  intros q. split; [done|].
  destruct (qsbr_reader_is_not_waited_for q)
    as (_ & _ & Hoff & _ & (_ & Hwake & _) & _).
  split; [apply Hoff|]. by apply Hwake.
Defined.

(** X26 on [one_slot_taken]: a thread on the first processor gets the
    worker of its slot; a thread whose processor number is out of range
    gets the default worker, created on the way, and the flag is set. *)
Lemma legacy_get_call_rcu_data_picks_by_priority_witness :
  Legacy.get_call_rcu_data (host:=quiet) (sched:=first_cpu) false
    one_slot_taken = Ret (Some 1%nat, false) one_slot_taken [] ∧
  ∃ s',
    Legacy.get_call_rcu_data (host:=quiet) (sched:=far_cpu) false
      one_slot_taken =
      Ret (Some 3%nat, true) s'
        [EvLock; EvListAdd 3%nat; EvMb; EvCreateThread 3%nat; EvUnlock].
Proof.
  split.
  - apply (proj1 (legacy_get_call_rcu_data_picks_by_priority (host:=quiet)
                    (bits:=flag_bits) (sched:=first_cpu) false one_slot_taken)
             1%nat [EvDerefArray true; EvDerefSlot 0 (Some 1%nat)]).
    by eapply (selects_cpu (host:=quiet) (sched:=first_cpu) one_slot_taken 1%nat).
  - eexists. vm_compute. reflexivity.
Defined.

(** X27 on [two_callbacks]. *)
Lemma legacy_call_rcu_enqueues_behind_the_queue_witness :
  ∃ s',
    Legacy.call_rcu (host:=quiet) (bits:=flag_bits) (sched:=first_cpu)
      false 3 13%nat two_callbacks =
      Ret false s'
        ([EvXchgTail 0%nat (NextOf (rcu_head_at 3)) (NextOf (rcu_head_at 2));
          EvStoreLink (NextOf (rcu_head_at 2)) (Some (rcu_head_at 3));
          EvAddQlen 0%nat 1] ++
         [EvReadFlags 0%nat 0; EvMb; EvReadFutex 0%nat (-1);
          EvSetFutex 0%nat 0; EvFutexWake 0%nat]) ∧
    queue_holds s' 0%nat
      ([dummy_of 0; rcu_head_at 1; rcu_head_at 2] ++ [rcu_head_at 3]) ∧
    node_func s' (rcu_head_at 3) = Some 13%nat ∧
    (∀ m, m ≠ rcu_head_at 3 → node_func s' m = node_func two_callbacks m) ∧
    q_len s' 0%nat = Some (wrap_ulong (2 + 1)) ∧
    same_registry two_callbacks s'.
Proof.
  apply (legacy_call_rcu_enqueues_behind_the_queue (host:=quiet)
           (bits:=flag_bits) (sched:=first_cpu) false 3 13%nat 0%nat
           two_callbacks_worker
           [dummy_of 0; rcu_head_at 1; rcu_head_at 2] [] two_callbacks).
  - by apply (selects_default_no_cpus (host:=quiet) (sched:=first_cpu)).
  - done.
  - reflexivity.
  - apply two_callbacks_queue.
  - compute_done.
  - intros Hin. elem_cases Hin.
Defined.

(** X28 on [two_callbacks] with [STOP] (4) set from the start, in the
    current variant: the thread reads its flags, registers, arms its
    gate, drains the records 1 and 2, reads [STOP], and leaves with
    [STOP] and [STOPPED] (8) set and [futex] at 0. *)
Lemma worker_asked_to_stop_drains_first_witness :
  ∃ s' c',
    Impl.call_rcu_thread (host:=freeing) (bits:=flag_bits) 1 3 0%nat
      (set_crds (fmap (with_flags 4)) two_callbacks) =
    Ret () s'
      ([EvReadFlags 0%nat 4]
       ++ [EvRegisterThread]
       ++ [EvDecFutex 0%nat; EvMb]
       ++ [EvReadFlags 0%nat 4]
       ++ [EvLoadTail 0%nat (NextOf (rcu_head_at 2));
           EvLoadHead 0%nat (Some (dummy_of 0));
           EvStoreHead 0%nat None;
           EvXchgTail 0%nat (HeadOf 0%nat) (NextOf (rcu_head_at 2));
           EvSynchronizeRcu]
       ++ [EvInvoke 11%nat (rcu_head_at 1); EvInvoke 12%nat (rcu_head_at 2)]
       ++ [EvSubQlen 0%nat (wrap_ulong 2); EvReadFlags 0%nat 4]
       ++ [EvMb; EvSetFutex 0%nat 0]
       ++ [EvOrFlags 0%nat 8]
       ++ [EvUnregisterThread]) ∧
    crds s' !! 0%nat = Some c' ∧
    flags c' = 12 ∧
    (false = false → futex c' = 0).
Proof.
  apply (worker_asked_to_stop_drains_first (host:=freeing) (bits:=flag_bits)
           true 0 3 0%nat (set_crds (fmap (with_flags 4)) two_callbacks)
           (with_flags 4 two_callbacks_worker)
           (dummy_of 0) [rcu_head_at 1; rcu_head_at 2] callback_of).
  - reflexivity.
  - by vm_compute.
  - reflexivity.
  - by vm_compute.
  - reflexivity.
  - intros f [w|a] s0; reflexivity.
  - eexists. split; [reflexivity|]. split; [reflexivity|]. cbn. auto.
  - compute_done.
  - intros m Hm Hd. elem_cases Hm; subst; done.
  - apply freeing_owns_batches.
  - cbn. lia.
Defined.
